(** * Trust-and-Taste: issuance orchestrator, order intents, locker redemption

    A shallow embedding of the three Node.js servers of the repository
    (MPT-Issuer/server.mjs, AI-order/server.js, Smart-Locker/server.js) and
    the properties of their payment-confirmation sagas.

    Part I holds the definitions, one module per server, translated from the
    JavaScript sources.  Part II holds the lemmas and the theorems. *)

From Stdlib Require Import ZArith String Ascii List Bool Lia.
From Stdlib Require Import Floats.SpecFloat.
From stdpp Require Import gmap strings pretty.

Local Open Scope string_scope.
Local Open Scope Z_scope.

(* ===================================================================== *)
(** * Part I: definitions *)
(* ===================================================================== *)

(** ** JavaScript values used by the three servers *)

Module JS.

(** Truthiness of a string-or-null/undefined value: [""], [null] and
    [undefined] are falsy. *)
Definition truthy (v : option string) : bool :=
  match v with
  | Some s => negb (String.eqb s "")
  | None => false
  end.

(** [a || b] on string-or-null values. *)
Definition or_else (a b : option string) : option string :=
  if truthy a then a else b.

(** [a ?? b]: only [null]/[undefined] fall through. *)
Definition nullish {A} (a b : option A) : option A :=
  match a with Some _ => a | None => b end.

(** [(s || "")] as a string. *)
Definition str_or_empty (v : option string) : string :=
  match v with Some s => s | None => "" end.

(** Truthiness of a number-or-undefined value held as an integer. *)
Definition truthyZ (v : option Z) : bool :=
  match v with
  | Some z => negb (z =? 0)
  | None => false
  end.

(** Characters, over the byte strings of the model. *)
Definition is_space (c : ascii) : bool :=
  let n := nat_of_ascii c in
  ((9 <=? n)%nat && (n <=? 13)%nat) || (n =? 32)%nat.

Definition upper_char (c : ascii) : ascii :=
  let n := nat_of_ascii c in
  if ((97 <=? n)%nat && (n <=? 122)%nat) then ascii_of_nat (n - 32) else c.

Definition lower_char (c : ascii) : ascii :=
  let n := nat_of_ascii c in
  if ((65 <=? n)%nat && (n <=? 90)%nat) then ascii_of_nat (n + 32) else c.

Fixpoint map_string (f : ascii -> ascii) (s : string) : string :=
  match s with
  | EmptyString => EmptyString
  | String c r => String (f c) (map_string f r)
  end.

Definition toUpperCase : string -> string := map_string upper_char.
Definition toLowerCase : string -> string := map_string lower_char.

Fixpoint trim_start (s : string) : string :=
  match s with
  | String c r => if is_space c then trim_start r else s
  | EmptyString => EmptyString
  end.

Fixpoint trim_end (s : string) : string :=
  match s with
  | EmptyString => EmptyString
  | String c r =>
      match trim_end r with
      | EmptyString => if is_space c then EmptyString else String c EmptyString
      | r' => String c r'
      end
  end.

(** [s.trim()], for the ASCII white space of a byte string. *)
Definition trim (s : string) : string := trim_end (trim_start s).

Definition is_hex_char (c : ascii) : bool :=
  let n := nat_of_ascii c in
  ((48 <=? n)%nat && (n <=? 57)%nat)
  || ((65 <=? n)%nat && (n <=? 70)%nat)
  || ((97 <=? n)%nat && (n <=? 102)%nat).

Fixpoint all_chars (p : ascii -> bool) (s : string) : bool :=
  match s with
  | EmptyString => true
  | String c r => p c && all_chars p r
  end.

(** [/^[0-9A-Fa-f]{n}$/.test(s)] *)
Definition is_hexN (n : nat) (s : string) : bool :=
  (String.length s =? n)%nat && all_chars is_hex_char s.

End JS.

(** ** IEEE 754 binary64, the JavaScript Number type

    Numbers are [spec_float] values of the standard library's executable
    specification, at precision 53 and maximal exponent 1024; every
    operation rounds to nearest, ties to even, as ECMAScript requires. *)

Module Float64.

Abbreviation float := spec_float.

Definition prec : Z := 53.
Definition emax : Z := 1024.

Definition mul : float -> float -> float := SFmul prec emax.
Definition div : float -> float -> float := SFdiv prec emax.
Definition leb : float -> float -> bool := SFleb.
Definition ltb : float -> float -> bool := SFltb.

(** The Number value of an integer (rounded when it does not fit). *)
Definition ofZ (z : Z) : float := binary_normalize prec emax z 0 false.

(** The Number value of the rational [(-1)^neg * n / d], for [0 < d]. *)
Definition ofQ (neg : bool) (n d : Z) : float :=
  match n with
  | Z0 => S754_zero neg
  | Zpos _ =>
      let '(mz, ez, lz) := SFdiv_core_binary prec emax n 0 d 0 in
      binary_round_aux prec emax neg mz ez lz
  | Zneg _ => S754_nan
  end.

(** The Number value of [(-1)^neg * n * 10^e10]. *)
Definition ofDecimal (neg : bool) (n e10 : Z) : float :=
  if 0 <=? e10
  then binary_normalize prec emax (cond_Zopp neg (n * 10 ^ e10)) 0 neg
  else ofQ neg n (10 ^ (- e10)).

(** [Number.isFinite(x)] *)
Definition isFinite (x : float) : bool :=
  match x with
  | S754_zero _ | S754_finite _ _ _ => true
  | S754_infinity _ | S754_nan => false
  end.

(** [Math.floor(x)] *)
Definition Math_floor (x : float) : float :=
  match x with
  | S754_finite s m e =>
      if 0 <=? e then x
      else binary_normalize prec emax (Z.shiftr (cond_Zopp s (Zpos m)) (- e)) 0 s
  | _ => x
  end.

(** The integer a Number stands for, when it is a finite integer. *)
Definition toZ (x : float) : option Z :=
  match x with
  | S754_zero _ => Some 0
  | S754_finite s m e =>
      if 0 <=? e then Some (cond_Zopp s (Zpos m * 2 ^ e))
      else if Z.land (Zpos m) (Z.ones (- e)) =? 0
           then Some (cond_Zopp s (Z.shiftr (Zpos m) (- e)))
           else None
  | _ => None
  end.

(** *** [Number(string)]: StringToNumber of ECMAScript *)

Definition digit_of (c : ascii) : option Z :=
  let n := nat_of_ascii c in
  if ((48 <=? n)%nat && (n <=? 57)%nat) then Some (Z.of_nat (n - 48)) else None.

Definition hex_digit_of (c : ascii) : option Z :=
  let n := nat_of_ascii c in
  if ((48 <=? n)%nat && (n <=? 57)%nat) then Some (Z.of_nat (n - 48))
  else if ((65 <=? n)%nat && (n <=? 70)%nat) then Some (Z.of_nat (n - 55))
  else if ((97 <=? n)%nat && (n <=? 102)%nat) then Some (Z.of_nat (n - 87))
  else None.

(** Reads a run of digits in base [b]: the value accumulated, the number
    of digits read and the rest of the string. *)
Fixpoint take_digits (dig : ascii -> option Z) (b : Z) (s : string) (acc : Z) (n : Z)
  : Z * Z * string :=
  match s with
  | EmptyString => (acc, n, s)
  | String c r =>
      match dig c with
      | Some d => if d <? b then take_digits dig b r (b * acc + d) (n + 1) else (acc, n, s)
      | None => (acc, n, s)
      end
  end.

Definition take_sign (s : string) : bool * string :=
  match s with
  | String "-" r => (true, r)
  | String "+" r => (false, r)
  | _ => (false, s)
  end.

(** StrDecimalLiteral without the Infinity case: sign, significand and
    decimal exponent. *)
Definition parse_decimal (s : string) : option (bool * Z * Z) :=
  let '(neg, s1) := take_sign s in
  let '(ip, ni, s2) := take_digits digit_of 10 s1 0 0 in
  let '(fp, nf, s3) :=
    match s2 with
    | String "." r => take_digits digit_of 10 r ip 0
    | _ => (ip, 0, s2)
    end in
  if ni + nf =? 0 then None
  else
    match s3 with
    | EmptyString => Some (neg, fp, - nf)
    | String c r =>
        if (Ascii.eqb c "e" || Ascii.eqb c "E")%bool then
          let '(eneg, r1) := take_sign r in
          let '(ev, ne, r2) := take_digits digit_of 10 r1 0 0 in
          match r2 with
          | EmptyString =>
              if ne =? 0 then None else Some (neg, fp, cond_Zopp eneg ev - nf)
          | _ => None
          end
        else None
    end.

(** Non-decimal integer literals: [0x], [0o], [0b], unsigned. *)
Definition parse_radix (s : string) : option Z :=
  match s with
  | String "0" (String p r) =>
      let go (b : Z) :=
        let '(v, n, rest) := take_digits hex_digit_of b r 0 0 in
        match rest with
        | EmptyString => if n =? 0 then None else Some v
        | _ => None
        end in
      if (Ascii.eqb p "x" || Ascii.eqb p "X")%bool then go 16
      else if (Ascii.eqb p "o" || Ascii.eqb p "O")%bool then go 8
      else if (Ascii.eqb p "b" || Ascii.eqb p "B")%bool then go 2
      else None
  | _ => None
  end.

Definition Number_of_string (s : string) : float :=
  let t := JS.trim s in
  if String.eqb t "" then S754_zero false
  else if (String.eqb t "Infinity" || String.eqb t "+Infinity")%bool then S754_infinity false
  else if String.eqb t "-Infinity" then S754_infinity true
  else
    match parse_radix t with
    | Some v => ofZ v
    | None =>
        match parse_decimal t with
        | Some (neg, n, e10) => ofDecimal neg n e10
        | None => S754_nan
        end
    end.

(** [Number(v)] for a value that is a string or [undefined]. *)
Definition Number (v : option string) : float :=
  match v with
  | Some s => Number_of_string s
  | None => S754_nan
  end.

(** *** [String(number)]: Number::toString of ECMAScript, radix 10 *)

(** The exact value of a positive finite Number as a fraction. *)
Definition fraction_of (m : positive) (e : Z) : Z * Z :=
  if 0 <=? e then (Zpos m * 2 ^ e, 1) else (Zpos m, 2 ^ (- e)).

(** The [n] with [10^(n-1) <= num/den < 10^n]. *)
Definition decimal_exponent (num den : Z) : Z :=
  let est := ((Z.log2 num - Z.log2 den) * 30103) / 100000 in
  let below (n : Z) : bool :=       (* num/den < 10^n *)
    if 0 <=? n then num <? den * 10 ^ n else num * 10 ^ (- n) <? den in
  if below (est - 1) then est - 1
  else if below est then est
  else if below (est + 1) then est + 1
  else est + 2.

(** The digit strings [s] of [k] digits nearest to [num/den * 10^(k-n)],
    with the exponent each one goes with. *)
Definition digit_candidates (num den n k : Z) : list (Z * Z) :=
  let sh := k - n in
  let lo := if 0 <=? sh then (num * 10 ^ sh) / den else num / (den * 10 ^ (- sh)) in
  let norm (c : Z) := if c =? 10 ^ k then (10 ^ (k - 1), n + 1) else (c, n) in
  (* twice the distance of [c * 10^(n-k)] to [num/den], scaled by the
     common denominator, orders the two candidates *)
  let up_closer :=
    if 0 <=? sh
    then 2 * (num * 10 ^ sh) - (2 * lo + 1) * den
    else 2 * num - (2 * lo + 1) * (den * 10 ^ (- sh)) in
  if (0 <? up_closer) || ((up_closer =? 0) && Z.odd lo)
  then [norm (lo + 1); norm lo]
  else [norm lo; norm (lo + 1)].

Definition round_trips (x : float) (k : Z) (c : Z * Z) : bool :=
  let '(sd, n) := c in
  (10 ^ (k - 1) <=? sd) && SFeqb (ofDecimal false sd (n - k)) x.

(** The shortest digits: least [k], then the candidate nearest to [x]. *)
Fixpoint shortest_digits (fuel : nat) (x : float) (num den n k : Z) : Z * Z * Z :=
  match fuel with
  | O => (num / den, n, k)
  | S fuel' =>
      match List.filter (round_trips x k) (digit_candidates num den n k) with
      | (sd, n') :: _ => (sd, n', k)
      | [] => shortest_digits fuel' x num den n (k + 1)
      end
  end.

Definition zeros (n : Z) : string := String.concat "" (List.repeat "0" (Z.to_nat n)).

Definition format_digits (sd n k : Z) : string :=
  let ds : string := pretty sd in
  if (k <=? n) && (n <=? 21) then ds +:+ zeros (n - k)
  else if (0 <? n) && (n <=? 21)
       then String.substring 0 (Z.to_nat n) ds +:+ "." +:+
            String.substring (Z.to_nat n) (Z.to_nat (k - n)) ds
  else if (-6 <? n) && (n <=? 0) then "0." +:+ zeros (- n) +:+ ds
  else
    let ex := n - 1 in
    let es : string := (if 0 <=? ex then "+" else "-") +:+ pretty (Z.abs ex) in
    if k =? 1 then ds +:+ "e" +:+ es
    else String.substring 0 1 ds +:+ "." +:+
         String.substring 1 (Z.to_nat (k - 1)) ds +:+ "e" +:+ es.

Definition Number_toString (x : float) : string :=
  match x with
  | S754_nan => "NaN"
  | S754_zero _ => "0"
  | S754_infinity s => if s then "-Infinity" else "Infinity"
  | S754_finite s m e =>
      let '(num, den) := fraction_of m e in
      let '(sd, n, k) :=
        shortest_digits 17 (S754_finite false m e) num den (decimal_exponent num den) 1 in
      (if s then "-" else "") +:+ format_digits sd n k
  end.

End Float64.

(** ** Asynchronous handlers

    A request handler is a program over the server's state [St] that can
    read and write that state, read the clock, throw, await an external
    operation ([Call]: the ledger, the wallet-payload provider, a timer) and
    await a promise shared with other handlers ([Join]).  Node.js runs one
    handler at a time and switches only at an [await]: the code between two
    awaits is atomic on the shared state. *)

Module Async.

Inductive settled (E X : Type) : Type :=
| Fulfilled (x : X)
| Rejected (e : E).
Arguments Fulfilled {E X} x.
Arguments Rejected {E X} e.

Section Programs.
Variables (St Err : Type) (Ext : Type -> Type) (R : Type).

Inductive Prog (A : Type) : Type :=
| Ret (a : A)
| Throw (e : Err)
| GetS (k : St -> Prog A)
| PutS (s : St) (k : Prog A)
| Now (k : Z -> Prog A)
| Call {X : Type} (c : Ext X) (k : settled Err X -> Prog A)
| Join (p : nat) (k : settled Err R -> Prog A).

Arguments Ret {A} a.
Arguments Throw {A} e.
Arguments GetS {A} k.
Arguments PutS {A} s k.
Arguments Now {A} k.
Arguments Call {A X} c k.
Arguments Join {A} p k.

Fixpoint bind {A B} (p : Prog A) (f : A -> Prog B) : Prog B :=
  match p with
  | Ret a => f a
  | Throw e => Throw e
  | GetS k => GetS (fun s => bind (k s) f)
  | PutS s k => PutS s (bind k f)
  | Now k => Now (fun t => bind (k t) f)
  | Call c k => Call c (fun r => bind (k r) f)
  | Join p k => Join p (fun r => bind (k r) f)
  end.

(** [try { p } catch (e) { h e }] *)
Fixpoint try_catch {A} (p : Prog A) (h : Err -> Prog A) : Prog A :=
  match p with
  | Ret a => Ret a
  | Throw e => h e
  | GetS k => GetS (fun s => try_catch (k s) h)
  | PutS s k => PutS s (try_catch k h)
  | Now k => Now (fun t => try_catch (k t) h)
  | Call c k => Call c (fun r => try_catch (k r) h)
  | Join p k => Join p (fun r => try_catch (k r) h)
  end.

(** [try { p } finally { fin }] *)
Fixpoint try_finally {A} (p : Prog A) (fin : Prog unit) : Prog A :=
  match p with
  | Ret a => bind fin (fun _ => Ret a)
  | Throw e => bind fin (fun _ => Throw e)
  | GetS k => GetS (fun s => try_finally (k s) fin)
  | PutS s k => PutS s (try_finally k fin)
  | Now k => Now (fun t => try_finally (k t) fin)
  | Call c k => Call c (fun r => try_finally (k r) fin)
  | Join p k => Join p (fun r => try_finally (k r) fin)
  end.

Definition settle {X} (r : settled Err X) : Prog X :=
  match r with
  | Fulfilled x => Ret x
  | Rejected e => Throw e
  end.

(** [await c]: a rejection is thrown at the await. *)
Definition await {X} (c : Ext X) : Prog X := Call c settle.

(** [await promise] *)
Definition join (p : nat) : Prog R := Join p settle.

Definition get : Prog St := GetS Ret.
Definition put (s : St) : Prog unit := PutS s (Ret tt).
Definition modify (f : St -> St) : Prog unit := GetS (fun s => PutS (f s) (Ret tt)).
Definition now : Prog Z := Now Ret.

(** *** One handler alone, against a world

    The world answers every external operation, knowing the operations
    answered so far, and tells the time. *)

Inductive Event : Type :=
| Ev {X : Type} (c : Ext X) (r : settled Err X).

Record World : Type := {
  answer : forall X, Ext X -> list Event -> settled Err X;
  clock : list Event -> Z
}.

Inductive Outcome (A : Type) : Type :=
| Returned (a : A)
| Thrown (e : Err)
| Waiting (p : nat).
Arguments Returned {A} a.
Arguments Thrown {A} e.
Arguments Waiting {A} p.

(** What a promise has settled to, if it has: the promises live in the
    server state. *)
Variable promise_of : St -> nat -> option (settled Err R).

Fixpoint exec {A} (w : World) (p : Prog A) (h : list Event) (s : St)
  : Outcome A * list Event * St :=
  match p with
  | Ret a => (Returned a, h, s)
  | Throw e => (Thrown e, h, s)
  | GetS k => exec w (k s) h s
  | PutS s' k => exec w k h s'
  | Now k => exec w (k (clock w h)) h s
  | Call c k => let r := answer w _ c h in exec w (k r) (h ++ [Ev c r]) s
  | Join p k =>
      match promise_of s p with
      | Some r => exec w (k r) h s
      | None => (Waiting p, h, s)
      end
  end.

(** *** Many handlers, interleaved at their awaits *)

Inductive Blocked (A : Type) : Type :=
| BCall {X : Type} (c : Ext X) (k : settled Err X -> Prog A)
| BJoin (p : nat) (k : settled Err R -> Prog A).
Arguments BCall {A X} c k.
Arguments BJoin {A} p k.

Inductive Status (A : Type) : Type :=
| SDone (r : settled Err A)
| SBlocked (b : Blocked A).
Arguments SDone {A} r.
Arguments SBlocked {A} b.

(** Runs a handler up to its next await, at time [t]. *)
Fixpoint advance {A} (t : Z) (p : Prog A) (s : St) : Status A * St :=
  match p with
  | Ret a => (SDone (Fulfilled a), s)
  | Throw e => (SDone (Rejected e), s)
  | GetS k => advance t (k s) s
  | PutS s' k => advance t k s'
  | Now k => advance t (k t) s
  | Call c k => (SBlocked (BCall c k), s)
  | Join p k =>
      match promise_of s p with
      | Some r => advance t (k r) s
      | None => (SBlocked (BJoin p k), s)
      end
  end.

Inductive Issued : Type :=
| Iss {X : Type} (c : Ext X).

(** The server between two turns of the event loop: the state, the
    handlers suspended at an await (oldest first), the replies sent and
    the external operations started so far. *)
Record Pool (H : Type) : Type := {
  shared : St;
  tasks : list (nat * Blocked H);
  replies : list (nat * settled Err H);
  started : list Issued;
  next_id : nat
}.
Arguments shared {H} _.
Arguments tasks {H} _.
Arguments replies {H} _.
Arguments started {H} _.
Arguments next_id {H} _.
Arguments Build_Pool {H} _ _ _ _ _.

Definition issued_of {H} (b : Blocked H) : list Issued :=
  match b with
  | BCall c _ => [Iss c]
  | BJoin _ _ => []
  end.

(** Files the status a handler reached: a reply, or a suspended task. *)
Definition file {H} (id : nat) (st : Status H * St) (pl : Pool H) : Pool H :=
  match st with
  | (SDone r, s) =>
      Build_Pool s (tasks pl) (replies pl ++ [(id, r)]) (started pl) (next_id pl)
  | (SBlocked b, s) =>
      Build_Pool s (tasks pl ++ [(id, b)]) (replies pl)
                 (started pl ++ issued_of b) (next_id pl)
  end.

(** The first task waiting on a promise that has settled. *)
Fixpoint find_ready {H} (s : St) (ts : list (nat * Blocked H))
  : option (nat * Prog H * list (nat * Blocked H)) :=
  match ts with
  | [] => None
  | (id, BJoin p k) :: rest =>
      match promise_of s p with
      | Some r => Some (id, k r, rest)
      | None =>
          match find_ready s rest with
          | Some (id', q, rest') => Some (id', q, (id, BJoin p k) :: rest')
          | None => None
          end
      end
  | t :: rest =>
      match find_ready s rest with
      | Some (id', q, rest') => Some (id', q, t :: rest')
      | None => None
      end
  end.

(** Resumes the tasks whose promise has settled, oldest first, until
    none is left ([fuel] bounds the number of resumptions). *)
Fixpoint wake {H} (fuel : nat) (t : Z) (pl : Pool H) : Pool H :=
  match fuel with
  | O => pl
  | S fuel' =>
      match find_ready (shared pl) (tasks pl) with
      | Some (id, q, rest) =>
          wake fuel' t
            (file id (advance t q (shared pl))
               (Build_Pool (shared pl) rest (replies pl) (started pl) (next_id pl)))
      | None => pl
      end
  end.

(** A request arrives at time [t]. *)
Definition arrive {H} (t : Z) (h : Prog H) (pl : Pool H) : Pool H :=
  let pl' := file (next_id pl) (advance t h (shared pl))
               (Build_Pool (shared pl) (tasks pl) (replies pl) (started pl)
                  (Datatypes.S (next_id pl))) in
  wake (Datatypes.S (length (tasks pl'))) t pl'.

Fixpoint take_task {H} (id : nat) (ts : list (nat * Blocked H))
  : option (Blocked H * list (nat * Blocked H)) :=
  match ts with
  | [] => None
  | (id', b) :: rest =>
      if Nat.eqb id id' then Some (b, rest)
      else match take_task id rest with
           | Some (b', rest') => Some (b', (id', b) :: rest')
           | None => None
           end
  end.

(** The external operation task [id] awaits settles at time [t], to
    what [ans] says; nothing happens if [id] awaits no operation. *)
Definition resolve {H} (t : Z) (id : nat)
    (ans : forall X, Ext X -> settled Err X) (pl : Pool H) : Pool H :=
  match take_task id (tasks pl) with
  | Some (BCall c k, rest) =>
      let pl' := file id (advance t (k (ans _ c)) (shared pl))
                   (Build_Pool (shared pl) rest (replies pl) (started pl) (next_id pl)) in
      wake (Datatypes.S (length (tasks pl'))) t pl'
  | _ => pl
  end.

(** The oldest task suspended at an external operation. *)
Fixpoint first_call {H} (ts : list (nat * Blocked H)) : option nat :=
  match ts with
  | [] => None
  | (id, BCall _ _) :: _ => Some id
  | _ :: rest => first_call rest
  end.

(** The pending external operations settle one after the other, oldest
    first, at the times [ts]. *)
Fixpoint drain {H} (ts : list Z) (ans : forall X, Ext X -> settled Err X)
    (pl : Pool H) : Pool H :=
  match ts with
  | [] => pl
  | t :: ts' =>
      match first_call (tasks pl) with
      | Some id => drain ts' ans (resolve t id ans pl)
      | None => pl
      end
  end.

(** A postcondition on the run of a handler alone in a world: on its
    outcome, the history it leaves and the state it leaves. *)
Definition after {A} (w : World) (p : Prog A) (h : list Event) (s : St)
    (Q : Outcome A -> list Event -> St -> Prop) : Prop :=
  Q (fst (fst (exec w p h s))) (snd (fst (exec w p h s))) (snd (exec w p h s)).

End Programs.

Arguments Ret {St Err Ext R A} a.
Arguments Throw {St Err Ext R A} e.
Arguments GetS {St Err Ext R A} k.
Arguments PutS {St Err Ext R A} s k.
Arguments Now {St Err Ext R A} k.
Arguments Call {St Err Ext R A X} c k.
Arguments Join {St Err Ext R A} p k.
Arguments bind {St Err Ext R A B} p f.
Arguments try_catch {St Err Ext R A} p h.
Arguments try_finally {St Err Ext R A} p fin.
Arguments settle {St Err Ext R X} r.
Arguments await {St Err Ext R X} c.
Arguments join {St Err Ext R} p.
Arguments get {St Err Ext R}.
Arguments put {St Err Ext R} s.
Arguments modify {St Err Ext R} f.
Arguments now {St Err Ext R}.
Arguments Ev {Err Ext X} c r.
Arguments answer {Err Ext} w X c h : rename.
Arguments clock {Err Ext} w h : rename.
Arguments Build_World {Err Ext} _ _.
Arguments Returned {Err A} a.
Arguments Thrown {Err A} e.
Arguments Waiting {Err A} p.
Arguments exec {St Err Ext R} promise_of {A} w p h s.
Arguments BCall {St Err Ext R A X} c k.
Arguments BJoin {St Err Ext R A} p k.
Arguments SDone {St Err Ext R A} r.
Arguments SBlocked {St Err Ext R A} b.
Arguments advance {St Err Ext R} promise_of {A} t p s.
Arguments Iss {Ext X} c.
Arguments shared {St Err Ext R H} _.
Arguments tasks {St Err Ext R H} _.
Arguments replies {St Err Ext R H} _.
Arguments started {St Err Ext R H} _.
Arguments next_id {St Err Ext R H} _.
Arguments Build_Pool {St Err Ext R H} _ _ _ _ _.
Arguments arrive {St Err Ext R} promise_of {H} t h pl.
Arguments resolve {St Err Ext R} promise_of {H} t id ans pl.
Arguments first_call {St Err Ext R H} ts.
Arguments drain {St Err Ext R} promise_of {H} ts ans pl.
Arguments after {St Err Ext R} promise_of {A} w p h s Q.

Declare Scope prog_scope.
Delimit Scope prog_scope with prog.
Notation "x <- p ;; q" := (bind p (fun x => q))
  (at level 100, p at next level, right associativity) : prog_scope.
Notation "p ;;; q" := (bind p (fun _ => q))
  (at level 100, right associativity) : prog_scope.

End Async.

(** ** MPT-Issuer/server.mjs *)

Module MptIssuer.
Import JS Float64 Async.

(** *** SQLite: the [kv] table, the payload table and the audit tables *)

Record PayloadRow : Type := {
  row_identifier : option string;
  row_created_at : Z;
  row_resolved_at : option Z;
  row_signed : option bool;
  row_cancelled : option bool;
  row_expired : option bool;
  row_txid : option string
}.

Record AuthorizationRow : Type := {
  auth_holder : string;
  auth_issuance_id : string;
  auth_txid : string;
  auth_source : string;
  auth_created_at : Z
}.

Record TransferRow : Type := {
  tr_issuer : string;
  tr_destination : string;
  tr_issuance_id : string;
  tr_value : string;
  tr_txid : string;
  tr_source : string;
  tr_created_at : Z
}.

Record ClawbackRow : Type := {
  cb_issuer : string;
  cb_holder : string;
  cb_issuance_id : string;
  cb_value : option string;
  cb_txid : string;
  cb_source : string;
  cb_created_at : Z
}.

Record LockRow : Type := {
  lk_holder : string;
  lk_issuance_id : string;
  lk_locked : bool;
  lk_txid : string;
  lk_source : string;
  lk_created_at : Z;
  lk_updated_at : Z
}.

Record Db : Type := {
  kv : gmap string string;
  xumm_payloads : gmap string PayloadRow;
  authorizations : list AuthorizationRow;
  transfers : list TransferRow;
  clawbacks : list ClawbackRow;
  account_locks : list LockRow
}.

Definition with_kv (f : gmap string string -> gmap string string) (d : Db) : Db :=
  {| kv := f (kv d); xumm_payloads := xumm_payloads d;
     authorizations := authorizations d; transfers := transfers d;
     clawbacks := clawbacks d; account_locks := account_locks d |}.

(** *** What the ledger and the wallet-payload provider send back *)

(** A thrown [Error]: message, [e.status], [e.detail]. *)
Record Error : Type := {
  message : string;
  status : option Z;
  detail : option string
}.

(** [xumm.payload.get(uuid)], as far as the handler reads it. *)
Record XummPayload : Type := {
  meta_resolved : bool;
  meta_signed : bool;
  meta_cancelled : bool;
  meta_expired : bool;
  response_txid : option string
}.

(** An amount of a transaction: a drops string, an issued-currency
    object, or anything else. *)
Inductive Amount : Type :=
| AmtString (drops : string)
| AmtObject (currency : option string) (value : option string)
| AmtOther.

Record TxFields : Type := {
  Account : option string;
  DeliverMax : option Amount;
  SendMax : option Amount;
  Amount_ : option Amount
}.

Record TxMeta : Type := {
  delivered_amount : option Amount;
  DeliveredAmount : option Amount
}.

(** The result of the [tx] command: the fields at the top level, and
    under [tx_json] when the server nests them. *)
Record LedgerTx : Type := {
  validated : bool;
  tx_json : option TxFields;
  top : TxFields;
  meta : option TxMeta
}.

(** The MPTokenIssuance ledger entry. *)
Record LedgerNode : Type := {
  Issuer : option string;
  Flags : option Z
}.

Record MPTokenObject : Type := {
  MPTokenIssuanceID : option string
}.

(** The transactions the issuer signs. *)
Inductive TxJson : Type :=
| MPTokenAuthorize (issuanceId holder : string) (flags : Z)
| PaymentMPT (destination issuanceId value : string)
| ClawbackMPT (holder issuanceId value : string)
| MPTokenIssuanceSet (issuanceId holder : string) (flags : Z).

(** What [client.autofill] adds. *)
Record Fill : Type := {
  Sequence : Z;
  Fee : string;
  LastLedgerSequence : Z
}.

(** [client.submitAndWait(...)], as far as [submitAsIssuer] reads it. *)
Record SubmitResponse : Type := {
  res_validated : bool;
  res_hash : option string;
  res_TransactionResult : option string;
  res_transaction_result : option string
}.

(** The awaited operations. *)
Inductive Ext : Type -> Type :=
| XummPayloadGet (uuid : string) : Ext (option XummPayload)
| GetXRPL : Ext unit
| RequestTx (txid : string) : Ext (option LedgerTx)
| Sleep (ms : Z) : Ext unit
| RequestLedgerEntry (index : string) : Ext (option LedgerNode)
| RequestAccountObjects (account : string) : Ext (list MPTokenObject)
| Autofill (account : string) (tx : TxJson) : Ext Fill
| SubmitAndWait (account : string) (tx : TxJson) (fill : Fill) : Ext SubmitResponse.

Abbreviation M := (Prog Db Error Ext unit).

Local Open Scope prog_scope.

Definition no_promise (d : Db) (p : nat) : option (settled Error unit) := None.

(** *** kv helpers *)

Definition kvGet (k : string) : M (option string) :=
  d <- get ;; Ret (kv d !! k).

Definition kvSet (k v : string) : M unit :=
  modify (with_kv (<[k := v]>)).

Definition kvGetBool (k : string) (defaultValue : bool) : M bool :=
  v <- kvGet k ;;
  match v with
  | None => Ret defaultValue
  | Some v => Ret (String.eqb v "1" || String.eqb v "true" || String.eqb v "TRUE")
  end.

Definition isBlacklisted (account : string) : M bool :=
  kvGetBool ("BLACKLIST_" +:+ account) false.

Definition isAutoLockEnabled : M bool := kvGetBool "POLICY_AUTO_LOCK_AFTER_SWAP" false.
Definition isAutoUnlockEnabled : M bool := kvGetBool "POLICY_AUTO_UNLOCK_AFTER_SWAP" false.
Definition isAutoClawbackEnabled : M bool := kvGetBool "POLICY_AUTO_CLAWBACK_BLACKLIST" false.

(** [String(v)] of a txid-or-null. *)
Definition String_of (v : option string) : string :=
  match v with Some s => s | None => "null" end.

(** *** Audit inserts: nothing without a txid, nothing on a duplicate
    txid (the UNIQUE error is swallowed) *)

Definition tryInsertAuthorization (holder issuanceId48 : string) (txid : option string)
    (source : string) : M unit :=
  if negb (truthy txid) then Ret tt
  else
    t <- now ;;
    modify (fun d =>
      if existsb (fun r => String.eqb (auth_txid r) (str_or_empty txid)) (authorizations d)
      then d
      else {| kv := kv d; xumm_payloads := xumm_payloads d;
              authorizations := authorizations d ++
                [{| auth_holder := holder; auth_issuance_id := issuanceId48;
                    auth_txid := str_or_empty txid; auth_source := source;
                    auth_created_at := t |}];
              transfers := transfers d; clawbacks := clawbacks d;
              account_locks := account_locks d |}).

Definition tryInsertTransfer (issuer destination issuanceId48 value : string)
    (txid : option string) (source : string) : M unit :=
  if negb (truthy txid) then Ret tt
  else
    t <- now ;;
    modify (fun d =>
      if existsb (fun r => String.eqb (tr_txid r) (str_or_empty txid)) (transfers d)
      then d
      else {| kv := kv d; xumm_payloads := xumm_payloads d;
              authorizations := authorizations d;
              transfers := transfers d ++
                [{| tr_issuer := issuer; tr_destination := destination;
                    tr_issuance_id := issuanceId48; tr_value := value;
                    tr_txid := str_or_empty txid; tr_source := source;
                    tr_created_at := t |}];
              clawbacks := clawbacks d; account_locks := account_locks d |}).

Definition tryInsertClawback (issuer holder issuanceId48 : string) (value : option string)
    (txid : option string) (source : string) : M unit :=
  if negb (truthy txid) then Ret tt
  else
    t <- now ;;
    modify (fun d =>
      if existsb (fun r => String.eqb (cb_txid r) (str_or_empty txid)) (clawbacks d)
      then d
      else {| kv := kv d; xumm_payloads := xumm_payloads d;
              authorizations := authorizations d; transfers := transfers d;
              clawbacks := clawbacks d ++
                [{| cb_issuer := issuer; cb_holder := holder;
                    cb_issuance_id := issuanceId48; cb_value := value;
                    cb_txid := str_or_empty txid; cb_source := source;
                    cb_created_at := t |}];
              account_locks := account_locks d |}).

Definition tryInsertLockAction (holder issuanceId48 : string) (locked : bool)
    (txid : option string) (source : string) : M unit :=
  if negb (truthy txid) then Ret tt
  else
    t <- now ;;
    modify (fun d =>
      if existsb (fun r => String.eqb (lk_txid r) (str_or_empty txid)) (account_locks d)
      then d
      else {| kv := kv d; xumm_payloads := xumm_payloads d;
              authorizations := authorizations d; transfers := transfers d;
              clawbacks := clawbacks d;
              account_locks := account_locks d ++
                [{| lk_holder := holder; lk_issuance_id := issuanceId48;
                    lk_locked := locked; lk_txid := str_or_empty txid;
                    lk_source := source; lk_created_at := t; lk_updated_at := t |}] |}).

(** *** [calcMptToSendFromPayment] *)

Definition txj_of (validatedTx : LedgerTx) : TxFields :=
  match tx_json validatedTx with
  | Some j => j
  | None => top validatedTx
  end.

(** The amount the payment is read from: [meta.delivered_amount], else
    [meta.DeliveredAmount], else [DeliverMax ?? SendMax ?? Amount]. *)
Definition paid_of (validatedTx : LedgerTx) : option Amount :=
  let txj := txj_of validatedTx in
  let paid := match meta validatedTx with
              | Some m => nullish (delivered_amount m) (DeliveredAmount m)
              | None => None
              end in
  nullish paid (nullish (DeliverMax txj) (nullish (SendMax txj) (Amount_ txj))).

Definition calcMptToSendFromPayment (validatedTx : LedgerTx) : float :=
  match paid_of validatedTx with
  | Some (AmtString paid) =>
      (* XRP drops *)
      let drops := Number_of_string paid in
      if negb (isFinite drops) || leb drops (ofZ 0) then ofZ 0
      else
        let xrp := div drops (ofZ 1000000) in
        Math_floor (mul xrp (ofZ 2))            (* 1 XRP = 2 MPT *)
  | Some (AmtObject currency value) =>
      (* IOU (RLUSD) *)
      let cur := toUpperCase (str_or_empty currency) in
      let v := Number value in
      if negb (isFinite v) || leb v (ofZ 0) then ofZ 0
      else if String.eqb cur "RLUSD" then Math_floor (mul v (ofZ 100))   (* 1 RLUSD = 100 MPT *)
      else ofZ 0
  | _ => ofZ 0
  end.

(** *** Validators *)

Definition plain_error (msg : string) : Error :=
  {| message := msg; status := None; detail := None |}.

Definition mustHexN (name : string) (v : option string) (n : nat) : M string :=
  let raw := str_or_empty v in
  let trimmed := trim raw in
  if negb (is_hexN n trimmed)
  then Throw {| message := name +:+ "_INVALID_" +:+ pretty (Z.of_nat n) +:+ "HEX";
                status := Some 400; detail := Some name |}
  else Ret (toUpperCase trimmed).

Definition must48hex (name : string) (v : option string) : M string := mustHexN name v 48.
Definition must64hex (name : string) (v : option string) : M string := mustHexN name v 64.

(** *** The active issuance on the ledger *)

Definition getActiveIssuanceLedgerNode : M (option LedgerNode) :=
  idx <- kvGet "KFD_ISSUANCE_INDEX" ;;
  if negb (truthy idx) then Ret None
  else
    issuanceIndex <- must64hex "issuanceIndex" idx ;;
    await GetXRPL ;;;
    await (RequestLedgerEntry issuanceIndex).

Section Server.
(** [issuerWallet.classicAddress], fixed when the server starts. *)
Variable issuerAddress : string.

Definition assertActiveIssuanceBelongsToServerIssuer : M LedgerNode :=
  node <- getActiveIssuanceLedgerNode ;;
  match node with
  | None =>
      Throw {| message := "ISSUANCE_INDEX_NOT_SET_OR_NOT_FOUND"; status := Some 400;
               detail := Some "issuanceIndex" |}
  | Some node =>
      if negb (truthy (Issuer node)) || negb (String.eqb (str_or_empty (Issuer node)) issuerAddress)
      then Throw {| message := "ISSUANCE_ISSUER_MISMATCH"; status := Some 400;
                    detail := Some "issuer" |}
      else Ret node
  end.

(** The MPToken entries of the holder, read from the validated ledger. *)
Definition holderHasMPTokenEntry (holder issuanceId48 : string) : M bool :=
  await GetXRPL ;;;
  objs <- await (RequestAccountObjects holder) ;;
  Ret (existsb (fun o => String.eqb (toUpperCase (str_or_empty (MPTokenIssuanceID o)))
                                    issuanceId48) objs).

Record IssuanceFlags : Type := {
  flags : Z;
  tfMPTCanLock : bool;
  tfMPTRequireAuth : bool;
  tfMPTCanClawback : bool
}.

Definition getActiveIssuanceFlags : M (option IssuanceFlags) :=
  node <- getActiveIssuanceLedgerNode ;;
  match node with
  | None => Ret None
  | Some node =>
      let flags := match Flags node with Some f => f | None => 0 end in
      Ret (Some {| flags := flags;
                   tfMPTCanLock := negb (Z.land flags 2 =? 0);
                   tfMPTRequireAuth := negb (Z.land flags 4 =? 0);
                   tfMPTCanClawback := negb (Z.land flags 64 =? 0) |})
  end.

(** *** Submitting as the issuer *)

Record SubmitResult : Type := {
  ok : bool;
  txid : option string;
  engineResult : option string;
  result : SubmitResponse
}.

Definition submitAsIssuer (txjson : TxJson) : M SubmitResult :=
  await GetXRPL ;;;
  prepared <- await (Autofill issuerAddress txjson) ;;
  result <- await (SubmitAndWait issuerAddress txjson prepared) ;;
  let tr := or_else (res_TransactionResult result) (res_transaction_result result) in
  let ok := res_validated result &&
            match tr with Some t => String.eqb t "tesSUCCESS" | None => false end in
  Ret {| ok := ok; txid := or_else (res_hash result) None; engineResult := tr;
         result := result |}.

Fixpoint waitTxValidated_loop (txid : string) (tries : nat) (delay : Z)
  : M (option LedgerTx) :=
  match tries with
  | O => Ret None
  | S tries' =>
      r <- try_catch (await (RequestTx txid)) (fun _ => Ret None) ;;
      match r with
      | Some tx =>
          if validated tx then Ret (Some tx)
          else await (Sleep delay) ;;; waitTxValidated_loop txid tries' delay
      | None => await (Sleep delay) ;;; waitTxValidated_loop txid tries' delay
      end
  end.

Definition waitTxValidated (txid : string) : M (option LedgerTx) :=
  await GetXRPL ;;;
  waitTxValidated_loop txid 20 1200.

(** *** Core issuer actions *)

Definition getActiveIssuanceId48OrThrow (inputMaybe48 : option string) : M string :=
  stored <- kvGet "KFD_ISSUANCE_ID" ;;
  let id := or_else inputMaybe48 stored in
  if negb (truthy id)
  then Throw {| message := "MISSING_KFD_ISSUANCE_ID"; status := Some 400;
                detail := Some "note" |}
  else
    let trimmed := trim (String_of id) in
    if is_hexN 64 trimmed
    then Throw {| message := "ISSUANCE_ID_SHOULD_BE_48HEX_NOT_64HEX"; status := Some 400;
                  detail := Some "gotLength" |}
    else must48hex "issuanceId" id.

Definition issuerAuthorizeHolder (issuanceId48 holder : string) : M SubmitResult :=
  assertActiveIssuanceBelongsToServerIssuer ;;;
  submitAsIssuer (MPTokenAuthorize issuanceId48 holder 0).

Definition issuerSendMPT (issuanceId48 destination value : string) : M SubmitResult :=
  assertActiveIssuanceBelongsToServerIssuer ;;;
  submitAsIssuer (PaymentMPT destination issuanceId48 value).

Definition issuerClawbackMPT (issuanceId48 holder value : string) : M SubmitResult :=
  assertActiveIssuanceBelongsToServerIssuer ;;;
  submitAsIssuer (ClawbackMPT holder issuanceId48 value).

Definition issuerLockHolder (issuanceId48 holder : string) : M SubmitResult :=
  assertActiveIssuanceBelongsToServerIssuer ;;;
  submitAsIssuer (MPTokenIssuanceSet issuanceId48 holder 1).    (* tfMPTLock *)

Definition issuerUnlockHolder (issuanceId48 holder : string) : M SubmitResult :=
  assertActiveIssuanceBelongsToServerIssuer ;;;
  submitAsIssuer (MPTokenIssuanceSet issuanceId48 holder 2).    (* tfMPTUnlock *)

(** *** The poll handler's reply: [auto], [policy], [actions] *)

Record Policy : Type := {
  autoLockAfterSwap : bool;
  autoUnlockAfterSwap : bool;
  autoClawbackBlacklist : bool;
  blacklisted : bool
}.

(** One entry of [actions]; an absent boolean field reads as [false],
    an absent or null field of another kind as [None]. *)
Record Action : Type := {
  act_ok : bool;
  act_already : bool;
  act_skipped : bool;
  act_reason : option string;
  act_txid : option string;
  act_value : option string;
  act_error : option string;
  act_detail : option SubmitResponse
}.

(** [{ ok: true, txid, value }] *)
Definition act_done (txid value : option string) : Action :=
  {| act_ok := true; act_already := false; act_skipped := false; act_reason := None;
     act_txid := txid; act_value := value; act_error := None; act_detail := None |}.

(** [{ ok: true, already: true, txid, value }] *)
Definition act_done_already (txid value : option string) : Action :=
  {| act_ok := true; act_already := true; act_skipped := false; act_reason := None;
     act_txid := txid; act_value := value; act_error := None; act_detail := None |}.

(** [{ ok, skipped: true, reason }] *)
Definition act_skip (ok : bool) (reason : string) : Action :=
  {| act_ok := ok; act_already := false; act_skipped := true; act_reason := Some reason;
     act_txid := None; act_value := None; act_error := None; act_detail := None |}.

(** [{ ok: false, error, detail }] *)
Definition act_failed (error : string) (detail : SubmitResponse) : Action :=
  {| act_ok := false; act_already := false; act_skipped := false; act_reason := None;
     act_txid := None; act_value := None; act_error := Some error;
     act_detail := Some detail |}.

Record Actions : Type := {
  authorize : option Action;
  issue : option Action;
  clawback : option Action;
  lock : option Action;
  unlock : option Action
}.

Definition no_actions : Actions :=
  {| authorize := None; issue := None; clawback := None; lock := None; unlock := None |}.

Definition set_authorize (a : Action) (acts : Actions) : Actions :=
  {| authorize := Some a; issue := issue acts; clawback := clawback acts;
     lock := lock acts; unlock := unlock acts |}.
Definition set_issue (a : Action) (acts : Actions) : Actions :=
  {| authorize := authorize acts; issue := Some a; clawback := clawback acts;
     lock := lock acts; unlock := unlock acts |}.
Definition set_clawback (a : Action) (acts : Actions) : Actions :=
  {| authorize := authorize acts; issue := issue acts; clawback := Some a;
     lock := lock acts; unlock := unlock acts |}.
Definition set_lock (a : Action) (acts : Actions) : Actions :=
  {| authorize := authorize acts; issue := issue acts; clawback := clawback acts;
     lock := Some a; unlock := unlock acts |}.
Definition set_unlock (a : Action) (acts : Actions) : Actions :=
  {| authorize := authorize acts; issue := issue acts; clawback := clawback acts;
     lock := lock acts; unlock := Some a |}.

Record Debug : Type := {
  dbg_delivered_amount : option Amount;
  dbg_DeliveredAmount : option Amount;
  dbg_DeliverMax : option Amount;
  dbg_SendMax : option Amount;
  dbg_Amount : option Amount
}.

Record Auto : Type := {
  auto_ok : bool;
  auto_stage : option string;
  auto_error : option string;
  auto_detail : option SubmitResponse;
  auto_error_detail : option string;
  auto_payer : option string;
  auto_issuedTxid : option string;
  auto_mptToSend : option string;
  auto_policy : option Policy;
  auto_actions : option Actions;
  auto_debug : option Debug
}.

(** [{ ok: false, stage, error, ... }] *)
Definition auto_failed (stage error : string) (detail : option SubmitResponse)
    (payer : option string) (policy : option Policy) (actions : option Actions)
    (debug : option Debug) : Auto :=
  {| auto_ok := false; auto_stage := Some stage; auto_error := Some error;
     auto_detail := detail; auto_error_detail := None; auto_payer := payer;
     auto_issuedTxid := None; auto_mptToSend := None; auto_policy := policy;
     auto_actions := actions; auto_debug := debug |}.

Record PollResponse : Type := {
  poll_uuid : string;
  poll_resolved : bool;
  poll_signed : bool;
  poll_cancelled : bool;
  poll_expired : bool;
  poll_txid : option string;
  poll_validatedTx : option LedgerTx;
  poll_auto : option Auto
}.

Inductive Reply (B : Type) : Type :=
| Json (body : B)                          (* res.json(body) *)
| Failure (code : Z) (error : string).     (* res.status(code).json({ error }) *)
Arguments Json {B} body.
Arguments Failure {B} code error.

(** [String(mptToSend)], [mptToSend] being a number or still [null]. *)
Definition String_num (m : option float) : string :=
  match m with Some x => Number_toString x | None => "null" end.

(** [actions.clawback?.ok === true && !actions.clawback?.skipped] *)
Definition clawback_succeeded (acts : Actions) : bool :=
  match clawback acts with
  | Some a => act_ok a && negb (act_skipped a)
  | None => false
  end.

(** [UPDATE xumm_payloads SET ... WHERE uuid = ?] *)
Definition markPayload (uuid : string) (signed cancelled expired : bool)
    (txid : option string) : M unit :=
  t <- now ;;
  modify (fun d =>
    {| kv := kv d;
       xumm_payloads :=
         alter (fun r => {| row_identifier := row_identifier r;
                            row_created_at := row_created_at r;
                            row_resolved_at := Some t; row_signed := Some signed;
                            row_cancelled := Some cancelled; row_expired := Some expired;
                            row_txid := or_else txid None |}) uuid (xumm_payloads d);
       authorizations := authorizations d; transfers := transfers d;
       clawbacks := clawbacks d; account_locks := account_locks d |}).

(** *** The saga of [GET /api/payload/:uuid], stage by stage

    Every stage starts from the [auto] and [actions] the stages before
    it left, and does nothing once [auto] is set. *)

(** (A) RequireAuth: allow-list payer *)
Definition stage_authorize (uuid issuanceId48 payer : string) (flags : IssuanceFlags)
    (policy : Policy) (actions : Actions) : M (option Auto * Actions) :=
  if tfMPTRequireAuth flags then
    let authDoneKey := "SWAP_AUTH_DONE_" +:+ uuid in
    authAlready <- kvGet authDoneKey ;;
    if truthy authAlready then
      Ret (None, set_authorize (act_done_already authAlready None) actions)
    else
      auth <- issuerAuthorizeHolder issuanceId48 payer ;;
      if negb (ok auth) then
        Ret (Some (auto_failed "authorize"
                     ("AUTO_AUTHORIZE_FAILED:" +:+ String_of (engineResult auth))
                     (Some (result auth)) (Some payer) (Some policy) (Some actions) None),
             actions)
      else
        kvSet authDoneKey (String_of (txid auth)) ;;;
        tryInsertAuthorization payer issuanceId48 (txid auth) "AUTO_AUTHORIZE_SWAP" ;;;
        Ret (None, set_authorize (act_done (txid auth) None) actions)
  else
    Ret (None, set_authorize (act_skip true "REQUIRE_AUTH_DISABLED") actions).

(** (B) calc MPT *)
Definition stage_calc (validatedTx : LedgerTx) (payer : string) (policy : Policy)
    (auto : option Auto) (actions : Actions) : option Auto * option float :=
  match auto with
  | Some _ => (auto, None)
  | None =>
      let mptToSend := calcMptToSendFromPayment validatedTx in
      if negb (isFinite mptToSend) || leb mptToSend (ofZ 0) then
        let txj := txj_of validatedTx in
        (Some (auto_failed "calc" "Calculated MPT <= 0" None (Some payer) (Some policy)
                 (Some actions)
                 (Some {| dbg_delivered_amount :=
                            match meta validatedTx with
                            | Some m => delivered_amount m | None => None end;
                          dbg_DeliveredAmount :=
                            match meta validatedTx with
                            | Some m => DeliveredAmount m | None => None end;
                          dbg_DeliverMax := DeliverMax txj;
                          dbg_SendMax := SendMax txj;
                          dbg_Amount := Amount_ txj |})),
         Some mptToSend)
      else (None, Some mptToSend)
  end.

(** (C) issue MPT to payer *)
Definition stage_issue (uuid issuanceId48 payer : string) (policy : Policy)
    (alreadyIssuedTxid : option string) (mptToSend : option float)
    (auto : option Auto) (actions : Actions) : M (option Auto * Actions) :=
  match auto with
  | Some _ => Ret (auto, actions)
  | None =>
      let doneKey := "SWAP_DONE_" +:+ uuid in
      if truthy alreadyIssuedTxid then
        Ret (None, set_issue (act_done_already alreadyIssuedTxid
                                (Some (String_num mptToSend))) actions)
      else
        issue <- issuerSendMPT issuanceId48 payer (String_num mptToSend) ;;
        if negb (ok issue) then
          Ret (Some (auto_failed "issue"
                       ("AUTO_ISSUE_FAILED:" +:+ String_of (engineResult issue))
                       (Some (result issue)) (Some payer) (Some policy) (Some actions) None),
               actions)
        else
          kvSet doneKey (String_of (txid issue)) ;;;
          tryInsertTransfer issuerAddress payer issuanceId48 (String_num mptToSend)
            (txid issue) "SWAP_AUTO" ;;;
          Ret (None, set_issue (act_done (txid issue) (Some (String_num mptToSend))) actions)
  end.

(** (D1) blacklisted => auto clawback; highest priority *)
Definition stage_clawback (uuid issuanceId48 payer : string) (flags : IssuanceFlags)
    (policy : Policy) (mptToSend : option float)
    (auto : option Auto) (actions : Actions) : M Actions :=
  match auto with
  | Some _ => Ret actions
  | None =>
      if autoClawbackBlacklist policy && blacklisted policy then
        if negb (tfMPTCanClawback flags) then
          Ret (set_clawback (act_skip false "MPT_CLAWBACK_NOT_ENABLED") actions)
        else
          let clawbackDoneKey := "SWAP_CLAWBACK_DONE_" +:+ uuid in
          clawbackAlready <- kvGet clawbackDoneKey ;;
          if truthy clawbackAlready then
            Ret (set_clawback (act_done_already clawbackAlready
                                 (Some (String_num mptToSend))) actions)
          else
            claw <- issuerClawbackMPT issuanceId48 payer (String_num mptToSend) ;;
            if negb (ok claw) then
              Ret (set_clawback
                     (act_failed ("AUTO_CLAWBACK_FAILED:" +:+ String_of (engineResult claw))
                        (result claw)) actions)
            else
              kvSet clawbackDoneKey (String_of (txid claw)) ;;;
              tryInsertClawback issuerAddress payer issuanceId48
                (Some (String_num mptToSend)) (txid claw)
                "AUTO_CLAWBACK_SWAP_BLACKLIST" ;;;
              Ret (set_clawback (act_done (txid claw) (Some (String_num mptToSend)))
                     actions)
      else
        Ret (set_clawback
               (act_skip true (if blacklisted policy
                               then "AUTO_CLAWBACK_POLICY_DISABLED"
                               else "NOT_BLACKLISTED")) actions)
  end.

(** (D2) auto lock after swap; no lock after a successful clawback *)
Definition stage_lock (uuid issuanceId48 payer : string) (flags : IssuanceFlags)
    (policy : Policy) (auto : option Auto) (actions : Actions) : M Actions :=
  match auto with
  | Some _ => Ret actions
  | None =>
      if autoLockAfterSwap policy && negb (clawback_succeeded actions) then
        if negb (tfMPTCanLock flags) then
          Ret (set_lock (act_skip false "MPT_LOCK_NOT_ENABLED") actions)
        else
          let lockDoneKey := "SWAP_LOCK_DONE_" +:+ uuid in
          lockAlready <- kvGet lockDoneKey ;;
          if truthy lockAlready then
            Ret (set_lock (act_done_already lockAlready None) actions)
          else
            lock <- issuerLockHolder issuanceId48 payer ;;
            if negb (ok lock) then
              Ret (set_lock
                     (act_failed ("AUTO_LOCK_FAILED:" +:+ String_of (engineResult lock))
                        (result lock)) actions)
            else
              kvSet lockDoneKey (String_of (txid lock)) ;;;
              tryInsertLockAction payer issuanceId48 true (txid lock)
                "AUTO_LOCK_AFTER_SWAP" ;;;
              Ret (set_lock (act_done (txid lock) None) actions)
      else
        Ret (set_lock
               (act_skip true (if autoLockAfterSwap policy
                               then "SKIPPED_AFTER_SUCCESSFUL_CLAWBACK"
                               else "AUTO_LOCK_POLICY_DISABLED")) actions)
  end.

(** (D3) auto unlock after swap; not together with lock, not after a
    successful clawback *)
Definition stage_unlock (uuid issuanceId48 payer : string) (flags : IssuanceFlags)
    (policy : Policy) (auto : option Auto) (actions : Actions) : M Actions :=
  match auto with
  | Some _ => Ret actions
  | None =>
      if autoUnlockAfterSwap policy && negb (autoLockAfterSwap policy)
         && negb (clawback_succeeded actions) then
        if negb (tfMPTCanLock flags) then
          Ret (set_unlock (act_skip false "MPT_LOCK_NOT_ENABLED") actions)
        else
          let unlockDoneKey := "SWAP_UNLOCK_DONE_" +:+ uuid in
          unlockAlready <- kvGet unlockDoneKey ;;
          if truthy unlockAlready then
            Ret (set_unlock (act_done_already unlockAlready None) actions)
          else
            unlock <- issuerUnlockHolder issuanceId48 payer ;;
            if negb (ok unlock) then
              Ret (set_unlock
                     (act_failed ("AUTO_UNLOCK_FAILED:" +:+ String_of (engineResult unlock))
                        (result unlock)) actions)
            else
              kvSet unlockDoneKey (String_of (txid unlock)) ;;;
              tryInsertLockAction payer issuanceId48 false (txid unlock)
                "AUTO_UNLOCK_AFTER_SWAP" ;;;
              Ret (set_unlock (act_done (txid unlock) None) actions)
      else
        Ret (set_unlock
               (act_skip true
                  (if autoUnlockAfterSwap policy
                   then (if autoLockAfterSwap policy
                         then "AUTO_UNLOCK_DISABLED_BECAUSE_AUTO_LOCK_ENABLED"
                         else "SKIPPED_AFTER_SUCCESSFUL_CLAWBACK")
                   else "AUTO_UNLOCK_POLICY_DISABLED")) actions)
  end.

(** Final auto result *)
Definition stage_final (payer : string) (policy : Policy)
    (alreadyIssuedTxid : option string) (mptToSend : option float)
    (auto : option Auto) (actions : Actions) : Auto :=
  match auto with
  | Some a => a
  | None =>
      {| auto_ok := true; auto_stage := None; auto_error := None; auto_detail := None;
         auto_error_detail := None; auto_payer := Some payer;
         auto_issuedTxid :=
           or_else (match issue actions with Some a => act_txid a | None => None end)
                   (or_else alreadyIssuedTxid None);
         auto_mptToSend := Some (String_num mptToSend);
         auto_policy := Some policy; auto_actions := Some actions; auto_debug := None |}
  end.

(** The stages in their order, for a payer that could be read. *)
Definition saga_steps (uuid issuanceId48 payer : string) (flags : IssuanceFlags)
    (validatedTx : LedgerTx) : M Auto :=
  autoLock <- isAutoLockEnabled ;;
  autoUnlock <- isAutoUnlockEnabled ;;
  autoClawback <- isAutoClawbackEnabled ;;
  black <- isBlacklisted payer ;;
  let policy := {| autoLockAfterSwap := autoLock; autoUnlockAfterSwap := autoUnlock;
                   autoClawbackBlacklist := autoClawback; blacklisted := black |} in
  let actions := no_actions in
  (* the issue marker is read here, before the first await of the saga *)
  alreadyIssuedTxid <- kvGet ("SWAP_DONE_" +:+ uuid) ;;
  a <- stage_authorize uuid issuanceId48 payer flags policy actions ;;
  let '(auto, actions) := a in
  let '(auto, mptToSend) := stage_calc validatedTx payer policy auto actions in
  c <- stage_issue uuid issuanceId48 payer policy alreadyIssuedTxid mptToSend auto actions ;;
  let '(auto, actions) := c in
  actions <- stage_clawback uuid issuanceId48 payer flags policy mptToSend auto actions ;;
  actions <- stage_lock uuid issuanceId48 payer flags policy auto actions ;;
  actions <- stage_unlock uuid issuanceId48 payer flags policy auto actions ;;
  Ret (stage_final payer policy alreadyIssuedTxid mptToSend auto actions).

(** What runs once the payment is validated: bootstrap, payer, stages. *)
Definition saga (uuid : string) (validatedTx : LedgerTx) : M Auto :=
  boot <- try_catch
            (issuanceId48 <- getActiveIssuanceId48OrThrow None ;;
             flags <- getActiveIssuanceFlags ;;
             Ret (inl (issuanceId48, flags)))
            (fun e =>
               Ret (inr {| auto_ok := false; auto_stage := Some "bootstrap";
                           auto_error := Some (if String.eqb (message e) ""
                                               then "ISSUANCE_NOT_READY" else message e);
                           auto_detail := None;
                           auto_error_detail := or_else (detail e) None;
                           auto_payer := None; auto_issuedTxid := None;
                           auto_mptToSend := None; auto_policy := None;
                           auto_actions := None; auto_debug := None |})) ;;
  match boot with
  | inr auto => Ret auto
  | inl (_, None) =>
      Ret (auto_failed "bootstrap" "ISSUANCE_INDEX_NOT_SET_OR_NOT_FOUND"
             None None None None None)
  | inl (issuanceId48, Some flags) =>
      let payer := Account (txj_of validatedTx) in
      if negb (truthy payer) then
        Ret (auto_failed "read-payer" "Cannot read payer Account from tx"
               None None None None None)
      else saga_steps uuid issuanceId48 (str_or_empty payer) flags validatedTx
  end.

(** [e?.message || String(e)] of a thrown [Error]. *)
Definition error_text (e : Error) : string :=
  if String.eqb (message e) "" then "Error" else message e.

(** [app.get("/api/payload/:uuid")]: poll payload; once the payment is
    validated, auto issue MPT (authorize + payment) with idempotency. *)
Definition get_payload (uuid : string) : M (Reply PollResponse) :=
  try_catch
    (p <- await (XummPayloadGet uuid) ;;
     let resolved := match p with Some p => meta_resolved p | None => false end in
     let signed := match p with Some p => meta_signed p | None => false end in
     let cancelled := match p with Some p => meta_cancelled p | None => false end in
     let expired := match p with Some p => meta_expired p | None => false end in
     let txid := match p with Some p => or_else (response_txid p) None | None => None end in
     (if resolved then markPayload uuid signed cancelled expired txid else Ret tt) ;;;
     va <- (if signed && truthy txid then
              validatedTx <- waitTxValidated (str_or_empty txid) ;;
              match validatedTx with
              | Some vtx =>
                  if validated vtx
                  then auto <- saga uuid vtx ;; Ret (validatedTx, Some auto)
                  else Ret (validatedTx, None)
              | None => Ret (None, None)
              end
            else Ret (None, None)) ;;
     Ret (Json {| poll_uuid := uuid; poll_resolved := resolved; poll_signed := signed;
                  poll_cancelled := cancelled; poll_expired := expired;
                  poll_txid := txid; poll_validatedTx := fst va;
                  poll_auto := snd va |}))
    (fun e => Ret (Failure 500 (error_text e))).

(** *** The policy endpoints *)

(** A JSON value of a request body. *)
Inductive JsonValue : Type :=
| JNull
| JBool (b : bool)
| JNumber (x : float)
| JString (s : string)
| JComposite.                (* an array or an object *)

Definition json_truthy (v : JsonValue) : bool :=
  match v with
  | JNull => false
  | JBool b => b
  | JNumber x => match x with S754_zero _ | S754_nan => false | _ => true end
  | JString s => negb (String.eqb s "")
  | JComposite => true
  end.

(** The fields of the body the handler reads; [None] is [undefined]. *)
Record PolicyBody : Type := {
  body_autoLockAfterSwap : option JsonValue;
  body_autoUnlockAfterSwap : option JsonValue;
  body_autoClawbackBlacklist : option JsonValue
}.

Record PolicyReply : Type := {
  reply_ok : bool;
  reply_autoLockAfterSwap : bool;
  reply_autoUnlockAfterSwap : bool;
  reply_autoClawbackBlacklist : bool
}.

Definition set_flag (key : string) (v : option JsonValue) : M unit :=
  match v with
  | Some v => kvSet key (if json_truthy v then "1" else "0")
  | None => Ret tt
  end.

(** [app.post("/api/kfd/policy")] *)
Definition post_policy (body : PolicyBody) : M PolicyReply :=
  set_flag "POLICY_AUTO_LOCK_AFTER_SWAP" (body_autoLockAfterSwap body) ;;;
  set_flag "POLICY_AUTO_UNLOCK_AFTER_SWAP" (body_autoUnlockAfterSwap body) ;;;
  set_flag "POLICY_AUTO_CLAWBACK_BLACKLIST" (body_autoClawbackBlacklist body) ;;;
  autoLock <- isAutoLockEnabled ;;
  autoUnlock <- isAutoUnlockEnabled ;;
  autoClawback <- isAutoClawbackEnabled ;;
  Ret {| reply_ok := true; reply_autoLockAfterSwap := autoLock;
         reply_autoUnlockAfterSwap := autoUnlock;
         reply_autoClawbackBlacklist := autoClawback |}.

End Server.

Arguments Json {B} body.
Arguments Failure {B} code error.

End MptIssuer.

(** ** Smart-Locker/server.js: burn redemption *)

Module SmartLocker.
Import JS Async.

(** An entry of [redeems], set by [POST /api/redeem]. *)
Record Redeem : Type := {
  account : option string;
  nftokenId : option string;
  unlocked : bool
}.

(** What the [[OPEN]] line on the console shows: the locker opens. *)
Record OpenLine : Type := {
  open_burnUuid : string;
  open_account : option string;
  open_nftokenId : option string;
  open_txid : option string;
  open_burnedOnChain : bool
}.

Record State : Type := {
  redeems : gmap string Redeem;
  console : list OpenLine
}.

Record Error : Type := { message : string }.

(** [xumm.payload.get(burnUuid)], as far as the handler reads it. *)
Record XummPayload : Type := {
  meta_resolved : bool;
  meta_signed : bool;
  meta_cancelled : bool;
  response_txid : option string;
  meta_txid : option string;
  application_txid : option string
}.

Record NFToken : Type := { NFTokenID : option string }.

Inductive Ext : Type -> Type :=
| XummPayloadGet (uuid : string) : Ext (option XummPayload)
| Connect : Ext unit
| RequestAccountNfts (account : string) (limit : Z) : Ext (list NFToken)
| Disconnect : Ext unit.

Abbreviation M := (Prog State Error Ext unit).

Local Open Scope prog_scope.

Definition no_promise (s : State) (p : nat) : option (settled Error unit) := None.

Record UnlockResult : Type := { unlock_ok : bool; unlock_message : string }.

Record RedeemStatus : Type := {
  st_resolved : bool;
  st_signed : bool;
  st_cancelled : bool;
  st_txid : option string;
  st_burnedOnChain : bool;
  st_chainError : option string;
  st_unlocked : bool;
  st_unlockResult : option UnlockResult
}.

Inductive Reply : Type :=
| Json (body : RedeemStatus)
| Failure (code : Z) (error : string).

(** [String(e?.message || e)] *)
Definition error_text (e : Error) : string :=
  if String.eqb (message e) "" then "Error" else message e.

(** The on-chain check: is the token absent from [account_nfts]? *)
Definition confirm_burn (account nftokenId : string) : M (bool * option string) :=
  try_finally
    (try_catch
       (await Connect ;;;
        nfts <- await (RequestAccountNfts account 400) ;;
        let stillHas :=
          existsb (fun n => String.eqb (toUpperCase (str_or_empty (NFTokenID n)))
                                       (toUpperCase nftokenId)) nfts in
        Ret (negb stillHas, None))
       (fun e => Ret (false, Some (error_text e))))
    (try_catch (await Disconnect) (fun _ => Ret tt)).

(** [app.get("/api/redeem/status")] *)
Definition redeem_status (query_uuid : option string) : M Reply :=
  let burnUuid := trim (str_or_empty query_uuid) in
  if String.eqb burnUuid "" then Ret (Failure 400 "missing uuid")
  else
    try_catch
      (p <- await (XummPayloadGet burnUuid) ;;
       let resolved := match p with Some p => meta_resolved p | None => false end in
       let signed := match p with Some p => meta_signed p | None => false end in
       let cancelled := match p with Some p => meta_cancelled p | None => false end in
       let txid :=
         match p with
         | Some p => or_else (response_txid p)
                       (or_else (meta_txid p) (or_else (application_txid p) None))
         | None => None
         end in
       s <- get ;;
       let r := match redeems s !! burnUuid with
                | Some r => r
                | None => {| account := None; nftokenId := None; unlocked := false |}
                end in
       (* on-chain confirm burn by checking account_nfts *)
       chain <- (if signed && truthy (account r) && truthy (nftokenId r)
                 then confirm_burn (str_or_empty (account r)) (str_or_empty (nftokenId r))
                 else Ret (false, None)) ;;
       let burnedOnChain := fst chain in
       let chainError := snd chain in
       (* success => display open (console) and mark unlocked *)
       unlockResult <-
         (if ((signed && truthy txid) || burnedOnChain) && negb (unlocked r) then
            modify (fun s =>
              {| redeems := <[burnUuid := {| account := account r;
                                             nftokenId := nftokenId r;
                                             unlocked := true |}]> (redeems s);
                 console := console s ++
                   [{| open_burnUuid := burnUuid; open_account := account r;
                       open_nftokenId := nftokenId r; open_txid := txid;
                       open_burnedOnChain := burnedOnChain |}] |}) ;;;
            Ret (Some {| unlock_ok := true; unlock_message := "OPEN" |})
          else Ret None) ;;
       s <- get ;;
       Ret (Json {| st_resolved := resolved; st_signed := signed;
                    st_cancelled := cancelled; st_txid := txid;
                    st_burnedOnChain := burnedOnChain; st_chainError := chainError;
                    st_unlocked := match redeems s !! burnUuid with
                                   | Some r => unlocked r
                                   | None => false
                                   end;
                    st_unlockResult := unlockResult |}))
      (fun e => Ret (Failure 500 (error_text e))).

End SmartLocker.

(** ** AI-order/server.js: order intents, payment verification, receipts *)

Module AiOrder.
Import JS Async.

(** *** Products and orders *)

Record Product : Type := {
  name : string;
  price : Z;
  imageFile : string
}.

Definition products (product_id : Z) : option Product :=
  if product_id =? 1 then Some {| name := "Classic Americano"; price := 1; imageFile := "image1.png" |}
  else if product_id =? 2 then Some {| name := "Latte"; price := 2; imageFile := "image2.png" |}
  else if product_id =? 3 then Some {| name := "Tiramisu"; price := 2; imageFile := "image3.png" |}
  else None.

(** An item of a request.  The model holds the carts whose quantities are
    whole numbers (or absent); on them the binary64 arithmetic of the code
    is that of the integers, as long as the numbers stay below 2^53.  A
    quantity that is a fraction, a string or another JSON value is outside
    the model. *)
Record Item : Type := {
  product_id : Z;
  qty : option Z
}.

(** [it.qty || 1] *)
Definition qty_or_1 (it : Item) : Z :=
  if truthyZ (qty it) then match qty it with Some q => q | None => 1 end else 1.

Definition calcOrderTotal (items : list Item) : Z :=
  fold_left (fun sum i =>
               sum + qty_or_1 i * match products (product_id i) with
                                  | Some p => price p
                                  | None => 0
                                  end) items 0.

Inductive PaymentMethod : Type := Mpt | Xrp | Rlusd.

Definition method_name (m : PaymentMethod) : string :=
  match m with Mpt => "mpt" | Xrp => "xrp" | Rlusd => "rlusd" end.

(** [order.status] *)
Inductive OrderStatus : Type := Created | Completed.

Record Order : Type := {
  items : list Item;
  total : Z;
  buyer : option string;
  paymentMethod : PaymentMethod;
  status : OrderStatus;
  createdAt : Z;
  completedAt : option Z;
  txid : option string;
  orderKey : string
}.

(** [order.buyer] and [order.txid], where a local variable of the handler
    has the same name. *)
Definition order_buyer (o : Order) : option string := buyer o.
Definition order_txid (o : Order) : option string := txid o.

Definition set_buyer (b : option string) (o : Order) : Order :=
  {| items := items o; total := total o; buyer := b; paymentMethod := paymentMethod o;
     status := status o; createdAt := createdAt o; completedAt := completedAt o;
     txid := txid o; orderKey := orderKey o |}.

Definition set_txid (t : option string) (o : Order) : Order :=
  {| items := items o; total := total o; buyer := buyer o; paymentMethod := paymentMethod o;
     status := status o; createdAt := createdAt o; completedAt := completedAt o;
     txid := t; orderKey := orderKey o |}.

Definition set_completed (t : Z) (o : Order) : Order :=
  {| items := items o; total := total o; buyer := buyer o; paymentMethod := paymentMethod o;
     status := Completed; createdAt := createdAt o; completedAt := Some t;
     txid := txid o; orderKey := orderKey o |}.

(** *** Replies *)

Record Minted : Type := {
  minted_name : string;
  minted_image : option string;
  minted_nftId : string
}.

Record AcceptQr : Type := {
  qr_product : string;
  qr_png : option string;
  qr_url : option string
}.

(** What the verification-and-mint job returns. *)
Inductive JobResult : Type :=
| Pending                                                   (* { status: "pending" } *)
| VerifyFailed (error : string) (details : list (string * string))   (* { status: "error", ... } *)
| Success (payment_method : PaymentMethod) (nfts : list Minted)
          (accept_qr_list : list AcceptQr).                 (* { status: "success", ... } *)

Record CreateResponse : Type := {
  total_price : Z;
  payment_method : PaymentMethod;
  xumm_qr : option string;
  xumm_payload_url : option string;
  payload_uuid : string
}.

Inductive Body : Type :=
| BCreate (r : CreateResponse)
| BBuy (r : JobResult) (cachedAt : option Z)   (* [__cachedAt] when read from txCache *)
| BCompletedOrExpired.                         (* { status: "completed_or_expired" } *)

Inductive Reply : Type :=
| Json (body : Body)
| Failure (http : Z) (error : string) (code : option string).

(** A thrown [Error]: message and [err.code]. *)
Record Error : Type := {
  message : string;
  code : option string
}.

Definition plain_error (msg : string) : Error := {| message := msg; code := None |}.

(** *** In-memory state

    Order objects are shared between the map and the handlers that hold
    them across awaits: they live in [orderObjects], and
    [ordersByPaymentPayload] maps a payload uuid to its object. *)

Record TrustStatus : Type := {
  trust_exists : bool;
  trust_peer_authorized : bool;
  trust_authorized : bool;
  checkedAt : Z
}.

Record State : Type := {
  processedTx : gset string;                          (* txid processed (mint started) *)
  txCache : gmap string (JobResult * Z);              (* txid -> final response, stamped *)
  inflight : gset string;                             (* txid -> Promise *)
  orderObjects : gmap nat Order;
  ordersByPaymentPayload : gmap string nat;           (* payload_uuid -> order *)
  completedByPayload : gmap string (JobResult * Z);   (* payload_uuid -> { result, completedAt } *)
  createOrderInflight : gmap string nat;              (* orderKey -> Promise<response> *)
  createOrderCache : gmap string (CreateResponse * Z);(* orderKey -> { response, createdAt } *)
  trustlineStatusCache : gmap string TrustStatus;
  promises : gmap nat (settled Error CreateResponse);
  next_ref : nat
}.

Definition promise_of (s : State) (p : nat) : option (settled Error CreateResponse) :=
  promises s !! p.

(** *** What the ledger and the wallet-payload provider send back *)

Record XummResponse : Type := {
  response_account : option string;
  response_txid : option string
}.

Record XummPayload : Type := {
  meta_signed : option bool;            (* [None]: no [meta] at all *)
  response : option XummResponse
}.

Record XummCreated : Type := {
  created_uuid : option string;
  created_qr_png : option string;
  created_always : option string
}.

Record AmountObject : Type := {
  amt_currency : option string;
  amt_issuer : option string;
  amt_value : option string;
  amt_mpt_issuance_id : option string
}.

Inductive TxAmount : Type :=
| AString (s : string)
| AObject (o : AmountObject)
| AOther.

(** The result of the [tx] command. *)
Record Tx : Type := {
  validated : option bool;
  TransactionType : option string;
  Account : option string;
  Destination : option string;
  meta_TransactionResult : option string;
  Amount : option TxAmount
}.

Record Line : Type := {
  line_currency : option string;
  line_peer_authorized : bool;
  line_authorized : bool
}.

(** The amount of a payment payload. *)
Inductive PayAmount : Type :=
| Drops (drops : string)
| Issued (currency issuer value : string)
| MptAmount (mpt_issuance_id value : string).

Inductive PayloadTx : Type :=
| Payment (destination : string) (amount : PayAmount) (account : option string)
| NFTokenAcceptOffer (account : option string) (sellOffer : string).

Inductive IssuerTx : Type :=
| NFTokenMint (uri : string)
| NFTokenCreateOffer (nftokenId : string) (destination : option string).

Inductive Ext : Type -> Type :=
| XummPayloadGet (uuid : string) : Ext (option XummPayload)
| XummPayloadCreate (tx : PayloadTx) (expire : Z) : Ext (option XummCreated)
| Connect : Ext unit
| Disconnect : Ext unit
| RequestTx (txid : string) : Ext (option Tx)
| RequestAccountLines (account peer : string) : Ext (list Line)
| ImportModule (path : string) : Ext bool
(* the IPFS helper chain of one receipt: metadata URI and image URL *)
| PinMetadata (product : string) : Ext (option string * option string)
(* autofill, sign, submitAndWait; the answer is the id read from the
   validated result ([nftoken_id], [offer_id]) when there is one *)
| SubmitAndWait (tx : IssuerTx) : Ext (option string).

Abbreviation M := (Prog State Error Ext CreateResponse).

Local Open Scope prog_scope.

(** [try { x = await p } catch (e) { ... }] with the outcome in hand. *)
Definition capture {A} (p : M A) : M (settled Error A) :=
  try_catch (x <- p ;; Ret (Fulfilled x)) (fun e => Ret (Rejected e)).

(** *** Utils *)

(** [(s || "").toString().trim().toUpperCase()] *)
Definition safeUpper (s : option string) : string :=
  toUpperCase (trim (str_or_empty (or_else s None))).

Definition normalizePaymentMethod (method : option string) : M PaymentMethod :=
  let m := toLowerCase (trim (str_or_empty (or_else method (Some "mpt")))) in
  if String.eqb m "mpt" then Ret Mpt
  else if String.eqb m "xrp" then Ret Xrp
  else if String.eqb m "rlusd" then Ret Rlusd
  else Throw (plain_error ("Unsupported payment_method: " +:+ str_or_empty method)).

(** The double-quote character of JSON text. *)
Definition dq : string := String (ascii_of_nat 34) EmptyString.

(** [stableStringify(items)]: keys sorted, absent fields left out. *)
Definition stringify_item (i : Item) : string :=
  "{" +:+ dq +:+ "product_id" +:+ dq +:+ ":" +:+ pretty (product_id i) +:+
  match qty i with
  | Some q => "," +:+ dq +:+ "qty" +:+ dq +:+ ":" +:+ pretty q
  | None => EmptyString
  end +:+ "}".

Definition stableStringify (items : list Item) : string :=
  "[" +:+ String.concat "," (map stringify_item items) +:+ "]".

Definition buildCreateOrderKey (items : list Item) (buyer : option string)
    (paymentMethod : PaymentMethod) : string :=
  method_name paymentMethod +:+ "|" +:+ str_or_empty (or_else buyer None) +:+ "|" +:+
  stableStringify items.

Section Server.
(** The configuration read from the environment when the server starts;
    times are in milliseconds. *)
Variables (STORE_ADDRESS RLUSD_ISSUER RLUSD_CURRENCY KFD_MPT_ISSUANCE_ID : string).
Variables (ORDER_TTL_MS CREATE_ORDER_CACHE_MS TRUSTLINE_CACHE_MS TX_CACHE_TTL : Z).

Definition buildPaymentAmount (paymentMethod : PaymentMethod) (total : Z) : M PayAmount :=
  match paymentMethod with
  | Xrp => Ret (Drops (pretty (total * 1000000)))     (* xrpl.xrpToDrops *)
  | Rlusd =>
      if String.eqb RLUSD_ISSUER EmptyString then Throw (plain_error "Missing RLUSD_ISSUER")
      else if String.eqb RLUSD_CURRENCY EmptyString
           then Throw (plain_error "Missing RLUSD_CURRENCY")
      else Ret (Issued RLUSD_CURRENCY RLUSD_ISSUER (pretty total))
  | Mpt => Ret (MptAmount KFD_MPT_ISSUANCE_ID (pretty total))
  end.

Definition getTrustlineCacheKey (account issuer currency : string) : string :=
  account +:+ ":" +:+ issuer +:+ ":" +:+ safeUpper (Some currency).

Definition getTrustLineStatus (account issuer currency : string)
  : M (bool * bool * bool) :=
  lines <- await (RequestAccountLines account issuer) ;;
  let targetCurrency := safeUpper (Some currency) in
  match List.find (fun l => String.eqb (safeUpper (line_currency l)) targetCurrency) lines with
  | None => Ret (false, false, false)
  | Some line => Ret (true, line_peer_authorized line, line_authorized line)
  end.

(** Updates of one field of the state. *)
Definition with_processedTx (f : gset string -> gset string) (s : State) : State :=
  {| processedTx := f (processedTx s); txCache := txCache s; inflight := inflight s;
     orderObjects := orderObjects s; ordersByPaymentPayload := ordersByPaymentPayload s;
     completedByPayload := completedByPayload s;
     createOrderInflight := createOrderInflight s; createOrderCache := createOrderCache s;
     trustlineStatusCache := trustlineStatusCache s; promises := promises s;
     next_ref := next_ref s |}.

Definition with_txCache (f : gmap string (JobResult * Z) -> gmap string (JobResult * Z)) (s : State) : State :=
  {| processedTx := processedTx s; txCache := f (txCache s); inflight := inflight s;
     orderObjects := orderObjects s; ordersByPaymentPayload := ordersByPaymentPayload s;
     completedByPayload := completedByPayload s;
     createOrderInflight := createOrderInflight s; createOrderCache := createOrderCache s;
     trustlineStatusCache := trustlineStatusCache s; promises := promises s;
     next_ref := next_ref s |}.

Definition with_inflight (f : gset string -> gset string) (s : State) : State :=
  {| processedTx := processedTx s; txCache := txCache s; inflight := f (inflight s);
     orderObjects := orderObjects s; ordersByPaymentPayload := ordersByPaymentPayload s;
     completedByPayload := completedByPayload s;
     createOrderInflight := createOrderInflight s; createOrderCache := createOrderCache s;
     trustlineStatusCache := trustlineStatusCache s; promises := promises s;
     next_ref := next_ref s |}.

Definition with_orderObjects (f : gmap nat Order -> gmap nat Order) (s : State) : State :=
  {| processedTx := processedTx s; txCache := txCache s; inflight := inflight s;
     orderObjects := f (orderObjects s);
     ordersByPaymentPayload := ordersByPaymentPayload s;
     completedByPayload := completedByPayload s;
     createOrderInflight := createOrderInflight s; createOrderCache := createOrderCache s;
     trustlineStatusCache := trustlineStatusCache s; promises := promises s;
     next_ref := next_ref s |}.

Definition with_ordersByPaymentPayload (f : gmap string nat -> gmap string nat) (s : State) : State :=
  {| processedTx := processedTx s; txCache := txCache s; inflight := inflight s;
     orderObjects := orderObjects s;
     ordersByPaymentPayload := f (ordersByPaymentPayload s);
     completedByPayload := completedByPayload s;
     createOrderInflight := createOrderInflight s; createOrderCache := createOrderCache s;
     trustlineStatusCache := trustlineStatusCache s; promises := promises s;
     next_ref := next_ref s |}.

Definition with_completedByPayload (f : gmap string (JobResult * Z) -> gmap string (JobResult * Z)) (s : State) : State :=
  {| processedTx := processedTx s; txCache := txCache s; inflight := inflight s;
     orderObjects := orderObjects s; ordersByPaymentPayload := ordersByPaymentPayload s;
     completedByPayload := f (completedByPayload s);
     createOrderInflight := createOrderInflight s; createOrderCache := createOrderCache s;
     trustlineStatusCache := trustlineStatusCache s; promises := promises s;
     next_ref := next_ref s |}.

Definition with_createOrderInflight (f : gmap string nat -> gmap string nat) (s : State) : State :=
  {| processedTx := processedTx s; txCache := txCache s; inflight := inflight s;
     orderObjects := orderObjects s; ordersByPaymentPayload := ordersByPaymentPayload s;
     completedByPayload := completedByPayload s;
     createOrderInflight := f (createOrderInflight s);
     createOrderCache := createOrderCache s;
     trustlineStatusCache := trustlineStatusCache s; promises := promises s;
     next_ref := next_ref s |}.

Definition with_createOrderCache (f : gmap string (CreateResponse * Z) -> gmap string (CreateResponse * Z)) (s : State) : State :=
  {| processedTx := processedTx s; txCache := txCache s; inflight := inflight s;
     orderObjects := orderObjects s; ordersByPaymentPayload := ordersByPaymentPayload s;
     completedByPayload := completedByPayload s;
     createOrderInflight := createOrderInflight s;
     createOrderCache := f (createOrderCache s);
     trustlineStatusCache := trustlineStatusCache s; promises := promises s;
     next_ref := next_ref s |}.

Definition with_promises (f : gmap nat (settled Error CreateResponse) -> gmap nat (settled Error CreateResponse)) (s : State) : State :=
  {| processedTx := processedTx s; txCache := txCache s; inflight := inflight s;
     orderObjects := orderObjects s; ordersByPaymentPayload := ordersByPaymentPayload s;
     completedByPayload := completedByPayload s;
     createOrderInflight := createOrderInflight s; createOrderCache := createOrderCache s;
     trustlineStatusCache := trustlineStatusCache s; promises := f (promises s);
     next_ref := next_ref s |}.

Definition with_next_ref (f : nat -> nat) (s : State) : State :=
  {| processedTx := processedTx s; txCache := txCache s; inflight := inflight s;
     orderObjects := orderObjects s; ordersByPaymentPayload := ordersByPaymentPayload s;
     completedByPayload := completedByPayload s;
     createOrderInflight := createOrderInflight s; createOrderCache := createOrderCache s;
     trustlineStatusCache := trustlineStatusCache s; promises := promises s;
     next_ref := f (next_ref s) |}.

Definition with_trustlineStatusCache (f : gmap string TrustStatus -> gmap string TrustStatus) (s : State) : State :=
  {| processedTx := processedTx s; txCache := txCache s; inflight := inflight s;
     orderObjects := orderObjects s; ordersByPaymentPayload := ordersByPaymentPayload s;
     completedByPayload := completedByPayload s;
     createOrderInflight := createOrderInflight s; createOrderCache := createOrderCache s;
     trustlineStatusCache := f (trustlineStatusCache s); promises := promises s;
     next_ref := next_ref s |}.

Definition checkStoreRlusdTrustLine : M TrustStatus :=
  if String.eqb RLUSD_ISSUER EmptyString || String.eqb RLUSD_CURRENCY EmptyString then
    t <- now ;;
    Ret {| trust_exists := false; trust_peer_authorized := false;
           trust_authorized := false; checkedAt := t |}
  else
    let cacheKey := getTrustlineCacheKey STORE_ADDRESS RLUSD_ISSUER RLUSD_CURRENCY in
    s <- get ;;
    t <- now ;;
    let fresh := match trustlineStatusCache s !! cacheKey with
                 | Some cached =>
                     if t - checkedAt cached <? TRUSTLINE_CACHE_MS then Some cached else None
                 | None => None
                 end in
    match fresh with
    | Some cached => Ret cached
    | None =>
        await Connect ;;;
        try_finally
          (st <- getTrustLineStatus STORE_ADDRESS RLUSD_ISSUER RLUSD_CURRENCY ;;
           let result := {| trust_exists := fst (fst st);
                            trust_peer_authorized := snd (fst st);
                            trust_authorized := snd st; checkedAt := t |} in
           modify (with_trustlineStatusCache (<[cacheKey := result]>)) ;;;
           Ret result)
          (await Disconnect)
    end.

(** *** [verifyPaymentTx]

    Verify txid is a validated successful Payment that matches the
    expected buyer, the store as destination and the expected asset and
    total; if not validated yet, [ok: false, reason: not_validated_yet]. *)

Record Verdict : Type := {
  verdict_ok : bool;
  reason : option string;
  verdict_details : list (string * string)
}.

Definition verified : Verdict :=
  {| verdict_ok := true; reason := None; verdict_details := [] |}.

Definition rejected (reason : string) (details : list (string * string)) : Verdict :=
  {| verdict_ok := false; reason := Some reason; verdict_details := details |}.

Definition check_amount (amt : option TxAmount) (expectedTotal : Z)
    (paymentMethod : PaymentMethod) : Verdict :=
  match paymentMethod with
  | Xrp =>
      match amt with
      | Some (AString amt) =>
          let expectedDrops : string := pretty (expectedTotal * 1000000) in
          if negb (String.eqb amt expectedDrops)
          then rejected "amount_mismatch" [("value", amt); ("expected", expectedDrops)]
          else verified
      | _ => rejected "amount_not_xrp_string" []
      end
  | Rlusd =>
      match amt with
      | Some (AObject amt) =>
          let currency := safeUpper (amt_currency amt) in
          let issuer := trim (str_or_empty (or_else (amt_issuer amt) None)) in
          let value := str_or_empty (amt_value amt) in
          if negb (String.eqb currency (safeUpper (Some RLUSD_CURRENCY)))
          then rejected "currency_mismatch"
                 [("currency", currency); ("expected", safeUpper (Some RLUSD_CURRENCY))]
          else if negb (String.eqb issuer RLUSD_ISSUER)
          then rejected "issuer_mismatch" [("issuer", issuer); ("expected", RLUSD_ISSUER)]
          else if negb (String.eqb value (pretty expectedTotal))
          then rejected "amount_mismatch" [("value", value); ("expected", pretty expectedTotal)]
          else verified
      | _ => rejected "amount_not_token_object" []
      end
  | Mpt =>
      match amt with
      | Some (AObject amt) =>
          let issuance := safeUpper (amt_mpt_issuance_id amt) in
          let value := str_or_empty (amt_value amt) in
          if negb (String.eqb issuance KFD_MPT_ISSUANCE_ID)
          then rejected "issuance_mismatch"
                 [("issuance", issuance); ("expected", KFD_MPT_ISSUANCE_ID)]
          else if negb (String.eqb value (pretty expectedTotal))
          then rejected "amount_mismatch" [("value", value); ("expected", pretty expectedTotal)]
          else verified
      | _ => rejected "amount_not_object" []
      end
  end.

Definition verifyPaymentTx (txid : string) (expectedBuyer : option string)
    (expectedTotal : Z) (paymentMethod : PaymentMethod) : M Verdict :=
  txResp <- capture (await (RequestTx txid)) ;;
  match txResp with
  | Rejected e => Ret (rejected "not_validated_yet" [("message", message e)])
  | Fulfilled None => Ret (rejected "tx_not_found" [])
  | Fulfilled (Some tx) =>
      if match validated tx with Some false => true | _ => false end
      then Ret (rejected "not_validated_yet" [])
      else if negb match TransactionType tx with
                   | Some t => String.eqb t "Payment" | None => false end
      then Ret (rejected "not_payment" [])
      else
        let txAccount := trim (str_or_empty (or_else (Account tx) None)) in
        let txDest := trim (str_or_empty (or_else (Destination tx) None)) in
        if negb match expectedBuyer with
                | Some b => String.eqb txAccount b | None => false end
        then Ret (rejected "buyer_mismatch"
                    [("txAccount", txAccount); ("expectedBuyer", str_or_empty expectedBuyer)])
        else if negb (String.eqb txDest STORE_ADDRESS)
        then Ret (rejected "destination_mismatch"
                    [("txDest", txDest); ("expected", STORE_ADDRESS)])
        else
          let resultCode := meta_TransactionResult tx in
          if negb (truthy resultCode) then Ret (rejected "not_validated_yet" [])
          else if negb (String.eqb (str_or_empty resultCode) "tesSUCCESS")
          then Ret (rejected "not_success" [("resultCode", str_or_empty resultCode)])
          else Ret (check_amount (Amount tx) expectedTotal paymentMethod)
  end.

(** *** [POST /create-order]: idempotent creation of the payment payload *)

(** The body of the [job] promise.  Up to its first await the job only
    reads, so the handler registers the promise under the order key
    and then runs it, with the same effect on the state. *)
Definition create_job (items : list Item) (buyer : option string)
    (paymentMethod : PaymentMethod) (total : Z) (orderKey : string) : M CreateResponse :=
  (* RLUSD payment requires STORE_ADDRESS to already have trustline; the
     status object is always truthy, so the test never throws *)
  match paymentMethod with
  | Rlusd => _ <- checkStoreRlusdTrustLine ;; Ret tt
  | _ => Ret tt
  end ;;;
  amount <- buildPaymentAmount paymentMethod total ;;
  payload <- await (XummPayloadCreate
                      (Payment STORE_ADDRESS amount (or_else buyer None)) 300) ;;
  match payload with
  | Some payload =>
      if negb (truthy (created_uuid payload))
      then Throw (plain_error "Xumm payload.create returned empty payload")
      else
        let uuid := str_or_empty (created_uuid payload) in
        t <- now ;;
        s <- get ;;
        let ref := next_ref s in
        put (with_next_ref S
               (with_ordersByPaymentPayload (<[uuid := ref]>)
                  (with_orderObjects
                     (<[ref := {| items := items; total := total;
                                  buyer := or_else buyer None;
                                  paymentMethod := paymentMethod; status := Created;
                                  createdAt := t; completedAt := None; txid := None;
                                  orderKey := orderKey |}]>) s))) ;;;
        let responseBody :=
          {| total_price := total; payment_method := paymentMethod;
             xumm_qr := or_else (created_qr_png payload) None;
             xumm_payload_url := or_else (created_always payload) None;
             payload_uuid := uuid |} in
        t' <- now ;;
        modify (with_createOrderCache (<[orderKey := (responseBody, t')]>)) ;;;
        Ret responseBody
  | None => Throw (plain_error "Xumm payload.create returned empty payload")
  end.

Definition create_failure (err : Error) : Reply :=
  Failure (if match code err with
              | Some c => String.eqb c "STORE_RLUSD_TRUSTLINE_MISSING"
              | None => false end then 400 else 500)
          (message err)
          (Some (str_or_empty (or_else (code err) (Some "CREATE_ORDER_FAILED")))).

Definition create_order (items : list Item) (buyer payment_method : option string)
  : M Reply :=
  startedAt <- now ;;
  try_catch
    (paymentMethod <- normalizePaymentMethod (or_else payment_method (Some "mpt")) ;;
     let total := calcOrderTotal items in
     if total <=? 0 then Throw (plain_error "Invalid total")
     else
       let orderKey := buildCreateOrderKey items buyer paymentMethod in
       s <- get ;;
       (* reuse recent identical create-order response *)
       let cached := match createOrderCache s !! orderKey with
                     | Some (response, createdAt) =>
                         if startedAt - createdAt <? CREATE_ORDER_CACHE_MS
                         then Some response else None
                     | None => None
                     end in
       match cached with
       | Some response => Ret (Json (BCreate response))
       | None =>
           (* reuse inflight promise if same request arrives concurrently *)
           match createOrderInflight s !! orderKey with
           | Some promise =>
               inflightResp <- join promise ;;
               Ret (Json (BCreate inflightResp))
           | None =>
               let job := next_ref s in
               put (with_next_ref S (with_createOrderInflight (<[orderKey := job]>) s)) ;;;
               try_finally
                 (outcome <- capture (create_job items buyer paymentMethod total orderKey) ;;
                  modify (with_promises (<[job := outcome]>)) ;;;
                  result <- settle outcome ;;
                  Ret (Json (BCreate result)))
                 (modify (with_createOrderInflight (delete orderKey)))
           end
       end)
    (fun err => Ret (create_failure err)).

(** *** [GET /buy/status]: verify payment, mint, offer, accept payloads *)

(** One receipt: metadata, mint, offer to the buyer, accept payload.  A
    throw anywhere ends this receipt; what was pushed before stays. *)
Definition mint_one (p : Product) (buyer : option string)
    (acc : list Minted * list AcceptQr) : M (list Minted * list AcceptQr) :=
  minted <- capture
    (meta <- await (PinMetadata (name p)) ;;
     match fst meta with
     | None => Throw (plain_error "Failed to generate metadataURI")
     | Some finalMetadataURI =>
         nftId <- await (SubmitAndWait (NFTokenMint finalMetadataURI)) ;;
         if negb (truthy nftId) then Throw (plain_error "Mint failed, no NFTokenID")
         else Ret {| minted_name := name p; minted_image := snd meta;
                     minted_nftId := str_or_empty nftId |}
     end) ;;
  match minted with
  | Rejected _ => Ret acc
  | Fulfilled nft =>
      offered <- capture
        (offerId <- await (SubmitAndWait (NFTokenCreateOffer (minted_nftId nft) buyer)) ;;
         if negb (truthy offerId) then Throw (plain_error "Offer failed, no NFTokenOfferID")
         else
           acceptPayload <- await (XummPayloadCreate
                                     (NFTokenAcceptOffer buyer (str_or_empty offerId)) 600) ;;
           Ret {| qr_product := name p;
                  qr_png := match acceptPayload with
                            | Some a => or_else (created_qr_png a) None | None => None end;
                  qr_url := match acceptPayload with
                            | Some a => or_else (created_always a) None | None => None end |}) ;;
      match offered with
      | Rejected _ => Ret ((fst acc ++ [nft])%list, snd acc)
      | Fulfilled q => Ret ((fst acc ++ [nft])%list, (snd acc ++ [q])%list)
      end
  end.

Fixpoint mint_times (n : nat) (p : Product) (buyer : option string)
    (acc : list Minted * list AcceptQr) : M (list Minted * list AcceptQr) :=
  match n with
  | O => Ret acc
  | S n' => acc' <- mint_one p buyer acc ;; mint_times n' p buyer acc'
  end.

Fixpoint mint_items (its : list Item) (buyer : option string)
    (acc : list Minted * list AcceptQr) : M (list Minted * list AcceptQr) :=
  match its with
  | [] => Ret acc
  | it :: rest =>
      match products (product_id it) with
      | None => mint_items rest buyer acc
      | Some p =>
          acc' <- mint_times (Z.to_nat (qty_or_1 it)) p buyer acc ;;
          mint_items rest buyer acc'
      end
  end.

(** The order object a handler holds. *)
Definition read_order (ref : nat) : M Order :=
  s <- get ;;
  match orderObjects s !! ref with
  | Some o => Ret o
  | None => Throw (plain_error "no such object")
  end.

(** The body of [jobPromise]. *)
Definition buy_job (order : nat) (buyer : option string) (txid : string) : M JobResult :=
  await Connect ;;;
  o <- read_order order ;;
  v <- verifyPaymentTx txid (order_buyer o) (total o) (paymentMethod o) ;;
  if negb (verdict_ok v) then
    await Disconnect ;;;
    if match reason v with Some r => String.eqb r "not_validated_yet" | None => false end
    then Ret Pending
    else Ret (VerifyFailed ("Payment verification failed: " +:+ str_or_empty (reason v))
                (verdict_details v))
  else
    modify (with_processedTx (fun p => {[ txid ]} ∪ p)) ;;;
    _ <- await (ImportModule "./nft/uploadIPFS.js") ;;
    _ <- await (ImportModule "form-data") ;;
    o <- read_order order ;;
    out <- mint_items (items o) buyer ([], []) ;;
    await Disconnect ;;;
    o <- read_order order ;;
    Ret (Success (paymentMethod o) (fst out) (snd out)).

Definition pending : Reply := Json (BBuy Pending None).

(** The rest of the handler once the buyer matches: the lookups by
    txid, then the job and what is cached of its result. *)
Definition buy_finish (payload_uuid : string) (order : nat) (buyer : option string)
    (txid : string) : M Reply :=
  s <- get ;;
  (* If already have tx cached, return it *)
  match txCache s !! txid with
  | Some (cached, stamp) => Ret (Json (BBuy cached (Some stamp)))
  | None =>
  if bool_decide (txid ∈ inflight s) then Ret pending
  else if bool_decide (txid ∈ processedTx s) then Ret pending
  else
    modify (with_inflight (fun i => {[ txid ]} ∪ i)) ;;;
    result <- buy_job order buyer txid ;;
    match result with
    | Pending =>
        (* If still pending (not validated), do NOT finalize or cache *)
        modify (with_inflight (fun i => i ∖ {[ txid ]})) ;;;
        Ret pending
    | _ =>
        (* Cache by txid *)
        t <- now ;;
        modify (with_txCache (<[txid := (result, t)]>)) ;;;
        modify (with_inflight (fun i => i ∖ {[ txid ]})) ;;;
        (* Mark completed + cache by payload_uuid for TTL window *)
        match result with
        | Success _ _ _ =>
            t <- now ;;
            modify (with_orderObjects (alter (set_completed t) order)) ;;;
            modify (with_ordersByPaymentPayload (<[payload_uuid := order]>)) ;;;
            modify (with_completedByPayload (<[payload_uuid := (result, t)]>))
        | _ => Ret tt
        end ;;;
        Ret (Json (BBuy result None))
    end
  end.

Definition buy_status (query_payload_uuid : option string) : M Reply :=
  if negb (truthy query_payload_uuid) then Ret (Failure 400 "Missing payload_uuid" None)
  else
    let payload_uuid := str_or_empty query_payload_uuid in
    try_catch
      (s <- get ;;
       (* If order already swept, still allow returning completion for a while *)
       match completedByPayload s !! payload_uuid with
       | Some (result, _) => Ret (Json (BBuy result None))
       | None =>
       match ordersByPaymentPayload s !! payload_uuid with
       | None => Ret (Json BCompletedOrExpired)
       | Some order =>
       o <- read_order order ;;
       (* If already marked completed, return cached result if present *)
       match status o with
       | Completed =>
           match completedByPayload s !! payload_uuid with
           | Some (result, _) => Ret (Json (BBuy result None))
           | None => Ret (Json BCompletedOrExpired)
           end
       | Created =>
       payload <- await (XummPayloadGet payload_uuid) ;;
       match payload with
       | None => Ret (Failure 404 "Payload not found" None)
       | Some payload =>
       match meta_signed payload with
       | None => Ret (Failure 404 "Payload not found" None)
       | Some false => Ret pending
       | Some true =>
       match response payload with
       | None => Throw (plain_error "Cannot read properties of undefined")
       | Some resp =>
       let buyer := response_account resp in
       let txid := response_txid resp in
       if negb (truthy txid) then Ret (Failure 500 "No txid" None)
       else
         (* Fill buyer once (Plan A) *)
         modify (with_orderObjects
                   (alter (fun o => if negb (truthy (order_buyer o))
                                    then set_buyer buyer o else o) order)) ;;;
         (* Freeze txid for this order *)
         modify (with_orderObjects
                   (alter (fun o => if negb (truthy (order_txid o))
                                    then set_txid txid o else o) order)) ;;;
         o <- read_order order ;;
         (* Prevent buyer mismatch *)
         if negb (bool_decide (buyer = order_buyer o))
         then Ret (Failure 400 "Buyer mismatch for this order" None)
         else buy_finish payload_uuid order buyer (str_or_empty txid)
       end end end end end end)
      (fun err => Ret (Failure 500 (message err) None)).

(** *** The TTL sweep, one pass of the [setInterval] callback *)

Definition sweep : M unit :=
  t <- now ;;
  (* Cleanup completedByPayload *)
  modify (with_completedByPayload
            (filter (fun kv => negb (negb (snd (snd kv) =? 0)
                                     && (ORDER_TTL_MS <? t - snd (snd kv))) = true))) ;;;
  (* Cleanup ordersByPaymentPayload (only completed & older than TTL) *)
  modify (fun s =>
    with_ordersByPaymentPayload
      (filter (fun kv =>
         negb match orderObjects s !! snd kv with
              | Some o =>
                  match status o with
                  | Completed => truthyZ (completedAt o)
                                 && (ORDER_TTL_MS <? t - default 0 (completedAt o))
                  | Created => false
                  end
              | None => false
              end = true)) s) ;;;
  (* Cleanup createOrderCache *)
  modify (with_createOrderCache
            (filter (fun kv => negb (negb (snd (snd kv) =? 0)
                                     && (CREATE_ORDER_CACHE_MS <? t - snd (snd kv))) = true))) ;;;
  (* Cleanup trustlineStatusCache *)
  modify (with_trustlineStatusCache
            (filter (fun kv => negb (negb (checkedAt (snd kv) =? 0)
                                     && (TRUSTLINE_CACHE_MS <? t - checkedAt (snd kv))) = true))) ;;;
  (* Optional: cleanup txCache to avoid unbounded memory *)
  if 0 <? TX_CACHE_TTL then
    modify (with_txCache
              (filter (fun kv => negb (negb (snd (snd kv) =? 0)
                                       && (TX_CACHE_TTL <? t - snd (snd kv))) = true)))
  else Ret tt.

End Server.

End AiOrder.

(** ** What a run shows: saga steps, submissions, markers *)

Module Observe.
Import JS Float64 Async MptIssuer.

(** The steps of the swap saga. *)
Inductive Step : Type := Authorize | Issue | Clawback | Lock | Unlock.

Definition step_eqb (a b : Step) : bool :=
  match a, b with
  | Authorize, Authorize | Issue, Issue | Clawback, Clawback
  | Lock, Lock | Unlock, Unlock => true
  | _, _ => false
  end.

(** The step a signed transaction belongs to. *)
Definition step_of_tx (tx : TxJson) : option Step :=
  match tx with
  | MPTokenAuthorize _ _ _ => Some Authorize
  | PaymentMPT _ _ _ => Some Issue
  | ClawbackMPT _ _ _ => Some Clawback
  | MPTokenIssuanceSet _ _ f =>
      if f =? 1 then Some Lock else if f =? 2 then Some Unlock else None
  end.

(** The persisted done marker of the pair (eventId, stepName). *)
Definition marker_key (k : Step) (uuid : string) : string :=
  match k with
  | Authorize => "SWAP_AUTH_DONE_" +:+ uuid
  | Issue => "SWAP_DONE_" +:+ uuid
  | Clawback => "SWAP_CLAWBACK_DONE_" +:+ uuid
  | Lock => "SWAP_LOCK_DONE_" +:+ uuid
  | Unlock => "SWAP_UNLOCK_DONE_" +:+ uuid
  end.

Definition marked (k : Step) (uuid : string) (d : Db) : bool :=
  truthy (kv d !! marker_key k uuid).

(** The ledger took the transaction: validated, with result tesSUCCESS. *)
Definition ledger_accepts (res : SubmitResponse) : bool :=
  res_validated res &&
  match or_else (res_TransactionResult res) (res_transaction_result res) with
  | Some t => String.eqb t "tesSUCCESS"
  | None => false
  end.

Abbreviation Event := (Async.Event Error Ext).
Abbreviation World := (Async.World Error Ext).

(** The transaction an event submits to the ledger, and whether the
    ledger took it. *)
Definition submission (e : Event) : option (TxJson * bool) :=
  match e with
  | Ev c r =>
      match c in Ext X return settled Error X -> option (TxJson * bool) with
      | SubmitAndWait _ tx _ =>
          fun r => Some (tx, match r with
                             | Fulfilled res => ledger_accepts res
                             | Rejected _ => false
                             end)
      | _ => fun _ => None
      end r
  end.

Definition submits (k : Step) (e : Event) : bool :=
  match submission e with
  | Some (tx, _) => match step_of_tx tx with Some k' => step_eqb k k' | None => false end
  | None => false
  end.

Definition submits_accepted (k : Step) (e : Event) : bool :=
  submits k e && match submission e with Some (_, a) => a | None => false end.

(** The number of ledger mutations submitted for step [k] in a history,
    and the number of those the ledger took. *)
Definition submitted (k : Step) (t : list Event) : nat := length (List.filter (submits k) t).
Definition accepted (k : Step) (t : list Event) : nat :=
  length (List.filter (submits_accepted k) t).

(** The event reads the holder's objects from the ledger. *)
Definition reads_holder (e : Event) : bool :=
  match e with
  | Ev c _ => match c with RequestAccountObjects _ => true | _ => false end
  end.

(** The event reads the issuance entry, and it shows RequireAuth. *)
Definition shows_require_auth (e : Event) : bool :=
  match e with
  | Ev c r =>
      match c in Ext X return settled Error X -> bool with
      | RequestLedgerEntry _ =>
          fun r => match r with
                   | Fulfilled (Some node) =>
                       negb (Z.land (match Flags node with Some f => f | None => 0 end) 4 =? 0)
                   | _ => false
                   end
      | _ => fun _ => false
      end r
  end.

(** [n] status polls of one payload, one after the other, in one world. *)
Fixpoint polls (issuerAddress : string) (w : World) (uuid : string) (n : nat)
    (h : list Event) (d : Db) : list Event * Db :=
  match n with
  | O => (h, d)
  | S n' =>
      let '(_, h', d') := exec no_promise w (get_payload issuerAddress uuid) h d in
      polls issuerAddress w uuid n' h' d'
  end.

(** A validated payment whose metadata reports the delivered amount [a]. *)
Definition payment_delivering (a : Amount) : LedgerTx :=
  {| validated := true;
     tx_json := Some {| Account := Some "rPayer"; DeliverMax := Some a; SendMax := None;
                        Amount_ := None |};
     top := {| Account := None; DeliverMax := None; SendMax := None; Amount_ := None |};
     meta := Some {| delivered_amount := Some a; DeliveredAmount := None |} |}.

(** The quantity as the specification words it: the delivered amount
    [n * 10^e10] times the rate of the asset type, truncated to an integer,
    in exact arithmetic. *)
Definition quantity_spec (n e10 rate : Z) : Z :=
  if 0 <=? e10 then n * 10 ^ e10 * rate else (n * rate) / 10 ^ (- e10).

(** A history in which nothing is submitted and nothing is read of the
    holder. *)
Definition quiet (t : list Event) : Prop :=
  (forall k, submitted k t = 0%nat) /\ existsb reads_holder t = false.

(** [kvGetBool(k, false)] on a database. *)
Definition kv_bool (d : Db) (k : string) : bool :=
  match kv d !! k with
  | None => false
  | Some v => String.eqb v "1" || String.eqb v "true" || String.eqb v "TRUE"
  end.

(** One submission of [tx] and nothing else of note: [a] tells whether the
    ledger took it. *)
Definition step_is (k : Step) (tx : TxJson) : bool :=
  match step_of_tx tx with Some k' => step_eqb k k' | None => false end.

Definition single_submit (tx : TxJson) (a : bool) (t : list Event) : Prop :=
  (forall k, submitted k t = if step_is k tx then 1%nat else 0%nat)
  /\ (forall k, accepted k t = if step_is k tx && a then 1%nat else 0%nat)
  /\ existsb reads_holder t = false.

(** What [submitAsIssuer] makes of the ledger's answer. *)
Definition result_of (res : SubmitResponse) : SubmitResult :=
  {| ok := ledger_accepts res;
     txid := or_else (res_hash res) None;
     engineResult := or_else (res_TransactionResult res) (res_transaction_result res);
     result := res |}.

(** The flags [getActiveIssuanceFlags] reads off the issuance entry. *)
Definition flags_of (node : LedgerNode) : IssuanceFlags :=
  let flags := match Flags node with Some f => f | None => 0 end in
  {| flags := flags;
     tfMPTCanLock := negb (Z.land flags 2 =? 0);
     tfMPTRequireAuth := negb (Z.land flags 4 =? 0);
     tfMPTCanClawback := negb (Z.land flags 64 =? 0) |}.

(** What one stage of the saga can do for its step [j]: nothing; or, the
    marker of [j] being absent, one submission the ledger did not take; or
    one the ledger took, recorded under the marker of [j]. *)
Definition stage_effect (j : Step) (uuid : string) (d : Db) (t : list Event) (d' : Db)
  : Prop :=
  (quiet t /\ kv d' = kv d)
  \/ (marked j uuid d = false /\
      exists tx, step_is j tx = true /\
        ((single_submit tx false t /\ kv d' = kv d)
         \/ (single_submit tx true t /\
             exists v, truthy (Some v) = true /\
                       kv d' = <[marker_key j uuid := v]> (kv d)))).

(** At-most-once, step by step: a step whose marker is stored is not
    submitted again and stays marked; a step whose marker is absent has at
    most one submission taken by the ledger, and is marked once one is. *)
Definition keeps (uuid : string) (d : Db) (t : list Event) (d' : Db) : Prop :=
  forall k,
    (marked k uuid d = true -> submitted k t = 0%nat /\ marked k uuid d' = true)
    /\ (marked k uuid d = false ->
        (accepted k t <= 1)%nat /\ (accepted k t = 1%nat -> marked k uuid d' = true)).

(** What the clawback entry of [actions] can report: done (now or already);
    the asset cannot claw back; the policy does not ask for it; or the
    ledger refused the clawback the issuer submitted. *)
Definition clawback_report (issuerAddress : string) (w : World) (fl : IssuanceFlags)
    (policy : Policy) (a : Action) : Prop :=
  (act_ok a = true /\ act_skipped a = false)
  \/ (a = act_skip false "MPT_CLAWBACK_NOT_ENABLED" /\ tfMPTCanClawback fl = false)
  \/ (act_skipped a = true /\ autoClawbackBlacklist policy && blacklisted policy = false)
  \/ (act_ok a = false /\ act_skipped a = false /\
      exists tx fill hist res,
        step_is Clawback tx = true /\
        answer w _ (SubmitAndWait issuerAddress tx fill) hist = Fulfilled res /\
        ledger_accepts res = false).

(** The policy as the saga reads it from the kv table, for a payer. *)
Definition policy_of (d : Db) (payer : string) : Policy :=
  {| autoLockAfterSwap := kv_bool d "POLICY_AUTO_LOCK_AFTER_SWAP";
     autoUnlockAfterSwap := kv_bool d "POLICY_AUTO_UNLOCK_AFTER_SWAP";
     autoClawbackBlacklist := kv_bool d "POLICY_AUTO_CLAWBACK_BLACKLIST";
     blacklisted := kv_bool d ("BLACKLIST_" +:+ payer) |}.

(** What a saga outcome with [ok: true] reports, after a run with history
    [t]: the policy read at the start, a clawback entry, and a lock entry
    that is the supersession skip, with no lock submitted, whenever
    auto-lock is on and the clawback entry reports success. *)
Definition saga_report (issuerAddress : string) (w : World) (fl : IssuanceFlags)
    (policy : Policy) (t : list Event) (auto : Auto) : Prop :=
  exists acts c l,
    auto_policy auto = Some policy /\ auto_actions auto = Some acts /\
    clawback acts = Some c /\ lock acts = Some l /\
    clawback_report issuerAddress w fl policy c /\
    (autoLockAfterSwap policy = true -> act_ok c = true -> act_skipped c = false ->
     l = act_skip true "SKIPPED_AFTER_SUCCESSFUL_CLAWBACK" /\ submitted Lock t = 0%nat).

(** What a saga outcome with [ok: true] says of the run behind it: the
    ledger showed an issuance entry, the saga read a payer, and the report
    holds for the flags of that entry and the policy of that payer. *)
Definition went_through (issuerAddress : string) (w : World) (d : Db) (t : list Event) (auto : Auto)
  : Prop :=
  exists node payer,
    (exists idx hist, answer w _ (RequestLedgerEntry idx) hist = Fulfilled (Some node))
    /\ saga_report issuerAddress w (flags_of node) (policy_of d payer) t auto.

(** The stored value of a policy flag after an update whose body holds [v]
    for it ([None]: the body does not define the flag), [old] being the
    value stored before. *)
Definition flag_after (v : option JsonValue) (old : option string) : option string :=
  match v with
  | Some v => Some (if json_truthy v then "1" else "0")
  | None => old
  end.

(** A postcondition on the run of a handler alone in a world: on its
    outcome, the history it leaves and the database it leaves. *)
Definition post {A} (w : World) (p : M A) (h : list Event) (d : Db)
    (Q : Outcome Error A -> list Event -> Db -> Prop) : Prop :=
  Q (fst (fst (exec no_promise w p h d))) (snd (fst (exec no_promise w p h d)))
    (snd (exec no_promise w p h d)).
Arguments post : simpl never.

End Observe.

(** ** Concrete runs of the swap saga *)

Module Scenarios.
Import JS Float64 Async MptIssuer Observe.

Definition issuer : string := "rIssuerAddressOfTheServer".
Definition payer : string := "rPayerOfTheSwap".
Definition issuanceId48 : string := "0000002A0123456789ABCDEF0123456789ABCDEF01234567".
Definition issuanceIndex64 : string :=
  "00112233445566778899AABBCCDDEEFF00112233445566778899AABBCCDDEEFF".

(** The validated payment of 1 XRP from the payer. *)
Definition paid_tx : LedgerTx :=
  {| validated := true;
     tx_json := Some {| Account := Some payer; DeliverMax := None; SendMax := None;
                        Amount_ := Some (AmtString "1000000") |};
     top := {| Account := None; DeliverMax := None; SendMax := None; Amount_ := None |};
     meta := Some {| delivered_amount := Some (AmtString "1000000");
                     DeliveredAmount := None |} |}.

(** A ledger whose issuance entry carries [node_flags], whose answer to a
    submitted transaction is the result code [verdict] gives it, and where
    the holder owns the objects [objects]; the wallet payload is signed. *)
Definition ledger_world (node_flags : Z) (verdict : TxJson -> string)
    (objects : list MPTokenObject) : World :=
  {| answer := fun X (c : Ext X) _ =>
       match c in Ext X return settled Error X with
       | XummPayloadGet _ =>
           Fulfilled (Some {| meta_resolved := true; meta_signed := true;
                              meta_cancelled := false; meta_expired := false;
                              response_txid := Some "TXID_OF_THE_PAYMENT" |})
       | GetXRPL => Fulfilled tt
       | RequestTx _ => Fulfilled (Some paid_tx)
       | Sleep _ => Fulfilled tt
       | RequestLedgerEntry _ =>
           Fulfilled (Some {| Issuer := Some issuer; Flags := Some node_flags |})
       | RequestAccountObjects _ => Fulfilled objects
       | Autofill _ _ => Fulfilled {| Sequence := 7; Fee := "12"; LastLedgerSequence := 100 |}
       | SubmitAndWait _ tx _ =>
           Fulfilled {| res_validated := true; res_hash := Some "HASH_OF_THE_MUTATION";
                        res_TransactionResult := Some (verdict tx);
                        res_transaction_result := None |}
       end;
     clock := fun _ => 1700000000000 |}.

(** A database with the active issuance and the given kv entries. *)
Definition swap_db (entries : list (string * string)) : Db :=
  {| kv := list_to_map (("KFD_ISSUANCE_ID", issuanceId48) ::
                        ("KFD_ISSUANCE_INDEX", issuanceIndex64) :: entries);
     xumm_payloads := ∅; authorizations := []; transfers := []; clawbacks := [];
     account_locks := [] |}.

(** The ledger takes everything. *)
Definition all_success (tx : TxJson) : string := "tesSUCCESS".

(** The ledger refuses payments. *)
Definition no_payment (tx : TxJson) : string :=
  match tx with PaymentMPT _ _ _ => "tecNO_AUTH" | _ => "tesSUCCESS" end.


(** The policy of the precedence claim: lock and clawback on, payer
    blacklisted. *)
Definition strict_policy : list (string * string) :=
  [("POLICY_AUTO_LOCK_AFTER_SWAP", "1"); ("POLICY_AUTO_CLAWBACK_BLACKLIST", "1");
   ("BLACKLIST_" +:+ payer, "1")].


Definition history_of (w : World) (d : Db) : list Event :=
  snd (fst (exec no_promise w (get_payload issuer "UUID-1") [] d)).


End Scenarios.

(** ** A concrete burn redemption *)

Module LockerScenarios.
Import JS Async SmartLocker.

Definition holder : string := "rHolderOfTheReceipt".
Definition token : string :=
  "000800006203F49C21D5D6E022CB16DE3538F248662FC73C00000099000000AB".

(** The wallet reports the burn payload signed, with a txid; the ledger
    still lists the token among the holder's NFTs. *)
Definition still_held_world : World Error Ext :=
  {| answer := fun X (c : Ext X) _ =>
       match c in Ext X return settled Error X with
       | XummPayloadGet _ =>
           Fulfilled (Some {| meta_resolved := true; meta_signed := true;
                              meta_cancelled := false;
                              response_txid := Some "TXID_OF_THE_SIGNED_BURN";
                              meta_txid := None; application_txid := None |})
       | Connect => Fulfilled tt
       | RequestAccountNfts _ _ => Fulfilled [{| NFTokenID := Some token |}]
       | Disconnect => Fulfilled tt
       end;
     clock := fun _ => 1700000000000 |}.

(** The redemption was opened for that holder and that token, and the
    locker has not been opened for it. *)
Definition pending_redeem : State :=
  {| redeems := {[ "BURN-1" := {| account := Some holder; nftokenId := Some token;
                                  unlocked := false |} ]};
     console := [] |}.

End LockerScenarios.

(** ** What a run of the order server shows *)

Module OrderObserve.
Import JS Async AiOrder.

Abbreviation Event := (Async.Event Error Ext).
Abbreviation World := (Async.World Error Ext).

(** The event asks the ledger for a transaction: a payment is verified. *)
Definition verifies (e : Event) : bool :=
  match e with
  | Ev c _ => match c with RequestTx _ => true | _ => false end
  end.

Definition verifications (t : list Event) : nat := length (List.filter verifies t).

(** The operation creates a wallet payload for a payment. *)
Definition creates_payment (i : Async.Issued Ext) : bool :=
  match i with
  | Iss c => match c with XummPayloadCreate (Payment _ _ _) _ => true | _ => false end
  end.

Definition payments_created (l : list (Async.Issued Ext)) : nat :=
  length (List.filter creates_payment l).

(** The order as a poll signed by [buyer] with [txid] leaves it before it
    compares the buyers: buyer and txid are filled where they were empty. *)
Definition pin (buyer txid : option string) (o : Order) : Order :=
  let o1 := if negb (truthy (order_buyer o)) then set_buyer buyer o else o in
  if negb (truthy (order_txid o1)) then set_txid txid o1 else o1.

(** The account [b] is pinned as the buyer of the order [ref]. *)
Definition pinned (ref : nat) (b : string) (s : State) : Prop :=
  b <> "" /\ exists o, orderObjects s !! ref = Some o /\ order_buyer o = Some b.

(** An entry stamped [stamp] is older than [ttl] at time [t], as the sweep
    has it: entries without a stamp are never old. *)
Definition expired (ttl t stamp : Z) : bool := negb (stamp =? 0) && (ttl <? t - stamp).

(** The order is completed, stamped, and older than [ttl] at time [t]. *)
Definition order_expired (ttl t : Z) (o : Order) : bool :=
  match status o with
  | Completed => truthyZ (completedAt o) && (ttl <? t - default 0 (completedAt o))
  | Created => false
  end.

(** What a sweep leaves of an entry stamped [stamp]. *)
Definition swept {A} (ttl t : Z) (stamp : Z) (v : A) : option A :=
  if expired ttl t stamp then None else Some v.

End OrderObserve.

(** ** A concrete shop *)

Module OrderScenarios.
Import JS Async AiOrder OrderObserve.

(** The configuration: the defaults of the server for the times. *)
Definition store : string := "rStoreWalletOfTheShop".
Definition rlusd_issuer : string := "rIssuerOfTheRlusdToken".
Definition rlusd_currency : string := "RLUSD".
Definition issuance : string := "0000002A0123456789ABCDEF0123456789ABCDEF01234567".
Definition order_ttl : Z := 600000.
Definition create_cache : Z := 60000.
Definition trust_cache : Z := 30000.
Definition tx_ttl : Z := 1800000.

Definition buy_status : option string -> M Reply :=
  AiOrder.buy_status store rlusd_issuer rlusd_currency issuance.
Definition create_order : list Item -> option string -> option string -> M Reply :=
  AiOrder.create_order store rlusd_issuer rlusd_currency issuance create_cache trust_cache.
Definition sweep : M unit := AiOrder.sweep order_ttl create_cache trust_cache tx_ttl.

Definition no_state : State :=
  {| processedTx := ∅; txCache := ∅; inflight := ∅; orderObjects := ∅;
     ordersByPaymentPayload := ∅; completedByPayload := ∅; createOrderInflight := ∅;
     createOrderCache := ∅; trustlineStatusCache := ∅; promises := ∅; next_ref := 0 |}.

(** One americano, to be paid in XRP, ordered at time 1000. *)
Definition an_order (buyer : option string) (st : OrderStatus) (done : option Z) : Order :=
  {| items := [{| product_id := 1; qty := Some 1 |}]; total := 1; buyer := buyer;
     paymentMethod := Xrp; status := st; createdAt := 1000; completedAt := done;
     txid := None; orderKey := "xrp|rAlice|[]" |}.

(** The shop with the order of payload PAY-1, whose buyer is [buyer]. *)
Definition shop (buyer : option string) : State :=
  with_next_ref (fun _ => 1%nat)
    (with_ordersByPaymentPayload (fun _ => {[ "PAY-1" := 0%nat ]})
       (with_orderObjects (fun _ => {[ 0%nat := an_order buyer Created None ]}) no_state)).

(** The payment TX-1: validated and successful, but sent to another
    account than the store. *)
Definition misdirected : Tx :=
  {| validated := Some true; TransactionType := Some "Payment";
     Account := Some "rAlice"; Destination := Some "rSomeoneElse";
     meta_TransactionResult := Some "tesSUCCESS"; Amount := Some (AString "1000000") |}.

(** A world at time [time] where the payload PAY-1 is signed by [signer]
    with the transaction TX-1. *)
Definition signed_world (signer : string) (time : Z) : World :=
  {| answer := fun X (c : Ext X) _ =>
       match c in Ext X return settled Error X with
       | XummPayloadGet _ =>
           Fulfilled (Some {| meta_signed := Some true;
                              response := Some {| response_account := Some signer;
                                                  response_txid := Some "TX-1" |} |})
       | XummPayloadCreate _ _ =>
           Fulfilled (Some {| created_uuid := Some "PAY-2"; created_qr_png := Some "qr.png";
                              created_always := Some "https://sign" |})
       | Connect => Fulfilled tt
       | Disconnect => Fulfilled tt
       | RequestTx _ => Fulfilled (Some misdirected)
       | RequestAccountLines _ _ => Fulfilled []
       | ImportModule _ => Fulfilled false
       | PinMetadata _ => Fulfilled (None, None)
       | SubmitAndWait _ => Fulfilled None
       end;
     clock := fun _ => time |}.

(** The answers of the wallet service and the ledger to a creation. *)
Definition creation_answers : forall X, Ext X -> settled Error X :=
  fun X c => answer (signed_world "rAlice" 0) X c [].

(** A poll at time 2000, a sweep 31 minutes later, a poll again. *)
Definition poll_sweep_poll : Outcome Error Reply * Outcome Error Reply * list Event :=
  let '(r1, h1, s1) := exec promise_of (signed_world "rAlice" 2000)
                         (buy_status (Some "PAY-1")) [] (shop (Some "rAlice")) in
  let '(_, h2, s2) := exec promise_of (signed_world "rAlice" 3862000) sweep h1 s1 in
  let '(r3, h3, _) := exec promise_of (signed_world "rAlice" 3862000)
                        (buy_status (Some "PAY-1")) h2 s2 in
  (r1, r3, h3).

(** The shop with an open order and a completed one, both placed long ago. *)
Definition old_orders : State :=
  with_next_ref (fun _ => 2%nat)
    (with_ordersByPaymentPayload (fun _ => {[ "PAY-1" := 0%nat; "PAY-0" := 1%nat ]})
       (with_orderObjects
          (fun _ => {[ 0%nat := an_order (Some "rAlice") Created None;
                       1%nat := an_order (Some "rBob") Completed (Some 1500) ]})
          no_state)).

End OrderScenarios.


(** ** More of what a run of the issuer shows *)

Module IssuerObserve.
Import JS Float64 Async MptIssuer Observe.

(** The event submits a transaction to the ledger. *)
Definition is_submit (e : Event) : bool :=
  match submission e with Some _ => true | None => false end.

(** The event reads the issuance entry, and the entry names [issuer]. *)
Definition reads_issuer (issuer : string) (e : Event) : bool :=
  match e with
  | Ev c r =>
      match c in Ext X return settled Error X -> bool with
      | RequestLedgerEntry _ =>
          fun r => match r with
                   | Fulfilled (Some node) => bool_decide (Issuer node = Some issuer)
                   | _ => false
                   end
      | _ => fun _ => false
      end r
  end.

(** The event asks the ledger for the transaction [txid]. *)
Definition asks_tx (txid : string) (e : Event) : bool :=
  match e with
  | Ev c _ => match c with RequestTx t => String.eqb t txid | _ => false end
  end.

Definition tx_requests (txid : string) (t : list Event) : nat :=
  length (List.filter (asks_tx txid) t).

(** [0-9A-F] *)
Definition is_upper_hex_char (c : ascii) : bool :=
  let n := nat_of_ascii c in
  ((48 <=? n)%nat && (n <=? 57)%nat) || ((65 <=? n)%nat && (n <=? 70)%nat).

(** The UNIQUE constraint on [txid] of the four audit tables. *)
Definition txids_unique (d : Db) : Prop :=
  NoDup (map auth_txid (authorizations d))
  /\ NoDup (map tr_txid (transfers d))
  /\ NoDup (map cb_txid (clawbacks d))
  /\ NoDup (map lk_txid (account_locks d)).

(** The history submits nothing but for the step [j], and for it one
    transaction at most. *)
Definition only (j : Step) (t : list Event) : Prop :=
  (forall k, k <> j -> submitted k t = 0%nat) /\ (submitted j t <= 1)%nat.

(** The history holds one lock or one unlock at most, not both. *)
Definition never_both (t : list Event) : Prop :=
  (submitted Lock t + submitted Unlock t <= 1)%nat.

(** The string holds ASCII characters only. *)
Definition is_ascii (s : string) : bool :=
  all_chars (fun c => (nat_of_ascii c <? 128)%nat) s.

(** A wallet that reports the payload opened but not signed. *)
Definition unsigned_world : World :=
  {| answer := fun X (c : Ext X) h =>
       match c in Ext X return settled Error X with
       | XummPayloadGet _ =>
           Fulfilled (Some {| meta_resolved := false; meta_signed := false;
                              meta_cancelled := false; meta_expired := false;
                              response_txid := None |})
       | c' => answer (Scenarios.ledger_world 0 Scenarios.all_success []) _ c' h
       end;
     clock := fun _ => 1700000000000 |}.

(** A validated payment of 5 units of the issued currency [cur]. *)
Definition iou_payment (cur : string) : LedgerTx :=
  payment_delivering (AmtObject (Some cur) (Some "5")).

End IssuerObserve.

(** ** MPT-Issuer: the manual endpoints

    The bodies of the requests are read as far as the handlers read them;
    a field holds a string or is absent. *)

Module IssuerEndpoints.
Import JS Float64 Async MptIssuer.
Local Open Scope prog_scope.

(** [1-9A-HJ-NP-Za-km-z] *)
Definition is_base58_char (c : ascii) : bool :=
  let n := nat_of_ascii c in
  ((49 <=? n)%nat && (n <=? 57)%nat)
  || ((65 <=? n)%nat && (n <=? 72)%nat)
  || ((74 <=? n)%nat && (n <=? 78)%nat)
  || ((80 <=? n)%nat && (n <=? 90)%nat)
  || ((97 <=? n)%nat && (n <=? 107)%nat)
  || ((109 <=? n)%nat && (n <=? 122)%nat).

(** [/^r[1-9A-HJ-NP-Za-km-z]{25,34}$/.test(s)] *)
Definition is_r_address (s : string) : bool :=
  match s with
  | String c rest =>
      Ascii.eqb c "r"
      && (25 <=? String.length rest)%nat && (String.length rest <=? 34)%nat
      && all_chars is_base58_char rest
  | EmptyString => false
  end.

Definition mustRAddress (name : string) (v : option string) : M string :=
  let s := trim (str_or_empty v) in
  if negb (is_r_address s)
  then Throw {| message := name +:+ "_INVALID_R_ADDRESS"; status := Some 400;
                detail := Some name |}
  else Ret s.

(** [e.status || 500] *)
Definition status_or_500 (e : Error) : Z :=
  match status e with
  | Some c => if c =? 0 then 500 else c
  | None => 500
  end.

(** [try { ... } catch (e) { res.status(e.status || 500).json({ error:
    e.message || String(e), ... }) }] *)
Definition answering {B} (p : M (Reply B)) : M (Reply B) :=
  try_catch p (fun e => Ret (Failure (status_or_500 e) (error_text e))).

(** *** The blacklist *)

Record BlacklistReply : Type := {
  bl_holder : string;
  bl_blacklisted : bool
}.

(** [app.post("/api/kfd/blacklist/add")] *)
Definition blacklist_add (holder : option string) : M (Reply BlacklistReply) :=
  answering
    (holder <- mustRAddress "holder" holder ;;
     kvSet ("BLACKLIST_" +:+ holder) "1" ;;;
     Ret (Json {| bl_holder := holder; bl_blacklisted := true |})).

(** [app.post("/api/kfd/blacklist/remove")] *)
Definition blacklist_remove (holder : option string) : M (Reply BlacklistReply) :=
  answering
    (holder <- mustRAddress "holder" holder ;;
     kvSet ("BLACKLIST_" +:+ holder) "0" ;;;
     Ret (Json {| bl_holder := holder; bl_blacklisted := false |})).

(** [app.get("/api/kfd/blacklist/:holder")] *)
Definition blacklist_get (holder : option string) : M (Reply BlacklistReply) :=
  answering
    (holder <- mustRAddress "holder" holder ;;
     b <- isBlacklisted holder ;;
     Ret (Json {| bl_holder := holder; bl_blacklisted := b |})).

(** *** Clawback, lock and unlock by hand *)

Record ActionBody : Type := {
  body_issuanceId : option string;
  body_holder : option string;
  body_value : option string
}.

(** [{ mode: "auto", txid, engineResult }] *)
Record ActionReply : Type := {
  rep_txid : option string;
  rep_engineResult : option string
}.

Definition is_digit (c : ascii) : bool :=
  let n := nat_of_ascii c in (48 <=? n)%nat && (n <=? 57)%nat.

(** [/^\d+$/.test(s)] *)
Definition is_digits (s : string) : bool :=
  negb (String.eqb s "") && all_chars is_digit s.

Section Server.
Variable issuerAddress : string.

(** [app.post("/api/kfd/clawback")] *)
Definition post_clawback (body : ActionBody) : M (Reply ActionReply) :=
  answering
    (issuanceId48 <- getActiveIssuanceId48OrThrow (body_issuanceId body) ;;
     holder <- mustRAddress "holder" (body_holder body) ;;
     let value := trim (str_or_empty (body_value body)) in
     if negb (is_digits value) || leb (Number_of_string value) (ofZ 0)
     then Ret (Failure 400 "value required (positive integer string for MPT raw units)")
     else
       flags <- getActiveIssuanceFlags ;;
       match flags with
       | None => Ret (Failure 400 "ISSUANCE_INDEX_NOT_SET_OR_NOT_FOUND")
       | Some flags =>
           if negb (tfMPTCanClawback flags)
           then Ret (Failure 400 "MPT_CLAWBACK_NOT_ENABLED")
           else
             out <- issuerClawbackMPT issuerAddress issuanceId48 holder value ;;
             if negb (ok out)
             then Ret (Failure 400 ("clawback failed: " +:+ String_of (engineResult out)))
             else
               tryInsertClawback issuerAddress holder issuanceId48 (Some value)
                 (txid out) "API_CLAWBACK" ;;;
               Ret (Json {| rep_txid := txid out; rep_engineResult := engineResult out |})
       end).

(** [app.post("/api/kfd/lock")] *)
Definition post_lock (body : ActionBody) : M (Reply ActionReply) :=
  answering
    (issuanceId48 <- getActiveIssuanceId48OrThrow (body_issuanceId body) ;;
     holder <- mustRAddress "holder" (body_holder body) ;;
     flags <- getActiveIssuanceFlags ;;
     match flags with
     | None => Ret (Failure 400 "ISSUANCE_INDEX_NOT_SET_OR_NOT_FOUND")
     | Some flags =>
         if negb (tfMPTCanLock flags)
         then Ret (Failure 400 "MPT_LOCK_NOT_ENABLED")
         else
           out <- issuerLockHolder issuerAddress issuanceId48 holder ;;
           if negb (ok out)
           then Ret (Failure 400 ("lock failed: " +:+ String_of (engineResult out)))
           else
             tryInsertLockAction holder issuanceId48 true (txid out) "API_LOCK" ;;;
             Ret (Json {| rep_txid := txid out; rep_engineResult := engineResult out |})
     end).

(** [app.post("/api/kfd/unlock")] *)
Definition post_unlock (body : ActionBody) : M (Reply ActionReply) :=
  answering
    (issuanceId48 <- getActiveIssuanceId48OrThrow (body_issuanceId body) ;;
     holder <- mustRAddress "holder" (body_holder body) ;;
     flags <- getActiveIssuanceFlags ;;
     match flags with
     | None => Ret (Failure 400 "ISSUANCE_INDEX_NOT_SET_OR_NOT_FOUND")
     | Some flags =>
         if negb (tfMPTCanLock flags)
         then Ret (Failure 400 "MPT_LOCK_NOT_ENABLED")
         else
           out <- issuerUnlockHolder issuerAddress issuanceId48 holder ;;
           if negb (ok out)
           then Ret (Failure 400 ("unlock failed: " +:+ String_of (engineResult out)))
           else
             tryInsertLockAction holder issuanceId48 false (txid out) "API_UNLOCK" ;;;
             Ret (Json {| rep_txid := txid out; rep_engineResult := engineResult out |})
     end).

End Server.

End IssuerEndpoints.

(** ** More of what a run of the order server shows *)

Module OrderObserveMore.
Import JS Async AiOrder OrderObserve.

Section Server.
Variables (STORE_ADDRESS RLUSD_ISSUER RLUSD_CURRENCY KFD_MPT_ISSUANCE_ID : string).

(** The amount of a transaction is the total of the order in the asset of
    the payment method. *)
Definition amount_pays (m : PaymentMethod) (total : Z) (amt : option TxAmount) : Prop :=
  match m, amt with
  | Xrp, Some (AString a) => a = pretty (total * 1000000)
  | Rlusd, Some (AObject o) =>
      safeUpper (amt_currency o) = safeUpper (Some RLUSD_CURRENCY)
      /\ trim (str_or_empty (or_else (amt_issuer o) None)) = RLUSD_ISSUER
      /\ str_or_empty (amt_value o) = pretty total
  | Mpt, Some (AObject o) =>
      safeUpper (amt_mpt_issuance_id o) = KFD_MPT_ISSUANCE_ID
      /\ str_or_empty (amt_value o) = pretty total
  | _, _ => False
  end.

(** The transaction is a successful payment of [total] by [buyer] to the
    store, not reported as unvalidated. *)
Definition pays (buyer : option string) (total : Z) (m : PaymentMethod) (tx : Tx) : Prop :=
  validated tx <> Some false
  /\ TransactionType tx = Some "Payment"
  /\ buyer = Some (trim (str_or_empty (or_else (Account tx) None)))
  /\ trim (str_or_empty (or_else (Destination tx) None)) = STORE_ADDRESS
  /\ meta_TransactionResult tx = Some "tesSUCCESS"
  /\ amount_pays m total (Amount tx).

End Server.

(** The event submits the mint of a receipt. *)
Definition is_mint (e : Event) : bool :=
  match e with
  | Ev c _ => match c with SubmitAndWait (NFTokenMint _) => true | _ => false end
  end.

Definition mint_submissions (t : list Event) : nat := length (List.filter is_mint t).

(** The product an event pins the metadata of, if it pins any. *)
Definition pinned (e : Event) : option string :=
  match e with
  | Ev c _ => match c with PinMetadata product => Some product | _ => None end
  end.




(** A world where the ledger cannot be reached. *)
Definition offline_world : World :=
  {| answer := fun X (c : Ext X) h =>
       match c in Ext X return settled Error X with
       | Connect => Rejected (plain_error "connect ECONNREFUSED")
       | c' => answer (OrderScenarios.signed_world "rAlice" 2000) _ c' h
       end;
     clock := fun _ => 2000 |}.

End OrderObserveMore.

(** ** AI-order/server.js: the currency code of the configuration *)

Module OrderCodes.
Import JS.








End OrderCodes.

(** ** More of what a run of the locker shows *)

Module LockerObserve.
Import JS Async SmartLocker.

Abbreviation Event := (Async.Event Error Ext).
Abbreviation World := (Async.World Error Ext).

(** The number of [[OPEN]] lines printed for the redemption [u]. *)
Definition opened (u : string) (s : State) : nat :=
  length (List.filter (fun l => String.eqb (open_burnUuid l) u) (console s)).

(** Every redemption has opened the locker at most once, and one that has
    is marked unlocked. *)
Definition opens_once (s : State) : Prop :=
  forall u, (opened u s <= 1)%nat
            /\ (opened u s = 1%nat -> exists r, redeems s !! u = Some r /\ unlocked r = true).

(** The entry of a redemption, as the status handler reads it. *)
Definition entry_of (s : State) (u : string) : Redeem :=
  match redeems s !! u with
  | Some r => r
  | None => {| account := None; nftokenId := None; unlocked := false |}
  end.

(** The state after the locker opened for [u]. *)
Definition open_for (u : string) (line : OpenLine) (s : State) : State :=
  {| redeems := <[u := {| account := account (entry_of s u);
                          nftokenId := nftokenId (entry_of s u);
                          unlocked := true |}]> (redeems s);
     console := console s ++ [line] |}.

(** The token is among the listed ones, compared in upper case. *)
Definition lists_token (nftokenId : string) (nfts : list NFToken) : bool :=
  existsb (fun n => String.eqb (toUpperCase (str_or_empty (NFTokenID n)))
                               (toUpperCase nftokenId)) nfts.

(** No redemption is registered, nothing was printed. *)
Definition empty_locker : State := {| redeems := ∅; console := [] |}.

End LockerObserve.

(** ** Smart-Locker/server.js: sign-in, the token list, redemption

    The sessions of the sign-in and the endpoints that need one.  The
    redemptions and the console are those of the status handler. *)

Module LockerDesk.
Import JS Async.

(** An entry of [sessions], set by [GET /api/login/status]. *)
Record Session : Type := {
  sess_account : option string;
  sess_createdAt : Z
}.

Record State : Type := {
  sessions : gmap string Session;
  locker : SmartLocker.State
}.

Definition with_sessions (f : gmap string Session -> gmap string Session) (s : State)
  : State :=
  {| sessions := f (sessions s); locker := locker s |}.

(** [redeems.set(uuid, r)] *)
Definition with_redeem (uuid : string) (r : SmartLocker.Redeem) (s : State) : State :=
  {| sessions := sessions s;
     locker := {| SmartLocker.redeems := <[uuid := r]> (SmartLocker.redeems (locker s));
                  SmartLocker.console := SmartLocker.console (locker s) |} |}.

Record Error : Type := { message : string }.

(** [xumm.payload.get(uuid)] of a SignIn payload, as far as the handler
    reads it. *)
Record SignIn : Type := {
  meta_resolved : bool;
  meta_signed : bool;
  meta_cancelled : bool;
  response_account : option string;
  meta_account : option string
}.

(** [payload.refs] *)
Record Refs : Type := {
  qr_png : option string;
  websocket_status : option string
}.

(** What [xumm.payload.create] returns. *)
Record Created : Type := {
  created_uuid : option string;
  created_refs : option Refs
}.

(** A token of [account_nfts]. *)
Record Nft : Type := {
  NFTokenID : option string;
  Issuer : option string;
  issuer : option string
}.

Inductive Ext : Type -> Type :=
| XummPayloadGet (uuid : string) : Ext (option SignIn)
| XummCreateBurn (account : option string) (nftokenId : string) : Ext (option Created)
| Connect : Ext unit
| RequestAccountNfts (account : string) (limit : Z) : Ext (list Nft)
| Disconnect : Ext unit.

Abbreviation M := (Prog State Error Ext unit).

Local Open Scope prog_scope.

Definition no_promise (s : State) (p : nat) : option (settled Error unit) := None.

(** [String(e?.message || e)] *)
Definition error_text (e : Error) : string :=
  if String.eqb (message e) "" then "Error" else message e.

(** [getAccountNFTs]: connect and read inside [try], disconnect in
    [finally], its own failure swallowed. *)
Definition getAccountNFTs (account : string) : M (list Nft) :=
  try_finally
    (await Connect ;;;
     await (RequestAccountNfts account 400))
    (try_catch (await Disconnect) (fun _ => Ret tt)).

Record LoginStatus : Type := {
  login_resolved : bool;
  login_signed : bool;
  login_cancelled : bool;
  login_account : option string
}.

Record NftList : Type := {
  list_account : option string;
  list_count : nat;
  list_nfts : list Nft
}.

Record RedeemCreated : Type := {
  burnUuid : option string;
  redeem_qr : option string;
  redeem_websocket : option string
}.

Inductive Reply (B : Type) : Type :=
| Json (body : B)
| Failure (code : Z) (error : string).
Arguments Json {B} body.
Arguments Failure {B} code error.

Section Server.
Variable ISSUER_ADDRESS : string.

(** [app.get("/api/login/status")] *)
Definition login_status (query_uuid : option string) : M (Reply LoginStatus) :=
  let uuid := trim (str_or_empty (or_else query_uuid None)) in
  if String.eqb uuid "" then Ret (Failure 400 "missing uuid")
  else
    try_catch
      (p <- await (XummPayloadGet uuid) ;;
       let resolved := match p with Some p => meta_resolved p | None => false end in
       let signed := match p with Some p => meta_signed p | None => false end in
       let cancelled := match p with Some p => meta_cancelled p | None => false end in
       let account := match p with
                      | Some p => or_else (response_account p) (or_else (meta_account p) None)
                      | None => None
                      end in
       (if signed && truthy account
        then t <- now ;;
             modify (with_sessions
                       (<[uuid := {| sess_account := account; sess_createdAt := t |}]>))
        else Ret tt) ;;;
       Ret (Json {| login_resolved := resolved; login_signed := signed;
                    login_cancelled := cancelled; login_account := account |}))
      (fun e => Ret (Failure 500 (error_text e))).

(** The filter of [/api/nfts]: the tokens of the configured issuer. *)
Definition issued_here (n : Nft) : bool :=
  let iss := trim (str_or_empty (or_else (Issuer n) (or_else (issuer n) None))) in
  negb (String.eqb iss "") && String.eqb (toUpperCase iss) (toUpperCase ISSUER_ADDRESS).

(** [s?.account] of the session of [uuid]. *)
Definition session_account (s : State) (uuid : string) : option string :=
  match sessions s !! uuid with
  | Some sess => sess_account sess
  | None => None
  end.

(** [app.get("/api/nfts")] *)
Definition list_nfts_of (query_uuid : option string) : M (Reply NftList) :=
  let uuid := trim (str_or_empty (or_else query_uuid None)) in
  if String.eqb uuid "" then Ret (Failure 400 "missing uuid")
  else
    s <- get ;;
    let account := session_account s uuid in
    if negb (truthy account) then Ret (Failure 401 "not logged in")
    else
      try_catch
        (nfts <- getAccountNFTs (str_or_empty account) ;;
         let filtered := List.filter issued_here nfts in
         Ret (Json {| list_account := account; list_count := length filtered;
                      list_nfts := filtered |}))
        (fun e => Ret (Failure 500 (error_text e))).

(** [app.post("/api/redeem")].  An entry stored under a missing payload id
    is under no key a status poll can ask for: it is left out. *)
Definition redeem (body_uuid body_nftokenId : option string) : M (Reply RedeemCreated) :=
  let uuid := trim (str_or_empty (or_else body_uuid None)) in
  let nftokenId := trim (str_or_empty (or_else body_nftokenId None)) in
  if String.eqb uuid "" then Ret (Failure 400 "missing uuid")
  else if String.eqb nftokenId "" then Ret (Failure 400 "missing nftokenId")
  else
    s <- get ;;
    let account := session_account s uuid in
    if negb (truthy account) then Ret (Failure 401 "not logged in")
    else
      try_catch
        (payload <- await (XummCreateBurn account nftokenId) ;;
         match payload with
         | None => Throw {| message := "Cannot read properties of null" |}
         | Some payload =>
             match created_uuid payload with
             | Some burn =>
                 modify (with_redeem burn
                           {| SmartLocker.account := account;
                              SmartLocker.nftokenId := Some nftokenId;
                              SmartLocker.unlocked := false |})
             | None => Ret tt
             end ;;;
             match created_refs payload with
             | None => Throw {| message := "Cannot read properties of undefined" |}
             | Some refs =>
                 Ret (Json {| burnUuid := created_uuid payload;
                              redeem_qr := qr_png refs;
                              redeem_websocket := websocket_status refs |})
             end
         end)
        (fun e => Ret (Failure 500 (error_text e))).

(** [app.post("/api/logout")] *)
Definition logout (body_uuid : option string) : M bool :=
  let uuid := trim (str_or_empty (or_else body_uuid None)) in
  (if negb (String.eqb uuid "") then modify (with_sessions (delete uuid)) else Ret tt) ;;;
  Ret true.

End Server.

Abbreviation Event := (Async.Event Error Ext).
Abbreviation World := (Async.World Error Ext).

End LockerDesk.

(** ** Handlers that overlap, in a world

    The pool of [Async] with the history of the operations settled so far:
    the world answers an operation from that history, as it does for a
    handler alone, and tells the time. *)

Module Interleaved.
Import Async.

Section Run.
Context {St Err : Type} {Ext : Type -> Type} {R : Type}.
Variable promise_of : St -> nat -> option (settled Err R).
Context {H : Type}.

(** The server at work: the pool, and the operations settled so far. *)
Definition Server : Type := (Pool St Err Ext R H * list (Event Err Ext))%type.

(** The server starts on the state [s]: no handler, nothing settled. *)
Definition boot (s : St) : Server := (Build_Pool s [] [] [] 0, []).

(** A request arrives and its handler runs up to its first await. *)
Definition request (w : World Err Ext) (h : Prog St Err Ext R H) (sv : Server) : Server :=
  (arrive promise_of (clock w (snd sv)) h (fst sv), snd sv).

(** The operation handler [id] awaits settles, to what the world answers
    after the history so far; the handler runs up to its next await.
    Nothing happens if [id] awaits no operation. *)
Definition settles (w : World Err Ext) (id : nat) (sv : Server) : Server :=
  match take_task St Err Ext R id (tasks (fst sv)) with
  | Some (BCall c _, _) =>
      (resolve promise_of (clock w (snd sv)) id (fun X c' => answer w X c' (snd sv)) (fst sv),
       (snd sv ++ [Ev c (answer w _ c (snd sv))])%list)
  | _ => sv
  end.

(** The awaited operations settle in the order [ids] names their handlers. *)
Fixpoint settle_in_order (w : World Err Ext) (ids : list nat) (sv : Server) : Server :=
  match ids with
  | [] => sv
  | id :: rest => settle_in_order w rest (settles w id sv)
  end.

End Run.

End Interleaved.

(** ** Two overlapping polls of one paid payload *)

Module IssuerRace.
Import JS Float64 Async MptIssuer Observe Interleaved.

(** The transactions of the issuer the ledger has taken so far. *)
Definition taken (h : list Event) : Z :=
  Z.of_nat (length (List.filter
                      (fun e => match submission e with
                                | Some (_, a) => a
                                | None => false
                                end) h)).

(** A ledger that keeps the sequence number of the issuer account: it
    starts at 7 and moves on with every transaction taken.  [autofill]
    gives the current number, and a submission is taken when it carries
    the current number (its hash names the number) and refused with
    [tefPAST_SEQ] otherwise.  The wallet payload is signed, the payment of
    1 XRP validated, and the issuance does not require authorization. *)
Definition sequenced_ledger : World :=
  {| answer := fun X (c : Ext X) h =>
       match c in Ext X return settled Error X with
       | Autofill _ _ =>
           Fulfilled {| Sequence := 7 + taken h; Fee := "12"; LastLedgerSequence := 100 |}
       | SubmitAndWait _ _ fill =>
           if Sequence fill =? 7 + taken h
           then Fulfilled {| res_validated := true;
                             res_hash := Some ("HASH-" +:+ pretty (Sequence fill));
                             res_TransactionResult := Some "tesSUCCESS";
                             res_transaction_result := None |}
           else Fulfilled {| res_validated := false; res_hash := None;
                             res_TransactionResult := Some "tefPAST_SEQ";
                             res_transaction_result := None |}
       | c' => answer (Scenarios.ledger_world 0 Scenarios.all_success []) _ c' h
       end;
     clock := fun _ => 1700000000000 |}.

Definition poll : M (Reply PollResponse) := get_payload Scenarios.issuer "UUID-1".

(** Poll 0 arrives and runs until it awaits the submission of its payment
    (nine operations settle).  Poll 1 arrives and runs until the saga has
    read the policy and the issue marker (five operations settle).  The
    submission of poll 0 settles, then the five operations poll 1 still
    awaits. *)
Definition overlapping_polls : Server (H := Reply PollResponse) :=
  settle_in_order no_promise sequenced_ledger [1; 1; 1; 1; 1]%nat
    (settles no_promise sequenced_ledger 0%nat
       (settle_in_order no_promise sequenced_ledger [1; 1; 1; 1; 1]%nat
          (request no_promise sequenced_ledger poll
             (settle_in_order no_promise sequenced_ledger [0; 0; 0; 0; 0; 0; 0; 0; 0]%nat
                (request no_promise sequenced_ledger poll
                   (boot (Scenarios.swap_db []))))))).

(** The issue entry a poll replied: its txid, and whether it is reported as
    done already. *)
Definition issue_reported (r : nat * settled Error (Reply PollResponse))
  : option (option string * bool) :=
  match snd r with
  | Fulfilled (Json body) =>
      match poll_auto body with
      | Some auto =>
          match auto_actions auto with
          | Some acts =>
              match issue acts with
              | Some a => Some (act_txid a, act_already a)
              | None => None
              end
          | None => None
          end
      | None => None
      end
  | _ => None
  end.

End IssuerRace.

(** ** Integers as binary64 numbers *)

Module IntegerForms.
Import Float64.

(** [m * 2^n] *)
Definition shl (m : positive) (n : nat) : positive := Nat.iter n xO m.

(** The binary digits of a positive number. *)
Definition digits (v : positive) : nat := Pos.to_nat (digits2_pos v).

(** The binary64 number of sign [s] and magnitude [v], for [v] of at most
    53 digits: the mantissa is [v] shifted to 53 digits. *)
Definition canon (s : bool) (v : positive) : float :=
  S754_finite s (shl v (53 - digits v)) (Z.of_nat (digits v) - 53).

(** The sign and the magnitude of a non-zero integer. *)
Definition negative (z : Z) : bool := z <? 0.
Definition magnitude (z : Z) : positive := Z.to_pos (Z.abs z).

End IntegerForms.

(** ** AI-order/server.js: the total of a cart, in binary64

    [calcOrderTotal] on the quantities as the JSON body of the request
    delivers them.  [AiOrder.calcOrderTotal] is this function on carts whose
    quantities are whole numbers. *)

Module OrderTotal64.
Import JS Float64.

(** The [qty] of an item: absent, [null], a boolean, a number or a
    string; arrays and objects are left out. *)
Inductive Quantity : Type :=
| QAbsent
| QNull
| QBool (b : bool)
| QNumber (x : float)
| QString (s : string).

Definition q_truthy (q : Quantity) : bool :=
  match q with
  | QAbsent | QNull => false
  | QBool b => b
  | QNumber x => match x with S754_zero _ | S754_nan => false | _ => true end
  | QString s => negb (String.eqb s "")
  end.

(** ToNumber, as the multiplication applies it. *)
Definition q_number (q : Quantity) : float :=
  match q with
  | QAbsent => S754_nan
  | QNull => ofZ 0
  | QBool b => if b then ofZ 1 else ofZ 0
  | QNumber x => x
  | QString s => Number_of_string s
  end.

Record Line : Type := {
  line_product_id : Z;
  line_qty : Quantity
}.

Definition add : float -> float -> float := SFadd prec emax.

(** [(i.qty || 1) * (products[i.product_id]?.price || 0)] *)
Definition line_total (i : Line) : float :=
  mul (if q_truthy (line_qty i) then q_number (line_qty i) else ofZ 1)
      (ofZ (match AiOrder.products (line_product_id i) with
            | Some p => AiOrder.price p
            | None => 0
            end)).

Definition calcOrderTotal (items : list Line) : float :=
  fold_left (fun sum i => add sum (line_total i)) items (ofZ 0).

(** [total <= 0], the test of [POST /create-order] that throws
    [Invalid total]. *)
Definition invalid_total (total : float) : bool := leb total (ofZ 0).

(** The line of an item of the integer model: a whole quantity is the
    number it converts to. *)
Definition line_of (it : AiOrder.Item) : Line :=
  {| line_product_id := AiOrder.product_id it;
     line_qty := match AiOrder.qty it with
                 | Some q => QNumber (ofZ q)
                 | None => QAbsent
                 end |}.

(** A cart of at most 2^20 items whose quantities are within 2^31: every
    number [calcOrderTotal] meets on it is an integer below 2^53. *)
Definition in_range (items : list AiOrder.Item) : Prop :=
  Z.of_nat (length items) <= 1048576
  /\ Forall (fun it => match AiOrder.qty it with
                       | Some q => Z.abs q <= 2147483648
                       | None => True
                       end) items.

End OrderTotal64.

(* ===================================================================== *)
(** * Part II: lemmas and theorems *)
(* ===================================================================== *)

(** ** Running programs: the laws of [exec] *)

Section ExecLaws.
Import Async.
Context {St Err : Type} {Ext : Type -> Type} {R : Type}.
Variable promise_of : St -> nat -> option (settled Err R).
Implicit Types (w : World Err Ext) (h : list (Event Err Ext)) (s : St).

Lemma exec_bind {A B} w (p : Prog St Err Ext R A) (f : A -> Prog St Err Ext R B) h s :
  exec promise_of w (bind p f) h s =
  match exec promise_of w p h s with
  | (Returned a, h', s') => exec promise_of w (f a) h' s'
  | (Thrown e, h', s') => (Thrown e, h', s')
  | (Waiting q, h', s') => (Waiting q, h', s')
  end.
Proof.
  revert h s. induction p as [a|e|k IH|s0 k IH|k IH|X c k IH|q k IH]; intros h s; simpl; auto.
  destruct (promise_of s q); auto.
Qed.

Lemma exec_try_catch {A} w (p : Prog St Err Ext R A) (hd : Err -> Prog St Err Ext R A) h s :
  exec promise_of w (try_catch p hd) h s =
  match exec promise_of w p h s with
  | (Thrown e, h', s') => exec promise_of w (hd e) h' s'
  | other => other
  end.
Proof.
  revert h s. induction p as [a|e|k IH|s0 k IH|k IH|X c k IH|q k IH]; intros h s; simpl; auto.
  destruct (promise_of s q); auto.
Qed.

Lemma exec_try_finally {A} w (p : Prog St Err Ext R A) (fin : Prog St Err Ext R unit) h s :
  exec promise_of w (try_finally p fin) h s =
  match exec promise_of w p h s with
  | (Returned a, h', s') => exec promise_of w (bind fin (fun _ => Ret a)) h' s'
  | (Thrown e, h', s') => exec promise_of w (bind fin (fun _ => Throw e)) h' s'
  | (Waiting q, h', s') => (Waiting q, h', s')
  end.
Proof.
  revert h s. induction p as [a|e|k IH|s0 k IH|k IH|X c k IH|q k IH]; intros h s; simpl; auto.
  destruct (promise_of s q); auto.
Qed.

(** The history only grows. *)
Lemma exec_extends {A} w (p : Prog St Err Ext R A) h s :
  exists t, snd (fst (exec promise_of w p h s)) = (h ++ t)%list.
Proof.
  revert h s. induction p as [a|e|k IH|s0 k IH|k IH|X c k IH|q k IH]; intros h s; simpl;
    try (exists []; rewrite app_nil_r; reflexivity); auto.
  - destruct (IH (answer w X c h) (h ++ [Ev c (answer w X c h)])%list s) as [t Ht].
    exists (Ev c (answer w X c h) :: t). rewrite Ht, <- app_assoc. reflexivity.
  - destruct (promise_of s q); auto. exists []. rewrite app_nil_r. reflexivity.
Qed.

End ExecLaws.

(** ** MPT-Issuer: the deliverable quantity *)

Module QuantityFacts.
Import JS Float64 MptIssuer Observe.

(** A payment of exactly 1.0 XRP (1000000 drops) yields 2. *)
Lemma calc_one_xrp :
  calcMptToSendFromPayment (payment_delivering (AmtString "1000000")) = ofZ 2
  /\ quantity_spec 1000000 (-6) 2 = 2.
Proof. split; vm_compute; reflexivity. Qed.

(** A payment of 1.4 XRP yields floor(1.4 * 2) = 2. *)
Lemma calc_one_point_four_xrp :
  calcMptToSendFromPayment (payment_delivering (AmtString "1400000")) = ofZ 2
  /\ quantity_spec 1400000 (-6) 2 = 2.
Proof. split; vm_compute; reflexivity. Qed.

(** Whole RLUSD amounts convert at 100 each. *)
Lemma calc_three_rlusd :
  calcMptToSendFromPayment (payment_delivering (AmtObject (Some "RLUSD") (Some "3"))) = ofZ 300
  /\ quantity_spec 3 0 100 = 300.
Proof. split; vm_compute; reflexivity. Qed.

(** C4, at the input where the code leaves the claim: a delivered amount of
    0.29 RLUSD is worth 0.29 * 100 = 29 units, and [calcMptToSendFromPayment]
    returns 28, because the binary64 product of 0.29 and 100 is
    28.999999999999996 and [Math.floor] is taken of that. *)
Theorem calc_rlusd_029_loses_a_unit :
  parse_decimal "0.29" = Some (false, 29, -2)
  /\ quantity_spec 29 (-2) 100 = 29
  /\ Number_toString (mul (Number_of_string "0.29") (ofZ 100)) = "28.999999999999996"
  /\ calcMptToSendFromPayment
       (payment_delivering (AmtObject (Some "RLUSD") (Some "0.29"))) = ofZ 28.
Proof. repeat split; vm_compute; reflexivity. Qed.

End QuantityFacts.

(** ** MPT-Issuer: the building blocks of the saga *)

Module MptFacts.
Import JS Float64 Async MptIssuer Observe.
Local Open Scope prog_scope.

Abbreviation run := (exec no_promise).
Implicit Types (w : World) (h t : list Event) (d : Db).

(** Counting over a history that grows. *)
Lemma submitted_app k (t1 t2 : list Event) :
  submitted k (t1 ++ t2) = (submitted k t1 + submitted k t2)%nat.
Proof. unfold submitted. rewrite List.filter_app, length_app. reflexivity. Qed.

Lemma accepted_app k (t1 t2 : list Event) :
  accepted k (t1 ++ t2) = (accepted k t1 + accepted k t2)%nat.
Proof. unfold accepted. rewrite List.filter_app, length_app. reflexivity. Qed.

Lemma accepted_le_submitted k (t : list Event) : (accepted k t <= submitted k t)%nat.
Proof.
  unfold accepted, submitted. induction t as [|e t IH]; simpl; [lia|].
  unfold submits_accepted at 1. destruct (submits k e); simpl; [|exact IH].
  destruct (match submission e with Some (_, a) => a | None => false end); simpl; lia.
Qed.

Lemma quiet_nil : quiet [].
Proof. split; reflexivity. Qed.

Lemma quiet_app t1 t2 : quiet t1 -> quiet t2 -> quiet (t1 ++ t2).
Proof.
  intros [S1 R1] [S2 R2]. split.
  - intros k. rewrite submitted_app, S1, S2. reflexivity.
  - rewrite existsb_app, R1, R2. reflexivity.
Qed.

Lemma quiet_accepted t k : quiet t -> accepted k t = 0%nat.
Proof. intros [S _]. pose proof (accepted_le_submitted k t). rewrite S in H. lia. Qed.

(** *** The kv helpers *)

Lemma run_kvGet w k h d : run w (kvGet k) h d = (Returned (kv d !! k), h, d).
Proof. reflexivity. Qed.

Lemma run_kvSet w k v h d : run w (kvSet k v) h d = (Returned tt, h, with_kv (<[k := v]>) d).
Proof. reflexivity. Qed.

Lemma run_kvGetBool w k h d :
  run w (kvGetBool k false) h d = (Returned (kv_bool d k), h, d).
Proof. unfold kvGetBool, kv_bool. rewrite exec_bind, run_kvGet. destruct (kv d !! k); reflexivity. Qed.


(** *** A small program logic over [post] *)

Lemma post_ret {A} w (a : A) h d Q : Q (Returned a) h d -> post w (Ret a) h d Q.
Proof. exact (fun H => H). Qed.

Lemma post_throw {A} w e h d (Q : Outcome Error A -> _) :
  Q (Thrown e) h d -> post w (Throw e) h d Q.
Proof. exact (fun H => H). Qed.

Lemma post_bind {A B} w (p : M A) (f : A -> M B) h d Q :
  post w p h d (fun out h1 d1 =>
    match out with
    | Returned a => post w (f a) h1 d1 Q
    | Thrown e => Q (Thrown e) h1 d1
    | Waiting q => Q (Waiting q) h1 d1
    end) ->
  post w (bind p f) h d Q.
Proof.
  unfold post. rewrite exec_bind.
  destruct (exec no_promise w p h d) as [[[a|e|q] h1] d1]; simpl; auto.
Qed.

Lemma post_try_catch {A} w (p : M A) (hd : Error -> M A) h d Q :
  post w p h d (fun out h1 d1 =>
    match out with
    | Thrown e => post w (hd e) h1 d1 Q
    | other => Q other h1 d1
    end) ->
  post w (try_catch p hd) h d Q.
Proof.
  unfold post. rewrite exec_try_catch.
  destruct (exec no_promise w p h d) as [[[a|e|q] h1] d1]; simpl; auto.
Qed.

Lemma post_mono {A} w (p : M A) h d (Q Q' : Outcome Error A -> list Event -> Db -> Prop) :
  post w p h d Q -> (forall out h1 d1, Q out h1 d1 -> Q' out h1 d1) -> post w p h d Q'.
Proof. unfold post. auto. Qed.

Lemma post_await {X} w (c : Ext X) h d Q :
  (forall r, r = answer w X c h ->
     Q (match r with Fulfilled x => Returned x | Rejected e => Thrown e end)
       (h ++ [Ev c r])%list d) ->
  post w (await c) h d Q.
Proof.
  intros H. unfold post, await. simpl.
  specialize (H _ eq_refl). destruct (answer w X c h); exact H.
Qed.

Lemma post_kvGet w k h d Q : Q (Returned (kv d !! k)) h d -> post w (kvGet k) h d Q.
Proof. exact (fun H => H). Qed.

Lemma post_kvSet w k v h d Q :
  Q (Returned tt) h (with_kv (<[k := v]>) d) -> post w (kvSet k v) h d Q.
Proof. exact (fun H => H). Qed.

Lemma post_kvGetBool w k h d Q :
  Q (Returned (kv_bool d k)) h d -> post w (kvGetBool k false) h d Q.
Proof. unfold post. rewrite run_kvGetBool. exact (fun H => H). Qed.

(** The audit inserts leave the kv table alone and call nothing. *)
Lemma post_tryInsertAuthorization w a b c s h d Q :
  (forall d', kv d' = kv d -> Q (Returned tt) h d') ->
  post w (tryInsertAuthorization a b c s) h d Q.
Proof.
  intros H. unfold post, tryInsertAuthorization.
  destruct (negb (truthy c)); simpl; [apply H; reflexivity|].
  apply H. destruct (existsb _ _); reflexivity.
Qed.

Lemma post_tryInsertTransfer w a b c v x s h d Q :
  (forall d', kv d' = kv d -> Q (Returned tt) h d') ->
  post w (tryInsertTransfer a b c v x s) h d Q.
Proof.
  intros H. unfold post, tryInsertTransfer.
  destruct (negb (truthy x)); simpl; [apply H; reflexivity|].
  apply H. destruct (existsb _ _); reflexivity.
Qed.

Lemma post_tryInsertClawback w a b c v x s h d Q :
  (forall d', kv d' = kv d -> Q (Returned tt) h d') ->
  post w (tryInsertClawback a b c v x s) h d Q.
Proof.
  intros H. unfold post, tryInsertClawback.
  destruct (negb (truthy x)); simpl; [apply H; reflexivity|].
  apply H. destruct (existsb _ _); reflexivity.
Qed.

Lemma post_tryInsertLockAction w a b l x s h d Q :
  (forall d', kv d' = kv d -> Q (Returned tt) h d') ->
  post w (tryInsertLockAction a b l x s) h d Q.
Proof.
  intros H. unfold post, tryInsertLockAction.
  destruct (negb (truthy x)); simpl; [apply H; reflexivity|].
  apply H. destruct (existsb _ _); reflexivity.
Qed.

Lemma post_markPayload w u a b c x h d Q :
  (forall d', kv d' = kv d -> Q (Returned tt) h d') ->
  post w (markPayload u a b c x) h d Q.
Proof. intros H. unfold post, markPayload. simpl. apply H. reflexivity. Qed.

(** Rules for programs in head normal form. *)
Lemma post_call {A X} w (c : Ext X) (k : settled Error X -> M A) h d Q :
  (forall r, r = answer w X c h -> post w (k r) (h ++ [Ev c r])%list d Q) ->
  post w (Call c k) h d Q.
Proof. intros H. exact (H _ eq_refl). Qed.

Lemma post_gets {A} w (k : Db -> M A) h d Q : post w (k d) h d Q -> post w (GetS k) h d Q.
Proof. exact (fun H => H). Qed.

Lemma post_puts {A} w d0 (k : M A) h d Q : post w k h d0 Q -> post w (PutS d0 k) h d Q.
Proof. exact (fun H => H). Qed.

Lemma post_now {A} w (k : Z -> M A) h d Q :
  post w (k (clock w h)) h d Q -> post w (Now k) h d Q.
Proof. exact (fun H => H). Qed.

(** *** The ledger helpers *)

Lemma single_submit_after t0 tx a t :
  quiet t0 -> single_submit tx a t -> single_submit tx a (t0 ++ t).
Proof.
  intros [S0 R0] (S & A & R). repeat split.
  - intros k. rewrite submitted_app, S0, S. reflexivity.
  - intros k. rewrite accepted_app, (quiet_accepted t0 k), A; [reflexivity|split; assumption].
  - rewrite existsb_app, R0, R. reflexivity.
Qed.

Lemma quiet_single {X} (c : Ext X) (r : settled Error X) :
  submission (Ev c r) = None -> reads_holder (Ev c r) = false -> quiet [Ev c r].
Proof.
  intros Hs Hr. split.
  - intros k.
    change (submitted k [Ev c r])
      with (length (if submits k (Ev c r) then [Ev c r] else [])).
    unfold submits. rewrite Hs. reflexivity.
  - change (existsb reads_holder [Ev c r]) with (reads_holder (Ev c r) || false).
    rewrite Hr. reflexivity.
Qed.

Lemma post_getActiveIssuanceLedgerNode w h d Q :
  (forall e t, quiet t -> Q (Thrown e) (h ++ t)%list d) ->
  (forall t, quiet t -> Q (Returned None) (h ++ t)%list d) ->
  (forall node t, quiet t ->
     existsb shows_require_auth t = tfMPTRequireAuth (flags_of node) ->
     (exists idx hist, answer w _ (RequestLedgerEntry idx) hist = Fulfilled (Some node)) ->
     Q (Returned (Some node)) (h ++ t)%list d) ->
  post w getActiveIssuanceLedgerNode h d Q.
Proof.
  intros Hthrow Hnone Hsome. unfold getActiveIssuanceLedgerNode, must64hex, mustHexN.
  simpl. apply post_gets.
  destruct (truthy (kv d !! "KFD_ISSUANCE_INDEX")); simpl.
  2:{ apply post_ret. rewrite <- (app_nil_r h). apply Hnone, quiet_nil. }
  destruct (is_hexN 64 _); simpl.
  2:{ apply post_throw. rewrite <- (app_nil_r h). apply Hthrow, quiet_nil. }
  apply post_call. intros r1 _.
  assert (Q1 : quiet [Ev GetXRPL r1]) by (apply quiet_single; reflexivity).
  destruct r1 as [[]|e1]; simpl; [|apply post_throw, Hthrow, Q1].
  apply post_call. intros r2 E2. rewrite <- app_assoc.
  assert (Q2 : quiet ([Ev GetXRPL (Fulfilled tt)] ++
                      [Ev (RequestLedgerEntry
                             (toUpperCase (trim (str_or_empty (kv d !! "KFD_ISSUANCE_INDEX"))))) r2]))
    by (apply quiet_app; [exact Q1|apply quiet_single; reflexivity]).
  destruct r2 as [[node|]|e2]; simpl.
  - apply post_ret, Hsome; [exact Q2| |eauto].
    simpl. unfold flags_of. simpl. destruct (negb _); reflexivity.
  - apply post_ret, Hnone, Q2.
  - apply post_throw, Hthrow, Q2.
Qed.

#[local] Arguments getActiveIssuanceLedgerNode : simpl never.

Lemma post_assertActive issuer w h d Q :
  (forall e t, quiet t -> Q (Thrown e) (h ++ t)%list d) ->
  (forall node t, quiet t -> Q (Returned node) (h ++ t)%list d) ->
  post w (assertActiveIssuanceBelongsToServerIssuer issuer) h d Q.
Proof.
  intros Hthrow Hret. unfold assertActiveIssuanceBelongsToServerIssuer.
  apply post_bind, post_getActiveIssuanceLedgerNode.
  - intros e t Ht. apply Hthrow, Ht.
  - intros t Ht. apply post_throw, Hthrow, Ht.
  - intros node t Ht _ _. destruct (_ || _); [apply post_throw, Hthrow, Ht|apply post_ret, Hret, Ht].
Qed.

Lemma post_getActiveIssuanceFlags w h d Q :
  (forall e t, quiet t -> Q (Thrown e) (h ++ t)%list d) ->
  (forall t, quiet t -> Q (Returned None) (h ++ t)%list d) ->
  (forall node t, quiet t ->
     existsb shows_require_auth t = tfMPTRequireAuth (flags_of node) ->
     (exists idx hist, answer w _ (RequestLedgerEntry idx) hist = Fulfilled (Some node)) ->
     Q (Returned (Some (flags_of node))) (h ++ t)%list d) ->
  post w getActiveIssuanceFlags h d Q.
Proof.
  intros Hthrow Hnone Hsome. unfold getActiveIssuanceFlags.
  apply post_bind, post_getActiveIssuanceLedgerNode.
  - intros e t Ht. apply Hthrow, Ht.
  - intros t Ht. apply post_ret, Hnone, Ht.
  - intros node t Ht Hs Ha. apply post_ret. apply (Hsome node t Ht Hs Ha).
Qed.

Lemma single_submit_one issuer tx fill (r : settled Error SubmitResponse) :
  single_submit tx (match r with Fulfilled res => ledger_accepts res | Rejected _ => false end)
    [Ev (SubmitAndWait issuer tx fill) r].
Proof.
  repeat split.
  - intros k. unfold submitted. simpl. unfold submits, step_is. simpl.
    destruct (step_of_tx tx) as [k'|]; [destruct (step_eqb k k')|]; reflexivity.
  - intros k. unfold accepted. simpl. unfold submits_accepted, submits, step_is. simpl.
    destruct (step_of_tx tx) as [k'|]; [destruct (step_eqb k k')|]; simpl; try reflexivity.
    destruct r as [res|e]; [destruct (ledger_accepts res)|]; reflexivity.
Qed.

Lemma post_submitAsIssuer issuer w tx h d Q :
  (forall e t, quiet t -> Q (Thrown e) (h ++ t)%list d) ->
  (forall e t, single_submit tx false t -> Q (Thrown e) (h ++ t)%list d) ->
  (forall res t, single_submit tx (ledger_accepts res) t ->
     (exists fill hist, answer w _ (SubmitAndWait issuer tx fill) hist = Fulfilled res) ->
     Q (Returned (result_of res)) (h ++ t)%list d) ->
  post w (submitAsIssuer issuer tx) h d Q.
Proof.
  intros Hquiet Hrej Hret. unfold submitAsIssuer. simpl.
  apply post_call. intros r1 _.
  assert (Q1 : quiet [Ev GetXRPL r1]) by (apply quiet_single; reflexivity).
  destruct r1 as [[]|e1]; simpl; [|apply post_throw, Hquiet, Q1].
  apply post_call. intros r2 _. rewrite <- app_assoc.
  assert (Q2 : quiet ([Ev GetXRPL (Fulfilled tt)] ++ [Ev (Autofill issuer tx) r2]))
    by (apply quiet_app; [exact Q1|apply quiet_single; reflexivity]).
  destruct r2 as [fill|e2]; simpl; [|apply post_throw, Hquiet, Q2].
  apply post_call. intros r3 E3. rewrite <- app_assoc.
  pose proof (single_submit_after _ _ _ _ Q2 (single_submit_one issuer tx fill r3)) as S3.
  rewrite <- app_assoc in S3.
  destruct r3 as [res|e3]; simpl.
  - apply post_ret. apply (Hret res); [exact S3|eauto].
  - apply post_throw, Hrej, S3.
Qed.

#[local] Arguments assertActiveIssuanceBelongsToServerIssuer : simpl never.
#[local] Arguments submitAsIssuer : simpl never.

(** An issuer action: the ownership check, then the submission. *)
Lemma post_issuer_action issuer w tx h d Q :
  (forall e t, quiet t -> Q (Thrown e) (h ++ t)%list d) ->
  (forall e t, single_submit tx false t -> Q (Thrown e) (h ++ t)%list d) ->
  (forall res t, single_submit tx (ledger_accepts res) t ->
     (exists fill hist, answer w _ (SubmitAndWait issuer tx fill) hist = Fulfilled res) ->
     Q (Returned (result_of res)) (h ++ t)%list d) ->
  post w (assertActiveIssuanceBelongsToServerIssuer issuer ;;; submitAsIssuer issuer tx) h d Q.
Proof.
  intros Hquiet Hrej Hret. apply post_bind, post_assertActive.
  - intros e t Ht. apply Hquiet, Ht.
  - intros _ t0 Q0. apply post_submitAsIssuer.
    + intros e t Ht. rewrite <- app_assoc. apply Hquiet, quiet_app; assumption.
    + intros e t Ht. rewrite <- app_assoc. apply Hrej, single_submit_after; assumption.
    + intros res t Ht Ha. rewrite <- app_assoc. apply Hret; [|exact Ha].
      apply single_submit_after; assumption.
Qed.

Lemma post_waitTxValidated_loop w txid tries delay h d Q :
  (forall out t, quiet t -> (forall q, out <> Waiting q) -> Q out (h ++ t)%list d) ->
  forall t0, quiet t0 ->
  post w (waitTxValidated_loop txid tries delay) (h ++ t0)%list d Q.
Proof.
  intros HQ. induction tries as [|n IH]; intros t0 Q0; simpl.
  - apply post_ret, HQ; [exact Q0|discriminate].
  - assert (Hsleep : forall t1, quiet t1 ->
              post w (await (Sleep delay) ;;; waitTxValidated_loop txid n delay)
                (h ++ t1)%list d Q).
    { intros t1 Q1. simpl. apply post_call. intros r2 _. rewrite <- app_assoc.
      assert (Q2 : quiet (t1 ++ [Ev (Sleep delay) r2]))
        by (apply quiet_app; [exact Q1|apply quiet_single; reflexivity]).
      destruct r2 as [[]|e2]; simpl.
      - apply IH, Q2.
      - apply post_throw, HQ; [exact Q2|discriminate]. }
    apply post_call. intros r1 _. rewrite <- app_assoc.
    assert (Q1 : quiet (t0 ++ [Ev (RequestTx txid) r1]))
      by (apply quiet_app; [exact Q0|apply quiet_single; reflexivity]).
    destruct r1 as [[tx|]|e1]; simpl.
    + destruct (validated tx); simpl.
      * apply post_ret, HQ; [exact Q1|discriminate].
      * apply (Hsleep _ Q1).
    + apply (Hsleep _ Q1).
    + apply (Hsleep _ Q1).
Qed.

Lemma post_waitTxValidated w txid h d Q :
  (forall out t, quiet t -> (forall q, out <> Waiting q) -> Q out (h ++ t)%list d) ->
  post w (waitTxValidated txid) h d Q.
Proof.
  intros HQ. unfold waitTxValidated. apply post_bind, post_await. intros r1 _.
  assert (Q1 : quiet [Ev GetXRPL r1]) by (apply quiet_single; reflexivity).
  destruct r1 as [[]|e1]; cbv beta iota.
  - apply post_waitTxValidated_loop; [exact HQ|exact Q1].
  - apply HQ; [exact Q1|discriminate].
Qed.

Lemma post_getActiveIssuanceId48OrThrow w input h d Q :
  (forall out, (forall q, out <> Waiting q) -> Q out h d) ->
  post w (getActiveIssuanceId48OrThrow input) h d Q.
Proof.
  intros HQ. unfold getActiveIssuanceId48OrThrow, must48hex, mustHexN. simpl.
  apply post_gets.
  destruct (negb _); simpl; [apply post_throw, HQ; discriminate|].
  destruct (is_hexN 64 _); simpl; [apply post_throw, HQ; discriminate|].
  destruct (negb _); simpl; [apply post_throw|apply post_ret]; apply HQ; discriminate.
Qed.

(** *** Markers and steps *)

Lemma marker_key_inj k j uuid : marker_key k uuid = marker_key j uuid -> k = j.
Proof. destruct k, j; simpl; intros H; try reflexivity; discriminate H. Qed.

Lemma step_eqb_eq k j : step_eqb k j = true <-> k = j.
Proof. destruct k, j; simpl; split; intros H; try reflexivity; discriminate H. Qed.

Lemma step_is_unique k j tx : step_is j tx = true -> step_is k tx = true -> k = j.
Proof.
  unfold step_is. destruct (step_of_tx tx) as [s|]; [|discriminate].
  rewrite !step_eqb_eq. congruence.
Qed.

Lemma step_is_other k j tx : step_is j tx = true -> k <> j -> step_is k tx = false.
Proof.
  intros Hj Hne. destruct (step_is k tx) eqn:Hk; [|reflexivity].
  exfalso. apply Hne. eapply step_is_unique; eassumption.
Qed.

Lemma marked_same k uuid d d' : kv d' = kv d -> marked k uuid d' = marked k uuid d.
Proof. unfold marked. intros ->. reflexivity. Qed.

Lemma marked_insert_same k uuid d d' v :
  truthy (Some v) = true -> kv d' = <[marker_key k uuid := v]> (kv d) ->
  marked k uuid d' = true.
Proof. unfold marked. intros Hv ->. rewrite lookup_insert_eq. exact Hv. Qed.

Lemma marked_insert_other k j uuid d d' v :
  k <> j -> kv d' = <[marker_key j uuid := v]> (kv d) ->
  marked k uuid d' = marked k uuid d.
Proof.
  unfold marked. intros Hne ->. rewrite lookup_insert_ne; [reflexivity|].
  intros H. apply Hne. symmetry. eapply marker_key_inj, H.
Qed.

(** *** A stage effect keeps at-most-once *)

Lemma keeps_quiet uuid d t d' : quiet t -> kv d' = kv d -> keeps uuid d t d'.
Proof.
  intros Ht Hkv k. rewrite (marked_same k uuid d d' Hkv), (quiet_accepted t k Ht).
  destruct Ht as [Hs _]. rewrite Hs. split; intros H; repeat split; auto; lia.
Qed.

Lemma keeps_trans uuid d t1 d1 t2 d2 :
  keeps uuid d t1 d1 -> keeps uuid d1 t2 d2 -> keeps uuid d (t1 ++ t2) d2.
Proof.
  intros K1 K2 k. destruct (K1 k) as [M1 U1], (K2 k) as [M2 U2].
  rewrite submitted_app, accepted_app. split.
  - intros Hm. destruct (M1 Hm) as [S1 Hm1]. destruct (M2 Hm1) as [S2 Hm2].
    split; [lia|exact Hm2].
  - intros Hu. destruct (U1 Hu) as [A1 Hm1].
    pose proof (accepted_le_submitted k t2) as Hle.
    destruct (marked k uuid d1) eqn:E1.
    + destruct (M2 eq_refl) as [S2 Hm2]. split; [lia|intros _; exact Hm2].
    + destruct (U2 eq_refl) as [A2 Hm2].
      assert (accepted k t1 = 0%nat).
      { destruct (accepted k t1) as [|[|n]]; [reflexivity| |lia].
        specialize (Hm1 eq_refl). discriminate Hm1. }
      split; [lia|]. intros H1. apply Hm2. lia.
Qed.

Lemma stage_effect_keeps j uuid d t d' : stage_effect j uuid d t d' -> keeps uuid d t d'.
Proof.
  intros [[Ht Hkv]|[Hu (tx & Hj & [[(S & A & _) Hkv]|[(S & A & _) (v & Hv & Hkv)]])]].
  - apply keeps_quiet; assumption.
  - intros k. rewrite (marked_same k uuid d d' Hkv), S, A, andb_false_r.
    destruct (step_is k tx) eqn:Hk.
    + rewrite (step_is_unique k j tx Hj Hk), Hu. split; [discriminate|]. split; [lia|discriminate].
    + split; intros H; repeat split; auto; lia.
  - intros k. rewrite S, A, andb_true_r. destruct (step_is k tx) eqn:Hk.
    + rewrite (step_is_unique k j tx Hj Hk), Hu, (marked_insert_same j uuid d d' v Hv Hkv).
      split; [discriminate|]. split; [lia|reflexivity].
    + assert (Hne : k <> j) by (intros ->; congruence).
      rewrite (marked_insert_other k j uuid d d' v Hne Hkv).
      split; intros H; repeat split; auto; lia.
Qed.

Lemma stage_effect_other j k uuid d t d' :
  stage_effect j uuid d t d' -> k <> j -> submitted k t = 0%nat.
Proof.
  intros [[[S _] _]|[_ (tx & Hj & [[(S & _) _]|[(S & _) _]])]] Hne;
    rewrite S; try reflexivity; rewrite (step_is_other k j tx Hj Hne); reflexivity.
Qed.

Lemma stage_effect_no_holder_read j uuid d t d' :
  stage_effect j uuid d t d' -> existsb reads_holder t = false.
Proof.
  intros [[[_ R] _]|[_ (tx & _ & [[(_ & _ & R) _]|[(_ & _ & R) _]])]]; exact R.
Qed.

Lemma stage_effect_guard j uuid d t d' :
  stage_effect j uuid d t d' -> submitted j t <> 0%nat -> marked j uuid d = false.
Proof.
  intros [[[S _] _]|[Hu _]] Hn; [|exact Hu]. rewrite S in Hn. congruence.
Qed.

(** A stage touches no marker but its own. *)
Lemma stage_effect_frame j k uuid d t d' :
  stage_effect j uuid d t d' -> k <> j ->
  kv d' !! marker_key k uuid = kv d !! marker_key k uuid.
Proof.
  intros [[_ Hkv]|[_ (tx & _ & [[_ Hkv]|[_ (v & _ & Hkv)]])]] Hne; rewrite Hkv; try reflexivity.
  rewrite lookup_insert_ne; [reflexivity|]. intros H. apply Hne. symmetry. eapply marker_key_inj, H.
Qed.

(** *** The stages *)

(** Reduces the tests of a program without running it. *)
Ltac red_prog := cbv beta iota delta [negb ok result_of].

Lemma truthy_String_of v : truthy (Some (String_of (or_else v None))) = true.
Proof.
  unfold or_else. destruct (truthy v) eqn:Hv; [|reflexivity].
  destruct v as [s|]; [exact Hv|discriminate Hv].
Qed.

Lemma effect_nothing j uuid d : stage_effect j uuid d [] d.
Proof. left. split; [apply quiet_nil|reflexivity]. Qed.

Lemma effect_quiet j uuid d t : quiet t -> stage_effect j uuid d t d.
Proof. left. split; [assumption|reflexivity]. Qed.

Lemma effect_refused j uuid d t tx :
  marked j uuid d = false -> step_is j tx = true -> single_submit tx false t ->
  stage_effect j uuid d t d.
Proof. intros Hm Hj Hs. right. split; [exact Hm|]. exists tx. split; [exact Hj|]. left. auto. Qed.

Lemma effect_taken j uuid d t tx v d' :
  marked j uuid d = false -> step_is j tx = true -> single_submit tx true t ->
  kv d' = <[marker_key j uuid := String_of (or_else v None)]> (kv d) ->
  stage_effect j uuid d t d'.
Proof.
  intros Hm Hj Hs Hkv. right. split; [exact Hm|]. exists tx. split; [exact Hj|]. right.
  split; [exact Hs|]. eexists. split; [apply truthy_String_of|exact Hkv].
Qed.

Lemma submitted_single_submit k tx a t :
  single_submit tx a t -> step_is k tx = true -> submitted k t <> 0%nat.
Proof. intros (S & _) Hk. rewrite S, Hk. discriminate. Qed.

#[local] Arguments tryInsertAuthorization : simpl never.
#[local] Arguments tryInsertTransfer : simpl never.
#[local] Arguments tryInsertClawback : simpl never.
#[local] Arguments tryInsertLockAction : simpl never.
#[local] Arguments kvSet : simpl never.
#[local] Arguments kvGet : simpl never.

Lemma post_stage_authorize issuer w uuid id payer fl policy actions h d Q :
  (forall out t d', stage_effect Authorize uuid d t d' ->
     (submitted Authorize t <> 0%nat -> tfMPTRequireAuth fl = true) ->
     (forall auto acts a, out = Returned (auto, acts) -> auto = Some a -> auto_ok a = false) ->
     (forall q, out <> Waiting q) -> Q out (h ++ t)%list d') ->
  post w (stage_authorize issuer uuid id payer fl policy actions) h d Q.
Proof.
  intros HQ. unfold stage_authorize.
  destruct (tfMPTRequireAuth fl) eqn:Hra.
  2:{ apply post_ret. rewrite <- (app_nil_r h).
      apply HQ; [apply effect_nothing|intros H; exfalso; apply H; reflexivity|intros ? ? ? [= <- <-]; discriminate|discriminate]. }
  apply post_bind, post_kvGet.
  destruct (truthy (kv d !! ("SWAP_AUTH_DONE_" +:+ uuid))) eqn:Hm.
  { apply post_ret. rewrite <- (app_nil_r h).
    apply HQ; [apply effect_nothing|reflexivity|intros ? ? ? [= <- <-]; discriminate|discriminate]. }
  unfold issuerAuthorizeHolder. apply post_bind, post_issuer_action.
  - intros e t Ht. apply HQ; [apply effect_quiet, Ht|reflexivity|discriminate|discriminate].
  - intros e t Ht. apply HQ; [|reflexivity|discriminate|discriminate].
    eapply effect_refused; [exact Hm| |exact Ht]; reflexivity.
  - intros res t Ht _. red_prog. destruct (ledger_accepts res) eqn:Hok; red_prog.
    + apply post_bind, post_kvSet. red_prog.
      apply post_bind, post_tryInsertAuthorization. intros d' Hkv. red_prog.
      apply post_ret, HQ; [|reflexivity|intros ? ? ? [= <- <-]; discriminate|discriminate].
      eapply effect_taken; [exact Hm| |exact Ht|exact Hkv]; reflexivity.
    + apply post_ret, HQ; [|reflexivity|intros ? ? ? [= <- <-] [= <-]; reflexivity|discriminate].
      eapply effect_refused; [exact Hm| |exact Ht]; reflexivity.
Qed.

Lemma post_stage_issue issuer w uuid id payer policy already mpt auto actions h d Q :
  already = kv d !! marker_key Issue uuid ->
  (forall out t d', stage_effect Issue uuid d t d' ->
     (forall auto' acts a, out = Returned (auto', acts) -> auto' = Some a ->
        auto = Some a \/ auto_ok a = false) ->
     (forall auto' acts, out = Returned (auto', acts) -> auto' = None -> auto = None) ->
     (forall q, out <> Waiting q) -> Q out (h ++ t)%list d') ->
  post w (stage_issue issuer uuid id payer policy already mpt auto actions) h d Q.
Proof.
  intros Hal HQ. unfold stage_issue.
  destruct auto as [a|].
  { apply post_ret. rewrite <- (app_nil_r h).
    apply HQ; [apply effect_nothing|intros ? ? ? [= <- <-]; auto|intros ? ? [= <- <-]; discriminate
              |discriminate]. }
  destruct (truthy already) eqn:Hm.
  { apply post_ret. rewrite <- (app_nil_r h).
    apply HQ; [apply effect_nothing|intros ? ? ? [= <- <-]; discriminate|reflexivity|discriminate]. }
  assert (Hm' : marked Issue uuid d = false) by (unfold marked; rewrite <- Hal; exact Hm).
  unfold issuerSendMPT. apply post_bind, post_issuer_action.
  - intros e t Ht. apply HQ; [apply effect_quiet, Ht|discriminate|discriminate|discriminate].
  - intros e t Ht. apply HQ; [|discriminate|discriminate|discriminate].
    eapply effect_refused; [exact Hm'| |exact Ht]; reflexivity.
  - intros res t Ht _. red_prog. destruct (ledger_accepts res) eqn:Hok; red_prog.
    + apply post_bind, post_kvSet. red_prog.
      apply post_bind, post_tryInsertTransfer. intros d' Hkv. red_prog.
      apply post_ret, HQ; [|intros ? ? ? [= <- <-]; discriminate|reflexivity|discriminate].
      eapply effect_taken; [exact Hm'| |exact Ht|exact Hkv]; reflexivity.
    + apply post_ret, HQ; [|intros ? ? ? [= <- <-] [= <-]; right; reflexivity|reflexivity
                           |discriminate].
      eapply effect_refused; [exact Hm'| |exact Ht]; reflexivity.
Qed.

Lemma post_stage_clawback issuer w uuid id payer fl policy mpt auto actions h d Q :
  (forall out t d', stage_effect Clawback uuid d t d' ->
     (forall acts, out = Returned acts ->
        (auto <> None /\ acts = actions)
        \/ (auto = None /\ exists a, acts = set_clawback a actions
                                     /\ clawback_report issuer w fl policy a)) ->
     (forall q, out <> Waiting q) -> Q out (h ++ t)%list d') ->
  post w (stage_clawback issuer uuid id payer fl policy mpt auto actions) h d Q.
Proof.
  intros HQ. unfold stage_clawback.
  destruct auto as [a|].
  { apply post_ret. rewrite <- (app_nil_r h).
    apply HQ; [apply effect_nothing| |discriminate].
    intros acts [= <-]. left. split; [discriminate|reflexivity]. }
  destruct (autoClawbackBlacklist policy && blacklisted policy) eqn:Hpol.
  2:{ apply post_ret. rewrite <- (app_nil_r h).
      apply HQ; [apply effect_nothing| |discriminate].
      intros acts [= <-]. right. split; [reflexivity|]. eexists. split; [reflexivity|].
      right. right. left. split; [reflexivity|assumption]. }
  destruct (tfMPTCanClawback fl) eqn:Hcan; red_prog.
  2:{ apply post_ret. rewrite <- (app_nil_r h).
      apply HQ; [apply effect_nothing| |discriminate].
      intros acts [= <-]. right. split; [reflexivity|]. eexists. split; [reflexivity|].
      right. left. split; [reflexivity|assumption]. }
  apply post_bind, post_kvGet.
  destruct (truthy (kv d !! ("SWAP_CLAWBACK_DONE_" +:+ uuid))) eqn:Hm.
  { apply post_ret. rewrite <- (app_nil_r h).
    apply HQ; [apply effect_nothing| |discriminate].
    intros acts [= <-]. right. split; [reflexivity|]. eexists. split; [reflexivity|].
    left. split; reflexivity. }
  unfold issuerClawbackMPT. apply post_bind, post_issuer_action.
  - intros e t Ht. apply HQ; [apply effect_quiet, Ht|discriminate|discriminate].
  - intros e t Ht. apply HQ; [|discriminate|discriminate].
    eapply effect_refused; [exact Hm| |exact Ht]; reflexivity.
  - intros res t Ht (fill & hist & Hans). red_prog. destruct (ledger_accepts res) eqn:Hok; red_prog.
    + apply post_bind, post_kvSet. red_prog.
      apply post_bind, post_tryInsertClawback. intros d' Hkv. red_prog.
      apply post_ret, HQ; [| |discriminate].
      * eapply effect_taken; [exact Hm| |exact Ht|exact Hkv]; reflexivity.
      * intros acts [= <-]. right. split; [reflexivity|]. eexists. split; [reflexivity|].
        left. split; reflexivity.
    + apply post_ret, HQ; [| |discriminate].
      * eapply effect_refused; [exact Hm| |exact Ht]; reflexivity.
      * intros acts [= <-]. right. split; [reflexivity|]. eexists. split; [reflexivity|].
        right. right. right. repeat split.
        exists (ClawbackMPT payer id (String_num mpt)), fill, hist, res.
        split; [reflexivity|]. split; [exact Hans|exact Hok].
Qed.

(** The stages after the clawback write one entry of [actions] each. *)
Lemma post_stage_lock issuer w uuid id payer fl policy auto actions h d Q :
  (forall out t d', stage_effect Lock uuid d t d' ->
     (forall acts, out = Returned acts ->
        (auto <> None /\ acts = actions) \/ (auto = None /\ exists a, acts = set_lock a actions)) ->
     (auto = None -> autoLockAfterSwap policy = true -> clawback_succeeded actions = true ->
      out = Returned (set_lock (act_skip true "SKIPPED_AFTER_SUCCESSFUL_CLAWBACK") actions)
      /\ t = []) ->
     (forall q, out <> Waiting q) -> Q out (h ++ t)%list d') ->
  post w (stage_lock issuer uuid id payer fl policy auto actions) h d Q.
Proof.
  intros HQ. unfold stage_lock.
  destruct auto as [a|].
  { apply post_ret. rewrite <- (app_nil_r h).
    apply HQ; [apply effect_nothing| |discriminate|discriminate].
    intros acts [= <-]. left. split; [discriminate|reflexivity]. }
  destruct (autoLockAfterSwap policy && negb (clawback_succeeded actions)) eqn:Hgo.
  2:{ apply post_ret. rewrite <- (app_nil_r h).
      apply HQ; [apply effect_nothing| | |discriminate].
      - intros acts [= <-]. right. eauto.
      - intros _ Hl _. rewrite Hl. split; reflexivity. }
  assert (Hnot : @None Auto = None -> autoLockAfterSwap policy = true ->
                 clawback_succeeded actions = true ->
                 forall (out : Outcome Error Actions) (t : list Event),
                   out = Returned (set_lock (act_skip true "SKIPPED_AFTER_SUCCESSFUL_CLAWBACK")
                                     actions) /\ t = []).
  { intros _ Hl Hc. rewrite Hl, Hc in Hgo. discriminate Hgo. }
  destruct (tfMPTCanLock fl); red_prog.
  2:{ apply post_ret. rewrite <- (app_nil_r h).
      apply HQ; [apply effect_nothing| |intros; apply Hnot; assumption|discriminate].
      intros acts [= <-]. right. eauto. }
  apply post_bind, post_kvGet.
  destruct (truthy (kv d !! ("SWAP_LOCK_DONE_" +:+ uuid))) eqn:Hm.
  { apply post_ret. rewrite <- (app_nil_r h).
    apply HQ; [apply effect_nothing| |intros; apply Hnot; assumption|discriminate].
    intros acts [= <-]. right. eauto. }
  unfold issuerLockHolder. apply post_bind, post_issuer_action.
  - intros e t Ht.
    apply HQ; [apply effect_quiet, Ht|discriminate|intros; apply Hnot; assumption|discriminate].
  - intros e t Ht. apply HQ; [|discriminate|intros; apply Hnot; assumption|discriminate].
    eapply effect_refused; [exact Hm| |exact Ht]; reflexivity.
  - intros res t Ht _. red_prog. destruct (ledger_accepts res) eqn:Hok; red_prog.
    + apply post_bind, post_kvSet. red_prog.
      apply post_bind, post_tryInsertLockAction. intros d' Hkv. red_prog.
      apply post_ret, HQ; [| |intros; apply Hnot; assumption|discriminate].
      * eapply effect_taken; [exact Hm| |exact Ht|exact Hkv]; reflexivity.
      * intros acts [= <-]. right. eauto.
    + apply post_ret, HQ; [| |intros; apply Hnot; assumption|discriminate].
      * eapply effect_refused; [exact Hm| |exact Ht]; reflexivity.
      * intros acts [= <-]. right. eauto.
Qed.

Lemma post_stage_unlock issuer w uuid id payer fl policy auto actions h d Q :
  (forall out t d', stage_effect Unlock uuid d t d' ->
     (forall acts, out = Returned acts ->
        (auto <> None /\ acts = actions)
        \/ (auto = None /\ exists a, acts = set_unlock a actions)) ->
     (forall q, out <> Waiting q) -> Q out (h ++ t)%list d') ->
  post w (stage_unlock issuer uuid id payer fl policy auto actions) h d Q.
Proof.
  intros HQ. unfold stage_unlock.
  destruct auto as [a|].
  { apply post_ret. rewrite <- (app_nil_r h).
    apply HQ; [apply effect_nothing|intros acts [= <-]; left; split; [discriminate|reflexivity]|discriminate]. }
  destruct (autoUnlockAfterSwap policy && negb (autoLockAfterSwap policy)
            && negb (clawback_succeeded actions)).
  2:{ apply post_ret. rewrite <- (app_nil_r h).
      apply HQ; [apply effect_nothing|intros acts [= <-]; right; eauto|discriminate]. }
  destruct (tfMPTCanLock fl); red_prog.
  2:{ apply post_ret. rewrite <- (app_nil_r h).
      apply HQ; [apply effect_nothing|intros acts [= <-]; right; eauto|discriminate]. }
  apply post_bind, post_kvGet.
  destruct (truthy (kv d !! ("SWAP_UNLOCK_DONE_" +:+ uuid))) eqn:Hm.
  { apply post_ret. rewrite <- (app_nil_r h).
    apply HQ; [apply effect_nothing|intros acts [= <-]; right; eauto|discriminate]. }
  unfold issuerUnlockHolder. apply post_bind, post_issuer_action.
  - intros e t Ht. apply HQ; [apply effect_quiet, Ht|discriminate|discriminate].
  - intros e t Ht. apply HQ; [|discriminate|discriminate].
    eapply effect_refused; [exact Hm| |exact Ht]; reflexivity.
  - intros res t Ht _. red_prog. destruct (ledger_accepts res) eqn:Hok; red_prog.
    + apply post_bind, post_kvSet. red_prog.
      apply post_bind, post_tryInsertLockAction. intros d' Hkv. red_prog.
      apply post_ret, HQ; [|intros acts [= <-]; right; eauto|discriminate].
      eapply effect_taken; [exact Hm| |exact Ht|exact Hkv]; reflexivity.
    + apply post_ret, HQ; [|intros acts [= <-]; right; eauto|discriminate].
      eapply effect_refused; [exact Hm| |exact Ht]; reflexivity.
Qed.

(** *** The stages in their order *)

#[local] Arguments stage_authorize : simpl never.
#[local] Arguments stage_issue : simpl never.
#[local] Arguments stage_clawback : simpl never.
#[local] Arguments stage_lock : simpl never.
#[local] Arguments stage_unlock : simpl never.

Lemma stage_calc_failed vtx payer policy auto actions auto' mpt a :
  stage_calc vtx payer policy auto actions = (auto', mpt) ->
  auto' = Some a -> auto = Some a \/ auto_ok a = false.
Proof.
  unfold stage_calc. destruct auto as [a0|].
  - intros [= <- <-] [= <-]. left. reflexivity.
  - destruct (_ || _); intros [= <- <-]; [intros [= <-]; right; reflexivity|discriminate].
Qed.

Lemma stage_calc_passes vtx payer policy auto actions mpt :
  stage_calc vtx payer policy auto actions = (None, mpt) -> auto = None.
Proof.
  unfold stage_calc. destruct auto as [a0|]; [intros [= ]|reflexivity].
Qed.

Lemma clawback_succeeded_set a acts :
  clawback_succeeded (set_clawback a acts) = act_ok a && negb (act_skipped a).
Proof. reflexivity. Qed.

Lemma post_saga_steps issuer w uuid id payer fl vtx h d Q :
  (forall out t d',
     keeps uuid d t d' ->
     existsb reads_holder t = false ->
     (submitted Authorize t <> 0%nat ->
      marked Authorize uuid d = false /\ tfMPTRequireAuth fl = true) ->
     (forall auto, out = Returned auto -> auto_ok auto = true ->
        saga_report issuer w fl (policy_of d payer) t auto) ->
     (forall q, out <> Waiting q) ->
     Q out (h ++ t)%list d') ->
  post w (saga_steps issuer uuid id payer fl vtx) h d Q.
Proof.
  intros HQ.
  unfold saga_steps, isAutoLockEnabled, isAutoUnlockEnabled, isAutoClawbackEnabled,
    isBlacklisted.
  apply post_bind, post_kvGetBool. cbv beta iota.
  apply post_bind, post_kvGetBool. cbv beta iota.
  apply post_bind, post_kvGetBool. cbv beta iota.
  apply post_bind, post_kvGetBool. cbv beta iota.
  change {| autoLockAfterSwap := kv_bool d "POLICY_AUTO_LOCK_AFTER_SWAP";
            autoUnlockAfterSwap := kv_bool d "POLICY_AUTO_UNLOCK_AFTER_SWAP";
            autoClawbackBlacklist := kv_bool d "POLICY_AUTO_CLAWBACK_BLACKLIST";
            blacklisted := kv_bool d ("BLACKLIST_" +:+ payer) |}
    with (policy_of d payer).
  set (policy := policy_of d payer) in *.
  apply post_bind, post_kvGet. cbv beta iota.
  (* (A) *)
  apply post_bind, post_stage_authorize. intros outA tA dA EA GA FA WA.
  destruct outA as [[autoA actsA]|e|q]; cbv beta iota.
  2:{ apply HQ; [exact (stage_effect_keeps _ _ _ _ _ EA)|exact (stage_effect_no_holder_read _ _ _ _ _ EA)
                | |discriminate|discriminate].
      intros Hs. split; [eapply stage_effect_guard; eassumption|auto]. }
  2:{ exfalso. apply (WA q). reflexivity. }
  (* (B) *)
  destruct (stage_calc vtx payer policy autoA actsA) as [autoB mpt] eqn:EB.
  (* (C) *)
  apply post_bind, post_stage_issue.
  { symmetry. apply (stage_effect_frame Authorize Issue uuid d tA dA EA). discriminate. }
  intros outC tC dC EC FC NC WC. rewrite <- ?app_assoc.
  pose proof (keeps_trans _ _ _ _ _ _ (stage_effect_keeps _ _ _ _ _ EA)
                (stage_effect_keeps _ _ _ _ _ EC)) as KC.
  assert (RC : existsb reads_holder (tA ++ tC) = false).
  { rewrite existsb_app, (stage_effect_no_holder_read _ _ _ _ _ EA),
      (stage_effect_no_holder_read _ _ _ _ _ EC). reflexivity. }
  assert (SC : submitted Authorize (tA ++ tC) = submitted Authorize tA).
  { rewrite submitted_app, (stage_effect_other Issue Authorize uuid dA tC dC EC); [lia|discriminate]. }
  assert (GC : submitted Authorize (tA ++ tC) <> 0%nat ->
               marked Authorize uuid d = false /\ tfMPTRequireAuth fl = true).
  { rewrite SC. intros Hs. split; [eapply stage_effect_guard; eassumption|auto]. }
  destruct outC as [[autoC actsC]|e|q]; cbv beta iota.
  2:{ apply HQ; [exact KC|exact RC|exact GC|discriminate|discriminate]. }
  2:{ exfalso. apply (WC q). reflexivity. }
  assert (Hfail : forall a, autoC = Some a -> auto_ok a = false).
  { intros a Ha. destruct (FC _ _ _ eq_refl Ha) as [Hb|Hb]; [|exact Hb].
    destruct (stage_calc_failed _ _ _ _ _ _ _ _ EB Hb) as [Hc|Hc]; [|exact Hc].
    apply (FA _ _ _ eq_refl Hc). }
  (* (D1) *)
  apply post_bind, post_stage_clawback. intros out1 t1 d1 E1 R1 W1. rewrite <- ?app_assoc.
  pose proof (keeps_trans _ _ _ _ _ _ KC (stage_effect_keeps _ _ _ _ _ E1)) as K1.
  rewrite <- app_assoc in K1.
  assert (RR1 : existsb reads_holder (tA ++ tC ++ t1) = false).
  { rewrite app_assoc, existsb_app, RC, (stage_effect_no_holder_read _ _ _ _ _ E1). reflexivity. }
  assert (G1 : submitted Authorize (tA ++ tC ++ t1) <> 0%nat ->
               marked Authorize uuid d = false /\ tfMPTRequireAuth fl = true).
  { rewrite app_assoc, submitted_app,
      (stage_effect_other Clawback Authorize uuid dC t1 d1 E1) by discriminate.
    rewrite Nat.add_0_r. exact GC. }
  destruct out1 as [acts1|e|q]; cbv beta iota.
  2:{ apply HQ; [exact K1|exact RR1|exact G1|discriminate|discriminate]. }
  2:{ exfalso. apply (W1 q). reflexivity. }
  (* (D2) *)
  apply post_bind, post_stage_lock. intros out2 t2 d2 E2 R2 L2 W2. rewrite <- ?app_assoc.
  pose proof (keeps_trans _ _ _ _ _ _ K1 (stage_effect_keeps _ _ _ _ _ E2)) as K2.
  rewrite <- !app_assoc in K2.
  assert (RR2 : existsb reads_holder (tA ++ tC ++ t1 ++ t2) = false).
  { rewrite !app_assoc, existsb_app, <- !app_assoc, RR1,
      (stage_effect_no_holder_read _ _ _ _ _ E2). reflexivity. }
  assert (G2 : submitted Authorize (tA ++ tC ++ t1 ++ t2) <> 0%nat ->
               marked Authorize uuid d = false /\ tfMPTRequireAuth fl = true).
  { rewrite !app_assoc, submitted_app, <- !app_assoc,
      (stage_effect_other Lock Authorize uuid d1 t2 d2 E2) by discriminate.
    rewrite Nat.add_0_r. exact G1. }
  destruct out2 as [acts2|e|q]; cbv beta iota.
  2:{ apply HQ; [exact K2|exact RR2|exact G2|discriminate|discriminate]. }
  2:{ exfalso. apply (W2 q). reflexivity. }
  (* (D3) *)
  apply post_bind, post_stage_unlock. intros out3 t3 d3 E3 R3 W3. rewrite <- ?app_assoc.
  pose proof (keeps_trans _ _ _ _ _ _ K2 (stage_effect_keeps _ _ _ _ _ E3)) as K3.
  rewrite <- !app_assoc in K3.
  assert (RR3 : existsb reads_holder (tA ++ tC ++ t1 ++ t2 ++ t3) = false).
  { rewrite !app_assoc, existsb_app, <- !app_assoc, RR2,
      (stage_effect_no_holder_read _ _ _ _ _ E3). reflexivity. }
  assert (G3 : submitted Authorize (tA ++ tC ++ t1 ++ t2 ++ t3) <> 0%nat ->
               marked Authorize uuid d = false /\ tfMPTRequireAuth fl = true).
  { rewrite !app_assoc, submitted_app, <- !app_assoc,
      (stage_effect_other Unlock Authorize uuid d2 t3 d3 E3) by discriminate.
    rewrite Nat.add_0_r. exact G2. }
  destruct out3 as [acts3|e|q]; cbv beta iota.
  2:{ apply HQ; [exact K3|exact RR3|exact G3|discriminate|discriminate]. }
  2:{ exfalso. apply (W3 q). reflexivity. }
  (* Final auto result *)
  apply post_ret, HQ; [exact K3|exact RR3|exact G3| |discriminate].
  intros auto [= <-] Hok.
  destruct autoC as [a|].
  { unfold stage_final in Hok. rewrite (Hfail a eq_refl) in Hok. discriminate Hok. }
  destruct (R1 _ eq_refl) as [[Hn _]|[_ (c & -> & Hc)]]; [congruence|].
  destruct (R2 _ eq_refl) as [[Hn _]|[_ (l & ->)]]; [congruence|].
  destruct (R3 _ eq_refl) as [[Hn _]|[_ (u & ->)]]; [congruence|].
  exists (set_unlock u (set_lock l (set_clawback c actsC))), c, l.
  split; [reflexivity|]. split; [reflexivity|]. split; [reflexivity|].
  split; [reflexivity|]. split; [exact Hc|].
  intros Hl Hc1 Hc2.
  destruct (L2 eq_refl Hl) as [Hl2 ->].
  { rewrite clawback_succeeded_set, Hc1, Hc2. reflexivity. }
  split.
  - injection Hl2 as Hl2. exact Hl2.
  - rewrite !submitted_app.
    rewrite (stage_effect_other Authorize Lock uuid d tA dA EA) by discriminate.
    rewrite (stage_effect_other Issue Lock uuid dA tC dC EC) by discriminate.
    rewrite (stage_effect_other Clawback Lock uuid dC t1 d1 E1) by discriminate.
    rewrite (stage_effect_other Unlock Lock uuid d2 t3 d3 E3) by discriminate.
    reflexivity.
Qed.

(** *** The saga and the poll handler *)

#[local] Arguments saga_steps : simpl never.
#[local] Arguments getActiveIssuanceFlags : simpl never.
#[local] Arguments getActiveIssuanceId48OrThrow : simpl never.
#[local] Arguments waitTxValidated : simpl never.
#[local] Arguments markPayload : simpl never.

Lemma keeps_kv uuid d0 d t d' : kv d0 = kv d -> keeps uuid d0 t d' -> keeps uuid d t d'.
Proof.
  intros Hkv K k. specialize (K k). rewrite (marked_same k uuid d d0 Hkv) in K. exact K.
Qed.

Lemma policy_of_kv d0 d payer : kv d0 = kv d -> policy_of d0 payer = policy_of d payer.
Proof. intros Hkv. unfold policy_of, kv_bool. rewrite Hkv. reflexivity. Qed.

Lemma keeps_after uuid d t0 t d' : quiet t0 -> keeps uuid d t d' -> keeps uuid d (t0 ++ t) d'.
Proof.
  intros Q0 K. apply (keeps_trans uuid d t0 d t d'); [|exact K].
  apply keeps_quiet; [exact Q0|reflexivity].
Qed.

Lemma saga_report_after issuer w fl policy t0 t auto :
  quiet t0 -> saga_report issuer w fl policy t auto ->
  saga_report issuer w fl policy (t0 ++ t) auto.
Proof.
  intros [S0 _] (acts & c & l & H1 & H2 & H3 & H4 & H5 & H6).
  exists acts, c, l. repeat (split; [assumption|]).
  intros Hl Hc1 Hc2. destruct (H6 Hl Hc1 Hc2) as [-> Hs]. split; [reflexivity|].
  rewrite submitted_app, S0, Hs. reflexivity.
Qed.

Lemma post_saga issuer w uuid vtx h d Q :
  (forall out t d',
     keeps uuid d t d' ->
     existsb reads_holder t = false ->
     (submitted Authorize t <> 0%nat ->
      marked Authorize uuid d = false /\ existsb shows_require_auth t = true) ->
     (forall auto, out = Returned auto -> auto_ok auto = true -> went_through issuer w d t auto) ->
     (forall q, out <> Waiting q) ->
     Q out (h ++ t)%list d') ->
  post w (saga issuer uuid vtx) h d Q.
Proof.
  intros HQ. unfold saga.
  assert (Hquiet : forall (out : Outcome Error Auto) t,
            quiet t -> (forall a, out = Returned a -> auto_ok a = false) ->
            (forall q, out <> Waiting q) -> Q out (h ++ t)%list d).
  { intros out t Ht Hf Hw. apply HQ; [apply keeps_quiet; [exact Ht|reflexivity]|apply Ht| | |exact Hw].
    - destruct Ht as [S _]. rewrite S. congruence.
    - intros a Ha Hok. rewrite (Hf a Ha) in Hok. discriminate Hok. }
  apply post_bind, post_try_catch, post_bind, post_getActiveIssuanceId48OrThrow.
  intros out1 W1. destruct out1 as [id|e|q]; cbv beta iota.
  3:{ exfalso. apply (W1 q). reflexivity. }
  2:{ apply post_ret. cbv beta iota. apply post_ret. rewrite <- (app_nil_r h).
      apply Hquiet; [apply quiet_nil|intros a [= <-]; reflexivity|discriminate]. }
  apply post_bind, post_getActiveIssuanceFlags.
  - intros e t Ht. apply post_ret. cbv beta iota. apply post_ret.
    apply Hquiet; [exact Ht|intros a [= <-]; reflexivity|discriminate].
  - intros t Ht. apply post_ret. cbv beta iota. apply post_ret.
    apply Hquiet; [exact Ht|intros a [= <-]; reflexivity|discriminate].
  - intros node t0 Q0 Hshow Hans. apply post_ret. cbv beta iota.
    destruct (negb (truthy (Account (txj_of vtx)))).
    { apply post_ret. apply Hquiet; [exact Q0|intros a [= <-]; reflexivity|discriminate]. }
    apply post_saga_steps. intros out t d' K R G Rep W. rewrite <- app_assoc.
    apply HQ; [apply keeps_after; assumption| | | |exact W].
    + rewrite existsb_app, R. destruct Q0 as [_ ->]. reflexivity.
    + rewrite submitted_app. destruct Q0 as [S0 _]. rewrite S0. intros Hs.
      destruct (G Hs) as [Hm Hra]. split; [exact Hm|].
      rewrite existsb_app, Hshow, Hra. reflexivity.
    + intros auto Ha Hok. exists node, (str_or_empty (Account (txj_of vtx))).
      split; [exact Hans|]. apply saga_report_after; [exact Q0|]. apply Rep; assumption.
Qed.

#[local] Arguments saga : simpl never.

Lemma post_get_payload issuer w uuid h d Q :
  (forall out t d',
     keeps uuid d t d' ->
     existsb reads_holder t = false ->
     (submitted Authorize t <> 0%nat ->
      marked Authorize uuid d = false /\ existsb shows_require_auth t = true) ->
     (exists reply, out = Returned reply) ->
     (forall r auto, out = Returned (Json r) -> poll_auto r = Some auto ->
        auto_ok auto = true -> went_through issuer w d t auto) ->
     Q out (h ++ t)%list d') ->
  post w (get_payload issuer uuid) h d Q.
Proof.
  intros HQ. unfold get_payload.
  assert (Hquiet : forall (reply : Reply PollResponse) t d',
            quiet t -> kv d' = kv d ->
            (forall r, reply = Json r -> poll_auto r = None) ->
            Q (Returned reply) (h ++ t)%list d').
  { intros reply t d' Ht Hkv Hn.
    apply HQ; [apply keeps_quiet; assumption|apply Ht| |eauto|].
    - destruct Ht as [S _]. rewrite S. congruence.
    - intros r auto [= ->] Ha. rewrite (Hn r eq_refl) in Ha. discriminate Ha. }
  apply post_try_catch, post_bind, post_await. intros r0 _.
  assert (Q0 : quiet [Ev (XummPayloadGet uuid) r0]) by (apply quiet_single; reflexivity).
  destruct r0 as [p|e0]; cbv beta iota.
  2:{ apply post_ret. apply Hquiet; [exact Q0|reflexivity|discriminate]. }
  set (resolved := match p with Some p0 => meta_resolved p0 | None => false end).
  set (signed := match p with Some p0 => meta_signed p0 | None => false end).
  set (cancelled := match p with Some p0 => meta_cancelled p0 | None => false end).
  set (expired := match p with Some p0 => meta_expired p0 | None => false end).
  set (txid := match p with Some p0 => or_else (response_txid p0) None | None => None end).
  apply post_bind.
  assert (Hrest : forall d0, kv d0 = kv d ->
    post w
      (va <- (if signed && truthy txid
              then validatedTx <- waitTxValidated (str_or_empty txid);;
                   match validatedTx with
                   | Some vtx =>
                       if validated vtx
                       then auto <- saga issuer uuid vtx;; Ret (validatedTx, Some auto)
                       else Ret (validatedTx, None)
                   | None => Ret (None, None)
                   end
              else Ret (None, None));;
       Ret (Json {| poll_uuid := uuid; poll_resolved := resolved; poll_signed := signed;
                    poll_cancelled := cancelled; poll_expired := expired; poll_txid := txid;
                    poll_validatedTx := fst va; poll_auto := snd va |}))
      (h ++ [Ev (XummPayloadGet uuid) (Fulfilled p)]) d0
      (fun out h1 d1 =>
         match out with
         | Thrown e => post w (Ret (Failure 500 (error_text e))) h1 d1 Q
         | other => Q other h1 d1
         end)).
  { intros d0 Hkv0. apply post_bind.
    destruct (signed && truthy txid).
    2:{ apply post_ret. cbv beta iota. apply post_ret.
        apply Hquiet; [exact Q0|exact Hkv0|intros r [= <-]; reflexivity]. }
    apply post_bind, post_waitTxValidated. intros out1 t1 Q1 W1. rewrite <- app_assoc.
    pose proof (quiet_app _ _ Q0 Q1) as Q01.
    destruct out1 as [[vtx|]|e1|q]; cbv beta iota.
    4:{ exfalso. apply (W1 q). reflexivity. }
    3:{ apply post_ret. apply Hquiet; [exact Q01|exact Hkv0|discriminate]. }
    2:{ apply post_ret. cbv beta iota. apply post_ret.
        apply Hquiet; [exact Q01|exact Hkv0|intros r [= <-]; reflexivity]. }
    destruct (validated vtx).
    2:{ apply post_ret. cbv beta iota. apply post_ret.
        apply Hquiet; [exact Q01|exact Hkv0|intros r [= <-]; reflexivity]. }
    apply post_bind, post_saga. intros out t d' K R G Rep W. rewrite <- app_assoc.
    assert (K' : keeps uuid d (([Ev (XummPayloadGet uuid) (Fulfilled p)] ++ t1) ++ t) d').
    { apply keeps_after; [exact Q01|]. apply (keeps_kv uuid d0 d); assumption. }
    assert (R' : existsb reads_holder
                   (([Ev (XummPayloadGet uuid) (Fulfilled p)] ++ t1) ++ t) = false).
    { rewrite existsb_app, R. destruct Q01 as [_ ->]. reflexivity. }
    assert (G' : submitted Authorize (([Ev (XummPayloadGet uuid) (Fulfilled p)] ++ t1) ++ t)
                 <> 0%nat ->
                 marked Authorize uuid d = false /\
                 existsb shows_require_auth
                   (([Ev (XummPayloadGet uuid) (Fulfilled p)] ++ t1) ++ t) = true).
    { rewrite submitted_app. destruct Q01 as [S01 _]. rewrite S01. intros Hs.
      destruct (G Hs) as [Hm Hsh]. rewrite (marked_same _ _ _ _ Hkv0) in Hm.
      split; [exact Hm|]. rewrite existsb_app, Hsh. apply orb_true_r. }
    rewrite <- app_assoc in K', R', G'. simpl app in K', R', G'. simpl app.
    destruct out as [auto|e|q]; cbv beta iota.
    3:{ exfalso. apply (W q). reflexivity. }
    2:{ apply post_ret, HQ; [exact K'|exact R'|exact G'|eauto|discriminate]. }
    apply post_ret. cbv beta iota. apply post_ret.
    apply HQ; [exact K'|exact R'|exact G'|eauto|].
    intros r auto' [= <-]. simpl. intros [= <-] Hok.
    destruct (Rep auto eq_refl Hok) as (node & payer & Hans & Hrep).
    exists node, payer. split; [exact Hans|].
    rewrite <- (policy_of_kv d0 d payer Hkv0).
    apply (saga_report_after issuer w _ _ ([Ev (XummPayloadGet uuid) (Fulfilled p)] ++ t1) t auto Q01)
      in Hrep.
    rewrite <- app_assoc in Hrep. exact Hrep. }
  destruct resolved.
  - apply post_markPayload. intros d0 Hkv0. cbv beta iota. apply Hrest, Hkv0.
  - apply post_ret. cbv beta iota. apply Hrest. reflexivity.
Qed.

Lemma polls_keep issuer w uuid n : forall h d,
  exists t, fst (polls issuer w uuid n h d) = (h ++ t)%list
            /\ keeps uuid d t (snd (polls issuer w uuid n h d)).
Proof.
  induction n as [|n IH]; intros h d.
  - exists []. split; [simpl; now rewrite app_nil_r|]. simpl. apply keeps_quiet; [apply quiet_nil|reflexivity].
  - cbn [polls].
    assert (P : post w (get_payload issuer uuid) h d
                  (fun _ h1 d1 => exists t1, h1 = (h ++ t1)%list /\ keeps uuid d t1 d1)).
    { apply post_get_payload. intros out t d' K _ _ _ _. exists t. split; [reflexivity|exact K]. }
    unfold post in P.
    destruct (exec no_promise w (get_payload issuer uuid) h d) as [[out h1] d1].
    cbn [fst snd] in P. destruct P as (t1 & -> & K1).
    destruct (IH (h ++ t1)%list d1) as (t2 & E2 & K2).
    exists (t1 ++ t2)%list. split.
    + rewrite E2. now rewrite app_assoc.
    + eapply keeps_trans; eassumption.
Qed.

(** C8, as the code has it: a status poll never reads the holder's objects
    from the ledger, and whenever it submits an authorize transaction the
    stored done marker of the authorize step was absent and the issuance
    entry it read from the ledger showed RequireAuth. *)
Theorem authorize_gated_by_flag_and_marker issuer w uuid h d :
  post w (get_payload issuer uuid) h d
    (fun out h' d' =>
       exists t, h' = (h ++ t)%list
         /\ existsb reads_holder t = false
         /\ (submitted Authorize t <> 0%nat ->
             marked Authorize uuid d = false /\ existsb shows_require_auth t = true)).
Proof.
  apply post_get_payload. intros out t d' _ Hr Ha _ _.
  exists t. repeat split; try assumption; now apply Ha.
Qed.

(** C8, the run that leaves the claim: the ledger already shows the holder's
    MPToken entry of the active issuance ([holderHasMPTokenEntry] answers
    true), the issuance requires authorization and no marker is stored; the
    poll submits an authorize transaction all the same. *)
Lemma authorize_submitted_for_authorized_holder :
  let w := Scenarios.ledger_world 4 Scenarios.all_success
             [{| MPTokenIssuanceID := Some Scenarios.issuanceId48 |}] in
  let d := Scenarios.swap_db [] in
  fst (fst (exec no_promise w
              (holderHasMPTokenEntry Scenarios.payer Scenarios.issuanceId48) [] d))
    = Returned true
  /\ submitted Authorize (Scenarios.history_of w d) = 1%nat
  /\ accepted Authorize (Scenarios.history_of w d) = 1%nat.
Proof. vm_compute. repeat split. Qed.




Lemma run_set_flag w k v h d :
  run w (set_flag k v) h d
  = (Returned tt, h,
     match v with
     | Some v => with_kv (<[k := if json_truthy v then "1" else "0"]>) d
     | None => d
     end).
Proof. destruct v; reflexivity. Qed.

(** C10: a policy update reaches no external service and leaves every table
    but [kv] as it was; in [kv], each of the three policy keys holds "1" or
    "0" by the truthiness of its flag when the body defines the flag and its
    previous value when the body does not, and every other key is unchanged.
    The reply tells the three flags as stored after the update. *)
Theorem policy_update_frame w body h d :
  post w (post_policy body) h d
    (fun out h' d' =>
       h' = h
       /\ xumm_payloads d' = xumm_payloads d /\ authorizations d' = authorizations d
       /\ transfers d' = transfers d /\ clawbacks d' = clawbacks d
       /\ account_locks d' = account_locks d
       /\ kv d' !! "POLICY_AUTO_LOCK_AFTER_SWAP"
          = flag_after (body_autoLockAfterSwap body) (kv d !! "POLICY_AUTO_LOCK_AFTER_SWAP")
       /\ kv d' !! "POLICY_AUTO_UNLOCK_AFTER_SWAP"
          = flag_after (body_autoUnlockAfterSwap body)
              (kv d !! "POLICY_AUTO_UNLOCK_AFTER_SWAP")
       /\ kv d' !! "POLICY_AUTO_CLAWBACK_BLACKLIST"
          = flag_after (body_autoClawbackBlacklist body)
              (kv d !! "POLICY_AUTO_CLAWBACK_BLACKLIST")
       /\ (forall k, k <> "POLICY_AUTO_LOCK_AFTER_SWAP" ->
                     k <> "POLICY_AUTO_UNLOCK_AFTER_SWAP" ->
                     k <> "POLICY_AUTO_CLAWBACK_BLACKLIST" -> kv d' !! k = kv d !! k)
       /\ out = Returned
                  {| reply_ok := true;
                     reply_autoLockAfterSwap := kv_bool d' "POLICY_AUTO_LOCK_AFTER_SWAP";
                     reply_autoUnlockAfterSwap := kv_bool d' "POLICY_AUTO_UNLOCK_AFTER_SWAP";
                     reply_autoClawbackBlacklist :=
                       kv_bool d' "POLICY_AUTO_CLAWBACK_BLACKLIST" |}).
Proof.
  unfold post, post_policy, isAutoLockEnabled, isAutoUnlockEnabled, isAutoClawbackEnabled.
  repeat (rewrite exec_bind, ?run_set_flag, ?run_kvGetBool; cbv beta iota).
  change (run w (Ret ?x) ?h' ?d') with (@Returned Error _ x, h', d').
  cbn [fst snd].
  destruct body as [[a|] [b|] [c|]]; cbn [with_kv kv xumm_payloads authorizations transfers
      clawbacks account_locks flag_after body_autoLockAfterSwap body_autoUnlockAfterSwap
      body_autoClawbackBlacklist];
    repeat split; try reflexivity;
    try (intros k H1 H2 H3);
    repeat first [ rewrite lookup_insert_eq | rewrite lookup_insert_ne by (done || congruence) ];
    try reflexivity.
Qed.

End MptFacts.

(** ** Smart-Locker: burn redemption *)

Module LockerFacts.
Import JS Async SmartLocker.
Local Open Scope prog_scope.

Abbreviation run := (exec no_promise).

(** The on-chain check always comes back, with an answer or an error text,
    and leaves the state alone. *)
Lemma run_confirm_burn (w : World Error Ext) acct id (h : list (Event Error Ext)) s :
  exists b e t, run w (confirm_burn acct id) h s = (Returned (b, e), (h ++ t)%list, s).
Proof.
  unfold confirm_burn. rewrite exec_try_finally, exec_try_catch. simpl.
  destruct (answer w unit Connect h) as [[]|e1]; simpl.
  - destruct (answer w _ (RequestAccountNfts acct 400) _) as [nfts|e2]; simpl;
      match goal with |- context [answer w unit Disconnect ?hh] =>
        destruct (answer w unit Disconnect hh) as [[]|e3] end; simpl;
      rewrite <- ?app_assoc; do 3 eexists; reflexivity.
  - match goal with |- context [answer w unit Disconnect ?hh] =>
        destruct (answer w unit Disconnect hh) as [[]|e3] end; simpl;
      rewrite <- ?app_assoc; do 3 eexists; reflexivity.
Qed.

(** C2, as the code has it: once the wallet reports the burn payload signed
    with a txid, the first status poll of a redemption that is not yet
    unlocked opens the locker, whatever the inventory read says: it prints
    the [[OPEN]] line with the [burnedOnChain] it found, marks the
    redemption unlocked and replies [unlocked: true, unlockResult: OPEN]. *)
Theorem unlock_fires_on_signed_payload (w : World Error Ext) uuid
    (h : list (Event Error Ext)) s p r
    (Huuid : trim uuid <> "")
    (Hget : answer w _ (XummPayloadGet (trim uuid)) h = Fulfilled (Some p))
    (Hsigned : meta_signed p = true)
    (Htxid : truthy (or_else (response_txid p)
                       (or_else (meta_txid p) (or_else (application_txid p) None))) = true)
    (Hr : redeems s !! trim uuid = Some r)
    (Hlocked : unlocked r = false) :
  exists body t s',
    run w (redeem_status (Some uuid)) h s = (Returned (Json body), (h ++ t)%list, s')
    /\ st_signed body = true
    /\ st_unlocked body = true
    /\ st_unlockResult body = Some {| unlock_ok := true; unlock_message := "OPEN" |}
    /\ redeems s' !! trim uuid
       = Some {| account := account r; nftokenId := nftokenId r; unlocked := true |}
    /\ console s'
       = (console s ++
          [{| open_burnUuid := trim uuid; open_account := account r;
              open_nftokenId := nftokenId r; open_txid := st_txid body;
              open_burnedOnChain := st_burnedOnChain body |}])%list.
Proof.
  unfold redeem_status. cbn [str_or_empty].
  destruct (String.eqb (trim uuid) "") eqn:E; [apply String.eqb_eq in E; contradiction|].
  rewrite exec_try_catch, exec_bind.
  change (run w (await (XummPayloadGet (trim uuid))) h s)
    with (run w (settle (answer w _ (XummPayloadGet (trim uuid)) h))
            (h ++ [Ev (XummPayloadGet (trim uuid)) (answer w _ (XummPayloadGet (trim uuid)) h)])%list s).
  rewrite Hget. cbn [settle exec]. rewrite exec_bind. cbn [get exec]. rewrite Hr, Hsigned.
  rewrite exec_bind.
  set (txid := or_else _ _) in *.
  assert (Hchain : exists b e t,
             run w (if true && truthy (account r) && truthy (nftokenId r)
                    then confirm_burn (str_or_empty (account r)) (str_or_empty (nftokenId r))
                    else Ret (false, None))
               (h ++ [Ev (XummPayloadGet (trim uuid)) (Fulfilled (Some p))])%list s
             = (Returned (b, e), ((h ++ [Ev (XummPayloadGet (trim uuid)) (Fulfilled (Some p))]) ++ t)%list, s)).
  { destruct (true && truthy (account r) && truthy (nftokenId r)).
    - apply run_confirm_burn.
    - exists false, None, []. now rewrite app_nil_r. }
  destruct Hchain as (b & e & t & ->). cbn [fst snd].
  rewrite Htxid, Hlocked. cbn [andb orb negb].
  rewrite exec_bind. cbn. rewrite lookup_insert_eq. cbn.
  eexists _, _, _. split; [rewrite <- app_assoc; reflexivity|].
  cbn. rewrite lookup_insert_eq. repeat split.
Qed.

(** C2 at the run that leaves the claim: the payload is signed with a txid
    and the ledger still lists the token among the holder's NFTs; the poll
    reports [burnedOnChain: false] and opens the locker all the same. *)
Lemma unlock_fires_while_token_still_held :
  exists body t s',
    run LockerScenarios.still_held_world (redeem_status (Some "BURN-1")) []
      LockerScenarios.pending_redeem = (Returned (Json body), t, s')
    /\ In (Ev (RequestAccountNfts LockerScenarios.holder 400)
              (Fulfilled [{| NFTokenID := Some LockerScenarios.token |}])) t
    /\ st_burnedOnChain body = false
    /\ st_unlocked body = true
    /\ st_unlockResult body = Some {| unlock_ok := true; unlock_message := "OPEN" |}
    /\ length (console s') = 1%nat.
Proof.
  destruct (unlock_fires_on_signed_payload LockerScenarios.still_held_world "BURN-1" []
              LockerScenarios.pending_redeem
              {| meta_resolved := true; meta_signed := true; meta_cancelled := false;
                 response_txid := Some "TXID_OF_THE_SIGNED_BURN";
                 meta_txid := None; application_txid := None |}
              {| account := Some LockerScenarios.holder;
                 nftokenId := Some LockerScenarios.token; unlocked := false |})
    as (body & t & s' & E & _ & Hu & Hres & _ & Hc).
  - vm_compute. discriminate.
  - reflexivity.
  - reflexivity.
  - reflexivity.
  - reflexivity.
  - reflexivity.
  - exists body, t, s'. rewrite app_nil_l in E. split; [exact E|].
    vm_compute in E. injection E as <- <- <-.
    split; [right; right; left; reflexivity|].
    repeat split.
Defined.

End LockerFacts.

(** ** A program logic over [after], for any server *)

Section AfterLaws.
Import Async.
Context {St Err : Type} {Ext : Type -> Type} {R : Type}.
Variable promise_of : St -> nat -> option (settled Err R).
Implicit Types (w : World Err Ext) (h : list (Event Err Ext)) (s : St).

#[local] Abbreviation after := (Async.after promise_of).
#[local] Abbreviation Prog := (Async.Prog St Err Ext R).

Lemma after_ret {A} w (a : A) h s Q : Q (Returned a) h s -> after w (Ret a) h s Q.
Proof. exact (fun H => H). Qed.

Lemma after_throw {A} w e h s (Q : Outcome Err A -> _) :
  Q (Thrown e) h s -> after w (Throw e) h s Q.
Proof. exact (fun H => H). Qed.

Lemma after_mono {A} w (p : Prog A) h s (Q Q' : Outcome Err A -> _) :
  after w p h s Q -> (forall out h' s', Q out h' s' -> Q' out h' s') -> after w p h s Q'.
Proof. unfold Async.after. auto. Qed.

Lemma after_bind {A B} w (p : Prog A) (f : A -> Prog B) h s Q :
  after w p h s (fun out h' s' =>
    match out with
    | Returned a => after w (f a) h' s' Q
    | Thrown e => Q (Thrown e) h' s'
    | Waiting q => Q (Waiting q) h' s'
    end) ->
  after w (bind p f) h s Q.
Proof.
  unfold Async.after. rewrite exec_bind.
  destruct (exec promise_of w p h s) as [[[a|e|q] h'] s']; exact (fun H => H).
Qed.

Lemma after_try_catch {A} w (p : Prog A) hd h s Q :
  after w p h s (fun out h' s' =>
    match out with
    | Thrown e => after w (hd e) h' s' Q
    | other => Q other h' s'
    end) ->
  after w (try_catch p hd) h s Q.
Proof.
  unfold Async.after. rewrite exec_try_catch.
  destruct (exec promise_of w p h s) as [[[a|e|q] h'] s']; exact (fun H => H).
Qed.

Lemma after_try_finally {A} w (p : Prog A) fin h s Q :
  after w p h s (fun out h' s' =>
    match out with
    | Returned a => after w (bind fin (fun _ => Ret a)) h' s' Q
    | Thrown e => after w (bind fin (fun _ => Throw e)) h' s' Q
    | Waiting q => Q (Waiting q) h' s'
    end) ->
  after w (try_finally p fin) h s Q.
Proof.
  unfold Async.after. rewrite exec_try_finally.
  destruct (exec promise_of w p h s) as [[[a|e|q] h'] s']; exact (fun H => H).
Qed.

Lemma after_call {A X} w (c : Ext X) (k : settled Err X -> Prog A) h s Q :
  after w (k (answer w X c h)) (h ++ [Ev c (answer w X c h)])%list s Q ->
  after w (Call c k) h s Q.
Proof. exact (fun H => H). Qed.

Lemma after_await {X} w (c : Ext X) h s Q :
  (forall r, Q (match r with Fulfilled x => Returned x | Rejected e => Thrown e end)
               (h ++ [Ev c r])%list s) ->
  after w (await c) h s Q.
Proof.
  intros H. unfold await. apply after_call. specialize (H (answer w X c h)).
  destruct (answer w X c h); exact H.
Qed.

Lemma after_gets {A} w (k : St -> Prog A) h s Q :
  after w (k s) h s Q -> after w (GetS k) h s Q.
Proof. exact (fun H => H). Qed.

Lemma after_puts {A} w s1 (k : Prog A) h s Q :
  after w k h s1 Q -> after w (PutS s1 k) h s Q.
Proof. exact (fun H => H). Qed.

Lemma after_nows {A} w (k : Z -> Prog A) h s Q :
  after w (k (clock w h)) h s Q -> after w (Now k) h s Q.
Proof. exact (fun H => H). Qed.

Lemma after_get w h s Q : Q (Returned s) h s -> after w get h s Q.
Proof. exact (fun H => H). Qed.

Lemma after_put w s1 h s Q : Q (Returned tt) h s1 -> after w (put s1) h s Q.
Proof. exact (fun H => H). Qed.

Lemma after_modify w f h s Q : Q (Returned tt) h (f s) -> after w (modify f) h s Q.
Proof. exact (fun H => H). Qed.

Lemma after_now w h s Q : Q (Returned (clock w h)) h s -> after w now h s Q.
Proof. exact (fun H => H). Qed.

Lemma after_join w p h s Q :
  match promise_of s p with
  | Some (Fulfilled x) => Q (Returned x) h s
  | Some (Rejected e) => Q (Thrown e) h s
  | None => Q (Waiting p) h s
  end ->
  after w (join p) h s Q.
Proof.
  unfold Async.after, join. cbn [exec]. destruct (promise_of s p) as [[x|e]|]; exact (fun H => H).
Qed.

End AfterLaws.

(** ** Programs that keep the state, or an invariant of it *)

Section Invariants.
Import Async.
Context {St Err : Type} {Ext : Type -> Type} {R : Type}.
Variable promise_of : St -> nat -> option (settled Err R).
Implicit Types (w : World Err Ext) (h : list (Event Err Ext)) (s : St).

#[local] Abbreviation Prog := (Async.Prog St Err Ext R).
#[local] Abbreviation final w p h s := (snd (exec promise_of w p h s)).

Lemma final_bind {A B} w (p : Prog A) (f : A -> Prog B) h s :
  final w (bind p f) h s = final w p h s
  \/ exists a h', final w (bind p f) h s = final w (f a) h' (final w p h s).
Proof.
  rewrite exec_bind. destruct (exec promise_of w p h s) as [[[a|e|q] h'] s']; cbn; eauto.
Qed.

Lemma final_try_catch {A} w (p : Prog A) hd h s :
  final w (try_catch p hd) h s = final w p h s
  \/ exists e h', final w (try_catch p hd) h s = final w (hd e) h' (final w p h s).
Proof.
  rewrite exec_try_catch. destruct (exec promise_of w p h s) as [[[a|e|q] h'] s']; cbn; eauto.
Qed.

Lemma final_try_finally {A} w (p : Prog A) fin h s :
  final w (try_finally p fin) h s = final w p h s
  \/ exists h', final w (try_finally p fin) h s = final w fin h' (final w p h s).
Proof.
  rewrite exec_try_finally.
  destruct (exec promise_of w p h s) as [[[a|e|q] h'] s']; cbn [fst snd]; eauto;
    right; exists h'; rewrite exec_bind;
    destruct (exec promise_of w fin h' s') as [[[[]|e'|q'] h2] s2]; reflexivity.
Qed.

Section Preserved.
Variable I : St -> Prop.

#[local] Abbreviation preserves p := (forall w h s, I s -> I (final w p h s)).

Lemma preserves_ret {A} (a : A) : preserves (Ret a).
Proof. intros w h s H. exact H. Qed.

Lemma preserves_throw {A} e : preserves (Throw e : Prog A).
Proof. intros w h s H. exact H. Qed.

Lemma preserves_bind {A B} (p : Prog A) (f : A -> Prog B) :
  preserves p -> (forall a, preserves (f a)) -> preserves (bind p f).
Proof.
  intros Hp Hf w h s H. destruct (final_bind w p f h s) as [->|(a & h' & ->)]; auto.
Qed.

Lemma preserves_try_catch {A} (p : Prog A) hd :
  preserves p -> (forall e, preserves (hd e)) -> preserves (try_catch p hd).
Proof.
  intros Hp Hf w h s H. destruct (final_try_catch w p hd h s) as [->|(e & h' & ->)]; auto.
Qed.

Lemma preserves_try_finally {A} (p : Prog A) fin :
  preserves p -> preserves fin -> preserves (try_finally p fin).
Proof.
  intros Hp Hf w h s H. destruct (final_try_finally w p fin h s) as [->|(h' & ->)]; auto.
Qed.

Lemma preserves_await {X} (c : Ext X) : preserves (await c).
Proof. intros w h s H. unfold await. cbn [exec]. destruct (answer w X c h); exact H. Qed.

Lemma preserves_get : preserves get.
Proof. intros w h s H. exact H. Qed.

Lemma preserves_now : preserves now.
Proof. intros w h s H. exact H. Qed.

Lemma preserves_modify f : (forall s, I s -> I (f s)) -> preserves (modify f).
Proof. intros Hf w h s H. apply Hf, H. Qed.

Lemma preserves_settle {X} (r : settled Err X) : preserves (settle r).
Proof. intros w h s H. destruct r; exact H. Qed.

Lemma preserves_join p : preserves (join p).
Proof.
  intros w h s H. unfold join. cbn [exec].
  destruct (promise_of s p) as [[x|e]|]; exact H.
Qed.

End Preserved.
End Invariants.

(** ** AI-order: polls, creation and the sweep *)

Module OrderFacts.
Import JS Async AiOrder OrderObserve.
Local Open Scope prog_scope.

Section Server.
Variables (STORE_ADDRESS RLUSD_ISSUER RLUSD_CURRENCY KFD_MPT_ISSUANCE_ID : string).
Variables (ORDER_TTL_MS CREATE_ORDER_CACHE_MS TRUSTLINE_CACHE_MS TX_CACHE_TTL : Z).
Implicit Types (w : World) (h t : list Event) (s : State).

#[local] Abbreviation run := (exec promise_of).
#[local] Abbreviation buy_status :=
  (AiOrder.buy_status STORE_ADDRESS RLUSD_ISSUER RLUSD_CURRENCY KFD_MPT_ISSUANCE_ID).
#[local] Abbreviation buy_finish :=
  (AiOrder.buy_finish STORE_ADDRESS RLUSD_ISSUER RLUSD_CURRENCY KFD_MPT_ISSUANCE_ID).
#[local] Abbreviation buy_job :=
  (AiOrder.buy_job STORE_ADDRESS RLUSD_ISSUER RLUSD_CURRENCY KFD_MPT_ISSUANCE_ID).

Lemma alter_as_insert {V} (f : V -> V) (m : gmap nat V) k v :
  m !! k = Some v -> alter f k m = <[k := f v]> m.
Proof.
  intros H. apply map_eq. intros j. destruct (decide (k = j)) as [->|Hne].
  - rewrite lookup_alter_eq, lookup_insert_eq, H. reflexivity.
  - rewrite lookup_alter_ne, lookup_insert_ne by assumption. reflexivity.
Qed.

(** The state after the two fills of a poll. *)
Lemma pin_state s ref o buyer txid :
  orderObjects s !! ref = Some o ->
  with_orderObjects
    (alter (fun o0 => if negb (truthy (order_txid o0)) then set_txid txid o0 else o0) ref)
    (with_orderObjects
       (alter (fun o0 => if negb (truthy (order_buyer o0)) then set_buyer buyer o0 else o0)
          ref) s)
  = with_orderObjects (<[ref := pin buyer txid o]>) s.
Proof.
  intros H. unfold with_orderObjects. cbn.
  rewrite (alter_as_insert _ _ _ _ H).
  rewrite (alter_as_insert _ _ ref
             (if negb (truthy (order_buyer o)) then set_buyer buyer o else o))
    by apply lookup_insert_eq.
  rewrite insert_insert_eq. reflexivity.
Qed.

(** What a signed poll of an open order does before it looks at the
    transaction: it fills buyer and txid where they are empty, then replies
    at once on a buyer mismatch and goes on to the lookups by txid
    otherwise. *)
Lemma buy_status_front w uuid h s ref o p resp txid :
  uuid <> "" ->
  completedByPayload s !! uuid = None ->
  ordersByPaymentPayload s !! uuid = Some ref ->
  orderObjects s !! ref = Some o ->
  status o = Created ->
  answer w _ (XummPayloadGet uuid) h = Fulfilled (Some p) ->
  meta_signed p = Some true ->
  response p = Some resp ->
  response_txid resp = Some txid -> txid <> "" ->
  let o1 := pin (response_account resp) (Some txid) o in
  let s1 := with_orderObjects (<[ref := o1]>) s in
  let h1 := (h ++ [Ev (XummPayloadGet uuid) (Fulfilled (Some p))])%list in
  run w (buy_status (Some uuid)) h s
  = if negb (bool_decide (response_account resp = order_buyer o1))
    then (Returned (Failure 400 "Buyer mismatch for this order" None), h1, s1)
    else match run w (buy_finish uuid ref (response_account resp) txid) h1 s1 with
         | (Thrown err, h', s') => (Returned (Failure 500 (message err) None), h', s')
         | other => other
         end.
Proof.
  intros Hu Hc Ho Hobj Hst Hget Hsigned Hresp Htx Htxne o1 s1 h1.
  assert (Hq : truthy (Some uuid) = true).
  { cbn. destruct (String.eqb_spec uuid ""); [contradiction|reflexivity]. }
  assert (Ht : truthy (Some txid) = true).
  { cbn. destruct (String.eqb_spec txid ""); [contradiction|reflexivity]. }
  assert (Hs1 : orderObjects s1 !! ref = Some o1) by apply lookup_insert_eq.
  unfold AiOrder.buy_status. rewrite Hq. cbn [negb str_or_empty].
  rewrite exec_try_catch, exec_bind. cbn [get exec]. rewrite Hc, Ho.
  rewrite exec_bind. unfold read_order at 1. rewrite exec_bind. cbn [get exec].
  rewrite Hobj. cbn [exec]. rewrite Hst.
  rewrite exec_bind. unfold await at 1. cbn [exec]. rewrite Hget. cbn [settle exec].
  rewrite Hsigned, Hresp, Htx, Ht. cbn [negb str_or_empty].
  rewrite exec_bind. cbn [modify exec].
  rewrite exec_bind. cbn [modify exec].
  rewrite (pin_state _ _ _ _ _ Hobj). fold o1 s1 h1.
  rewrite exec_bind. unfold read_order at 1. rewrite exec_bind. cbn [get exec].
  rewrite Hs1. cbn [exec].
  destruct (bool_decide (response_account resp = order_buyer o1)); reflexivity.
Qed.

(** The lookups by txid: a cached outcome is replied as it is; a
    transaction in flight or already processed is answered pending.  No
    job starts, nothing is asked of the ledger, the state stays. *)
Lemma buy_finish_cached w uuid ref buyer txid h s cached stamp :
  txCache s !! txid = Some (cached, stamp) ->
  run w (buy_finish uuid ref buyer txid) h s
  = (Returned (Json (BBuy cached (Some stamp))), h, s).
Proof.
  intros Hcache. unfold AiOrder.buy_finish. rewrite exec_bind. cbn [get exec].
  rewrite Hcache. reflexivity.
Qed.

Lemma buy_finish_guarded w uuid ref buyer txid h s :
  txCache s !! txid = None ->
  txid ∈ inflight s \/ txid ∈ processedTx s ->
  run w (buy_finish uuid ref buyer txid) h s = (Returned pending, h, s).
Proof.
  intros Hcache Hin. unfold AiOrder.buy_finish. rewrite exec_bind. cbn [get exec].
  rewrite Hcache. destruct Hin as [Hin|Hin]; rewrite (bool_decide_eq_true_2 _ Hin).
  - reflexivity.
  - destruct (bool_decide (txid ∈ inflight s)); reflexivity.
Qed.

(** *** A pinned buyer stays *)

Lemma pinned_alter ref b (f : Order -> Order) k s :
  (forall o, order_buyer o = Some b -> order_buyer (f o) = Some b) ->
  pinned ref b s -> pinned ref b (with_orderObjects (alter f k) s).
Proof.
  intros Hf (Hb & o & Ho & Hbuyer). split; [exact Hb|].
  cbn [with_orderObjects orderObjects].
  destruct (decide (k = ref)) as [->|Hne].
  - exists (f o). rewrite lookup_alter_eq, Ho. split; [reflexivity|auto].
  - exists o. rewrite lookup_alter_ne by exact Hne. auto.
Qed.

Lemma truthy_pinned b : b <> "" -> truthy (Some b) = true.
Proof. intros H. cbn. destruct (String.eqb_spec b ""); [contradiction|reflexivity]. Qed.

Ltac keep_step :=
  first
    [ apply preserves_ret | apply preserves_throw | apply preserves_get
    | apply preserves_now | apply preserves_await | apply preserves_settle
    | apply preserves_join
    | apply preserves_modify; intros ? ?
    | apply preserves_try_catch; [|intros ?]
    | apply preserves_try_finally
    | apply preserves_bind; [|intros ?]
    | match goal with |- context [match ?x with _ => _ end] => destruct x end
    | match goal with |- context [if ?x then _ else _] => destruct x end ].

Lemma read_order_keeps (I : State -> Prop) order w h s :
  I s -> I (snd (run w (read_order order) h s)).
Proof.
  revert w h s. unfold read_order. apply preserves_bind; [apply preserves_get|].
  intros s0. destruct (orderObjects s0 !! order); [apply preserves_ret|apply preserves_throw].
Qed.

Lemma verifyPaymentTx_keeps (I : State -> Prop) txid expectedBuyer expectedTotal method w h s :
  I s ->
  I (snd (run w (AiOrder.verifyPaymentTx STORE_ADDRESS RLUSD_ISSUER RLUSD_CURRENCY
                   KFD_MPT_ISSUANCE_ID txid expectedBuyer expectedTotal method) h s)).
Proof.
  revert w h s. unfold AiOrder.verifyPaymentTx, capture. repeat keep_step.
Qed.

Lemma mint_one_keeps (I : State -> Prop) p buyer acc w h s :
  I s -> I (snd (run w (mint_one p buyer acc) h s)).
Proof.
  revert w h s. unfold mint_one, capture. repeat keep_step.
Qed.

Lemma mint_times_keeps (I : State -> Prop) n p buyer : forall acc w h s,
  I s -> I (snd (run w (mint_times n p buyer acc) h s)).
Proof.
  induction n as [|n IH]; intros acc; cbn [mint_times].
  - apply preserves_ret.
  - apply preserves_bind; [intros w h s; apply mint_one_keeps|]. intros acc'. apply IH.
Qed.

Lemma mint_items_keeps (I : State -> Prop) its buyer : forall acc w h s,
  I s -> I (snd (run w (mint_items its buyer acc) h s)).
Proof.
  induction its as [|it rest IH]; intros acc; cbn [mint_items].
  - apply preserves_ret.
  - destruct (products (product_id it)); [|apply IH].
    apply preserves_bind; [intros w h s; apply mint_times_keeps|]. intros acc'. apply IH.
Qed.

Lemma buy_job_keeps (I : State -> Prop) order buyer txid w h s :
  (forall f s, I s -> I (with_processedTx f s)) ->
  I s -> I (snd (run w (buy_job order buyer txid) h s)).
Proof.
  intros Hf. revert w h s. unfold AiOrder.buy_job.
  repeat first
    [ (intros w h s; apply read_order_keeps)
    | (intros w h s; apply verifyPaymentTx_keeps)
    | (intros w h s; apply mint_items_keeps)
    | keep_step ]; auto.
Qed.

Lemma buy_finish_keeps_pinned ref b uuid order buyer txid w h s :
  pinned ref b s -> pinned ref b (snd (run w (buy_finish uuid order buyer txid) h s)).
Proof.
  revert w h s. unfold AiOrder.buy_finish.
  repeat first
    [ (intros w h s; apply buy_job_keeps; intros f s0 H0; exact H0)
    | keep_step ];
    try assumption;
    try (apply pinned_alter; [intros o Hb; exact Hb|assumption]).
Qed.

Lemma buy_status_keeps_pinned ref b q w h s :
  pinned ref b s -> pinned ref b (snd (run w (buy_status q) h s)).
Proof.
  revert w h s. unfold AiOrder.buy_status.
  repeat first
    [ (intros w h s; apply read_order_keeps)
    | (intros w h s; apply buy_finish_keeps_pinned)
    | keep_step ];
    try assumption.
  all: match goal with H : pinned _ _ _ |- _ => pose proof (proj1 H) as Hne end.
  all: apply pinned_alter; [|assumption]; intros o Hb;
    unfold order_buyer, order_txid in *; rewrite ?Hb, ?truthy_pinned by assumption;
    cbn [negb]; try assumption; destruct (negb _); exact Hb.
Qed.

(** *** The sweep *)

#[local] Abbreviation sweep :=
  (AiOrder.sweep ORDER_TTL_MS CREATE_ORDER_CACHE_MS TRUSTLINE_CACHE_MS TX_CACHE_TTL).

Lemma lookup_filter_bool {K V} `{Countable K} (f : K * V -> bool) (m : gmap K V) k :
  filter (fun kv => f kv = true) m !! k
  = match m !! k with
    | Some v => if f (k, v) then Some v else None
    | None => None
    end.
Proof.
  destruct (m !! k) as [v|] eqn:E.
  - destruct (f (k, v)) eqn:F.
    + apply map_lookup_filter_Some. auto.
    + apply map_lookup_filter_None. right. intros v' E'. rewrite E in E'.
      injection E' as <-. rewrite F. discriminate.
  - apply map_lookup_filter_None. left. exact E.
Qed.

Lemma sweep_state w h s :
  exists s',
    run w sweep h s = (Returned tt, h, s')
    /\ processedTx s' = processedTx s /\ inflight s' = inflight s
    /\ orderObjects s' = orderObjects s
    /\ createOrderInflight s' = createOrderInflight s
    /\ promises s' = promises s /\ next_ref s' = next_ref s
    /\ (forall uuid,
          ordersByPaymentPayload s' !! uuid
          = match ordersByPaymentPayload s !! uuid with
            | Some ref =>
                if match orderObjects s !! ref with
                   | Some o => order_expired ORDER_TTL_MS (clock w h) o
                   | None => false
                   end
                then None else Some ref
            | None => None
            end)
    /\ (forall uuid,
          completedByPayload s' !! uuid
          = match completedByPayload s !! uuid with
            | Some (r, c) => swept ORDER_TTL_MS (clock w h) c (r, c)
            | None => None
            end)
    /\ (forall key,
          createOrderCache s' !! key
          = match createOrderCache s !! key with
            | Some (r, c) => swept CREATE_ORDER_CACHE_MS (clock w h) c (r, c)
            | None => None
            end)
    /\ (forall key,
          trustlineStatusCache s' !! key
          = match trustlineStatusCache s !! key with
            | Some st => swept TRUSTLINE_CACHE_MS (clock w h) (checkedAt st) st
            | None => None
            end)
    /\ (forall txid,
          txCache s' !! txid
          = match txCache s !! txid with
            | Some (r, c) =>
                if 0 <? TX_CACHE_TTL then swept TX_CACHE_TTL (clock w h) c (r, c)
                else Some (r, c)
            | None => None
            end).
Proof.
  unfold AiOrder.sweep.
  destruct (0 <? TX_CACHE_TTL) eqn:Ettl.
  all: eexists; split; [cbn; reflexivity|].
  all: cbn; repeat split; try reflexivity; intros k; rewrite ?lookup_filter_bool.
  all: unfold swept, expired, order_expired.
  all: repeat match goal with
         | |- context [match ?m !! ?k with _ => _ end] => destruct (m !! k) as [?|]; cbn
         | v : (_ * _)%type |- _ => destruct v; cbn
         end; try reflexivity.
  all: repeat match goal with
         | |- context [if negb ?c then _ else _] => destruct c; cbn
         | |- context [match status ?o with _ => _ end] => destruct (status o); cbn
         end; try reflexivity.
Qed.

(** *** Creation: the cache and the creation in flight *)

#[local] Abbreviation create_order :=
  (AiOrder.create_order STORE_ADDRESS RLUSD_ISSUER RLUSD_CURRENCY KFD_MPT_ISSUANCE_ID
     CREATE_ORDER_CACHE_MS TRUSTLINE_CACHE_MS).

(** An identical request within the cache window is answered from the
    cache: nothing is asked of the wallet service, the state stays. *)
Lemma create_order_cached w items buyer pm m h s resp createdAt :
  normalizePaymentMethod (or_else pm (Some "mpt")) = Ret m ->
  0 < calcOrderTotal items ->
  createOrderCache s !! buildCreateOrderKey items buyer m = Some (resp, createdAt) ->
  clock w h - createdAt < CREATE_ORDER_CACHE_MS ->
  run w (create_order items buyer pm) h s = (Returned (Json (BCreate resp)), h, s).
Proof.
  intros Hm Htotal Hcache Hfresh. unfold AiOrder.create_order.
  rewrite exec_bind. cbn [now exec]. rewrite exec_try_catch, exec_bind, Hm. cbn [exec].
  destruct (Z.leb_spec (calcOrderTotal items) 0) as [Hle|_]; [lia|].
  rewrite exec_bind. cbn [get exec]. rewrite Hcache.
  destruct (Z.ltb_spec (clock w h - createdAt) CREATE_ORDER_CACHE_MS) as [_|Hge]; [|lia].
  reflexivity.
Qed.

Ltac ev :=
  cbn -[lookup insert delete buildCreateOrderKey calcOrderTotal normalizePaymentMethod
        getTrustlineCacheKey Z.ltb Z.leb Z.sub String.eqb truthy str_or_empty or_else
        safeUpper List.find arrive resolve drain].

Ltac known :=
  match goal with
  | H : _ |- _ => rewrite H
  | |- _ => rewrite lookup_insert_eq
  | |- _ => progress unfold promise_of
  end.

Ltac go := repeat (ev; known); ev.

Ltac pool_arrive t :=
  lazymatch goal with
  | |- context [arrive promise_of t ?p ?pl] =>
      let E := fresh "E" in
      eassert (E : arrive promise_of t p pl = _);
      [ unfold arrive, AiOrder.create_order, AiOrder.create_job,
          AiOrder.checkStoreRlusdTrustLine, AiOrder.getTrustLineStatus; go; reflexivity | rewrite E; clear E ]
  end.

Ltac pool_join t :=
  lazymatch goal with
  | |- context [arrive promise_of t ?p (Build_Pool ?s [(?id, BCall ?c ?k)] ?rs ?st ?n)] =>
      let E := fresh "E" in
      eassert (E : forall k0,
                  arrive promise_of t p (Build_Pool s [(id, BCall c k0)] rs st n) = _);
      [ intros k0; unfold arrive, AiOrder.create_order, AiOrder.create_job,
          AiOrder.checkStoreRlusdTrustLine, AiOrder.getTrustLineStatus; go; reflexivity
      | rewrite E; clear E ]
  end.

Ltac pool_resolve t :=
  lazymatch goal with
  | |- context [resolve promise_of t ?id ?ans ?pl] =>
      let E := fresh "E" in
      eassert (E : resolve promise_of t id ans pl = _);
      [ unfold resolve; go; reflexivity | rewrite E; clear E ]
  end.

Lemma drain_done {H} (ts : list Z) (ans : forall X, Ext X -> settled Error X)
    (pl : Pool State Error Ext CreateResponse H) :
  first_call (tasks pl) = None -> drain promise_of ts ans pl = pl.
Proof. intros E. destruct ts; cbn [drain]; [reflexivity|]. rewrite E. reflexivity. Qed.

Lemma drain_step {H} (t : Z) (ts : list Z) (ans : forall X, Ext X -> settled Error X)
    (pl : Pool State Error Ext CreateResponse H) id :
  first_call (tasks pl) = Some id ->
  drain promise_of (t :: ts) ans pl = drain promise_of ts ans (resolve promise_of t id ans pl).
Proof. intros E. cbn [drain]. rewrite E. reflexivity. Qed.

(** A request that replies without an await leaves an idle server as it
    was, its reply apart. *)
Lemma arrive_replies_at_once {H} (t : Z) (p : Prog State Error Ext CreateResponse H)
    (pl : Pool State Error Ext CreateResponse H) r s' :
  tasks pl = [] ->
  advance promise_of t p (shared pl) = (SDone r, s') ->
  arrive promise_of t p pl
  = Build_Pool s' [] (replies pl ++ [(next_id pl, r)])%list (started pl) (S (next_id pl)).
Proof.
  intros Ht Ha. unfold arrive. cbn [shared tasks replies started next_id].
  rewrite Ha, Ht. reflexivity.
Qed.

Lemma advance_create_cached items buyer pm m (t : Z) s resp createdAt :
  normalizePaymentMethod (or_else pm (Some "mpt")) = Ret m ->
  0 < calcOrderTotal items ->
  createOrderCache s !! buildCreateOrderKey items buyer m = Some (resp, createdAt) ->
  t - createdAt < CREATE_ORDER_CACHE_MS ->
  advance promise_of t (create_order items buyer pm) s
  = (SDone (Fulfilled (Json (BCreate resp))), s).
Proof.
  intros Hm Htotal Hcache Hfresh.
  apply Z.leb_gt in Htotal. apply Z.ltb_lt in Hfresh.
  unfold AiOrder.create_order. go. reflexivity.
Qed.

Ltac pool_next := rewrite drain_step with (id := 0%nat) by reflexivity.

Ltac pool_done Hm Htotal :=
  rewrite drain_done by reflexivity;
  do 2 eexists; split; [|split; [reflexivity|]];
  [ ev; match goal with H : created_uuid _ = Some _ |- _ => rewrite ?H end; reflexivity
  | split; [reflexivity|split; [reflexivity|]];
    match goal with
    | |- ?A /\ _ =>
        assert (Hc : A) by (ev; rewrite lookup_insert_eq; reflexivity);
        split; [exact Hc|];
        intros t4 Hfresh;
        erewrite arrive_replies_at_once;
          [ | reflexivity | exact (advance_create_cached _ _ _ _ _ _ _ _ Hm Htotal Hc Hfresh) ];
        split; reflexivity
    end ].

(** C7: two identical create-order requests, the second arriving while
    the creation of the first is in flight, and a third arriving later
    within the cache window: when the creation succeeds, exactly one
    payment payload is created at the wallet service, the three replies are
    the same response with the uuid of that payload, and the second and
    third requests start no external operation. *)
Theorem creation_is_shared items buyer pm m s (t1 t2 : Z) (ts : list Z)
    (ans : forall X, Ext X -> settled Error X) payload uuid lines :
  normalizePaymentMethod (or_else pm (Some "mpt")) = Ret m ->
  0 < calcOrderTotal items ->
  createOrderCache s !! buildCreateOrderKey items buyer m = None ->
  createOrderInflight s !! buildCreateOrderKey items buyer m = None ->
  promises s !! next_ref s = None ->
  (m = Rlusd -> RLUSD_ISSUER <> "" /\ RLUSD_CURRENCY <> "") ->
  (forall tx e, ans _ (XummPayloadCreate tx e) = Fulfilled (Some payload)) ->
  created_uuid payload = Some uuid -> uuid <> "" ->
  ans _ Connect = Fulfilled tt ->
  (forall a p, ans _ (RequestAccountLines a p) = Fulfilled lines) ->
  ans _ Disconnect = Fulfilled tt ->
  (4 <= length ts)%nat ->
  let req := create_order items buyer pm in
  let pl := drain promise_of ts ans
              (arrive promise_of t2 req
                 (arrive promise_of t1 req (Build_Pool s [] [] [] 0))) in
  exists r tc,
    payload_uuid r = uuid
    /\ replies pl = [(0%nat, Fulfilled (Json (BCreate r)));
                     (1%nat, Fulfilled (Json (BCreate r)))]
    /\ tasks pl = []
    /\ payments_created (started pl) = 1%nat
    /\ createOrderCache (shared pl) !! buildCreateOrderKey items buyer m = Some (r, tc)
    /\ forall t4 : Z,
         t4 - tc < CREATE_ORDER_CACHE_MS ->
         replies (arrive promise_of t4 req pl)
         = (replies pl ++ [(2%nat, Fulfilled (Json (BCreate r)))])%list
         /\ started (arrive promise_of t4 req pl) = started pl.
Proof.
  intros Hm Htotal Hcache Hin Hp Hrl Hans Hu Hune Hconn Hlines Hdisc Hlen req pl.
  subst req pl.
  destruct ts as [|ta [|tb [|tc [|td rest]]]]; cbn in Hlen; try lia. clear Hlen.
  assert (Htr : truthy (Some uuid) = true) by (apply truthy_pinned; exact Hune).
  assert (Hle : (calcOrderTotal items <=? 0) = false) by (apply Z.leb_gt; exact Htotal).
  destruct m.
  - clear Hrl. pool_arrive t1. pool_arrive t2. pool_next.
    pool_resolve ta. pool_done Hm Htotal.
  - clear Hrl. pool_arrive t1. pool_arrive t2. pool_next.
    pool_resolve ta. pool_done Hm Htotal.
  - destruct (Hrl eq_refl) as [Hri Hrc]. clear Hrl.
    apply String.eqb_neq in Hri, Hrc.
    destruct (List.find
                (fun l => String.eqb (safeUpper (line_currency l))
                            (safeUpper (Some RLUSD_CURRENCY))) lines) as [line|] eqn:Hfind.
    all: destruct (trustlineStatusCache s
                     !! getTrustlineCacheKey STORE_ADDRESS RLUSD_ISSUER RLUSD_CURRENCY)
           as [cached|] eqn:Htrust;
      [destruct (t1 - checkedAt cached <? TRUSTLINE_CACHE_MS) eqn:Hfr|].
    1:{ pool_arrive t1. pool_join t2. pool_next.
        pool_resolve ta. pool_done Hm Htotal. }
    1:{ pool_arrive t1. pool_join t2. pool_next.
        pool_resolve ta. pool_next.
        pool_resolve tb. pool_next.
        pool_resolve tc. pool_next.
        pool_resolve td. pool_done Hm Htotal. }
    1:{ pool_arrive t1. pool_join t2. pool_next.
        pool_resolve ta. pool_next.
        pool_resolve tb. pool_next.
        pool_resolve tc. pool_next.
        pool_resolve td. pool_done Hm Htotal. }
    1:{ pool_arrive t1. pool_join t2. pool_next.
        pool_resolve ta. pool_done Hm Htotal. }
    1:{ pool_arrive t1. pool_join t2. pool_next.
        pool_resolve ta. pool_next.
        pool_resolve tb. pool_next.
        pool_resolve tc. pool_next.
        pool_resolve td. pool_done Hm Htotal. }
    pool_arrive t1. pool_join t2. pool_next.
        pool_resolve ta. pool_next.
        pool_resolve tb. pool_next.
        pool_resolve tc. pool_next.
        pool_resolve td. pool_done Hm Htotal.
Qed.

(** *** The claims on polls *)

Lemma pin_keeps_buyer buyer txid o b :
  order_buyer o = Some b -> b <> "" -> order_buyer (pin buyer txid o) = Some b.
Proof.
  intros Hb Hne. unfold pin. rewrite Hb, (truthy_pinned _ Hne). cbn [negb].
  destruct (negb (truthy (order_txid o))); exact Hb.
Qed.

Lemma pin_fills_buyer buyer txid o :
  truthy (order_buyer o) = false -> order_buyer (pin buyer txid o) = buyer.
Proof.
  intros Hb. unfold pin. rewrite Hb. cbn [negb].
  destruct (negb (truthy (order_txid (set_buyer buyer o)))); reflexivity.
Qed.

Lemma pin_keeps_status buyer txid o :
  status (pin buyer txid o) = status o /\ completedAt (pin buyer txid o) = completedAt o.
Proof.
  unfold pin.
  destruct (negb (truthy (order_buyer o))); cbn;
    match goal with |- context [if ?c then _ else _] => destruct c end; split; reflexivity.
Qed.

(** C5: on a signed poll of an open order, (i) an order with no buyer yet
    gets the signing account as its buyer, and has it when the poll ends;
    (ii) when the order has a buyer and another account signed, the poll
    replies 400 "Buyer mismatch for this order" right after reading the
    payload: the order keeps its buyer and stays open, nothing is verified,
    cached or completed; (iii) a pinned buyer is still pinned after any
    poll, whatever the query and the world. *)
Theorem pinned_buyer_rejects_other_signer w uuid h s ref o p resp txid
    (Huuid : uuid <> "")
    (Hnone : completedByPayload s !! uuid = None)
    (Horder : ordersByPaymentPayload s !! uuid = Some ref)
    (Hobj : orderObjects s !! ref = Some o)
    (Hopen : status o = Created)
    (Hget : answer w _ (XummPayloadGet uuid) h = Fulfilled (Some p))
    (Hsigned : meta_signed p = Some true)
    (Hresp : response p = Some resp)
    (Htxid : response_txid resp = Some txid)
    (Htxne : txid <> "") :
  (forall b,
      truthy (order_buyer o) = false -> response_account resp = Some b -> b <> "" ->
      pinned ref b (snd (run w (buy_status (Some uuid)) h s)))
  /\ (forall b,
        order_buyer o = Some b -> b <> "" -> response_account resp <> Some b ->
        exists s',
          run w (buy_status (Some uuid)) h s
          = (Returned (Failure 400 "Buyer mismatch for this order" None),
             (h ++ [Ev (XummPayloadGet uuid) (Fulfilled (Some p))])%list, s')
          /\ pinned ref b s'
          /\ (exists o', orderObjects s' !! ref = Some o' /\ status o' = Created
                          /\ completedAt o' = completedAt o)
          /\ completedByPayload s' = completedByPayload s
          /\ ordersByPaymentPayload s' = ordersByPaymentPayload s
          /\ txCache s' = txCache s /\ processedTx s' = processedTx s
          /\ inflight s' = inflight s)
  /\ (forall b w' q h' s0,
        pinned ref b s0 -> pinned ref b (snd (run w' (buy_status q) h' s0))).
Proof.
  pose proof (buy_status_front w uuid h s ref o p resp txid Huuid Hnone Horder Hobj Hopen
                Hget Hsigned Hresp Htxid Htxne) as Hfront.
  cbv zeta in Hfront.
  split; [|split].
  - intros b Hempty Hacc Hb. rewrite Hacc in Hfront.
    assert (Hpin : order_buyer (pin (Some b) (Some txid) o) = Some b)
      by (apply pin_fills_buyer; exact Hempty).
    assert (Hs1 : pinned ref b
                    (with_orderObjects (<[ref := pin (Some b) (Some txid) o]>) s)).
    { split; [exact Hb|]. eexists. split; [apply lookup_insert_eq|exact Hpin]. }
    rewrite Hfront, Hpin. rewrite bool_decide_eq_true_2 by reflexivity.
    cbn [negb].
    pose proof (buy_finish_keeps_pinned ref b uuid ref (Some b) txid w
                  (h ++ [Ev (XummPayloadGet uuid) (Fulfilled (Some p))])%list _ Hs1) as Hk.
    destruct (run w (buy_finish uuid ref (Some b) txid) _ _) as [[[r|e|q] h2] s2]; exact Hk.
  - intros b Hbuyer Hb Hother.
    assert (Hpin : order_buyer (pin (response_account resp) (Some txid) o) = Some b)
      by (apply pin_keeps_buyer; assumption).
    eexists. split; [|split; [|split]].
    + rewrite Hfront. rewrite Hpin. rewrite bool_decide_eq_false_2 by exact Hother.
      reflexivity.
    + split; [exact Hb|]. eexists. split; [apply lookup_insert_eq|exact Hpin].
    + eexists. split; [apply lookup_insert_eq|].
      destruct (pin_keeps_status (response_account resp) (Some txid) o) as [-> ->].
      split; [exact Hopen|reflexivity].
    + repeat split.
  - intros b w' q h' s0. apply buy_status_keeps_pinned.
Qed.

End Server.
End OrderFacts.

(** ** AI-order: caching of outcomes, the sweep, and polls in flight *)

Module OrderClaims.
Import JS Async AiOrder OrderObserve.
Local Open Scope prog_scope.

Section Server.
Variables (STORE_ADDRESS RLUSD_ISSUER RLUSD_CURRENCY KFD_MPT_ISSUANCE_ID : string).
Variables (ORDER_TTL_MS CREATE_ORDER_CACHE_MS TRUSTLINE_CACHE_MS TX_CACHE_TTL : Z).
Implicit Types (w : World) (h t : list Event) (s : State).

#[local] Abbreviation run := (exec promise_of).
#[local] Abbreviation buy_status :=
  (AiOrder.buy_status STORE_ADDRESS RLUSD_ISSUER RLUSD_CURRENCY KFD_MPT_ISSUANCE_ID).
#[local] Abbreviation buy_finish :=
  (AiOrder.buy_finish STORE_ADDRESS RLUSD_ISSUER RLUSD_CURRENCY KFD_MPT_ISSUANCE_ID).
#[local] Abbreviation buy_job :=
  (AiOrder.buy_job STORE_ADDRESS RLUSD_ISSUER RLUSD_CURRENCY KFD_MPT_ISSUANCE_ID).
#[local] Abbreviation sweep :=
  (AiOrder.sweep ORDER_TTL_MS CREATE_ORDER_CACHE_MS TRUSTLINE_CACHE_MS TX_CACHE_TTL).

(** The job of a poll leaves the cache of outcomes alone. *)
Lemma buy_job_keeps_txCache order buyer txid w h s :
  txCache (snd (run w (buy_job order buyer txid) h s)) = txCache s.
Proof.
  apply (OrderFacts.buy_job_keeps STORE_ADDRESS RLUSD_ISSUER RLUSD_CURRENCY
           KFD_MPT_ISSUANCE_ID (fun s' => txCache s' = txCache s));
    [intros f s0 H0; exact H0|reflexivity].
Qed.

(** A terminal result of the job is cached under the txid, stamped with
    the time, and replied. *)
Lemma buy_finish_caches w uuid ref buyer txid h s r h2 s2 :
  txCache s !! txid = None -> txid ∉ inflight s -> txid ∉ processedTx s ->
  run w (buy_job ref buyer txid) h (with_inflight (fun i => {[ txid ]} ∪ i) s)
  = (Returned r, h2, s2) ->
  r <> Pending ->
  exists s',
    run w (buy_finish uuid ref buyer txid) h s = (Returned (Json (BBuy r None)), h2, s')
    /\ txCache s' !! txid = Some (r, clock w h2).
Proof.
  intros Hcache Hin Hpr Hjob Hterm.
  unfold AiOrder.buy_finish. rewrite exec_bind. cbn [get exec]. rewrite Hcache.
  rewrite (bool_decide_eq_false_2 _ Hin), (bool_decide_eq_false_2 _ Hpr).
  rewrite exec_bind. cbn [modify exec]. rewrite exec_bind, Hjob.
  destruct r as [|err details|pm nfts qrs]; [contradiction| |].
  - eexists. split; [reflexivity|]. cbn. apply lookup_insert_eq.
  - eexists. split; [reflexivity|]. cbn. apply lookup_insert_eq.
Qed.

(** C6, as the code has it: on a signed poll of an open order whose signer
    is its buyer, (a) a terminal result of the verification job is cached
    under the txid, with the time; (b) a cached outcome is replied as it is,
    with its stamp, and the ledger is not asked; (c) a sweep keeps an entry
    of the cache unless the TTL of the cache is positive and the entry is
    older than it, and never touches the processed txids; (d) a processed
    txid with no cached outcome is answered pending, and the ledger is not
    asked. *)
Theorem terminal_outcome_cached_until_swept w uuid h s ref o p resp txid
    (Huuid : uuid <> "")
    (Hnone : completedByPayload s !! uuid = None)
    (Horder : ordersByPaymentPayload s !! uuid = Some ref)
    (Hobj : orderObjects s !! ref = Some o)
    (Hopen : status o = Created)
    (Hget : answer w _ (XummPayloadGet uuid) h = Fulfilled (Some p))
    (Hsigned : meta_signed p = Some true)
    (Hresp : response p = Some resp)
    (Htxid : response_txid resp = Some txid)
    (Htxne : txid <> "")
    (Hbuyer : response_account resp
              = order_buyer (pin (response_account resp) (Some txid) o)) :
  let h1 := (h ++ [Ev (XummPayloadGet uuid) (Fulfilled (Some p))])%list in
  let s1 := with_orderObjects (<[ref := pin (response_account resp) (Some txid) o]>) s in
  (forall r h2 s2,
      txCache s !! txid = None -> txid ∉ inflight s -> txid ∉ processedTx s ->
      run w (buy_job ref (response_account resp) txid) h1
        (with_inflight (fun i => {[ txid ]} ∪ i) s1) = (Returned r, h2, s2) ->
      r <> Pending ->
      exists s',
        run w (buy_status (Some uuid)) h s = (Returned (Json (BBuy r None)), h2, s')
        /\ txCache s' !! txid = Some (r, clock w h2))
  /\ (forall cached stamp,
        txCache s !! txid = Some (cached, stamp) ->
        run w (buy_status (Some uuid)) h s
        = (Returned (Json (BBuy cached (Some stamp))), h1, s1)
        /\ verifications h1 = verifications h)
  /\ (forall w' h' s0 r c,
        txCache s0 !! txid = Some (r, c) ->
        txCache (snd (run w' sweep h' s0)) !! txid
        = (if 0 <? TX_CACHE_TTL then swept TX_CACHE_TTL (clock w' h') c (r, c)
           else Some (r, c))
        /\ processedTx (snd (run w' sweep h' s0)) = processedTx s0)
  /\ (txCache s !! txid = None -> txid ∈ processedTx s ->
      run w (buy_status (Some uuid)) h s = (Returned pending, h1, s1)
      /\ verifications h1 = verifications h).
Proof.
  intros h1 s1.
  pose proof (OrderFacts.buy_status_front STORE_ADDRESS RLUSD_ISSUER RLUSD_CURRENCY
                KFD_MPT_ISSUANCE_ID w uuid h s ref o p resp txid Huuid Hnone Horder Hobj
                Hopen Hget Hsigned Hresp Htxid Htxne) as Hfront.
  cbv zeta in Hfront. fold h1 s1 in Hfront.
  rewrite (bool_decide_eq_true_2 _ Hbuyer) in Hfront. cbn [negb] in Hfront.
  assert (Hver : verifications h1 = verifications h).
  { unfold h1, verifications. rewrite List.filter_app, length_app. cbn. lia. }
  split; [|split; [|split]].
  - intros r h2 s2 Hcache Hin Hpr Hjob Hterm.
    destruct (buy_finish_caches w uuid ref (response_account resp) txid h1 s1 r h2 s2
                Hcache Hin Hpr Hjob Hterm) as (s' & E & Hc).
    exists s'. rewrite Hfront, E. split; [reflexivity|exact Hc].
  - intros cached stamp Hcache. split; [|exact Hver].
    rewrite Hfront.
    rewrite (OrderFacts.buy_finish_cached STORE_ADDRESS RLUSD_ISSUER RLUSD_CURRENCY
               KFD_MPT_ISSUANCE_ID w uuid ref (response_account resp) txid h1 s1 cached stamp
               Hcache).
    reflexivity.
  - intros w' h' s0 r c Hc.
    destruct (OrderFacts.sweep_state ORDER_TTL_MS CREATE_ORDER_CACHE_MS TRUSTLINE_CACHE_MS
                TX_CACHE_TTL w' h' s0)
      as (s' & E & Hp & _ & _ & _ & _ & _ & _ & _ & _ & _ & Htx).
    rewrite E. cbn [snd]. split; [|exact Hp]. rewrite Htx, Hc. reflexivity.
  - intros Hcache Hpr. split; [|exact Hver].
    rewrite Hfront.
    rewrite (OrderFacts.buy_finish_guarded STORE_ADDRESS RLUSD_ISSUER RLUSD_CURRENCY
               KFD_MPT_ISSUANCE_ID w uuid ref (response_account resp) txid h1 s1 Hcache
               (or_intror Hpr)).
    reflexivity.
Qed.

(** C9: a pass of the sweep leaves every order object as it is and never
    touches what is in flight.  The entry of an order in
    [ordersByPaymentPayload] stays when the order is open, whatever its
    age; it is removed when the order is completed, stamped, and completed
    more than ORDER_TTL_MS ago, and only then.  An entry of one of the
    caches is removed only when it is stamped and older than the TTL of its
    cache. *)
Theorem sweep_removes_only_old_completed w h s uuid ref o
    (Horder : ordersByPaymentPayload s !! uuid = Some ref)
    (Hobj : orderObjects s !! ref = Some o) :
  orderObjects (snd (run w sweep h s)) = orderObjects s
  /\ inflight (snd (run w sweep h s)) = inflight s
  /\ createOrderInflight (snd (run w sweep h s)) = createOrderInflight s
  /\ processedTx (snd (run w sweep h s)) = processedTx s
  /\ (status o = Created ->
      ordersByPaymentPayload (snd (run w sweep h s)) !! uuid = Some ref)
  /\ (forall c, status o = Completed -> completedAt o = Some c -> c <> 0 ->
                ORDER_TTL_MS < clock w h - c ->
                ordersByPaymentPayload (snd (run w sweep h s)) !! uuid = None)
  /\ (ordersByPaymentPayload (snd (run w sweep h s)) !! uuid = None ->
      status o = Completed
      /\ exists c, completedAt o = Some c /\ c <> 0 /\ ORDER_TTL_MS < clock w h - c)
  /\ (forall k r c, completedByPayload s !! k = Some (r, c) ->
        completedByPayload (snd (run w sweep h s)) !! k
        = swept ORDER_TTL_MS (clock w h) c (r, c))
  /\ (forall k r c, createOrderCache s !! k = Some (r, c) ->
        createOrderCache (snd (run w sweep h s)) !! k
        = swept CREATE_ORDER_CACHE_MS (clock w h) c (r, c))
  /\ (forall k st, trustlineStatusCache s !! k = Some st ->
        trustlineStatusCache (snd (run w sweep h s)) !! k
        = swept TRUSTLINE_CACHE_MS (clock w h) (checkedAt st) st)
  /\ (forall k r c, txCache s !! k = Some (r, c) ->
        txCache (snd (run w sweep h s)) !! k
        = if 0 <? TX_CACHE_TTL then swept TX_CACHE_TTL (clock w h) c (r, c)
          else Some (r, c)).
Proof.
  destruct (OrderFacts.sweep_state ORDER_TTL_MS CREATE_ORDER_CACHE_MS TRUSTLINE_CACHE_MS
              TX_CACHE_TTL w h s)
    as (s' & E & Hp & Hi & Ho & Hci & _ & _ & Hord & Hcomp & Hcc & Htr & Htx).
  rewrite E. cbn [snd].
  assert (Hu : ordersByPaymentPayload s' !! uuid
               = if order_expired ORDER_TTL_MS (clock w h) o then None else Some ref).
  { rewrite Hord, Horder, Hobj. reflexivity. }
  split; [exact Ho|]. split; [exact Hi|]. split; [exact Hci|]. split; [exact Hp|].
  split; [|split; [|split; [|split; [|split; [|split]]]]].
  - intros Hst. rewrite Hu. unfold order_expired. rewrite Hst. reflexivity.
  - intros c Hst Hc Hne Hold. rewrite Hu. unfold order_expired. rewrite Hst, Hc.
    cbn. apply Z.eqb_neq in Hne. apply Z.ltb_lt in Hold. rewrite Hne, Hold. reflexivity.
  - rewrite Hu. unfold order_expired. destruct (status o); [discriminate|].
    destruct (completedAt o) as [c|]; [|discriminate].
    cbn.
    destruct (Z.eqb_spec c 0) as [|Hne]; [discriminate|].
    destruct (Z.ltb_spec ORDER_TTL_MS (clock w h - c)) as [Hold|]; [|discriminate].
    intros _. split; [reflexivity|]. exists c. auto.
  - intros k r c Hk. rewrite Hcomp, Hk. reflexivity.
  - intros k r c Hk. rewrite Hcc, Hk. reflexivity.
  - intros k st Hk. rewrite Htr, Hk. reflexivity.
  - intros k r c Hk. rewrite Htx, Hk. reflexivity.
Qed.

(** Polls handled one after the other.  MPT-Issuer: over any number of
    status polls of one payload, each finished before the next starts, every
    saga step has at most one ledger mutation taken by the ledger; a step
    whose done marker is stored is not submitted again; and a mutation the
    ledger took leaves the marker stored.  AI-order: a signed poll of an
    open order whose transaction is in flight or already processed, with no
    cached outcome, is answered pending after reading the payload: it starts
    no job and leaves the transactions in flight as they are. *)
Theorem at_most_one_accepted_mutation_per_step :
  (forall issuer (w : Observe.World) uuid n (h : list Observe.Event) d (k : Observe.Step),
      exists tr : list Observe.Event,
        fst (Observe.polls issuer w uuid n h d) = (h ++ tr)%list
        /\ (Observe.accepted k tr <= 1)%nat
        /\ (Observe.marked k uuid d = true -> Observe.submitted k tr = 0%nat)
        /\ (Observe.accepted k tr = 1%nat ->
            Observe.marked k uuid (snd (Observe.polls issuer w uuid n h d)) = true))
  /\ (forall w uuid h s ref o p resp txid,
        uuid <> "" ->
        completedByPayload s !! uuid = None ->
        ordersByPaymentPayload s !! uuid = Some ref ->
        orderObjects s !! ref = Some o ->
        status o = Created ->
        answer w _ (XummPayloadGet uuid) h = Fulfilled (Some p) ->
        meta_signed p = Some true ->
        response p = Some resp ->
        response_txid resp = Some txid -> txid <> "" ->
        response_account resp
        = order_buyer (pin (response_account resp) (Some txid) o) ->
        txCache s !! txid = None ->
        txid ∈ inflight s \/ txid ∈ processedTx s ->
        exists s',
          run w (buy_status (Some uuid)) h s
          = (Returned pending,
             (h ++ [Ev (XummPayloadGet uuid) (Fulfilled (Some p))])%list, s')
          /\ inflight s' = inflight s /\ processedTx s' = processedTx s
          /\ txCache s' = txCache s).
Proof.
  split.
  - intros issuer w uuid n h d k.
    destruct (MptFacts.polls_keep issuer w uuid n h d) as (tr & E & K).
    exists tr. split; [exact E|].
    destruct (K k) as [Km Ku].
    destruct (Observe.marked k uuid d) eqn:Hm.
    + destruct (Km eq_refl) as [Hs Hm'].
      pose proof (MptFacts.accepted_le_submitted k tr) as Hle.
      repeat split; [lia|intros _; exact Hs|intros _; exact Hm'].
    + destruct (Ku eq_refl) as [Hle Hmk].
      repeat split; [exact Hle|discriminate|exact Hmk].
  - intros w uuid h s ref o p resp txid Huuid Hnone Horder Hobj Hopen Hget Hsigned Hresp
      Htxid Htxne Hbuyer Hcache Hin.
    pose proof (OrderFacts.buy_status_front STORE_ADDRESS RLUSD_ISSUER RLUSD_CURRENCY
                  KFD_MPT_ISSUANCE_ID w uuid h s ref o p resp txid Huuid Hnone Horder Hobj
                  Hopen Hget Hsigned Hresp Htxid Htxne) as Hfront.
    cbv zeta in Hfront.
    rewrite (bool_decide_eq_true_2 _ Hbuyer) in Hfront. cbn [negb] in Hfront.
    eexists. split.
    + rewrite Hfront.
      rewrite (OrderFacts.buy_finish_guarded STORE_ADDRESS RLUSD_ISSUER RLUSD_CURRENCY
                 KFD_MPT_ISSUANCE_ID w uuid ref (response_account resp) txid
                 (h ++ [Ev (XummPayloadGet uuid) (Fulfilled (Some p))])%list
                 (with_orderObjects
                    (<[ref := pin (response_account resp) (Some txid) o]>) s) Hcache Hin).
      reflexivity.
    + repeat split.
Qed.

End Server.

(** *** The claims at concrete runs *)

Import OrderScenarios.

(** A refused mutation is submitted again: the ledger refuses the issue
    payment, no marker is stored, and the second poll submits the payment
    again: two mutations are submitted for the step, none is taken. *)
Lemma refused_issue_is_submitted_again :
  Observe.submitted Observe.Issue
    (fst (Observe.polls Scenarios.issuer
            (Scenarios.ledger_world 0 Scenarios.no_payment []) "UUID-1" 2 []
            (Scenarios.swap_db []))) = 2%nat
  /\ Observe.accepted Observe.Issue
       (fst (Observe.polls Scenarios.issuer
               (Scenarios.ledger_world 0 Scenarios.no_payment []) "UUID-1" 2 []
               (Scenarios.swap_db []))) = 0%nat.
Proof. split; vm_compute; reflexivity. Qed.

(** C5 at a concrete run: the order of PAY-1 is pinned to rAlice and
    rMallory signs the payload. *)
Lemma pinned_buyer_rejects_other_signer_witness :
  fst (fst (exec promise_of (signed_world "rMallory" 2000) (buy_status (Some "PAY-1")) []
              (shop (Some "rAlice"))))
  = Returned (Failure 400 "Buyer mismatch for this order" None).
Proof.
  destruct (proj1 (proj2
              (OrderFacts.pinned_buyer_rejects_other_signer store rlusd_issuer
                 rlusd_currency issuance (signed_world "rMallory" 2000) "PAY-1" []
                 (shop (Some "rAlice")) 0%nat (an_order (Some "rAlice") Created None)
                 {| meta_signed := Some true;
                    response := Some {| response_account := Some "rMallory";
                                        response_txid := Some "TX-1" |} |}
                 {| response_account := Some "rMallory"; response_txid := Some "TX-1" |}
                 "TX-1"
                 ltac:(discriminate) eq_refl eq_refl eq_refl eq_refl eq_refl eq_refl
                 eq_refl eq_refl ltac:(discriminate)))
              "rAlice" eq_refl ltac:(discriminate) ltac:(discriminate))
    as (s' & E & _).
  unfold buy_status. rewrite E. reflexivity.
Defined.

(** C6, the run that leaves the claim: the verification of TX-1 fails for
    good and is cached; a sweep 31 minutes later removes the entry; the
    next poll asks the ledger for the transaction again. *)
Lemma swept_failure_is_verified_again :
  exists r,
    fst (fst poll_sweep_poll) = Returned (Json (BBuy r None))
    /\ snd (fst poll_sweep_poll) = Returned (Json (BBuy r None))
    /\ r = VerifyFailed "Payment verification failed: destination_mismatch"
             [("txDest", "rSomeoneElse"); ("expected", store)]
    /\ verifications (snd poll_sweep_poll) = 2%nat.
Proof. eexists. vm_compute. repeat split. Qed.

(** C6 at a concrete run: the outcome of TX-1 is in the cache. *)
Lemma terminal_outcome_cached_until_swept_witness :
  fst (fst (exec promise_of (signed_world "rAlice" 2000) (buy_status (Some "PAY-1")) []
              (with_txCache (fun _ => {[ "TX-1" := (VerifyFailed "not_payment" [], 1500) ]})
                 (shop (Some "rAlice")))))
  = Returned (Json (BBuy (VerifyFailed "not_payment" []) (Some 1500))).
Proof.
  destruct (proj1 (proj2
              (terminal_outcome_cached_until_swept store rlusd_issuer rlusd_currency
                 issuance order_ttl create_cache trust_cache tx_ttl
                 (signed_world "rAlice" 2000) "PAY-1" []
                 (with_txCache
                    (fun _ => {[ "TX-1" := (VerifyFailed "not_payment" [], 1500) ]})
                    (shop (Some "rAlice")))
                 0%nat (an_order (Some "rAlice") Created None)
                 {| meta_signed := Some true;
                    response := Some {| response_account := Some "rAlice";
                                        response_txid := Some "TX-1" |} |}
                 {| response_account := Some "rAlice"; response_txid := Some "TX-1" |}
                 "TX-1"
                 ltac:(discriminate) eq_refl eq_refl eq_refl eq_refl eq_refl eq_refl
                 eq_refl eq_refl ltac:(discriminate) eq_refl))
              (VerifyFailed "not_payment" []) 1500 eq_refl)
    as [E _].
  unfold buy_status. rewrite E. reflexivity.
Defined.

(** C7 at a concrete run: two americanos for rAlice, paid in XRP. *)
Lemma creation_is_shared_witness :
  let req := create_order [{| product_id := 1; qty := Some 2 |}] (Some "rAlice")
               (Some "xrp") in
  let pl := drain promise_of [20; 20; 20; 20] creation_answers
              (arrive promise_of 11 req
                 (arrive promise_of 10 req (Build_Pool no_state [] [] [] 0))) in
  exists r,
    payload_uuid r = "PAY-2"
    /\ replies pl = [(0%nat, Fulfilled (Json (BCreate r)));
                     (1%nat, Fulfilled (Json (BCreate r)))]
    /\ payments_created (started pl) = 1%nat.
Proof.
  destruct (OrderFacts.creation_is_shared store rlusd_issuer rlusd_currency issuance
              create_cache trust_cache
              [{| product_id := 1; qty := Some 2 |}] (Some "rAlice") (Some "xrp") Xrp
              no_state 10 11 [20; 20; 20; 20] creation_answers
              {| created_uuid := Some "PAY-2"; created_qr_png := Some "qr.png";
                 created_always := Some "https://sign" |}
              "PAY-2" []
              eq_refl eq_refl eq_refl eq_refl eq_refl ltac:(discriminate)
              ltac:(intros; reflexivity) eq_refl ltac:(discriminate) eq_refl
              ltac:(intros; reflexivity) eq_refl ltac:(cbn; lia))
    as (r & tc & Hu & Hr & _ & Hp & _).
  exists r. unfold create_order. auto.
Defined.

(** C9 at a concrete run: an open order and a completed one, both older
    than the TTL. *)
Lemma sweep_removes_only_old_completed_witness :
  ordersByPaymentPayload
    (snd (exec promise_of (signed_world "rAlice" 3862000) sweep [] old_orders)) !! "PAY-1"
  = Some 0%nat
  /\ ordersByPaymentPayload
       (snd (exec promise_of (signed_world "rAlice" 3862000) sweep [] old_orders)) !! "PAY-0"
     = None.
Proof.
  split.
  - apply (sweep_removes_only_old_completed order_ttl create_cache trust_cache tx_ttl
             (signed_world "rAlice" 3862000) [] old_orders "PAY-1" 0%nat
             (an_order (Some "rAlice") Created None) eq_refl eq_refl).
    reflexivity.
  - apply (sweep_removes_only_old_completed order_ttl create_cache trust_cache tx_ttl
             (signed_world "rAlice" 3862000) [] old_orders "PAY-0" 1%nat
             (an_order (Some "rBob") Completed (Some 1500)) eq_refl eq_refl) with (c := 1500);
      [reflexivity|reflexivity|discriminate|reflexivity].
Defined.

End OrderClaims.

(** ** Strings: trimming and case *)

Module TextFacts.
Import JS IssuerObserve.

Lemma all_chars_map (p q : ascii -> bool) (f : ascii -> ascii) s :
  (forall c, p c = true -> q (f c) = true) ->
  all_chars p s = true -> all_chars q (map_string f s) = true.
Proof.
  intros Hpq. induction s as [|c r IH]; cbn; [reflexivity|].
  intros [Hc Hr]%andb_prop. rewrite (Hpq c Hc), (IH Hr). reflexivity.
Qed.

Lemma all_chars_weaken (p q : ascii -> bool) s :
  (forall c, p c = true -> q c = true) -> all_chars p s = true -> all_chars q s = true.
Proof.
  intros Hpq. induction s as [|c r IH]; cbn; [reflexivity|].
  intros [Hc Hr]%andb_prop. rewrite (Hpq c Hc), (IH Hr). reflexivity.
Qed.

Lemma map_string_length f s : String.length (map_string f s) = String.length s.
Proof. induction s as [|c r IH]; cbn; [reflexivity|]. rewrite IH. reflexivity. Qed.

Lemma map_string_fixed (p : ascii -> bool) f s :
  (forall c, p c = true -> f c = c) -> all_chars p s = true -> map_string f s = s.
Proof.
  intros Hf. induction s as [|c r IH]; cbn; [reflexivity|].
  intros [Hc Hr]%andb_prop. rewrite (Hf c Hc), (IH Hr). reflexivity.
Qed.

Lemma trim_end_fixed s :
  all_chars (fun c => negb (is_space c)) s = true -> trim_end s = s.
Proof.
  induction s as [|c r IH]; cbn; [reflexivity|].
  intros [Hc Hr]%andb_prop. rewrite (IH Hr).
  destruct r; [|reflexivity]. apply negb_true_iff in Hc. rewrite Hc. reflexivity.
Qed.

Lemma trim_start_fixed s :
  all_chars (fun c => negb (is_space c)) s = true -> trim_start s = s.
Proof.
  destruct s as [|c r]; cbn; [reflexivity|].
  intros [Hc Hr]%andb_prop. apply negb_true_iff in Hc. rewrite Hc. reflexivity.
Qed.

(** A string without white space is its own trim. *)
Lemma trim_fixed s : all_chars (fun c => negb (is_space c)) s = true -> trim s = s.
Proof. intros H. unfold trim. rewrite (trim_start_fixed s H). apply trim_end_fixed, H. Qed.

Ltac each_char c := destruct c as [[] [] [] [] [] [] [] []]; vm_compute; try reflexivity; try discriminate.

Lemma hex_not_space c : is_hex_char c = true -> negb (is_space c) = true.
Proof. each_char c. Qed.

Lemma upper_hex_of_hex c : is_hex_char c = true -> is_upper_hex_char (upper_char c) = true.
Proof. each_char c. Qed.

Lemma upper_hex_is_hex c : is_upper_hex_char c = true -> is_hex_char c = true.
Proof. each_char c. Qed.

Lemma upper_hex_fixed c : is_upper_hex_char c = true -> upper_char c = c.
Proof. each_char c. Qed.


End TextFacts.

(** ** MPT-Issuer: validators, issuer actions, audit tables *)

Module IssuerExtras.
Import JS Float64 Async MptIssuer Observe IssuerObserve TextFacts.
Local Open Scope prog_scope.

Abbreviation run := (exec no_promise).
Implicit Types (w : World) (h t : list Event) (d : Db).

(** X1: Whichever of the five issuer actions runs (authorize, send, clawback,
    lock, unlock), it leaves the database as it is, submits at most one
    transaction, and submits it only after reading from the ledger an
    issuance entry whose issuer is the server's own address. *)
Theorem issuer_actions_need_own_issuance issuer w id48 holder value h d :
  Forall
    (fun p : M SubmitResult =>
       exists out t,
         run w p h d = (out, (h ++ t)%list, d)
         /\ (forall q, out <> Waiting q)
         /\ (existsb is_submit t = true -> existsb (reads_issuer issuer) t = true)
         /\ (length (List.filter is_submit t) <= 1)%nat)
    [issuerAuthorizeHolder issuer id48 holder;
     issuerSendMPT issuer id48 holder value;
     issuerClawbackMPT issuer id48 holder value;
     issuerLockHolder issuer id48 holder;
     issuerUnlockHolder issuer id48 holder].
Proof.
  assert (Hgen : forall tx,
             exists out t,
               run w (assertActiveIssuanceBelongsToServerIssuer issuer ;;;
                      submitAsIssuer issuer tx) h d = (out, (h ++ t)%list, d)
               /\ (forall q, out <> Waiting q)
               /\ (existsb is_submit t = true -> existsb (reads_issuer issuer) t = true)
               /\ (length (List.filter is_submit t) <= 1)%nat).
  { intros tx.
    unfold assertActiveIssuanceBelongsToServerIssuer, getActiveIssuanceLedgerNode,
      submitAsIssuer, must64hex, mustHexN, kvGet.
    cbn -[is_hexN trim toUpperCase truthy String.eqb].
    destruct (truthy (kv d !! "KFD_ISSUANCE_INDEX")); cbn -[is_hexN trim toUpperCase truthy String.eqb];
      [|exists (Thrown {| message := "ISSUANCE_INDEX_NOT_SET_OR_NOT_FOUND";
                          status := Some 400; detail := Some "issuanceIndex" |}), [];
        rewrite app_nil_r; repeat split; try discriminate; cbn; lia].
    destruct (is_hexN 64 _); cbn -[is_hexN trim toUpperCase truthy String.eqb];
      [|eexists _, []; rewrite app_nil_r; repeat split; try discriminate; cbn; lia].
    destruct (answer w unit GetXRPL h) as [[]|e0];
      cbn -[is_hexN trim toUpperCase truthy String.eqb];
      [|eexists _, [_]; split; [reflexivity|]; repeat split; try discriminate; cbn; lia].
    match goal with |- context [answer w _ (RequestLedgerEntry ?i) ?hh] =>
      destruct (answer w _ (RequestLedgerEntry i) hh) as [[node|]|e1] eqn:Hnode end;
      cbn -[is_hexN trim toUpperCase truthy String.eqb];
      try (eexists _, [_; _]; split; [rewrite <- app_assoc; reflexivity|];
           repeat split; try discriminate; cbn; lia).
    destruct (Issuer node) as [iss|] eqn:Hiss; cbn -[String.eqb];
      [|eexists _, [_; _]; split; [rewrite <- app_assoc; reflexivity|];
        repeat split; try discriminate; cbn; rewrite ?Hiss; cbn; lia].
    destruct (String.eqb_spec iss "") as [->|Hne]; cbn -[String.eqb];
      [eexists _, [_; _]; split; [rewrite <- app_assoc; reflexivity|];
       repeat split; try discriminate; cbn; rewrite ?Hiss; cbn; lia|].
    destruct (String.eqb_spec iss issuer) as [->|Hother]; cbn -[String.eqb];
      [|eexists _, [_; _]; split; [rewrite <- app_assoc; reflexivity|];
        repeat split; try discriminate; cbn; rewrite ?Hiss; cbn; lia].
    assert (Hread : forall r, reads_issuer issuer
                                (Ev (RequestLedgerEntry r) (Fulfilled (Some node))) = true).
    { intros r. cbn. rewrite Hiss. apply bool_decide_eq_true_2. reflexivity. }
    match goal with |- context [answer w unit GetXRPL ?hh] =>
      destruct (answer w unit GetXRPL hh) as [[]|e2] end; cbn;
      [|eexists _, [_; _; _]; split; [rewrite <- !app_assoc; reflexivity|];
        repeat split; try discriminate; cbn; rewrite ?Hiss; cbn; lia].
    match goal with |- context [answer w _ (Autofill issuer tx) ?hh] =>
      destruct (answer w _ (Autofill issuer tx) hh) as [fill|e3] end; cbn;
      [|eexists _, [_; _; _; _]; split; [rewrite <- !app_assoc; reflexivity|];
        repeat split; try discriminate; cbn; rewrite ?Hiss; cbn; lia].
    match goal with |- context [answer w _ (SubmitAndWait issuer tx fill) ?hh] =>
      destruct (answer w _ (SubmitAndWait issuer tx fill) hh) as [res|e4] end; cbn;
      (eexists _, [_; _; _; _; _]; split; [rewrite <- !app_assoc; reflexivity|];
       repeat split; try discriminate; [intros _; cbn [existsb]; rewrite Hread; apply orb_true_r | cbn; lia]). }
  repeat constructor; apply Hgen.
Qed.

(** *** [waitTxValidated] *)

Lemma waitTxValidated_loop_bound w txid delay tries : forall h d,
  exists out t,
    run w (waitTxValidated_loop txid tries delay) h d = (out, (h ++ t)%list, d)
    /\ (tx_requests txid t <= tries)%nat
    /\ (out = Returned None -> tx_requests txid t = tries)
    /\ (forall tx, out = Returned (Some tx) ->
          validated tx = true
          /\ exists t0, t = (t0 ++ [Ev (RequestTx txid) (Fulfilled (Some tx))])%list)
    /\ (forall q, out <> Waiting q).
Proof.
  induction tries as [|n IH]; intros h d.
  - exists (Returned None), []. rewrite app_nil_r. cbn.
    refine (conj eq_refl (conj _ (conj _ (conj _ _)))); try discriminate; auto.
  - cbn [waitTxValidated_loop]. rewrite exec_bind, exec_try_catch. cbn [await exec].
    set (r := answer w _ (RequestTx txid) h).
    set (h1 := (h ++ [Ev (RequestTx txid) r])%list).
    assert (Hreq : forall t, tx_requests txid (Ev (RequestTx txid) r :: t)
                             = S (tx_requests txid t)).
    { intros t. unfold tx_requests. cbn. rewrite String.eqb_refl. reflexivity. }
    assert (Hrest :
              exists out t,
                run w (await (Sleep delay) ;;; waitTxValidated_loop txid n delay) h1 d
                = (out, (h ++ t)%list, d)
                /\ (tx_requests txid t <= S n)%nat
                /\ (out = Returned None -> tx_requests txid t = S n)
                /\ (forall tx, out = Returned (Some tx) ->
                      validated tx = true
                      /\ exists t0, t = (t0 ++ [Ev (RequestTx txid) (Fulfilled (Some tx))])%list)
                /\ (forall q, out <> Waiting q)).
    { rewrite exec_bind. cbn [await exec].
      destruct (answer w unit (Sleep delay) h1) as [[]|e] eqn:Hs; cbn [settle exec].
      - destruct (IH (h1 ++ [Ev (Sleep delay) (Fulfilled tt)])%list d)
          as (out & t & E & Hle & Hnone & Hsome & Hw).
        exists out, (Ev (RequestTx txid) r :: Ev (Sleep delay) (Fulfilled tt) :: t).
        rewrite Hreq.
        change (tx_requests txid (Ev (Sleep delay) (Fulfilled tt) :: t))
          with (tx_requests txid t).
        refine (conj _ (conj _ (conj _ (conj _ Hw)))).
        + rewrite E. unfold h1. rewrite <- !app_assoc. reflexivity.
        + lia.
        + intros Ho. rewrite (Hnone Ho). reflexivity.
        + intros tx0 Ho. destruct (Hsome tx0 Ho) as [Hv [t0 ->]]. split; [exact Hv|].
          exists (Ev (RequestTx txid) r :: Ev (Sleep delay) (Fulfilled tt) :: t0).
          reflexivity.
      - exists (Thrown e), [Ev (RequestTx txid) r; Ev (Sleep delay) (Rejected e)].
        rewrite Hreq.
        refine (conj _ (conj _ (conj _ (conj _ _)))); try discriminate.
        + unfold h1. rewrite <- !app_assoc. reflexivity.
        + cbn. lia. }
    fold h1. subst r.
    destruct (answer w _ (RequestTx txid) h) as [[tx|]|e] eqn:Hr; cbn [settle exec];
      try exact Hrest.
    destruct (validated tx) eqn:Hv; cbn [exec]; [|exact Hrest].
    exists (Returned (Some tx)), [Ev (RequestTx txid) (Fulfilled (Some tx))].
    rewrite Hreq.
    refine (conj eq_refl (conj _ (conj _ (conj _ _)))); try discriminate.
    + cbn. lia.
    + intros tx0 Ho. injection Ho as <-. split; [exact Hv|]. exists []. reflexivity.
Qed.

(** X2: Waiting for a transaction asks the ledger for it at most 20 times and
    changes nothing in the database.  It gives up ([null]) only after the
    twentieth request; a transaction it returns is validated, and is the
    answer to the last request made. *)
Theorem waitTxValidated_asks_at_most_20_times w txid h d :
  exists out t,
    run w (waitTxValidated txid) h d = (out, (h ++ t)%list, d)
    /\ (tx_requests txid t <= 20)%nat
    /\ (out = Returned None -> tx_requests txid t = 20%nat)
    /\ (forall tx, out = Returned (Some tx) ->
          validated tx = true
          /\ exists t0, t = (t0 ++ [Ev (RequestTx txid) (Fulfilled (Some tx))])%list).
Proof.
  unfold waitTxValidated. rewrite exec_bind. cbn [await exec].
  destruct (answer w unit GetXRPL h) as [[]|e]; cbn [settle exec].
  - destruct (waitTxValidated_loop_bound w txid 1200 20 (h ++ [Ev GetXRPL (Fulfilled tt)])%list d)
      as (out & t & E & Hle & Hnone & Hsome & _).
    exists out, (Ev GetXRPL (Fulfilled tt) :: t).
    change (tx_requests txid (Ev GetXRPL (Fulfilled tt) :: t)) with (tx_requests txid t).
    refine (conj _ (conj Hle (conj Hnone _))).
    + rewrite E, <- app_assoc. reflexivity.
    + intros tx Ho. destruct (Hsome tx Ho) as [Hv [t0 ->]]. split; [exact Hv|].
      exists (Ev GetXRPL (Fulfilled tt) :: t0). reflexivity.
  - exists (Thrown e), [Ev GetXRPL (Rejected e)].
    refine (conj eq_refl (conj _ (conj _ _))); try discriminate. cbn. lia.
Qed.

(** *** The validators *)

Lemma is_hexN_canonical n s :
  is_hexN n s = true ->
  String.length (toUpperCase s) = n
  /\ all_chars is_upper_hex_char (toUpperCase s) = true
  /\ trim (toUpperCase s) = toUpperCase s
  /\ is_hexN n (toUpperCase s) = true
  /\ toUpperCase (toUpperCase s) = toUpperCase s.
Proof.
  unfold is_hexN. intros [Hl Hc]%andb_prop. apply Nat.eqb_eq in Hl.
  assert (Hu : all_chars is_upper_hex_char (toUpperCase s) = true)
    by (apply (all_chars_map is_hex_char); [exact upper_hex_of_hex|exact Hc]).
  assert (Hh : all_chars is_hex_char (toUpperCase s) = true)
    by (apply (all_chars_weaken is_upper_hex_char); [exact upper_hex_is_hex|exact Hu]).
  unfold toUpperCase in *. rewrite map_string_length.
  repeat apply conj.
  - exact Hl.
  - exact Hu.
  - apply trim_fixed. apply (all_chars_weaken is_hex_char); [exact hex_not_space|exact Hh].
  - rewrite Hh, Hl, Nat.eqb_refl. reflexivity.
  - apply (map_string_fixed is_upper_hex_char); [exact upper_hex_fixed|exact Hu].
Qed.

(** X3: [mustHexN] touches neither the database nor the network.  Whatever it
    throws carries status 400.  What it returns has exactly [n] characters,
    all of them in [0-9A-F], and is accepted unchanged when validated
    again. *)
Theorem mustHexN_returns_canonical_hex w name v n h d :
  exists out,
    run w (mustHexN name v n) h d = (out, h, d)
    /\ (forall q, out <> Waiting q)
    /\ (forall e, out = Thrown e -> status e = Some 400)
    /\ (forall s, out = Returned s ->
          String.length s = n
          /\ all_chars is_upper_hex_char s = true
          /\ forall name', run w (mustHexN name' (Some s) n) h d = (Returned s, h, d)).
Proof.
  unfold mustHexN. cbn [str_or_empty].
  destruct (is_hexN n (trim (str_or_empty v))) eqn:Hx; cbn [negb exec].
  - destruct (is_hexN_canonical _ _ Hx) as (Hl & Hu & Ht & Hn & Hi).
    eexists. refine (conj eq_refl (conj _ (conj _ _))); try discriminate.
    intros s [= <-]. refine (conj Hl (conj Hu _)).
    intros name'. rewrite Ht, Hn, Hi. reflexivity.
  - eexists. refine (conj eq_refl (conj _ (conj _ _))); try discriminate.
    intros e [= <-]. reflexivity.
Qed.

(** X4: The active issuance id is worked out from the request and the stored id
    alone: no network, no write.  A non-empty id of the request overrides
    the stored one.  A 64-hex value (an issuance index) is refused with an
    error of its own, and what is returned is a canonical 48-hex id. *)
Theorem active_issuance_id_is_48_hex w input h d :
  exists out,
    run w (getActiveIssuanceId48OrThrow input) h d = (out, h, d)
    /\ (forall q, out <> Waiting q)
    /\ (forall e, out = Thrown e -> status e = Some 400)
    /\ (forall s, out = Returned s ->
          String.length s = 48%nat /\ all_chars is_upper_hex_char s = true)
    /\ (truthy input = true ->
        forall w' h' d', fst (fst (run w' (getActiveIssuanceId48OrThrow input) h' d')) = out)
    /\ (is_hexN 64 (trim (String_of (or_else input (kv d !! "KFD_ISSUANCE_ID")))) = true ->
        truthy (or_else input (kv d !! "KFD_ISSUANCE_ID")) = true ->
        exists e, out = Thrown e /\ message e = "ISSUANCE_ID_SHOULD_BE_48HEX_NOT_64HEX").
Proof.
  unfold getActiveIssuanceId48OrThrow, must48hex, mustHexN, kvGet.
  cbn -[is_hexN trim toUpperCase truthy or_else].
  assert (Hover : truthy input = true -> forall d', or_else input (kv d' !! "KFD_ISSUANCE_ID") = input).
  { intros Hi d'. unfold or_else. rewrite Hi. reflexivity. }
  set (id := or_else input (kv d !! "KFD_ISSUANCE_ID")).
  destruct (truthy id) eqn:Hid; cbn -[is_hexN trim toUpperCase truthy or_else].
  2:{ eexists. refine (conj eq_refl (conj _ (conj _ (conj _ (conj _ _))))); try discriminate.
      - intros e [= <-]. reflexivity.
      - intros Hi w' h' d'. cbn -[is_hexN trim toUpperCase truthy or_else].
        rewrite (Hover Hi d'). subst id. rewrite !(Hover Hi d) in *. rewrite Hid. reflexivity. }
  assert (Hs : String_of id = str_or_empty id).
  { destruct id as [s|]; [reflexivity|discriminate Hid]. }
  destruct (is_hexN 64 (trim (String_of id))) eqn:H64; cbn -[is_hexN trim toUpperCase truthy or_else].
  { eexists. refine (conj eq_refl (conj _ (conj _ (conj _ (conj _ _))))); try discriminate.
    - intros e [= <-]. reflexivity.
    - intros Hi w' h' d'. cbn -[is_hexN trim toUpperCase truthy or_else].
      rewrite (Hover Hi d'). subst id. rewrite !(Hover Hi d) in *. rewrite Hid.
      cbn -[is_hexN trim toUpperCase truthy or_else]. rewrite H64. reflexivity.
    - intros _ _. eexists. split; reflexivity. }
  destruct (is_hexN 48 (trim (str_or_empty id))) eqn:H48; cbn -[is_hexN trim toUpperCase truthy or_else].
  - destruct (is_hexN_canonical _ _ H48) as (Hl & Hu & _).
    eexists. refine (conj eq_refl (conj _ (conj _ (conj _ (conj _ _))))); try discriminate.
    + intros s [= <-]. split; assumption.
    + intros Hi w' h' d'. cbn -[is_hexN trim toUpperCase truthy or_else].
      rewrite (Hover Hi d'). subst id. rewrite !(Hover Hi d) in *. rewrite Hid.
      cbn -[is_hexN trim toUpperCase truthy or_else]. rewrite H64.
      cbn -[is_hexN trim toUpperCase truthy or_else]. rewrite H48. reflexivity.
  - eexists. refine (conj eq_refl (conj _ (conj _ (conj _ (conj _ _))))); try discriminate.
    + intros e [= <-]. reflexivity.
    + intros Hi w' h' d'. cbn -[is_hexN trim toUpperCase truthy or_else].
      rewrite (Hover Hi d'). subst id. rewrite !(Hover Hi d) in *. rewrite Hid.
      cbn -[is_hexN trim toUpperCase truthy or_else]. rewrite H64.
      cbn -[is_hexN trim toUpperCase truthy or_else]. rewrite H48. reflexivity.
Qed.

(** *** The audit tables *)

Ltac inv_step :=
  first
    [ apply preserves_ret | apply preserves_throw | apply preserves_get
    | apply preserves_now | apply preserves_await | apply preserves_settle
    | apply preserves_join
    | apply preserves_try_catch; [|intros ?]
    | apply preserves_try_finally
    | apply preserves_bind; [|intros ?]
    | match goal with |- context [match ?x with _ => _ end] => destruct x end
    | match goal with |- context [if ?x then _ else _] => destruct x end ].

Lemma NoDup_snoc {A} (l : list A) (x : A) : NoDup l -> ~ In x l -> NoDup (l ++ [x]).
Proof.
  intros Hl Hx. apply NoDup_app. split; [exact Hl|]. split; [|apply NoDup_singleton].
  intros y Hy Hy'. apply list_elem_of_singleton in Hy'. subst y.
  apply Hx. apply list_elem_of_In. exact Hy.
Qed.

Lemma fresh_txid {R} (key : R -> string) (rows : list R) x :
  existsb (fun r => String.eqb (key r) x) rows = false -> ~ In x (map key rows).
Proof.
  intros Hex Hin. apply in_map_iff in Hin as (r & Hr & Hin).
  assert (existsb (fun r => String.eqb (key r) x) rows = true).
  { apply existsb_exists. exists r. split; [exact Hin|]. rewrite Hr. apply String.eqb_refl. }
  congruence.
Qed.

Lemma with_kv_keeps_txids f d : txids_unique d -> txids_unique (with_kv f d).
Proof. intros H. exact H. Qed.

Lemma kvSet_keeps_txids k v w h d :
  txids_unique d -> txids_unique (snd (run w (kvSet k v) h d)).
Proof. intros H. exact H. Qed.

Lemma kvGet_keeps_txids k w h d :
  txids_unique d -> txids_unique (snd (run w (kvGet k) h d)).
Proof. intros H. exact H. Qed.

Lemma kvGetBool_keeps_txids k b w h d :
  txids_unique d -> txids_unique (snd (run w (kvGetBool k b) h d)).
Proof. intros H. unfold kvGetBool, kvGet. cbn. destruct (kv d !! k); exact H. Qed.

Lemma markPayload_keeps_txids u a b c x w h d :
  txids_unique d -> txids_unique (snd (run w (markPayload u a b c x) h d)).
Proof. intros H. exact H. Qed.

Lemma tryInsertAuthorization_keeps_txids a b x s w h d :
  txids_unique d -> txids_unique (snd (run w (tryInsertAuthorization a b x s) h d)).
Proof.
  intros H. unfold tryInsertAuthorization. destruct (negb (truthy x)); [exact H|]. cbn.
  destruct (existsb _ (authorizations d)) eqn:Hex; [exact H|].
  destruct H as (H1 & H2 & H3 & H4). repeat apply conj; cbn; try assumption.
  rewrite map_app. apply NoDup_snoc; [exact H1|]. apply (fresh_txid auth_txid), Hex.
Qed.

Lemma tryInsertTransfer_keeps_txids a b c v x s w h d :
  txids_unique d -> txids_unique (snd (run w (tryInsertTransfer a b c v x s) h d)).
Proof.
  intros H. unfold tryInsertTransfer. destruct (negb (truthy x)); [exact H|]. cbn.
  destruct (existsb _ (transfers d)) eqn:Hex; [exact H|].
  destruct H as (H1 & H2 & H3 & H4). repeat apply conj; cbn; try assumption.
  rewrite map_app. apply NoDup_snoc; [exact H2|]. apply (fresh_txid tr_txid), Hex.
Qed.

Lemma tryInsertClawback_keeps_txids a b c v x s w h d :
  txids_unique d -> txids_unique (snd (run w (tryInsertClawback a b c v x s) h d)).
Proof.
  intros H. unfold tryInsertClawback. destruct (negb (truthy x)); [exact H|]. cbn.
  destruct (existsb _ (clawbacks d)) eqn:Hex; [exact H|].
  destruct H as (H1 & H2 & H3 & H4). repeat apply conj; cbn; try assumption.
  rewrite map_app. apply NoDup_snoc; [exact H3|]. apply (fresh_txid cb_txid), Hex.
Qed.

Lemma tryInsertLockAction_keeps_txids a b l x s w h d :
  txids_unique d -> txids_unique (snd (run w (tryInsertLockAction a b l x s) h d)).
Proof.
  intros H. unfold tryInsertLockAction. destruct (negb (truthy x)); [exact H|]. cbn.
  destruct (existsb _ (account_locks d)) eqn:Hex; [exact H|].
  destruct H as (H1 & H2 & H3 & H4). repeat apply conj; cbn; try assumption.
  rewrite map_app. apply NoDup_snoc; [exact H4|]. apply (fresh_txid lk_txid), Hex.
Qed.

Lemma waitTxValidated_loop_keeps (I : Db -> Prop) txid delay tries : forall w h d,
  I d -> I (snd (run w (waitTxValidated_loop txid tries delay) h d)).
Proof.
  induction tries as [|n IH]; cbn [waitTxValidated_loop].
  - apply preserves_ret.
  - apply preserves_bind; [repeat inv_step|]. intros r.
    assert (Hs : forall w h d, I d ->
              I (snd (run w (await (Sleep delay) ;;; waitTxValidated_loop txid n delay) h d))).
    { apply preserves_bind; [apply preserves_await|]. intros _. exact IH. }
    destruct r as [tx|]; [destruct (validated tx); [apply preserves_ret|exact Hs]|exact Hs].
Qed.

Ltac txids_step :=
  first
    [ (intros w h d; apply kvSet_keeps_txids)
    | (intros w h d; apply kvGet_keeps_txids)
    | (intros w h d; apply kvGetBool_keeps_txids)
    | (intros w h d; apply markPayload_keeps_txids)
    | (intros w h d; apply tryInsertAuthorization_keeps_txids)
    | (intros w h d; apply tryInsertTransfer_keeps_txids)
    | (intros w h d; apply tryInsertClawback_keeps_txids)
    | (intros w h d; apply tryInsertLockAction_keeps_txids)
    | (intros w h d; apply waitTxValidated_loop_keeps)
    | inv_step ].

Lemma issuer_action_keeps_txids issuer tx w h d :
  txids_unique d ->
  txids_unique (snd (run w (assertActiveIssuanceBelongsToServerIssuer issuer ;;;
                            submitAsIssuer issuer tx) h d)).
Proof.
  revert w h d.
  unfold assertActiveIssuanceBelongsToServerIssuer, getActiveIssuanceLedgerNode,
    submitAsIssuer, must64hex, mustHexN.
  repeat txids_step.
Qed.

Lemma saga_keeps_txids issuer uuid vtx w h d :
  txids_unique d -> txids_unique (snd (run w (saga issuer uuid vtx) h d)).
Proof.
  revert w h d.
  unfold saga, saga_steps, stage_authorize, stage_issue, stage_clawback, stage_lock,
    stage_unlock, issuerAuthorizeHolder, issuerSendMPT, issuerClawbackMPT,
    issuerLockHolder, issuerUnlockHolder, isAutoLockEnabled, isAutoUnlockEnabled,
    isAutoClawbackEnabled, isBlacklisted, getActiveIssuanceId48OrThrow,
    getActiveIssuanceFlags, getActiveIssuanceLedgerNode, must48hex, must64hex, mustHexN.
  repeat first [ (intros w h d; apply issuer_action_keeps_txids) | txids_step ].
Qed.

(** X5: Every status poll keeps the transaction ids of each of the four audit
    tables (authorizations, transfers, clawbacks, account locks) pairwise
    distinct, whatever the wallet and the ledger answer. *)
Theorem poll_keeps_txids_unique issuer w uuid h d :
  txids_unique d -> txids_unique (snd (run w (get_payload issuer uuid) h d)).
Proof.
  revert w h d. unfold get_payload, waitTxValidated.
  repeat first [ (intros w h d; apply saga_keeps_txids) | txids_step ].
Qed.

(** X5 at a concrete run: a signed swap under the strict policy, from empty
    audit tables. *)
Lemma poll_keeps_txids_unique_witness :
  txids_unique (Scenarios.swap_db Scenarios.strict_policy)
  /\ txids_unique
       (snd (run (Scenarios.ledger_world 70 Scenarios.all_success [])
               (get_payload Scenarios.issuer "UUID-1") []
               (Scenarios.swap_db Scenarios.strict_policy))).
Proof.
  assert (H : txids_unique (Scenarios.swap_db Scenarios.strict_policy))
    by (repeat split; apply NoDup_nil_2).
  split; [exact H|].
  apply (poll_keeps_txids_unique Scenarios.issuer
           (Scenarios.ledger_world 70 Scenarios.all_success []) "UUID-1" []
           (Scenarios.swap_db Scenarios.strict_policy) H).
Defined.

(** *** The quantity *)

(** X6: A payment whose delivered amount is an issued currency other than
    RLUSD (the code compared in upper case), or is missing, buys nothing:
    the quantity is 0 and the calc stage stops the saga with
    [Calculated MPT <= 0]. *)
Theorem foreign_currency_buys_nothing vtx payer policy actions :
  match paid_of vtx with
  | Some (AmtString _) => False
  | Some (AmtObject cur _) =>
      is_ascii (str_or_empty cur) = true /\ toUpperCase (str_or_empty cur) <> "RLUSD"
  | _ => True
  end ->
  calcMptToSendFromPayment vtx = ofZ 0
  /\ exists a, fst (stage_calc vtx payer policy None actions) = Some a
             /\ auto_ok a = false
             /\ auto_stage a = Some "calc"
             /\ auto_error a = Some "Calculated MPT <= 0".
Proof.
  intros Hpaid.
  assert (Hz : calcMptToSendFromPayment vtx = ofZ 0).
  { unfold calcMptToSendFromPayment.
    destruct (paid_of vtx) as [[s|cur value|]|]; try reflexivity; [destruct Hpaid|].
    destruct Hpaid as [_ Hne].
    destruct (negb (isFinite (Number value)) || leb (Number value) (ofZ 0)); [reflexivity|].
    destruct (String.eqb_spec (toUpperCase (str_or_empty cur)) "RLUSD"); [contradiction|reflexivity]. }
  split; [exact Hz|].
  unfold stage_calc. rewrite Hz.
  replace (negb (isFinite (ofZ 0)) || leb (ofZ 0) (ofZ 0)) with true by (vm_compute; reflexivity).
  eexists. repeat split.
Qed.

(** X6 at a concrete payment: 5 units of the currency [usd]. *)
Lemma foreign_currency_buys_nothing_witness :
  calcMptToSendFromPayment (iou_payment "usd") = ofZ 0
  /\ exists a, fst (stage_calc (iou_payment "usd") "rPayer"
                     (policy_of (Scenarios.swap_db []) "rPayer") None no_actions) = Some a
             /\ auto_ok a = false
             /\ auto_stage a = Some "calc"
             /\ auto_error a = Some "Calculated MPT <= 0".
Proof.
  apply (foreign_currency_buys_nothing (iou_payment "usd")).
  cbn. split; [reflexivity|discriminate].
Defined.

(** *** The poll handler as a whole *)

Lemma returned_bind {A B} w (p : M A) (f : A -> M B) h d b h' d' :
  run w (bind p f) h d = (Returned b, h', d') ->
  exists a h1 d1, run w p h d = (Returned a, h1, d1) /\ run w (f a) h1 d1 = (Returned b, h', d').
Proof.
  rewrite exec_bind. destruct (run w p h d) as [[[a|e|q] h1] d1]; try discriminate.
  intros E. eauto.
Qed.

(** X7: A status poll always answers: it never throws and never stays pending.
    The answer is the poll report or a failure with status 500; the first
    thing the poll does is to look the payload up at the wallet, and it never
    reads the holder's objects from the ledger. *)
Theorem poll_always_replies issuer w uuid h d :
  exists reply r t d',
    run w (get_payload issuer uuid) h d
    = (Returned reply, (h ++ Ev (XummPayloadGet uuid) r :: t)%list, d')
    /\ (forall code err, reply = Failure code err -> code = 500)
    /\ existsb reads_holder t = false.
Proof.
  pose proof (MptFacts.post_get_payload issuer w uuid h d
    (fun out h' d' => exists reply t, out = Returned reply /\ h' = (h ++ t)%list
                                      /\ existsb reads_holder t = false)) as Hpost.
  unfold post in Hpost.
  destruct (run w (get_payload issuer uuid) h d) as [[out h'] d'] eqn:E. cbn [fst snd] in Hpost.
  destruct Hpost as (reply & t & -> & -> & Hrh).
  { intros out0 t0 d0 _ Hr _ [reply ->] _. exists reply, t0. auto. }
  assert (Hcode : forall code err, reply = Failure code err -> code = 500).
  { revert E. unfold get_payload. rewrite exec_try_catch.
    destruct (run w _ h d) as [[[a|e|q] h1] d1] eqn:Eb; cbn [fst snd exec].
    - intros [= <- _ _].
      apply returned_bind in Eb as (p & h2 & d2 & _ & Eb).
      apply returned_bind in Eb as (u & h3 & d3 & _ & Eb).
      apply returned_bind in Eb as (va & h4 & d4 & _ & Eb).
      cbn in Eb. injection Eb as <- _ _. discriminate.
    - intros [= <- _ _] code err [= <- _]. reflexivity.
    - discriminate. }
  assert (Hfirst : exists r t', t = Ev (XummPayloadGet uuid) r :: t').
  { revert E. unfold get_payload. rewrite exec_try_catch, exec_bind. cbn [await exec].
    set (r := answer w _ (XummPayloadGet uuid) h).
    pose proof (fun A => @exec_extends _ _ _ _ no_promise A w) as Hext.
    destruct r as [p|e] eqn:Hr; cbn [settle exec].
    - match goal with |- context [run w ?q (h ++ [?ev])%list d] =>
        destruct (Hext _ q (h ++ [ev])%list d) as [t1 Ht1];
        destruct (run w q (h ++ [ev])%list d) as [[o1 h1] d1] eqn:E1 end.
      cbn [fst snd] in Ht1. subst h1.
      destruct o1 as [a|e|q]; cbn [fst snd exec]; intros [= _ Hh _];
        rewrite <- app_assoc in Hh; apply app_inv_head in Hh; subst t; eauto.
    - intros [= _ Hh _]. apply app_inv_head in Hh. subst t. eauto. }
  destruct Hfirst as (r & t' & ->).
  exists reply, r, t', d'. split; [reflexivity|]. split; [exact Hcode|].
  cbn [existsb reads_holder] in Hrh. apply orb_false_elim in Hrh. apply Hrh.
Qed.

(** X8: A poll of a payload the wallet reports as not signed, or signed without
    a transaction id, asks the wallet and nothing else: no ledger request, no
    automation report, and the kv table and the audit tables stay as they
    are. *)
Theorem unpaid_poll_is_quiet issuer w uuid h d p :
  answer w _ (XummPayloadGet uuid) h = Fulfilled p ->
  match p with
  | Some p => meta_signed p && truthy (or_else (response_txid p) None)
  | None => false
  end = false ->
  exists r d',
    run w (get_payload issuer uuid) h d
    = (Returned (Json r), (h ++ [Ev (XummPayloadGet uuid) (Fulfilled p)])%list, d')
    /\ poll_auto r = None /\ poll_validatedTx r = None
    /\ kv d' = kv d /\ authorizations d' = authorizations d
    /\ transfers d' = transfers d /\ clawbacks d' = clawbacks d
    /\ account_locks d' = account_locks d.
Proof.
  intros Ha Hunpaid. unfold get_payload.
  rewrite exec_try_catch, exec_bind. cbn [await exec]. rewrite Ha. cbn [settle exec].
  rewrite exec_bind.
  destruct p as [p0|].
  - destruct (meta_resolved p0); cbn [markPayload exec bind now modify get put fst snd];
      rewrite exec_bind, Hunpaid; cbn [exec fst snd];
      (eexists _, _; split; [reflexivity|]); cbn; repeat split; reflexivity.
  - cbn [exec fst snd]. rewrite exec_bind. cbn [andb exec fst snd].
    eexists _, _. split; [reflexivity|]. cbn. repeat split; reflexivity.
Qed.

(** X8 at a concrete run: the wallet reports the payload as not signed. *)
Lemma unpaid_poll_is_quiet_witness :
  exists r d',
    run unsigned_world (get_payload Scenarios.issuer "UUID-1") [] (Scenarios.swap_db [])
    = (Returned (Json r),
       [Ev (XummPayloadGet "UUID-1")
          (Fulfilled (Some {| meta_resolved := false; meta_signed := false;
                              meta_cancelled := false; meta_expired := false;
                              response_txid := None |}))], d')
    /\ poll_auto r = None /\ poll_validatedTx r = None
    /\ kv d' = kv (Scenarios.swap_db []) /\ authorizations d' = []
    /\ transfers d' = [] /\ clawbacks d' = [] /\ account_locks d' = [].
Proof.
  apply (unpaid_poll_is_quiet Scenarios.issuer unsigned_world "UUID-1" []
           (Scenarios.swap_db []) _ eq_refl eq_refl).
Defined.

End IssuerExtras.

(** ** MPT-Issuer: the blacklist and the manual actions *)

Module EndpointFacts.
Import JS Float64 Async MptIssuer Observe IssuerObserve IssuerEndpoints TextFacts.
Local Open Scope prog_scope.

Abbreviation run := (exec no_promise).
Implicit Types (w : World) (h t : list Event) (d : Db).

Lemma base58_not_space c : is_base58_char c = true -> negb (is_space c) = true.
Proof. each_char c. Qed.

Lemma r_address_trimmed s : is_r_address s = true -> trim s = s.
Proof.
  destruct s as [|c rest]; [discriminate|]. cbn [is_r_address].
  intros [[[Hc _]%andb_prop _]%andb_prop Hrest]%andb_prop.
  apply trim_fixed. cbn [all_chars]. apply Ascii.eqb_eq in Hc. subst c.
  rewrite (all_chars_weaken is_base58_char _ rest base58_not_space Hrest). reflexivity.
Qed.

(** X9: [mustRAddress] touches neither the database nor the network; what it
    throws carries status 400; what it returns is the trimmed input, has the
    shape of a classic address ([r] and 25 to 34 base58 characters) and is
    accepted unchanged when validated again. *)
Theorem mustRAddress_returns_an_address w name v h d :
  exists out,
    run w (mustRAddress name v) h d = (out, h, d)
    /\ (forall q, out <> Waiting q)
    /\ (forall e, out = Thrown e -> status e = Some 400)
    /\ (forall s, out = Returned s ->
          s = trim (str_or_empty v)
          /\ is_r_address s = true
          /\ (26 <= String.length s <= 35)%nat
          /\ forall name', run w (mustRAddress name' (Some s) ) h d = (Returned s, h, d)).
Proof.
  unfold mustRAddress.
  destruct (is_r_address (trim (str_or_empty v))) eqn:Hr; cbn [negb exec].
  - eexists. refine (conj eq_refl (conj _ (conj _ _))); try discriminate.
    intros s [= <-]. refine (conj eq_refl (conj Hr (conj _ _))).
    + destruct (trim (str_or_empty v)) as [|c rest]; [discriminate|].
      cbn [is_r_address] in Hr.
      apply andb_prop in Hr as [[[_ Hlo]%andb_prop Hhi]%andb_prop _].
      apply Nat.leb_le in Hlo, Hhi. cbn [String.length]. lia.
    + intros name'. cbn [str_or_empty]. rewrite (r_address_trimmed _ Hr), Hr. reflexivity.
  - eexists. refine (conj eq_refl (conj _ (conj _ _))); try discriminate.
    intros e [= <-]. reflexivity.
Qed.

Lemma run_answering_ret {B} w (p : M (Reply B)) h d r h' d' :
  run w p h d = (Returned r, h', d') -> run w (answering p) h d = (Returned r, h', d').
Proof. intros E. unfold answering. rewrite exec_try_catch, E. reflexivity. Qed.

Lemma run_mustRAddress_ok w name s h d :
  is_r_address s = true -> run w (mustRAddress name (Some s)) h d = (Returned s, h, d).
Proof.
  intros Hr. unfold mustRAddress. cbn [str_or_empty].
  rewrite (r_address_trimmed _ Hr), Hr. reflexivity.
Qed.

(** X10: Putting an account on the blacklist or taking it off: a request with a
    malformed address is refused with status 400 and changes nothing.  An
    accepted one writes the entry of that account only, contacts nothing,
    and from then on the blacklist query and the saga's [isBlacklisted] give
    the new value for that account. *)
Theorem blacklist_update_then_query w (on : bool) v h d :
  exists reply d',
    run w ((if on then blacklist_add else blacklist_remove) v) h d = (Returned reply, h, d')
    /\ match reply with
       | Failure code _ => code = 400 /\ d' = d
       | Json r =>
           bl_holder r = trim (str_or_empty v)
           /\ bl_blacklisted r = on
           /\ d' = with_kv (<[ "BLACKLIST_" +:+ bl_holder r := if on then "1" else "0" ]>) d
           /\ run w (blacklist_get (Some (bl_holder r))) h d'
              = (Returned (Json {| bl_holder := bl_holder r; bl_blacklisted := on |}), h, d')
           /\ run w (isBlacklisted (bl_holder r)) h d' = (Returned on, h, d')
       end.
Proof.
  assert (Hget : forall (s : string) (flag : bool), is_r_address s = true ->
            let d' := with_kv (<[ "BLACKLIST_" +:+ s := if flag then "1" else "0" ]>) d in
            run w (blacklist_get (Some s)) h d'
            = (Returned (Json {| bl_holder := s; bl_blacklisted := flag |}), h, d')
            /\ run w (isBlacklisted s) h d' = (Returned flag, h, d')).
  { intros s flag Hr d'.
    assert (Hb : run w (isBlacklisted s) h d' = (Returned flag, h, d')).
    { unfold isBlacklisted, kvGetBool, kvGet. cbn. unfold d'. cbn [kv with_kv].
      rewrite lookup_insert_eq. destruct flag; reflexivity. }
    split; [|exact Hb].
    apply run_answering_ret. rewrite exec_bind, (run_mustRAddress_ok _ _ _ _ _ Hr).
    cbn [fst snd]. rewrite exec_bind, Hb. reflexivity. }
  destruct (is_r_address (trim (str_or_empty v))) eqn:Hr.
  - exists (Json {| bl_holder := trim (str_or_empty v); bl_blacklisted := on |}),
      (with_kv (<[ "BLACKLIST_" +:+ trim (str_or_empty v) := if on then "1" else "0" ]>) d).
    split.
    + destruct on; unfold blacklist_add, blacklist_remove; apply run_answering_ret;
        unfold mustRAddress; rewrite Hr; reflexivity.
    + cbn [bl_holder bl_blacklisted].
      destruct (Hget _ on Hr) as [H1 H2]. repeat split; assumption.
  - exists (Failure 400 ("holder" +:+ "_INVALID_R_ADDRESS")), d.
    split; [|split; reflexivity].
    destruct on; unfold blacklist_add, blacklist_remove, answering, mustRAddress;
      rewrite exec_try_catch, Hr; reflexivity.
Qed.

(** *** Clawback by hand *)

Lemma submitted_quiet k t : quiet t -> submitted k t = 0%nat.
Proof. intros [S _]. apply S. Qed.

(** X11: The manual clawback always answers, and never writes the kv table.  It
    submits at most one transaction, a clawback, and only for a holder
    address of the right shape, a value made of digits, and an issuance
    entry read from the ledger whose flags allow clawback.  It answers with
    the transaction only when the ledger took the clawback, and the
    clawbacks table changes only then. *)
Theorem manual_clawback_is_guarded issuer w body h d :
  exists reply t d',
    run w (post_clawback issuer body) h d = (Returned reply, (h ++ t)%list, d')
    /\ kv d' = kv d
    /\ (forall k, k <> Clawback -> submitted k t = 0%nat)
    /\ (submitted Clawback t <= 1)%nat
    /\ (submitted Clawback t = 1%nat ->
        is_r_address (trim (str_or_empty (body_holder body))) = true
        /\ is_digits (trim (str_or_empty (body_value body))) = true
        /\ exists node idx hist,
             answer w _ (RequestLedgerEntry idx) hist = Fulfilled (Some node)
             /\ tfMPTCanClawback (flags_of node) = true)
    /\ (forall r, reply = Json r -> accepted Clawback t = 1%nat)
    /\ (clawbacks d' <> clawbacks d -> exists r, reply = Json r).
Proof.
  set (G := is_r_address (trim (str_or_empty (body_holder body))) = true
            /\ is_digits (trim (str_or_empty (body_value body))) = true
            /\ exists node idx hist,
                 answer w _ (RequestLedgerEntry idx) hist = Fulfilled (Some node)
                 /\ tfMPTCanClawback (flags_of node) = true).
  set (P := fun (reply : Reply ActionReply) t d' =>
              kv d' = kv d
              /\ (forall k, k <> Clawback -> submitted k t = 0%nat)
              /\ (submitted Clawback t <= 1)%nat
              /\ (submitted Clawback t = 1%nat -> G)
              /\ (forall r, reply = Json r -> accepted Clawback t = 1%nat)
              /\ (clawbacks d' <> clawbacks d -> exists r, reply = Json r)).
  assert (Hpost : post w (post_clawback issuer body) h d
    (fun out h' d' => exists reply t, out = Returned reply /\ h' = (h ++ t)%list
                                      /\ P reply t d')).
  2:{ unfold post in Hpost.
      destruct (run w (post_clawback issuer body) h d) as [[out h'] d'].
      cbn [fst snd] in Hpost. destruct Hpost as (reply & t & -> & -> & HP).
      exists reply, t, d'. split; [reflexivity|exact HP]. }
  assert (Hquiet : forall code err t, quiet t -> P (Failure code err) t d).
  { intros code err t Ht. unfold P. repeat apply conj; try reflexivity.
    - intros k _. apply submitted_quiet, Ht.
    - rewrite (submitted_quiet _ _ Ht). lia.
    - rewrite (submitted_quiet _ _ Ht). discriminate.
    - discriminate.
    - congruence. }
  assert (Hfail : forall e t h1, quiet t -> h1 = (h ++ t)%list ->
            post w (Ret (Failure (status_or_500 e) (error_text e))) h1 d
              (fun out h' d' => exists reply t, out = Returned reply /\ h' = (h ++ t)%list
                                                /\ P reply t d')).
  { intros e t h1 Ht ->. apply MptFacts.post_ret. eexists _, t. split; [reflexivity|].
    split; [reflexivity|]. apply Hquiet, Ht. }
  unfold post_clawback, answering.
  apply MptFacts.post_try_catch, MptFacts.post_bind, MptFacts.post_getActiveIssuanceId48OrThrow.
  intros out1 W1. destruct out1 as [id|e|q]; cbv beta iota.
  3:{ exfalso. apply (W1 q). reflexivity. }
  2:{ apply (Hfail e []); [apply MptFacts.quiet_nil|symmetry; apply app_nil_r]. }
  apply MptFacts.post_bind. unfold mustRAddress.
  destruct (is_r_address (trim (str_or_empty (body_holder body)))) eqn:Hr; cbn [negb].
  2:{ apply MptFacts.post_throw. cbv beta iota.
      apply (Hfail _ []); [apply MptFacts.quiet_nil|symmetry; apply app_nil_r]. }
  apply MptFacts.post_ret. cbv beta iota.
  destruct (is_digits (trim (str_or_empty (body_value body)))) eqn:Hd; cbn [negb orb].
  2:{ apply MptFacts.post_ret. eexists _, []. rewrite app_nil_r.
      split; [reflexivity|]. split; [reflexivity|]. apply Hquiet, MptFacts.quiet_nil. }
  destruct (leb _ _).
  { apply MptFacts.post_ret. eexists _, []. rewrite app_nil_r.
    split; [reflexivity|]. split; [reflexivity|]. apply Hquiet, MptFacts.quiet_nil. }
  apply MptFacts.post_bind, MptFacts.post_getActiveIssuanceFlags.
  - intros e t Ht. cbv beta iota. apply (Hfail e t); [exact Ht|reflexivity].
  - intros t Ht. cbv beta iota. apply MptFacts.post_ret. eexists _, t.
    split; [reflexivity|]. split; [reflexivity|]. apply Hquiet, Ht.
  - intros node t0 Q0 _ Hans. cbv beta iota.
    destruct (tfMPTCanClawback (flags_of node)) eqn:Hcan; cbn [negb].
    2:{ apply MptFacts.post_ret. eexists _, t0.
        split; [reflexivity|]. split; [reflexivity|]. apply Hquiet, Q0. }
    assert (HG : G).
    { unfold G. split; [reflexivity|]. split; [reflexivity|].
      destruct Hans as (idx & hist & Hans). eauto. }
    assert (Hone : forall a t (reply : Reply ActionReply) d',
              single_submit (ClawbackMPT (trim (str_or_empty (body_holder body))) id
                               (trim (str_or_empty (body_value body)))) a t ->
              kv d' = kv d ->
              (forall r, reply = Json r -> a = true) ->
              (clawbacks d' <> clawbacks d -> exists r, reply = Json r) ->
              P reply (t0 ++ t)%list d').
    { intros a t reply d1 (S & A & _) Hkv Hj Hc. unfold P.
      assert (Sk : forall k, submitted k (t0 ++ t)%list
                             = if step_eqb k Clawback then 1%nat else 0%nat).
      { intros k. rewrite MptFacts.submitted_app, (submitted_quiet _ _ Q0), S. reflexivity. }
      repeat apply conj.
      - exact Hkv.
      - intros k Hk. rewrite Sk. destruct k; try reflexivity. congruence.
      - rewrite Sk. cbn. lia.
      - intros _. exact HG.
      - intros r Hrep. rewrite (Hj r Hrep) in A.
        rewrite MptFacts.accepted_app, (MptFacts.quiet_accepted _ _ Q0), A. reflexivity.
      - exact Hc. }
    unfold issuerClawbackMPT.
    apply MptFacts.post_bind, MptFacts.post_issuer_action.
    + intros e t Ht. apply (Hfail e (t0 ++ t)%list);
        [apply MptFacts.quiet_app; assumption|symmetry; apply app_assoc].
    + intros e t Ht. rewrite <- app_assoc. apply MptFacts.post_ret.
      eexists _, (t0 ++ t)%list. split; [reflexivity|]. split; [reflexivity|].
      apply (Hone false t _ d Ht); [reflexivity|discriminate|congruence].
    + intros res t Ht _. rewrite <- app_assoc.
      cbv beta iota delta [negb ok result_of].
      destruct (ledger_accepts res) eqn:Hok; cbv beta iota.
      * apply MptFacts.post_bind, MptFacts.post_tryInsertClawback. intros d1 Hkv.
        cbv beta iota. apply MptFacts.post_ret.
        eexists _, (t0 ++ t)%list. split; [reflexivity|]. split; [reflexivity|].
        apply (Hone true t _ d1 Ht Hkv); [reflexivity|eauto].
      * apply MptFacts.post_ret.
        eexists _, (t0 ++ t)%list. split; [reflexivity|]. split; [reflexivity|].
        apply (Hone false t _ d Ht); [reflexivity|discriminate|congruence].
Qed.

Lemma manual_lock_guard issuer w body h d :
  exists reply t d',
    run w (post_lock issuer body) h d = (Returned reply, (h ++ t)%list, d')
    /\ kv d' = kv d
    /\ (forall k, k <> Lock -> submitted k t = 0%nat)
    /\ (submitted Lock t <= 1)%nat
    /\ (submitted Lock t = 1%nat ->
        is_r_address (trim (str_or_empty (body_holder body))) = true
        /\ exists node idx hist,
             answer w _ (RequestLedgerEntry idx) hist = Fulfilled (Some node)
             /\ tfMPTCanLock (flags_of node) = true)
    /\ (forall r, reply = Json r -> accepted Lock t = 1%nat)
    /\ (account_locks d' <> account_locks d -> exists r, reply = Json r).
Proof.
  set (G := is_r_address (trim (str_or_empty (body_holder body))) = true
            /\ exists node idx hist,
                 answer w _ (RequestLedgerEntry idx) hist = Fulfilled (Some node)
                 /\ tfMPTCanLock (flags_of node) = true).
  set (P := fun (reply : Reply ActionReply) t d' =>
              kv d' = kv d
              /\ (forall k, k <> Lock -> submitted k t = 0%nat)
              /\ (submitted Lock t <= 1)%nat
              /\ (submitted Lock t = 1%nat -> G)
              /\ (forall r, reply = Json r -> accepted Lock t = 1%nat)
              /\ (account_locks d' <> account_locks d -> exists r, reply = Json r)).
  assert (Hpost : post w (post_lock issuer body) h d
    (fun out h' d' => exists reply t, out = Returned reply /\ h' = (h ++ t)%list
                                      /\ P reply t d')).
  2:{ unfold post in Hpost.
      destruct (run w (post_lock issuer body) h d) as [[out h'] d'].
      cbn [fst snd] in Hpost. destruct Hpost as (reply & t & -> & -> & HP).
      exists reply, t, d'. split; [reflexivity|exact HP]. }
  assert (Hquiet : forall code err t, quiet t -> P (Failure code err) t d).
  { intros code err t Ht. unfold P. repeat apply conj; try reflexivity.
    - intros k _. apply submitted_quiet, Ht.
    - rewrite (submitted_quiet _ _ Ht). lia.
    - rewrite (submitted_quiet _ _ Ht). discriminate.
    - discriminate.
    - congruence. }
  assert (Hfail : forall e t h1, quiet t -> h1 = (h ++ t)%list ->
            post w (Ret (Failure (status_or_500 e) (error_text e))) h1 d
              (fun out h' d' => exists reply t, out = Returned reply /\ h' = (h ++ t)%list
                                                /\ P reply t d')).
  { intros e t h1 Ht ->. apply MptFacts.post_ret. eexists _, t. split; [reflexivity|].
    split; [reflexivity|]. apply Hquiet, Ht. }
  unfold post_lock, answering.
  apply MptFacts.post_try_catch, MptFacts.post_bind, MptFacts.post_getActiveIssuanceId48OrThrow.
  intros out1 W1. destruct out1 as [id|e|q]; cbv beta iota.
  3:{ exfalso. apply (W1 q). reflexivity. }
  2:{ apply (Hfail e []); [apply MptFacts.quiet_nil|symmetry; apply app_nil_r]. }
  apply MptFacts.post_bind. unfold mustRAddress.
  destruct (is_r_address (trim (str_or_empty (body_holder body)))) eqn:Hr; cbn [negb].
  2:{ apply MptFacts.post_throw. cbv beta iota.
      apply (Hfail _ []); [apply MptFacts.quiet_nil|symmetry; apply app_nil_r]. }
  apply MptFacts.post_ret. cbv beta iota.
  apply MptFacts.post_bind, MptFacts.post_getActiveIssuanceFlags.
  - intros e t Ht. cbv beta iota. apply (Hfail e t); [exact Ht|reflexivity].
  - intros t Ht. cbv beta iota. apply MptFacts.post_ret. eexists _, t.
    split; [reflexivity|]. split; [reflexivity|]. apply Hquiet, Ht.
  - intros node t0 Q0 _ Hans. cbv beta iota.
    destruct (tfMPTCanLock (flags_of node)) eqn:Hcan; cbn [negb].
    2:{ apply MptFacts.post_ret. eexists _, t0.
        split; [reflexivity|]. split; [reflexivity|]. apply Hquiet, Q0. }
    assert (HG : G).
    { unfold G. split; [reflexivity|]. destruct Hans as (idx & hist & Hans). eauto. }
    assert (Hone : forall a t (reply : Reply ActionReply) d',
              single_submit (MPTokenIssuanceSet id
                               (trim (str_or_empty (body_holder body))) 1) a t ->
              kv d' = kv d ->
              (forall r, reply = Json r -> a = true) ->
              (account_locks d' <> account_locks d -> exists r, reply = Json r) ->
              P reply (t0 ++ t)%list d').
    { intros a t reply d1 (S & A & _) Hkv Hj Hc. unfold P.
      assert (Sk : forall k, submitted k (t0 ++ t)%list
                             = if step_eqb k Lock then 1%nat else 0%nat).
      { intros k. rewrite MptFacts.submitted_app, (submitted_quiet _ _ Q0), S. reflexivity. }
      repeat apply conj.
      - exact Hkv.
      - intros k Hk. rewrite Sk. destruct k; try reflexivity. congruence.
      - rewrite Sk. cbn. lia.
      - intros _. exact HG.
      - intros r Hrep. rewrite (Hj r Hrep) in A.
        rewrite MptFacts.accepted_app, (MptFacts.quiet_accepted _ _ Q0), A. reflexivity.
      - exact Hc. }
    unfold issuerLockHolder.
    apply MptFacts.post_bind, MptFacts.post_issuer_action.
    + intros e t Ht. apply (Hfail e (t0 ++ t)%list);
        [apply MptFacts.quiet_app; assumption|symmetry; apply app_assoc].
    + intros e t Ht. rewrite <- app_assoc. apply MptFacts.post_ret.
      eexists _, (t0 ++ t)%list. split; [reflexivity|]. split; [reflexivity|].
      apply (Hone false t _ d Ht); [reflexivity|discriminate|congruence].
    + intros res t Ht _. rewrite <- app_assoc.
      cbv beta iota delta [negb ok result_of].
      destruct (ledger_accepts res) eqn:Hok; cbv beta iota.
      * apply MptFacts.post_bind, MptFacts.post_tryInsertLockAction. intros d1 Hkv.
        cbv beta iota. apply MptFacts.post_ret.
        eexists _, (t0 ++ t)%list. split; [reflexivity|]. split; [reflexivity|].
        apply (Hone true t _ d1 Ht Hkv); [reflexivity|eauto].
      * apply MptFacts.post_ret.
        eexists _, (t0 ++ t)%list. split; [reflexivity|]. split; [reflexivity|].
        apply (Hone false t _ d Ht); [reflexivity|discriminate|congruence].
Qed.

Lemma manual_unlock_guard issuer w body h d :
  exists reply t d',
    run w (post_unlock issuer body) h d = (Returned reply, (h ++ t)%list, d')
    /\ kv d' = kv d
    /\ (forall k, k <> Unlock -> submitted k t = 0%nat)
    /\ (submitted Unlock t <= 1)%nat
    /\ (submitted Unlock t = 1%nat ->
        is_r_address (trim (str_or_empty (body_holder body))) = true
        /\ exists node idx hist,
             answer w _ (RequestLedgerEntry idx) hist = Fulfilled (Some node)
             /\ tfMPTCanLock (flags_of node) = true)
    /\ (forall r, reply = Json r -> accepted Unlock t = 1%nat)
    /\ (account_locks d' <> account_locks d -> exists r, reply = Json r).
Proof.
  set (G := is_r_address (trim (str_or_empty (body_holder body))) = true
            /\ exists node idx hist,
                 answer w _ (RequestLedgerEntry idx) hist = Fulfilled (Some node)
                 /\ tfMPTCanLock (flags_of node) = true).
  set (P := fun (reply : Reply ActionReply) t d' =>
              kv d' = kv d
              /\ (forall k, k <> Unlock -> submitted k t = 0%nat)
              /\ (submitted Unlock t <= 1)%nat
              /\ (submitted Unlock t = 1%nat -> G)
              /\ (forall r, reply = Json r -> accepted Unlock t = 1%nat)
              /\ (account_locks d' <> account_locks d -> exists r, reply = Json r)).
  assert (Hpost : post w (post_unlock issuer body) h d
    (fun out h' d' => exists reply t, out = Returned reply /\ h' = (h ++ t)%list
                                      /\ P reply t d')).
  2:{ unfold post in Hpost.
      destruct (run w (post_unlock issuer body) h d) as [[out h'] d'].
      cbn [fst snd] in Hpost. destruct Hpost as (reply & t & -> & -> & HP).
      exists reply, t, d'. split; [reflexivity|exact HP]. }
  assert (Hquiet : forall code err t, quiet t -> P (Failure code err) t d).
  { intros code err t Ht. unfold P. repeat apply conj; try reflexivity.
    - intros k _. apply submitted_quiet, Ht.
    - rewrite (submitted_quiet _ _ Ht). lia.
    - rewrite (submitted_quiet _ _ Ht). discriminate.
    - discriminate.
    - congruence. }
  assert (Hfail : forall e t h1, quiet t -> h1 = (h ++ t)%list ->
            post w (Ret (Failure (status_or_500 e) (error_text e))) h1 d
              (fun out h' d' => exists reply t, out = Returned reply /\ h' = (h ++ t)%list
                                                /\ P reply t d')).
  { intros e t h1 Ht ->. apply MptFacts.post_ret. eexists _, t. split; [reflexivity|].
    split; [reflexivity|]. apply Hquiet, Ht. }
  unfold post_unlock, answering.
  apply MptFacts.post_try_catch, MptFacts.post_bind, MptFacts.post_getActiveIssuanceId48OrThrow.
  intros out1 W1. destruct out1 as [id|e|q]; cbv beta iota.
  3:{ exfalso. apply (W1 q). reflexivity. }
  2:{ apply (Hfail e []); [apply MptFacts.quiet_nil|symmetry; apply app_nil_r]. }
  apply MptFacts.post_bind. unfold mustRAddress.
  destruct (is_r_address (trim (str_or_empty (body_holder body)))) eqn:Hr; cbn [negb].
  2:{ apply MptFacts.post_throw. cbv beta iota.
      apply (Hfail _ []); [apply MptFacts.quiet_nil|symmetry; apply app_nil_r]. }
  apply MptFacts.post_ret. cbv beta iota.
  apply MptFacts.post_bind, MptFacts.post_getActiveIssuanceFlags.
  - intros e t Ht. cbv beta iota. apply (Hfail e t); [exact Ht|reflexivity].
  - intros t Ht. cbv beta iota. apply MptFacts.post_ret. eexists _, t.
    split; [reflexivity|]. split; [reflexivity|]. apply Hquiet, Ht.
  - intros node t0 Q0 _ Hans. cbv beta iota.
    destruct (tfMPTCanLock (flags_of node)) eqn:Hcan; cbn [negb].
    2:{ apply MptFacts.post_ret. eexists _, t0.
        split; [reflexivity|]. split; [reflexivity|]. apply Hquiet, Q0. }
    assert (HG : G).
    { unfold G. split; [reflexivity|]. destruct Hans as (idx & hist & Hans). eauto. }
    assert (Hone : forall a t (reply : Reply ActionReply) d',
              single_submit (MPTokenIssuanceSet id
                               (trim (str_or_empty (body_holder body))) 2) a t ->
              kv d' = kv d ->
              (forall r, reply = Json r -> a = true) ->
              (account_locks d' <> account_locks d -> exists r, reply = Json r) ->
              P reply (t0 ++ t)%list d').
    { intros a t reply d1 (S & A & _) Hkv Hj Hc. unfold P.
      assert (Sk : forall k, submitted k (t0 ++ t)%list
                             = if step_eqb k Unlock then 1%nat else 0%nat).
      { intros k. rewrite MptFacts.submitted_app, (submitted_quiet _ _ Q0), S. reflexivity. }
      repeat apply conj.
      - exact Hkv.
      - intros k Hk. rewrite Sk. destruct k; try reflexivity. congruence.
      - rewrite Sk. cbn. lia.
      - intros _. exact HG.
      - intros r Hrep. rewrite (Hj r Hrep) in A.
        rewrite MptFacts.accepted_app, (MptFacts.quiet_accepted _ _ Q0), A. reflexivity.
      - exact Hc. }
    unfold issuerUnlockHolder.
    apply MptFacts.post_bind, MptFacts.post_issuer_action.
    + intros e t Ht. apply (Hfail e (t0 ++ t)%list);
        [apply MptFacts.quiet_app; assumption|symmetry; apply app_assoc].
    + intros e t Ht. rewrite <- app_assoc. apply MptFacts.post_ret.
      eexists _, (t0 ++ t)%list. split; [reflexivity|]. split; [reflexivity|].
      apply (Hone false t _ d Ht); [reflexivity|discriminate|congruence].
    + intros res t Ht _. rewrite <- app_assoc.
      cbv beta iota delta [negb ok result_of].
      destruct (ledger_accepts res) eqn:Hok; cbv beta iota.
      * apply MptFacts.post_bind, MptFacts.post_tryInsertLockAction. intros d1 Hkv.
        cbv beta iota. apply MptFacts.post_ret.
        eexists _, (t0 ++ t)%list. split; [reflexivity|]. split; [reflexivity|].
        apply (Hone true t _ d1 Ht Hkv); [reflexivity|eauto].
      * apply MptFacts.post_ret.
        eexists _, (t0 ++ t)%list. split; [reflexivity|]. split; [reflexivity|].
        apply (Hone false t _ d Ht); [reflexivity|discriminate|congruence].
Qed.

(** X12: The manual lock and the manual unlock always answer and never write
    the kv table.  Each submits at most one transaction, of its own kind,
    only for a holder address of the right shape and an issuance entry read
    from the ledger whose flags allow locking; it answers with the
    transaction only when the ledger took it, and the table of lock actions
    changes only then. *)
Theorem manual_lock_and_unlock_are_guarded issuer w (locking : bool) body h d :
  let j := if locking then Lock else Unlock in
  exists reply t d',
    run w ((if locking then post_lock else post_unlock) issuer body) h d
    = (Returned reply, (h ++ t)%list, d')
    /\ kv d' = kv d
    /\ (forall k, k <> j -> submitted k t = 0%nat)
    /\ (submitted j t <= 1)%nat
    /\ (submitted j t = 1%nat ->
        is_r_address (trim (str_or_empty (body_holder body))) = true
        /\ exists node idx hist,
             answer w _ (RequestLedgerEntry idx) hist = Fulfilled (Some node)
             /\ tfMPTCanLock (flags_of node) = true)
    /\ (forall r, reply = Json r -> accepted j t = 1%nat)
    /\ (account_locks d' <> account_locks d -> exists r, reply = Json r).
Proof.
  destruct locking; cbv zeta; [apply manual_lock_guard|apply manual_unlock_guard].
Qed.

End EndpointFacts.

(** ** MPT-Issuer: lock and unlock in one poll *)

Module ExclusionFacts.
Import JS Float64 Async MptIssuer Observe IssuerObserve MptFacts.
Local Open Scope prog_scope.

Lemma only_nil j : only j [].
Proof. split; [intros k _; reflexivity|cbn; lia]. Qed.

Lemma only_quiet j t : quiet t -> only j t.
Proof. intros [S _]. split; [intros k _; apply S|rewrite S; lia]. Qed.

Lemma only_single j tx a t : step_is j tx = true -> single_submit tx a t -> only j t.
Proof.
  intros Hj (S & _). split.
  - intros k Hk. rewrite S, (step_is_other k j tx Hj Hk). reflexivity.
  - rewrite S, Hj. lia.
Qed.

(** What a stage that runs one issuer action for its step shows. *)
Lemma post_action_only issuer w j tx {A} (k : SubmitResult -> M A) h d Q :
  step_is j tx = true ->
  (forall e t, only j t -> Q (Thrown e) (h ++ t)%list d) ->
  (forall res t, only j t -> post w (k (result_of res)) (h ++ t)%list d Q) ->
  post w (r <- (assertActiveIssuanceBelongsToServerIssuer issuer ;;;
                submitAsIssuer issuer tx) ;; k r) h d Q.
Proof.
  intros Hj Hthrow Hret. apply post_bind, post_issuer_action.
  - intros e t Ht. apply Hthrow, only_quiet, Ht.
  - intros e t Ht. apply Hthrow. eapply only_single; eassumption.
  - intros res t Ht _. apply Hret. eapply only_single; eassumption.
Qed.

Lemma post_stage_authorize_only issuer w uuid id payer fl policy actions h d Q :
  (forall out t d', only Authorize t -> (forall q, out <> Waiting q) ->
     Q out (h ++ t)%list d') ->
  post w (stage_authorize issuer uuid id payer fl policy actions) h d Q.
Proof.
  intros HQ. unfold stage_authorize.
  destruct (tfMPTRequireAuth fl).
  2:{ apply post_ret. rewrite <- (app_nil_r h). apply HQ; [apply only_nil|discriminate]. }
  apply post_bind, post_kvGet.
  destruct (truthy _).
  { apply post_ret. rewrite <- (app_nil_r h). apply HQ; [apply only_nil|discriminate]. }
  unfold issuerAuthorizeHolder. apply (post_action_only issuer w Authorize); [reflexivity| |].
  - intros e t Ht. apply HQ; [exact Ht|discriminate].
  - intros res t Ht. cbv beta iota delta [negb ok result_of].
    destruct (ledger_accepts res); cbv beta iota.
    + apply post_bind, post_kvSet. cbv beta iota.
      apply post_bind, post_tryInsertAuthorization. intros d' _. cbv beta iota.
      apply post_ret, HQ; [exact Ht|discriminate].
    + apply post_ret, HQ; [exact Ht|discriminate].
Qed.

Lemma post_stage_issue_only issuer w uuid id payer policy already mpt auto actions h d Q :
  (forall out t d', only Issue t -> (forall q, out <> Waiting q) ->
     Q out (h ++ t)%list d') ->
  post w (stage_issue issuer uuid id payer policy already mpt auto actions) h d Q.
Proof.
  intros HQ. unfold stage_issue.
  destruct auto as [a|].
  { apply post_ret. rewrite <- (app_nil_r h). apply HQ; [apply only_nil|discriminate]. }
  destruct (truthy already).
  { apply post_ret. rewrite <- (app_nil_r h). apply HQ; [apply only_nil|discriminate]. }
  unfold issuerSendMPT. apply (post_action_only issuer w Issue); [reflexivity| |].
  - intros e t Ht. apply HQ; [exact Ht|discriminate].
  - intros res t Ht. cbv beta iota delta [negb ok result_of].
    destruct (ledger_accepts res); cbv beta iota.
    + apply post_bind, post_kvSet. cbv beta iota.
      apply post_bind, post_tryInsertTransfer. intros d' _. cbv beta iota.
      apply post_ret, HQ; [exact Ht|discriminate].
    + apply post_ret, HQ; [exact Ht|discriminate].
Qed.

Lemma post_stage_clawback_only issuer w uuid id payer fl policy mpt auto actions h d Q :
  (forall out t d', only Clawback t -> (forall q, out <> Waiting q) ->
     Q out (h ++ t)%list d') ->
  post w (stage_clawback issuer uuid id payer fl policy mpt auto actions) h d Q.
Proof.
  intros HQ. unfold stage_clawback.
  destruct auto as [a|].
  { apply post_ret. rewrite <- (app_nil_r h). apply HQ; [apply only_nil|discriminate]. }
  destruct (autoClawbackBlacklist policy && blacklisted policy).
  2:{ apply post_ret. rewrite <- (app_nil_r h). apply HQ; [apply only_nil|discriminate]. }
  destruct (tfMPTCanClawback fl); cbv beta iota delta [negb].
  2:{ apply post_ret. rewrite <- (app_nil_r h). apply HQ; [apply only_nil|discriminate]. }
  apply post_bind, post_kvGet.
  destruct (truthy _).
  { apply post_ret. rewrite <- (app_nil_r h). apply HQ; [apply only_nil|discriminate]. }
  unfold issuerClawbackMPT. apply (post_action_only issuer w Clawback); [reflexivity| |].
  - intros e t Ht. apply HQ; [exact Ht|discriminate].
  - intros res t Ht. cbv beta iota delta [negb ok result_of].
    destruct (ledger_accepts res); cbv beta iota.
    + apply post_bind, post_kvSet. cbv beta iota.
      apply post_bind, post_tryInsertClawback. intros d' _. cbv beta iota.
      apply post_ret, HQ; [exact Ht|discriminate].
    + apply post_ret, HQ; [exact Ht|discriminate].
Qed.

Lemma post_stage_lock_only issuer w uuid id payer fl policy auto actions h d Q :
  (forall out t d', only Lock t ->
     (autoLockAfterSwap policy = false -> t = []) ->
     (forall q, out <> Waiting q) -> Q out (h ++ t)%list d') ->
  post w (stage_lock issuer uuid id payer fl policy auto actions) h d Q.
Proof.
  intros HQ. unfold stage_lock.
  destruct auto as [a|].
  { apply post_ret. rewrite <- (app_nil_r h). apply HQ; [apply only_nil|reflexivity|discriminate]. }
  destruct (autoLockAfterSwap policy) eqn:Hon; cbn [andb].
  2:{ apply post_ret. rewrite <- (app_nil_r h). apply HQ; [apply only_nil|reflexivity|discriminate]. }
  destruct (negb (clawback_succeeded actions)).
  2:{ apply post_ret. rewrite <- (app_nil_r h). apply HQ; [apply only_nil|reflexivity|discriminate]. }
  destruct (tfMPTCanLock fl); cbv beta iota delta [negb].
  2:{ apply post_ret. rewrite <- (app_nil_r h). apply HQ; [apply only_nil|reflexivity|discriminate]. }
  apply post_bind, post_kvGet.
  destruct (truthy _).
  { apply post_ret. rewrite <- (app_nil_r h). apply HQ; [apply only_nil|reflexivity|discriminate]. }
  unfold issuerLockHolder. apply (post_action_only issuer w Lock); [reflexivity| |].
  - intros e t Ht. apply HQ; [exact Ht|discriminate|discriminate].
  - intros res t Ht. cbv beta iota delta [negb ok result_of].
    destruct (ledger_accepts res); cbv beta iota.
    + apply post_bind, post_kvSet. cbv beta iota.
      apply post_bind, post_tryInsertLockAction. intros d' _. cbv beta iota.
      apply post_ret, HQ; [exact Ht|discriminate|discriminate].
    + apply post_ret, HQ; [exact Ht|discriminate|discriminate].
Qed.

Lemma post_stage_unlock_only issuer w uuid id payer fl policy auto actions h d Q :
  (forall out t d', only Unlock t ->
     (autoLockAfterSwap policy = true -> t = []) ->
     (forall q, out <> Waiting q) -> Q out (h ++ t)%list d') ->
  post w (stage_unlock issuer uuid id payer fl policy auto actions) h d Q.
Proof.
  intros HQ. unfold stage_unlock.
  destruct auto as [a|].
  { apply post_ret. rewrite <- (app_nil_r h). apply HQ; [apply only_nil|reflexivity|discriminate]. }
  destruct (autoUnlockAfterSwap policy); cbn [andb].
  2:{ apply post_ret. rewrite <- (app_nil_r h). apply HQ; [apply only_nil|reflexivity|discriminate]. }
  destruct (autoLockAfterSwap policy) eqn:Hon; cbn [negb andb].
  { apply post_ret. rewrite <- (app_nil_r h). apply HQ; [apply only_nil|reflexivity|discriminate]. }
  destruct (negb (clawback_succeeded actions)).
  2:{ apply post_ret. rewrite <- (app_nil_r h). apply HQ; [apply only_nil|reflexivity|discriminate]. }
  destruct (tfMPTCanLock fl); cbv beta iota delta [negb].
  2:{ apply post_ret. rewrite <- (app_nil_r h). apply HQ; [apply only_nil|reflexivity|discriminate]. }
  apply post_bind, post_kvGet.
  destruct (truthy _).
  { apply post_ret. rewrite <- (app_nil_r h). apply HQ; [apply only_nil|reflexivity|discriminate]. }
  unfold issuerUnlockHolder. apply (post_action_only issuer w Unlock); [reflexivity| |].
  - intros e t Ht. apply HQ; [exact Ht|discriminate|discriminate].
  - intros res t Ht. cbv beta iota delta [negb ok result_of].
    destruct (ledger_accepts res); cbv beta iota.
    + apply post_bind, post_kvSet. cbv beta iota.
      apply post_bind, post_tryInsertLockAction. intros d' _. cbv beta iota.
      apply post_ret, HQ; [exact Ht|discriminate|discriminate].
    + apply post_ret, HQ; [exact Ht|discriminate|discriminate].
Qed.

Lemma never_both_quiet t : quiet t -> never_both t.
Proof. intros [S _]. unfold never_both. rewrite !S. lia. Qed.

Lemma never_both_after t0 t : quiet t0 -> never_both t -> never_both (t0 ++ t).
Proof.
  intros [S _] H. unfold never_both in *. rewrite !submitted_app, !S. exact H.
Qed.

Lemma post_saga_steps_never_both issuer w uuid id payer fl vtx h d Q :
  (forall out t d', never_both t -> (forall q, out <> Waiting q) -> Q out (h ++ t)%list d') ->
  post w (saga_steps issuer uuid id payer fl vtx) h d Q.
Proof.
  intros HQ.
  unfold saga_steps, isAutoLockEnabled, isAutoUnlockEnabled, isAutoClawbackEnabled,
    isBlacklisted.
  apply post_bind, post_kvGetBool. cbv beta iota.
  apply post_bind, post_kvGetBool. cbv beta iota.
  apply post_bind, post_kvGetBool. cbv beta iota.
  apply post_bind, post_kvGetBool. cbv beta iota.
  set (policy := {| autoLockAfterSwap := _; autoUnlockAfterSwap := _;
                    autoClawbackBlacklist := _; blacklisted := _ |}).
  apply post_bind, post_kvGet. cbv beta iota.
  assert (Hpre : forall j t, j <> Lock -> j <> Unlock -> only j t ->
            submitted Lock t = 0%nat /\ submitted Unlock t = 0%nat).
  { intros j t H1 H2 [Ho _]. split; apply Ho; congruence. }
  apply post_bind, post_stage_authorize_only. intros outA tA dA OA WA.
  destruct (Hpre Authorize tA ltac:(discriminate) ltac:(discriminate) OA) as [LA UA].
  assert (HA : forall (out : Outcome Error Auto), (forall q, out <> Waiting q) ->
            Q out (h ++ tA)%list dA).
  { intros out W. apply HQ; [unfold never_both; lia|exact W]. }
  destruct outA as [[autoA actsA]|e|q]; cbv beta iota;
    [|apply HA; discriminate|exfalso; apply (WA q); reflexivity].
  destruct (stage_calc vtx payer policy autoA actsA) as [autoB mpt].
  apply post_bind, post_stage_issue_only. intros outC tC dC OC WC. rewrite <- ?app_assoc.
  destruct (Hpre Issue tC ltac:(discriminate) ltac:(discriminate) OC) as [LC UC].
  assert (HC : forall (out : Outcome Error Auto), (forall q, out <> Waiting q) ->
            Q out (h ++ tA ++ tC)%list dC).
  { intros out W. apply HQ; [|exact W]. unfold never_both. rewrite !submitted_app. lia. }
  destruct outC as [[autoC actsC]|e|q]; cbv beta iota;
    [|apply HC; discriminate|exfalso; apply (WC q); reflexivity].
  apply post_bind, post_stage_clawback_only. intros out1 t1 d1 O1 W1. rewrite <- ?app_assoc.
  destruct (Hpre Clawback t1 ltac:(discriminate) ltac:(discriminate) O1) as [L1 U1].
  assert (H1 : forall (out : Outcome Error Auto), (forall q, out <> Waiting q) ->
            Q out (h ++ tA ++ tC ++ t1)%list d1).
  { intros out W. apply HQ; [|exact W]. unfold never_both. rewrite !submitted_app. lia. }
  destruct out1 as [acts1|e|q]; cbv beta iota;
    [|apply H1; discriminate|exfalso; apply (W1 q); reflexivity].
  apply post_bind, post_stage_lock_only. intros out2 t2 d2 O2 Off2 W2. rewrite <- ?app_assoc.
  assert (U2 : submitted Unlock t2 = 0%nat) by (apply O2; discriminate).
  assert (L2 : (submitted Lock t2 <= 1)%nat) by apply O2.
  assert (H2 : forall (out : Outcome Error Auto), (forall q, out <> Waiting q) ->
            Q out (h ++ tA ++ tC ++ t1 ++ t2)%list d2).
  { intros out W. apply HQ; [|exact W]. unfold never_both. rewrite !submitted_app. lia. }
  destruct out2 as [acts2|e|q]; cbv beta iota;
    [|apply H2; discriminate|exfalso; apply (W2 q); reflexivity].
  apply post_bind, post_stage_unlock_only. intros out3 t3 d3 O3 Off3 W3. rewrite <- ?app_assoc.
  assert (L3 : submitted Lock t3 = 0%nat) by (apply O3; discriminate).
  assert (U3 : (submitted Unlock t3 <= 1)%nat) by apply O3.
  assert (H3 : forall (out : Outcome Error Auto), (forall q, out <> Waiting q) ->
            Q out (h ++ tA ++ tC ++ t1 ++ t2 ++ t3)%list d3).
  { intros out W. apply HQ; [|exact W].
    unfold never_both. rewrite !submitted_app.
    destruct (autoLockAfterSwap policy) eqn:Hon.
    - assert (E3 : submitted Unlock t3 = 0%nat) by (rewrite (Off3 eq_refl); reflexivity). lia.
    - assert (E2 : submitted Lock t2 = 0%nat) by (rewrite (Off2 eq_refl); reflexivity). lia. }
  destruct out3 as [acts3|e|q]; cbv beta iota;
    [|apply H3; discriminate|exfalso; apply (W3 q); reflexivity].
  apply post_ret, H3. discriminate.
Qed.

Lemma post_saga_never_both issuer w uuid vtx h d Q :
  (forall out t d', never_both t -> (forall q, out <> Waiting q) -> Q out (h ++ t)%list d') ->
  post w (saga issuer uuid vtx) h d Q.
Proof.
  intros HQ. unfold saga.
  assert (Hquiet : forall (out : Outcome Error Auto) t,
            quiet t -> (forall q, out <> Waiting q) -> Q out (h ++ t)%list d).
  { intros out t Ht Hw. apply HQ; [apply never_both_quiet, Ht|exact Hw]. }
  apply post_bind, post_try_catch, post_bind, post_getActiveIssuanceId48OrThrow.
  intros out1 W1. destruct out1 as [id|e|q]; cbv beta iota.
  3:{ exfalso. apply (W1 q). reflexivity. }
  2:{ apply post_ret. cbv beta iota. apply post_ret. rewrite <- (app_nil_r h).
      apply Hquiet; [apply quiet_nil|discriminate]. }
  apply post_bind, post_getActiveIssuanceFlags.
  - intros e t Ht. apply post_ret. cbv beta iota. apply post_ret.
    apply Hquiet; [exact Ht|discriminate].
  - intros t Ht. apply post_ret. cbv beta iota. apply post_ret.
    apply Hquiet; [exact Ht|discriminate].
  - intros node t0 Q0 _ _. apply post_ret. cbv beta iota.
    destruct (negb (truthy (Account (txj_of vtx)))).
    { apply post_ret. apply Hquiet; [exact Q0|discriminate]. }
    apply post_saga_steps_never_both. intros out t d' N W. rewrite <- app_assoc.
    apply HQ; [apply never_both_after; assumption|exact W].
Qed.

(** X13: Whatever the policy, the flags and the answers of the ledger, one status
    poll never submits both a lock and an unlock of the payer: the unlock
    stage does nothing when auto-lock is on, and the lock stage does nothing
    when it is off. *)
Theorem poll_never_locks_and_unlocks issuer w uuid h d :
  exists reply t d',
    run w (get_payload issuer uuid) h d = (Returned reply, (h ++ t)%list, d')
    /\ (submitted Lock t + submitted Unlock t <= 1)%nat.
Proof.
  assert (Hpost : post w (get_payload issuer uuid) h d
            (fun out h' d' => exists reply t, out = Returned reply /\ h' = (h ++ t)%list
                                              /\ never_both t)).
  { unfold get_payload.
    assert (Hquiet : forall (reply : Reply PollResponse) t,
              quiet t ->
              exists reply0 t0, Returned (Err := Error) reply = Returned reply0
                                /\ (h ++ t)%list = (h ++ t0)%list /\ never_both t0).
    { intros reply t Ht. exists reply, t. auto using never_both_quiet. }
    apply post_try_catch, post_bind, post_await. intros r0 _.
    assert (Q0 : quiet [Ev (XummPayloadGet uuid) r0]) by (apply quiet_single; reflexivity).
    destruct r0 as [p|e0]; cbv beta iota.
    2:{ apply post_ret. apply (Hquiet _ _ Q0). }
    set (resolved := match p with Some p0 => meta_resolved p0 | None => false end).
    set (signed := match p with Some p0 => meta_signed p0 | None => false end).
    set (cancelled := match p with Some p0 => meta_cancelled p0 | None => false end).
    set (expired := match p with Some p0 => meta_expired p0 | None => false end).
    set (txid := match p with Some p0 => or_else (response_txid p0) None | None => None end).
    apply post_bind.
    assert (Hrest : forall d0,
      post w
        (va <- (if signed && truthy txid
                then validatedTx <- waitTxValidated (str_or_empty txid);;
                     match validatedTx with
                     | Some vtx =>
                         if validated vtx
                         then auto <- saga issuer uuid vtx;; Ret (validatedTx, Some auto)
                         else Ret (validatedTx, None)
                     | None => Ret (None, None)
                     end
                else Ret (None, None));;
         Ret (Json {| poll_uuid := uuid; poll_resolved := resolved; poll_signed := signed;
                      poll_cancelled := cancelled; poll_expired := expired; poll_txid := txid;
                      poll_validatedTx := fst va; poll_auto := snd va |}))
        (h ++ [Ev (XummPayloadGet uuid) (Fulfilled p)]) d0
        (fun out h1 d1 =>
           match out with
           | Thrown e =>
               post w (Ret (Failure (B := PollResponse) 500 (error_text e))) h1 d1
                 (fun out h' d' => exists reply t, out = Returned reply /\ h' = (h ++ t)%list
                                                   /\ never_both t)
           | other => exists reply t, other = Returned reply /\ h1 = (h ++ t)%list
                                      /\ never_both t
           end)).
    { intros d0. apply post_bind.
      destruct (signed && truthy txid).
      2:{ apply post_ret. cbv beta iota. apply post_ret. apply (Hquiet _ _ Q0). }
      apply post_bind, post_waitTxValidated. intros out1 t1 Q1 W1. rewrite <- app_assoc.
      pose proof (quiet_app _ _ Q0 Q1) as Q01.
      destruct out1 as [[vtx|]|e1|q]; cbv beta iota.
      4:{ exfalso. apply (W1 q). reflexivity. }
      3:{ apply post_ret. apply (Hquiet _ _ Q01). }
      2:{ apply post_ret. cbv beta iota. apply post_ret. apply (Hquiet _ _ Q01). }
      destruct (validated vtx).
      2:{ apply post_ret. cbv beta iota. apply post_ret. apply (Hquiet _ _ Q01). }
      apply post_bind, post_saga_never_both. intros out t d' N W.
      pose proof (never_both_after _ _ Q01 N) as N'.
      destruct out as [auto|e|q]; cbv beta iota.
      3:{ exfalso. apply (W q). reflexivity. }
      2:{ apply post_ret. eexists _, _. split; [reflexivity|].
          split; [rewrite <- !app_assoc; reflexivity|]. rewrite <- app_assoc in N'. exact N'. }
      apply post_ret. cbv beta iota. apply post_ret. eexists _, _. split; [reflexivity|].
      split; [rewrite <- !app_assoc; reflexivity|]. rewrite <- app_assoc in N'. exact N'. }
    destruct resolved.
    - apply post_markPayload. intros d0 _. cbv beta iota. apply Hrest.
    - apply post_ret. cbv beta iota. apply Hrest. }
  unfold post in Hpost.
  destruct (run w (get_payload issuer uuid) h d) as [[out h'] d'].
  cbn [fst snd] in Hpost. destruct Hpost as (reply & t & -> & -> & N).
  exists reply, t, d'. split; [reflexivity|exact N].
Qed.

End ExclusionFacts.

(** ** MPT-Issuer: polls that overlap *)

Module RaceFacts.
Import JS Float64 Async MptIssuer Observe Interleaved IssuerRace.

(** C1: The issue step is not at-most-once under overlapping polls.  The
    handler reads the marker SWAP_DONE of the payload before the first await
    of the saga and stores it only after the payment it submitted has come
    back.  A second poll of the same payload that reads the marker while the
    payment of the first is in flight finds none: both polls submit a
    payment and the ledger takes both (sequence numbers 7 and 8), both
    reply the issue as done with a transaction of their own, neither as
    done already, and the transfers table holds two rows.  The same two
    polls one after the other submit one payment. *)
Theorem overlapping_polls_issue_twice :
  tasks (fst overlapping_polls) = []
  /\ map fst (replies (fst overlapping_polls)) = [0%nat; 1%nat]
  /\ map issue_reported (replies (fst overlapping_polls))
     = [Some (Some "HASH-7", false); Some (Some "HASH-8", false)]
  /\ submitted Issue (snd overlapping_polls) = 2%nat
  /\ accepted Issue (snd overlapping_polls) = 2%nat
  /\ map tr_txid (transfers (shared (fst overlapping_polls))) = ["HASH-7"; "HASH-8"]
  /\ submitted Issue
       (fst (polls Scenarios.issuer sequenced_ledger "UUID-1" 2 [] (Scenarios.swap_db [])))
     = 1%nat.
Proof. vm_compute. repeat split. Qed.

End RaceFacts.

(** ** Integers in binary64 *)

Module BinaryFacts.
Import Float64 IntegerForms OrderTotal64.


Lemma shl_S m n : shl m (S n) = xO (shl m n).
Proof. reflexivity. Qed.

Lemma shl_add m a b : shl (shl m a) b = shl m (a + b).
Proof.
  unfold shl. rewrite (Nat.add_comm a b), Nat.iter_add. reflexivity.
Qed.

Lemma shl_value m n : Zpos (shl m n) = Zpos m * 2 ^ Z.of_nat n.
Proof.
  induction n as [|n IH]; [cbn; lia|].
  rewrite shl_S, (Pos2Z.inj_xO (shl m n)), IH, Nat2Z.inj_succ, Z.pow_succ_r by lia. lia.
Qed.

Lemma shl_digits m n :
  Zpos (digits2_pos (shl m n)) = Zpos (digits2_pos m) + Z.of_nat n.
Proof.
  induction n as [|n IH]; [cbn; lia|].
  rewrite shl_S. cbn [digits2_pos]. rewrite Pos2Z.inj_succ, IH. lia.
Qed.

Lemma iter_xO m d : Pos.iter xO m d = shl m (Pos.to_nat d).
Proof. unfold shl. apply Pos2Nat.inj_iter. Qed.

Lemma iter_pos_nat {A} (f : A -> A) n : forall x,
  SpecFloat.iter_pos f n x = Nat.iter (Pos.to_nat n) f x.
Proof.
  induction n as [n IH|n IH|]; intros x; cbn [SpecFloat.iter_pos].
  - rewrite !IH, Pos2Nat.inj_xI, <- Nat.iter_add, <- Nat.iter_succ_r.
    f_equal. lia.
  - rewrite !IH, Pos2Nat.inj_xO, <- Nat.iter_add. f_equal. lia.
  - reflexivity.
Qed.

Lemma shr_exact m n :
  Nat.iter n shr_1 {| shr_m := Zpos (shl m n); shr_r := false; shr_s := false |}
  = {| shr_m := Zpos m; shr_r := false; shr_s := false |}.
Proof.
  induction n as [|n IH]; [reflexivity|].
  rewrite Nat.iter_succ_r, shl_S. cbn [shr_1 orb]. exact IH.
Qed.

(** The digits of a positive number. *)
Lemma digits_bounds p :
  2 ^ (Zpos (digits2_pos p) - 1) <= Zpos p < 2 ^ Zpos (digits2_pos p).
Proof.
  induction p as [p IH|p IH|]; cbn [digits2_pos]; [| |cbn; lia].
  - rewrite Pos2Z.inj_succ, (Pos2Z.inj_xI p).
    replace (Z.succ (Zpos (digits2_pos p)) - 1) with (Z.succ (Zpos (digits2_pos p) - 1)) by lia.
    rewrite !Z.pow_succ_r by lia.
    revert IH. generalize (2 ^ (Zpos (digits2_pos p) - 1)) (2 ^ Zpos (digits2_pos p)). intros; lia.
  - rewrite Pos2Z.inj_succ, (Pos2Z.inj_xO p).
    replace (Z.succ (Zpos (digits2_pos p)) - 1) with (Z.succ (Zpos (digits2_pos p) - 1)) by lia.
    rewrite !Z.pow_succ_r by lia.
    revert IH. generalize (2 ^ (Zpos (digits2_pos p) - 1)) (2 ^ Zpos (digits2_pos p)). intros; lia.
Qed.

Lemma digits_le p n : Zpos p < 2 ^ n -> 0 <= n -> Zpos (digits2_pos p) <= n.
Proof.
  intros Hp Hn. destruct (Z.le_gt_cases (Zpos (digits2_pos p)) n) as [|Hgt]; [assumption|].
  pose proof (digits_bounds p) as [Hlo _].
  assert (2 ^ n <= 2 ^ (Zpos (digits2_pos p) - 1)) by (apply Z.pow_le_mono_r; lia).
  lia.
Qed.

(** A mantissa of 53 digits followed by [j] zeros, at an exponent in
    range, rounds to itself. *)
Lemma round_exact s m j e :
  Zpos (digits2_pos m) = 53 -> -1074 <= e <= 971 ->
  binary_round_aux prec emax s (Zpos (shl m j)) (e - Z.of_nat j) loc_Exact
  = S754_finite s m e.
Proof.
  intros Hd He.
  assert (Hf : forall d, d = 53 + e -> fexp prec emax d = e).
  { intros d ->. unfold fexp, emin, prec, emax. lia. }
  unfold binary_round_aux, shr_fexp. cbn [Zdigits2 shr_record_of_loc].
  rewrite shl_digits, Hd, (Hf (53 + Z.of_nat j + (e - Z.of_nat j))) by lia.
  replace (e - (e - Z.of_nat j)) with (Z.of_nat j) by lia.
  assert (Hshr : shr {| shr_m := Zpos (shl m j); shr_r := false; shr_s := false |}
                   (e - Z.of_nat j) (Z.of_nat j)
                 = ({| shr_m := Zpos m; shr_r := false; shr_s := false |}, e)).
  { unfold shr. destruct (Z.of_nat j) as [|p|p] eqn:Hp; [| |lia].
    - assert (j = 0%nat) as -> by lia. cbn [shl Nat.iter]. f_equal. lia.
    - rewrite iter_pos_nat. assert (Pos.to_nat p = j) as -> by lia.
      rewrite shr_exact. f_equal. lia. }
  rewrite Hshr. cbn [shr_m loc_of_shr_record round_nearest_even Zdigits2 shr_record_of_loc].
  rewrite Hd, (Hf (53 + e)) by lia. rewrite Z.sub_diag. cbn [shr shr_m].
  unfold prec, emax. destruct (Z.leb_spec e (1024 - 53)); [reflexivity|lia].
Qed.



Lemma digits_Z v : Z.of_nat (digits v) = Zpos (digits2_pos v).
Proof. unfold digits. apply positive_nat_Z. Qed.


Lemma shl_53 v : (digits v <= 53)%nat -> Zpos (digits2_pos (shl v (53 - digits v))) = 53.
Proof. intros H. rewrite shl_digits, <- digits_Z. lia. Qed.

Lemma digits_pos v : (1 <= digits v)%nat.
Proof. unfold digits. lia. Qed.

Lemma round_aux_any s v k :
  (digits v <= 53)%nat -> (53 <= digits v + k)%nat ->
  binary_round_aux prec emax s (Zpos (shl v k)) (- Z.of_nat k) loc_Exact = canon s v.
Proof.
  intros Hd Hk. pose proof (digits_pos v).
  replace k with ((53 - digits v) + (digits v + k - 53))%nat at 1 by lia.
  rewrite <- shl_add.
  replace (- Z.of_nat k)
    with ((Z.of_nat (digits v) - 53) - Z.of_nat (digits v + k - 53)) by lia.
  apply round_exact; [apply shl_53; exact Hd|lia].
Qed.

Lemma round_any s v k :
  (digits v <= 53)%nat ->
  binary_round prec emax s (shl v k) (- Z.of_nat k) = canon s v.
Proof.
  intros Hd. pose proof (digits_pos v).
  unfold binary_round, shl_align.
  rewrite shl_digits, <- digits_Z.
  assert (Hf : fexp prec emax (Z.of_nat (digits v) + Z.of_nat k + - Z.of_nat k)
               = Z.of_nat (digits v) - 53).
  { unfold fexp, emin, prec, emax. lia. }
  rewrite Hf.
  destruct (Z.of_nat (digits v) - 53 - - Z.of_nat k) as [|p|p] eqn:Hp.
  - apply round_aux_any; [exact Hd|lia].
  - apply round_aux_any; [exact Hd|lia].
  - rewrite iter_xO, shl_add.
    replace (k + Pos.to_nat p)%nat with (53 - digits v)%nat by lia.
    replace (Z.of_nat (digits v) - 53)
      with ((Z.of_nat (digits v) - 53) - Z.of_nat 0) by lia.
    change (shl v (53 - digits v)) with (shl (shl v (53 - digits v)) 0) at 1.
    rewrite round_exact; [reflexivity|apply shl_53; exact Hd|lia].
Qed.


Lemma magnitude_value z : z <> 0 -> Zpos (magnitude z) = Z.abs z.
Proof. intros H. unfold magnitude. rewrite Z2Pos.id; lia. Qed.

Lemma digits_small v : Zpos v < 2 ^ 53 -> (digits v <= 53)%nat.
Proof.
  intros H. pose proof (digits_le v 53 H ltac:(lia)). rewrite <- digits_Z in *. lia.
Qed.

Lemma ofZ_canon z :
  z <> 0 -> Z.abs z < 2 ^ 53 -> ofZ z = canon (negative z) (magnitude z).
Proof.
  intros Hz Hb.
  assert (Hd : (digits (magnitude z) <= 53)%nat).
  { apply digits_small. rewrite magnitude_value by exact Hz. exact Hb. }
  unfold ofZ, binary_normalize, negative, magnitude.
  destruct z as [|p|p]; [congruence| |].
  - change (binary_round prec emax false p 0)
      with (binary_round prec emax false (shl p 0) (- Z.of_nat 0)).
    apply (round_any false p 0 Hd).
  - change (binary_round prec emax true p 0)
      with (binary_round prec emax true (shl p 0) (- Z.of_nat 0)).
    apply (round_any true p 0 Hd).
Qed.


Lemma ofZ_0 : ofZ 0 = S754_zero false.
Proof. reflexivity. Qed.

Lemma canon_value v :
  (digits v <= 53)%nat ->
  Zpos (shl v (53 - digits v)) = Zpos v * 2 ^ (53 - Z.of_nat (digits v)).
Proof. intros H. rewrite shl_value. f_equal. f_equal. lia. Qed.

(** An integer of at most 53 digits followed by [k] zeros normalizes to
    the number of the integer. *)
Lemma normalize_shifted z k :
  Z.abs z < 2 ^ 53 ->
  binary_normalize prec emax (z * 2 ^ Z.of_nat k) (- Z.of_nat k) false = ofZ z.
Proof.
  intros Hb.
  destruct (Z.eq_dec z 0) as [->|Hz]; [reflexivity|].
  rewrite (ofZ_canon z Hz Hb).
  assert (Hd : (digits (magnitude z) <= 53)%nat).
  { apply digits_small. rewrite magnitude_value by exact Hz. exact Hb. }
  pose proof (magnitude_value z Hz) as Hm.
  assert (Hpow : 0 < 2 ^ Z.of_nat k) by (apply Z.pow_pos_nonneg; lia).
  unfold binary_normalize, negative.
  destruct (z * 2 ^ Z.of_nat k) as [|M|M] eqn:HM.
  - exfalso. apply Z.mul_eq_0 in HM. lia.
  - assert (0 < z) by nia.
    assert (M = shl (magnitude z) k) as ->.
    { apply Pos2Z.inj. rewrite shl_value, Hm, <- HM. f_equal. lia. }
    destruct (Z.ltb_spec z 0); [lia|]. apply round_any. exact Hd.
  - assert (z < 0) by nia.
    assert (M = shl (magnitude z) k) as ->.
    { apply Pos2Z.inj. rewrite shl_value, Hm.
      assert (Zpos M = - z * 2 ^ Z.of_nat k) by lia.
      rewrite H0. f_equal. lia. }
    destruct (Z.ltb_spec z 0); [|lia]. apply round_any. exact Hd.
Qed.

Lemma shl_align_value m e e' :
  e' <= e -> Zpos (fst (shl_align m e e')) = Zpos m * 2 ^ (e - e').
Proof.
  intros H. unfold shl_align.
  destruct (e' - e) as [|d|d] eqn:Hd; cbn [fst].
  - replace (e - e') with 0 by lia. lia.
  - lia.
  - rewrite iter_xO, shl_value. f_equal. f_equal. lia.
Qed.

Lemma cond_Zopp_negative z c :
  z <> 0 -> cond_Zopp (negative z) (Z.abs z * c) = z * c.
Proof.
  intros Hz. unfold cond_Zopp, negative.
  destruct (Z.ltb_spec z 0); lia.
Qed.

(** The sum of two integers, when it fits. *)
Lemma add_exact a b :
  a <> 0 -> b <> 0 ->
  Z.abs a < 2 ^ 53 -> Z.abs b < 2 ^ 53 -> Z.abs (a + b) < 2 ^ 53 ->
  add (ofZ a) (ofZ b) = ofZ (a + b).
Proof.
  intros Ha Hb Ba Bb Bs.
  rewrite (ofZ_canon a Ha Ba), (ofZ_canon b Hb Bb).
  assert (Da : (digits (magnitude a) <= 53)%nat).
  { apply digits_small. rewrite magnitude_value by exact Ha. exact Ba. }
  assert (Db : (digits (magnitude b) <= 53)%nat).
  { apply digits_small. rewrite magnitude_value by exact Hb. exact Bb. }
  pose proof (digits_pos (magnitude a)). pose proof (digits_pos (magnitude b)).
  unfold add, SFadd, canon.
  set (ea := Z.of_nat (digits (magnitude a)) - 53).
  set (eb := Z.of_nat (digits (magnitude b)) - 53).
  set (ez := Z.min ea eb).
  rewrite !shl_align_value by (subst ez; lia).
  rewrite !canon_value by assumption.
  rewrite !magnitude_value by assumption.
  rewrite <- !Z.mul_assoc, <- !Z.pow_add_r by (subst ez ea eb; lia).
  rewrite !cond_Zopp_negative by assumption.
  replace (53 - Z.of_nat (digits (magnitude a)) + (ea - ez)) with (- ez) by (subst ea; lia).
  replace (53 - Z.of_nat (digits (magnitude b)) + (eb - ez)) with (- ez) by (subst eb; lia).
  rewrite <- Z.mul_add_distr_r.
  replace (- ez) with (Z.of_nat (Z.to_nat (- ez))) by (subst ez ea eb; lia).
  replace ez with (- Z.of_nat (Z.to_nat (- ez))) at 2 by (subst ez ea eb; lia).
  apply normalize_shifted. exact Bs.
Qed.

Lemma digits_mul va vb :
  (digits va + digits vb <= digits (va * vb) + 1)%nat.
Proof.
  pose proof (digits_bounds va) as [La _]. pose proof (digits_bounds vb) as [Lb _].
  pose proof (digits_bounds (va * vb)) as [_ U].
  rewrite <- !digits_Z in *. rewrite Pos2Z.inj_mul in U.
  pose proof (digits_pos va). pose proof (digits_pos vb).
  assert (Hp : 2 ^ (Z.of_nat (digits va) - 1 + (Z.of_nat (digits vb) - 1))
               < 2 ^ Z.of_nat (digits (va * vb))).
  { rewrite Z.pow_add_r by lia.
    eapply Z.le_lt_trans; [|exact U].
    apply Z.mul_le_mono_nonneg; try assumption; apply Z.pow_nonneg; lia. }
  apply Z.pow_lt_mono_r_iff in Hp; lia.
Qed.

(** The product of two integers, when it fits. *)
Lemma mul_exact a b :
  a <> 0 -> b <> 0 -> Z.abs (a * b) < 2 ^ 53 ->
  mul (ofZ a) (ofZ b) = ofZ (a * b).
Proof.
  intros Ha Hb Bp.
  assert (Ba : Z.abs a < 2 ^ 53) by nia.
  assert (Bb : Z.abs b < 2 ^ 53) by nia.
  assert (Hab : a * b <> 0) by nia.
  rewrite (ofZ_canon a Ha Ba), (ofZ_canon b Hb Bb), (ofZ_canon (a * b) Hab Bp).
  assert (Da : (digits (magnitude a) <= 53)%nat).
  { apply digits_small. rewrite magnitude_value by exact Ha. exact Ba. }
  assert (Db : (digits (magnitude b) <= 53)%nat).
  { apply digits_small. rewrite magnitude_value by exact Hb. exact Bb. }
  assert (Hm : magnitude (a * b) = (magnitude a * magnitude b)%positive).
  { apply Pos2Z.inj. rewrite Pos2Z.inj_mul, !magnitude_value by assumption.
    apply Z.abs_mul. }
  assert (Dp : (digits (magnitude a * magnitude b) <= 53)%nat).
  { rewrite <- Hm. apply digits_small. rewrite magnitude_value by exact Hab. exact Bp. }
  pose proof (digits_mul (magnitude a) (magnitude b)) as Hdm.
  assert (Hs : negative (a * b) = xorb (negative a) (negative b)).
  { unfold negative.
    destruct (Z.ltb_spec a 0), (Z.ltb_spec b 0), (Z.ltb_spec (a * b) 0);
      try reflexivity; nia. }
  unfold mul, SFmul, canon. rewrite Hs, Hm.
  set (K := (106 - digits (magnitude a) - digits (magnitude b))%nat).
  assert (HM : (shl (magnitude a) (53 - digits (magnitude a))
                * shl (magnitude b) (53 - digits (magnitude b)))%positive
               = shl (magnitude a * magnitude b) K).
  { apply Pos2Z.inj. rewrite Pos2Z.inj_mul, !shl_value, Pos2Z.inj_mul.
    subst K.
    replace (Z.of_nat (106 - digits (magnitude a) - digits (magnitude b)))
      with (Z.of_nat (53 - digits (magnitude a)) + Z.of_nat (53 - digits (magnitude b)))
      by lia.
    rewrite Z.pow_add_r by lia. ring. }
  rewrite HM.
  replace (Z.of_nat (digits (magnitude a)) - 53 + (Z.of_nat (digits (magnitude b)) - 53))
    with (- Z.of_nat K) by (subst K; lia).
  apply round_aux_any; [exact Dp|subst K; lia].
Qed.

End BinaryFacts.

(** ** AI-order: the total of a cart in binary64 *)

Module TotalFacts.
Import JS Float64 IntegerForms OrderTotal64 BinaryFacts.

Lemma ofZ_finite z :
  z <> 0 -> Z.abs z < 2 ^ 53 -> exists m e, ofZ z = S754_finite (negative z) m e.
Proof. intros Hz Hb. rewrite (ofZ_canon z Hz Hb). unfold canon. eauto. Qed.

(** [it.qty || 1] of a line of the integer model. *)
Lemma quantity_of_line it :
  match AiOrder.qty it with Some q => Z.abs q <= 2147483648 | None => True end ->
  (if q_truthy (line_qty (line_of it)) then q_number (line_qty (line_of it)) else ofZ 1)
  = ofZ (AiOrder.qty_or_1 it)
  /\ AiOrder.qty_or_1 it <> 0
  /\ Z.abs (AiOrder.qty_or_1 it) <= 2147483648.
Proof.
  unfold line_of, AiOrder.qty_or_1, truthyZ. cbn [line_qty].
  destruct (AiOrder.qty it) as [q|]; [|intros _; cbn; repeat split; lia].
  intros Hq. destruct (Z.eqb_spec q 0) as [->|Hne]; cbn [negb].
  - cbn. repeat split; lia.
  - destruct (ofZ_finite q Hne ltac:(lia)) as (m & e & E).
    cbn [q_truthy q_number]. rewrite E. cbn. rewrite <- E. repeat split; lia.
Qed.

Lemma price_small id :
  0 <= match AiOrder.products id with Some p => AiOrder.price p | None => 0 end <= 2.
Proof.
  unfold AiOrder.products.
  destruct (id =? 1); [cbn; lia|]. destruct (id =? 2); [cbn; lia|].
  destruct (id =? 3); cbn; lia.
Qed.

(** A sum that stays an integer below 2^53. *)
Lemma add_line n q p :
  Z.abs n < 2 ^ 53 -> q <> 0 -> Z.abs q <= 2147483648 -> 0 <= p <= 2 ->
  Z.abs (n + q * p) < 2 ^ 53 ->
  add (ofZ n) (mul (ofZ q) (ofZ p)) = ofZ (n + q * p).
Proof.
  intros Hn Hq Bq Hp Hs.
  assert (Bq' : Z.abs q < 2 ^ 53) by (change (2 ^ 53) with 9007199254740992; lia).
  destruct (Z.eq_dec p 0) as [->|Hp0].
  - destruct (ofZ_finite q Hq Bq') as (m & e & ->).
    rewrite Z.mul_0_r, Z.add_0_r. change (ofZ 0) with (S754_zero false).
    cbn [mul SFmul xorb].
    destruct (Z.eq_dec n 0) as [->|Hn0].
    + destruct (negative q); reflexivity.
    + destruct (ofZ_finite n Hn0 Hn) as (m' & e' & ->). reflexivity.
  - assert (Bp : Z.abs (q * p) < 2 ^ 53) by (change (2 ^ 53) with 9007199254740992; nia).
    rewrite (mul_exact q p Hq Hp0 Bp).
    assert (Hqp : q * p <> 0) by nia.
    destruct (Z.eq_dec n 0) as [->|Hn0].
    + destruct (ofZ_finite (q * p) Hqp Bp) as (m & e & E). rewrite E.
      cbn. rewrite <- E. reflexivity.
    + apply add_exact; assumption.
Qed.

Lemma total_exact_from items : forall n,
  Z.abs n + Z.of_nat (length items) * 4294967296 < 2 ^ 53 ->
  Forall (fun it => match AiOrder.qty it with
                    | Some q => Z.abs q <= 2147483648
                    | None => True
                    end) items ->
  fold_left (fun sum i => add sum (line_total i)) (map line_of items) (ofZ n)
  = ofZ (fold_left (fun sum i =>
                      sum + AiOrder.qty_or_1 i *
                            match AiOrder.products (AiOrder.product_id i) with
                            | Some p => AiOrder.price p
                            | None => 0
                            end) items n).
Proof.
  induction items as [|it rest IH]; intros n Hn Hall; [reflexivity|].
  inversion Hall as [|? ? Hit Hrest]; subst.
  cbn [map fold_left length] in *.
  destruct (quantity_of_line it Hit) as (Eq & Hq0 & Bq).
  pose proof (price_small (AiOrder.product_id it)) as Hp.
  unfold line_total at 2. rewrite Eq. cbn [line_product_id line_of].
  set (p := match AiOrder.products (AiOrder.product_id it) with
            | Some p => AiOrder.price p
            | None => 0
            end) in *.
  assert (Hstep : Z.abs (n + AiOrder.qty_or_1 it * p) <= Z.abs n + 4294967296) by nia.
  rewrite add_line; try assumption; [|lia|lia].
  apply IH; [lia|assumption].
Qed.

(** On a cart in range, the total in binary64 is the integer total. *)
Lemma total_exact items :
  in_range items ->
  calcOrderTotal (map line_of items) = ofZ (AiOrder.calcOrderTotal items)
  /\ Z.abs (AiOrder.calcOrderTotal items) < 2 ^ 53.
Proof.
  intros [Hlen Hall]. unfold calcOrderTotal, AiOrder.calcOrderTotal.
  split.
  - apply total_exact_from; [|exact Hall].
    change (2 ^ 53) with 9007199254740992. lia.
  - assert (Hb : forall its n,
               Forall (fun it => match AiOrder.qty it with
                                 | Some q => Z.abs q <= 2147483648
                                 | None => True
                                 end) its ->
               Z.abs (fold_left (fun sum i =>
                                   sum + AiOrder.qty_or_1 i *
                                         match AiOrder.products (AiOrder.product_id i) with
                                         | Some p => AiOrder.price p
                                         | None => 0
                                         end) its n)
               <= Z.abs n + Z.of_nat (length its) * 4294967296).
    { induction its as [|it rest IH]; intros n Hf; cbn [fold_left length]; [lia|].
      inversion Hf as [|? ? Hit Hrest]; subst.
      destruct (quantity_of_line it Hit) as (_ & _ & Bq).
      pose proof (price_small (AiOrder.product_id it)) as Hp.
      specialize (IH (n + AiOrder.qty_or_1 it *
                          match AiOrder.products (AiOrder.product_id it) with
                          | Some p => AiOrder.price p
                          | None => 0
                          end) Hrest).
      nia. }
    specialize (Hb items 0 Hall). change (2 ^ 53) with 9007199254740992.
    cbn [Z.abs] in Hb. lia.
Qed.

(** The test [total <= 0] on the number of an integer. *)
Lemma invalid_total_ofZ n :
  Z.abs n < 2 ^ 53 -> invalid_total (ofZ n) = (n <=? 0).
Proof.
  intros Hb. unfold invalid_total, Float64.leb.
  destruct (Z.eq_dec n 0) as [->|Hn]; [reflexivity|].
  destruct (ofZ_finite n Hn Hb) as (m & e & ->). unfold negative.
  change (ofZ 0) with (S754_zero false).
  destruct (Z.ltb_spec n 0), (Z.leb_spec n 0); try lia; reflexivity.
Qed.

Lemma total_stays_nan items :
  fold_left (fun sum i => add sum (line_total i)) items S754_nan = S754_nan.
Proof. induction items as [|i rest IH]; [reflexivity|exact IH]. Qed.

Lemma add_nan_r x : add x S754_nan = S754_nan.
Proof. destruct x; reflexivity. Qed.

Lemma mul_nan_l y : mul S754_nan y = S754_nan.
Proof. reflexivity. Qed.

(** A quantity that is not a number makes the total NaN. *)
Lemma total_nan items :
  Exists (fun i => q_truthy (line_qty i) = true /\ q_number (line_qty i) = S754_nan) items ->
  calcOrderTotal items = S754_nan.
Proof.
  intros Hex. unfold calcOrderTotal. generalize (ofZ 0).
  induction Hex as [i rest [Ht Hn]|i rest _ IH]; intros sum; cbn [fold_left].
  - unfold line_total. rewrite Ht, Hn, mul_nan_l, add_nan_r. apply total_stays_nan.
  - apply IH.
Qed.

End TotalFacts.

(** ** AI-order: verification, the job, creation, the sweep *)

Module OrderExtras.
Import JS Async AiOrder OrderObserve OrderObserveMore.
Import Float64 OrderTotal64.
Local Open Scope prog_scope.

Section Server.
Variables (STORE_ADDRESS RLUSD_ISSUER RLUSD_CURRENCY KFD_MPT_ISSUANCE_ID : string).
Variables (ORDER_TTL_MS CREATE_ORDER_CACHE_MS TRUSTLINE_CACHE_MS TX_CACHE_TTL : Z).
Implicit Types (w : World) (h t : list Event) (s : State).

#[local] Abbreviation run := (exec promise_of).
#[local] Abbreviation verifyPaymentTx :=
  (AiOrder.verifyPaymentTx STORE_ADDRESS RLUSD_ISSUER RLUSD_CURRENCY KFD_MPT_ISSUANCE_ID).
#[local] Abbreviation check_amount :=
  (AiOrder.check_amount RLUSD_ISSUER RLUSD_CURRENCY KFD_MPT_ISSUANCE_ID).
#[local] Abbreviation pays :=
  (OrderObserveMore.pays STORE_ADDRESS RLUSD_ISSUER RLUSD_CURRENCY KFD_MPT_ISSUANCE_ID).
#[local] Abbreviation amount_pays :=
  (OrderObserveMore.amount_pays RLUSD_ISSUER RLUSD_CURRENCY KFD_MPT_ISSUANCE_ID).
#[local] Abbreviation buy_status :=
  (AiOrder.buy_status STORE_ADDRESS RLUSD_ISSUER RLUSD_CURRENCY KFD_MPT_ISSUANCE_ID).
#[local] Abbreviation buy_finish :=
  (AiOrder.buy_finish STORE_ADDRESS RLUSD_ISSUER RLUSD_CURRENCY KFD_MPT_ISSUANCE_ID).
#[local] Abbreviation buy_job :=
  (AiOrder.buy_job STORE_ADDRESS RLUSD_ISSUER RLUSD_CURRENCY KFD_MPT_ISSUANCE_ID).
#[local] Abbreviation sweep :=
  (AiOrder.sweep ORDER_TTL_MS CREATE_ORDER_CACHE_MS TRUSTLINE_CACHE_MS TX_CACHE_TTL).
#[local] Abbreviation create_order :=
  (AiOrder.create_order STORE_ADDRESS RLUSD_ISSUER RLUSD_CURRENCY KFD_MPT_ISSUANCE_ID
     CREATE_ORDER_CACHE_MS TRUSTLINE_CACHE_MS).
#[local] Abbreviation checkStoreRlusdTrustLine :=
  (AiOrder.checkStoreRlusdTrustLine STORE_ADDRESS RLUSD_ISSUER RLUSD_CURRENCY
     TRUSTLINE_CACHE_MS).

(** *** [verifyPaymentTx] *)

Lemma check_amount_ok amt total m :
  verdict_ok (check_amount amt total m) = true <-> amount_pays m total amt.
Proof.
  unfold AiOrder.check_amount, OrderObserveMore.amount_pays.
  destruct m, amt as [[a|o|]|]; cbn; try (split; [discriminate|contradiction]).
  - (* mpt *)
    destruct (String.eqb_spec (safeUpper (amt_mpt_issuance_id o)) KFD_MPT_ISSUANCE_ID);
      cbn; [|split; [discriminate|intros [? _]; contradiction]].
    destruct (String.eqb_spec (str_or_empty (amt_value o)) (pretty total));
      cbn; [|split; [discriminate|intros [_ ?]; contradiction]].
    split; auto.
  - (* xrp *)
    destruct (String.eqb_spec a (pretty (total * 1000000))); cbn; [split; auto|].
    split; [discriminate|contradiction].
  - (* rlusd *)
    destruct (String.eqb_spec (safeUpper (amt_currency o)) (safeUpper (Some RLUSD_CURRENCY)));
      cbn; [|split; [discriminate|intros [? _]; contradiction]].
    destruct (String.eqb_spec (trim (str_or_empty (or_else (amt_issuer o) None))) RLUSD_ISSUER);
      cbn; [|split; [discriminate|intros (_ & ? & _); contradiction]].
    destruct (String.eqb_spec (str_or_empty (amt_value o)) (pretty total));
      cbn; [|split; [discriminate|intros (_ & _ & ?); contradiction]].
    split; auto.
Qed.

Lemma verifyPaymentTx_run w txid expectedBuyer expectedTotal m h s :
  exists v,
    run w (verifyPaymentTx txid expectedBuyer expectedTotal m) h s
    = (Returned v, (h ++ [Ev (RequestTx txid) (answer w _ (RequestTx txid) h)])%list, s)
    /\ (verdict_ok v = true <->
        exists tx, answer w _ (RequestTx txid) h = Fulfilled (Some tx)
                   /\ pays expectedBuyer expectedTotal m tx).
Proof.
  unfold AiOrder.verifyPaymentTx, capture. rewrite exec_bind, exec_try_catch, exec_bind.
  cbn [await exec].
  destruct (answer w _ (RequestTx txid) h) as [[tx|]|e] eqn:Ha; cbn [settle exec fst snd].
  2:{ eexists. split; [reflexivity|]. split; [discriminate|intros (tx & [=] & _)]. }
  2:{ eexists. split; [reflexivity|]. split; [discriminate|intros (tx & [=] & _)]. }
  assert (Hno : forall v : Verdict, verdict_ok v = false ->
            ~ pays expectedBuyer expectedTotal m tx ->
            verdict_ok v = true <->
            exists tx0, Fulfilled (E := Error) (Some tx) = Fulfilled (Some tx0)
                        /\ pays expectedBuyer expectedTotal m tx0).
  { intros v Hv Hn. rewrite Hv. split; [discriminate|]. intros (tx0 & [= <-] & Hp).
    contradiction. }
  unfold OrderObserveMore.pays in *.
  destruct (validated tx) as [[|]|] eqn:Hval; cbn [exec].
  2:{ eexists. split; [reflexivity|]. apply Hno; [reflexivity|]. intros (Hv & _). congruence. }
  all: destruct (TransactionType tx) as [ty|] eqn:Hty;
    [destruct (String.eqb_spec ty "Payment") as [->|Hne]|]; cbn [negb exec];
    try (eexists; split; [reflexivity|]; apply Hno; [reflexivity|];
         intros (_ & Hp & _); congruence).
  all: destruct expectedBuyer as [b|];
    [destruct (String.eqb_spec (trim (str_or_empty (or_else (Account tx) None))) b) as [<-|Hb]|];
    cbn [negb exec];
    try (eexists; split; [reflexivity|]; apply Hno; [reflexivity|];
         intros (_ & _ & Hp & _); congruence).
  all: destruct (String.eqb_spec (trim (str_or_empty (or_else (Destination tx) None)))
                   STORE_ADDRESS) as [Hd|Hd]; cbn [negb exec];
    try (eexists; split; [reflexivity|]; apply Hno; [reflexivity|];
         intros (_ & _ & _ & Hp & _); congruence).
  all: destruct (meta_TransactionResult tx) as [rc|] eqn:Hrc; cbn [truthy negb exec str_or_empty];
    try (eexists; split; [reflexivity|]; apply Hno; [reflexivity|];
         intros (_ & _ & _ & _ & Hp & _); congruence).
  all: destruct (String.eqb_spec rc "") as [->|Hrc0]; cbn [negb exec];
    try (eexists; split; [reflexivity|]; apply Hno; [reflexivity|];
         intros (_ & _ & _ & _ & Hp & _); congruence).
  all: destruct (String.eqb_spec rc "tesSUCCESS") as [->|Hrc1]; cbn [negb exec];
    try (eexists; split; [reflexivity|]; apply Hno; [reflexivity|];
         intros (_ & _ & _ & _ & Hp & _); congruence).
  all: eexists; (split; [reflexivity|]); rewrite check_amount_ok; split.
  all: try (intros Hamt; exists tx; split; [reflexivity|];
            repeat apply conj; try reflexivity; try assumption; try discriminate).
  all: try (intros (tx0 & [= <-] & Hp); apply Hp).
  all: rewrite Hval; discriminate.
Qed.

(** X14: The verification asks the ledger for the transaction exactly once,
    never throws and changes nothing.  Its verdict is [ok] exactly when the
    ledger returned a transaction that is a Payment, is not reported as
    unvalidated, comes from the expected buyer, goes to the store, carries
    the result [tesSUCCESS] and an amount equal to the expected total in the
    asset of the payment method. *)
Theorem verification_accepts_exactly_matching_payments
    w txid expectedBuyer expectedTotal m h s :
  exists v r,
    run w (verifyPaymentTx txid expectedBuyer expectedTotal m) h s
    = (Returned v, (h ++ [Ev (RequestTx txid) r])%list, s)
    /\ (verdict_ok v = true <->
        exists tx, r = Fulfilled (Some tx) /\ pays expectedBuyer expectedTotal m tx).
Proof.
  destruct (verifyPaymentTx_run w txid expectedBuyer expectedTotal m h s) as (v & E & Hv).
  exists v, (answer w _ (RequestTx txid) h). split; assumption.
Qed.

(** *** The verification-and-mint job *)

Lemma read_order_run w ref h s :
  run w (read_order ref) h s
  = (match orderObjects s !! ref with
     | Some o => Returned o
     | None => Thrown (plain_error "no such object")
     end, h, s).
Proof. unfold read_order. cbn. destruct (orderObjects s !! ref); reflexivity. Qed.


(** X15: The job asks the ledger to mint, reports success, or marks the
    transaction as processed only after the ledger returned, for the
    transaction id of the poll, a payment that matches the order: its pinned
    buyer, the store, its total in the asset of its payment method. *)
Theorem job_acts_only_on_a_verified_payment order buyer txid w h s :
  exists out t s',
    run w (buy_job order buyer txid) h s = (out, (h ++ t)%list, s')
    /\ ((mint_submissions t <> 0%nat
         \/ (exists pm n q, out = Returned (Success pm n q))
         \/ processedTx s' <> processedTx s) ->
        exists o tx,
          orderObjects s !! order = Some o
          /\ In (Ev (RequestTx txid) (Fulfilled (Some tx))) t
          /\ pays (order_buyer o) (total o) (paymentMethod o) tx).
Proof.
  assert (Hquiet : forall (out : Outcome Error JobResult) t,
            mint_submissions t = 0%nat ->
            (forall pm n q, out <> Returned (Success pm n q)) ->
            (mint_submissions t <> 0%nat
             \/ (exists pm n q, out = Returned (Success pm n q))
             \/ processedTx s <> processedTx s) ->
            exists o tx,
              orderObjects s !! order = Some o
              /\ In (Ev (RequestTx txid) (Fulfilled (Some tx))) t
              /\ pays (order_buyer o) (total o) (paymentMethod o) tx).
  { intros out t Hm Hs [H|[(pm & n & q & H)|H]]; [congruence|exfalso; eapply Hs, H|congruence]. }
  unfold AiOrder.buy_job. rewrite exec_bind. cbn [await exec].
  destruct (answer w unit Connect h) as [[]|e0]; cbn [settle exec fst snd].
  2:{ eexists _, [_], s. split; [reflexivity|]. apply Hquiet; [reflexivity|discriminate]. }
  rewrite exec_bind, read_order_run.
  destruct (orderObjects s !! order) as [o|] eqn:Ho; cbn [fst snd].
  2:{ eexists _, [_], s. split; [reflexivity|]. apply Hquiet; [reflexivity|discriminate]. }
  rewrite exec_bind.
  destruct (verifyPaymentTx_run w txid (order_buyer o) (total o) (paymentMethod o)
              (h ++ [Ev Connect (Fulfilled tt)])%list s) as (v & E & Hv).
  rewrite E. cbn [fst snd].
  set (r := answer w _ (RequestTx txid) (h ++ [Ev Connect (Fulfilled tt)])%list) in *.
  destruct (verdict_ok v) eqn:Hok; cbn [negb].
  - destruct (proj1 Hv eq_refl) as (tx & Hr & Hp).
    match goal with |- context [run w ?q ?h2 s] =>
      destruct (@exec_extends _ _ _ _ promise_of _ w q h2 s) as [t' Ht'];
      destruct (run w q h2 s) as [[out hf] sf] end.
    cbn [fst snd] in Ht'. subst hf.
    exists out, ([Ev Connect (Fulfilled tt); Ev (RequestTx txid) r] ++ t')%list, sf.
    split; [rewrite <- !app_assoc; reflexivity|].
    intros _. exists o, tx. split; [reflexivity|]. split; [|exact Hp].
    rewrite Hr. cbn. auto.
  - rewrite exec_bind. cbn [await exec].
    match goal with |- context [answer w unit Disconnect ?hh] =>
      destruct (answer w unit Disconnect hh) as [[]|e1] end; cbn [settle exec fst snd].
    + destruct (match reason v with Some r0 => String.eqb r0 "not_validated_yet" | None => false end);
        cbn [exec]; (eexists _, [_; _; _], s; split; [rewrite <- !app_assoc; reflexivity|]);
        (apply Hquiet; [reflexivity|discriminate]).
    + eexists _, [_; _; _], s. split; [rewrite <- !app_assoc; reflexivity|].
      apply Hquiet; [reflexivity|discriminate].
Qed.











(** *** Creation *)

(** X17: The total of a cart and the test [total <= 0] of create-order, in
    binary64.  On a cart of whole quantities in range (at most 2^20 items,
    quantities within 2^31) the total the code computes is exactly the
    integer total, and the test fires exactly when that total is zero or
    negative; the order is then refused with status 500 and the code
    CREATE_ORDER_FAILED before anything is asked of the wallet service or
    the ledger, and nothing is stored.  A quantity that is not a number
    makes the total NaN whatever else the cart holds, and the test does not
    fire: the order is not refused as an invalid total. *)
Theorem order_total_in_binary64 :
  (forall items,
      in_range items ->
      OrderTotal64.calcOrderTotal (map line_of items) = ofZ (AiOrder.calcOrderTotal items)
      /\ invalid_total (OrderTotal64.calcOrderTotal (map line_of items))
         = (AiOrder.calcOrderTotal items <=? 0))
  /\ (forall items buyer pm w h s,
        in_range items ->
        invalid_total (OrderTotal64.calcOrderTotal (map line_of items)) = true ->
        exists msg,
          run w (create_order items buyer pm) h s
          = (Returned (Failure 500 msg (Some "CREATE_ORDER_FAILED")), h, s))
  /\ (forall lines,
        Exists (fun i => q_truthy (line_qty i) = true /\ q_number (line_qty i) = S754_nan)
          lines ->
        OrderTotal64.calcOrderTotal lines = S754_nan
        /\ invalid_total (OrderTotal64.calcOrderTotal lines) = false).
Proof.
  assert (Hexact : forall items,
            in_range items ->
            OrderTotal64.calcOrderTotal (map line_of items) = ofZ (AiOrder.calcOrderTotal items)
            /\ invalid_total (OrderTotal64.calcOrderTotal (map line_of items))
               = (AiOrder.calcOrderTotal items <=? 0)).
  { intros items Hr. destruct (TotalFacts.total_exact items Hr) as [E Hb].
    split; [exact E|]. rewrite E. apply TotalFacts.invalid_total_ofZ, Hb. }
  split; [exact Hexact|]. split.
  - intros items buyer pm w h s Hr Htest.
    destruct (Hexact items Hr) as [_ E]. rewrite E in Htest.
    unfold AiOrder.create_order. cbn [now bind exec].
    rewrite exec_try_catch, exec_bind. unfold normalizePaymentMethod.
    repeat match goal with
           | |- context [if String.eqb ?a ?b then _ else _] => destruct (String.eqb a b)
           end; cbn [exec fst snd]; rewrite ?Htest; cbn [exec fst snd];
      eexists; reflexivity.
  - intros lines Hex. rewrite (TotalFacts.total_nan lines Hex). split; reflexivity.
Qed.

(** *** The status poll *)

(** X18: A status poll asks the wallet service or the ledger, or changes the
    state, only for a payload that is registered with an order still open
    and has no stored completion.  Without a payload id it answers 400; a
    stored completion is replayed as it is; an unknown payload is answered
    [completed_or_expired]. *)
Theorem poll_acts_only_on_an_open_order w q h s :
  exists out t s',
    run w (buy_status q) h s = (out, (h ++ t)%list, s')
    /\ ((t <> [] \/ s' <> s) ->
        exists u ref o,
          q = Some u /\ u <> ""
          /\ completedByPayload s !! u = None
          /\ ordersByPaymentPayload s !! u = Some ref
          /\ orderObjects s !! ref = Some o /\ status o = Created)
    /\ (truthy q = false -> out = Returned (Failure 400 "Missing payload_uuid" None))
    /\ (forall u r stamp, q = Some u -> u <> "" ->
          completedByPayload s !! u = Some (r, stamp) ->
          out = Returned (Json (BBuy r None)))
    /\ (forall u, q = Some u -> u <> "" ->
          completedByPayload s !! u = None -> ordersByPaymentPayload s !! u = None ->
          out = Returned (Json BCompletedOrExpired)).
Proof.
  assert (Hstill : (([] : list Event) <> [] \/ s <> s) ->
            exists u ref o,
              q = Some u /\ u <> ""
              /\ completedByPayload s !! u = None
              /\ ordersByPaymentPayload s !! u = Some ref
              /\ orderObjects s !! ref = Some o /\ status o = Created).
  { intros [H|H]; exfalso; apply H; reflexivity. }
  assert (Hfin : forall (out : Outcome Error Reply) t s',
            ((t <> [] \/ s' <> s) ->
             exists u ref o,
               q = Some u /\ u <> ""
               /\ completedByPayload s !! u = None
               /\ ordersByPaymentPayload s !! u = Some ref
               /\ orderObjects s !! ref = Some o /\ status o = Created) ->
            (truthy q = false -> out = Returned (Failure 400 "Missing payload_uuid" None)) ->
            (forall u r stamp, q = Some u -> u <> "" ->
               completedByPayload s !! u = Some (r, stamp) ->
               out = Returned (Json (BBuy r None))) ->
            (forall u, q = Some u -> u <> "" ->
               completedByPayload s !! u = None -> ordersByPaymentPayload s !! u = None ->
               out = Returned (Json BCompletedOrExpired)) ->
            run w (buy_status q) h s = (out, (h ++ t)%list, s') ->
            exists out t s',
              run w (buy_status q) h s = (out, (h ++ t)%list, s')
              /\ ((t <> [] \/ s' <> s) ->
                  exists u ref o,
                    q = Some u /\ u <> ""
                    /\ completedByPayload s !! u = None
                    /\ ordersByPaymentPayload s !! u = Some ref
                    /\ orderObjects s !! ref = Some o /\ status o = Created)
              /\ (truthy q = false -> out = Returned (Failure 400 "Missing payload_uuid" None))
              /\ (forall u r stamp, q = Some u -> u <> "" ->
                    completedByPayload s !! u = Some (r, stamp) ->
                    out = Returned (Json (BBuy r None)))
              /\ (forall u, q = Some u -> u <> "" ->
                    completedByPayload s !! u = None -> ordersByPaymentPayload s !! u = None ->
                    out = Returned (Json BCompletedOrExpired))).
  { intros out t s' H1 H2 H3 H4 E. exists out, t, s'. auto. }
  destruct q as [u|].
  2:{ apply (Hfin (Returned (Failure 400 "Missing payload_uuid" None)) [] s);
        [exact Hstill|reflexivity|discriminate|discriminate|rewrite app_nil_r; reflexivity]. }
  destruct (String.eqb_spec u "") as [->|Hu].
  { apply (Hfin (Returned (Failure 400 "Missing payload_uuid" None)) [] s);
      [exact Hstill|reflexivity| | |rewrite app_nil_r; reflexivity].
    - intros u r stamp [= <-] Hne. contradiction.
    - intros u [= <-] Hne. contradiction. }
  assert (H2 : forall out : Outcome Error Reply,
            truthy (Some u) = false ->
            out = Returned (Failure 400 "Missing payload_uuid" None)).
  { intros out. cbn. destruct (String.eqb_spec u ""); [contradiction|discriminate]. }
  assert (Hstart : forall out hf sf,
            run w (match completedByPayload s !! u with
                   | Some (result, _) => Ret (Json (BBuy result None))
                   | None =>
                       match ordersByPaymentPayload s !! u with
                       | None => Ret (Json BCompletedOrExpired)
                       | Some order =>
                           match orderObjects s !! order with
                           | Some o =>
                               match status o with
                               | Completed =>
                                   match completedByPayload s !! u with
                                   | Some (result, _) => Ret (Json (BBuy result None))
                                   | None => Ret (Json BCompletedOrExpired)
                                   end
                               | Created => Throw (plain_error "open")
                               end
                           | None => Throw (plain_error "no such object")
                           end
                       end
                   end) h s = (Returned out, hf, sf) ->
            run w (buy_status (Some u)) h s = (Returned out, hf, sf)).
  { intros out hf sf. unfold AiOrder.buy_status. cbn [truthy negb str_or_empty].
    destruct (String.eqb_spec u ""); [contradiction|]. cbn [negb].
    rewrite exec_try_catch, exec_bind. cbn [get exec fst snd].
    destruct (completedByPayload s !! u) as [[r0 stamp0]|];
      [cbn [exec fst snd]; intros [= <- <- <-]; reflexivity|].
    destruct (ordersByPaymentPayload s !! u) as [ref|];
      [|cbn [exec fst snd]; intros [= <- <- <-]; reflexivity].
    rewrite exec_bind, read_order_run.
    destruct (orderObjects s !! ref) as [o|]; cbn [fst snd exec]; [|discriminate].
    destruct (status o); [discriminate|].
    cbn [exec fst snd]. intros [= <- <- <-]. reflexivity. }
  destruct (completedByPayload s !! u) as [[r0 stamp0]|] eqn:Hc.
  { apply (Hfin (Returned (Json (BBuy r0 None))) [] s);
      [exact Hstill|apply H2| | |rewrite app_nil_r; apply Hstart; reflexivity].
    - intros u' r stamp [= <-] _ Hx. rewrite Hc in Hx. injection Hx as <- _. reflexivity.
    - intros u' [= <-] _ Hx. rewrite Hc in Hx. discriminate Hx. }
  assert (H3 : forall (out : Outcome Error Reply) u' r stamp, Some u = Some u' -> u' <> "" ->
            completedByPayload s !! u' = Some (r, stamp) ->
            out = Returned (Json (BBuy r None))).
  { intros out u' r stamp [= <-] _ Hx. rewrite Hc in Hx. discriminate Hx. }
  destruct (ordersByPaymentPayload s !! u) as [ref|] eqn:Hr.
  2:{ apply (Hfin (Returned (Json BCompletedOrExpired)) [] s);
        [exact Hstill|apply H2|apply H3|reflexivity
        |rewrite app_nil_r; apply Hstart; reflexivity]. }
  assert (H4 : forall (out : Outcome Error Reply) u', Some u = Some u' -> u' <> "" ->
            completedByPayload s !! u' = None -> ordersByPaymentPayload s !! u' = None ->
            out = Returned (Json BCompletedOrExpired)).
  { intros out u' [= <-] _ _ Hx. rewrite Hr in Hx. discriminate Hx. }
  destruct (orderObjects s !! ref) as [o|] eqn:Ho.
  2:{ assert (E' : run w (buy_status (Some u)) h s
                   = (Returned (Failure 500 "no such object" None), h, s)).
      { unfold AiOrder.buy_status. cbn [truthy negb str_or_empty].
        destruct (String.eqb_spec u ""); [contradiction|]. cbn [negb].
        rewrite exec_try_catch, exec_bind. cbn [get exec fst snd]. rewrite Hc, Hr.
        rewrite exec_bind, read_order_run, Ho. reflexivity. }
      apply (Hfin (Returned (Failure 500 "no such object" None)) [] s);
        [exact Hstill|apply H2|apply H3|apply H4|rewrite app_nil_r; exact E']. }
  destruct (status o) eqn:Hst.
  2:{ apply (Hfin (Returned (Json BCompletedOrExpired)) [] s);
        [exact Hstill|apply H2|apply H3|apply H4|].
      rewrite app_nil_r. apply Hstart. reflexivity. }
  destruct (@exec_extends _ _ _ _ promise_of _ w (buy_status (Some u)) h s) as [t Ht].
  destruct (run w (buy_status (Some u)) h s) as [[out hf] sf] eqn:E.
  cbn [fst snd] in Ht. subst hf.
  apply (Hfin out t sf); [|apply H2|apply H3|apply H4|reflexivity].
  intros _. exists u, ref, o. auto 10.
Qed.

(** X19: When the job of a poll throws (the ledger cannot be reached, say), the
    transaction id stays registered as in flight and nothing is cached for
    it: every later poll that reaches the lookups with this transaction id
    is answered [pending] without the ledger being asked. *)
Theorem failed_job_leaves_txid_in_flight w uuid ref buyer txid h s e h' s' :
  run w (buy_finish uuid ref buyer txid) h s = (Thrown e, h', s') ->
  txid ∈ inflight s'
  /\ txCache s' !! txid = None
  /\ forall w2 uuid2 ref2 buyer2 h2,
       run w2 (buy_finish uuid2 ref2 buyer2 txid) h2 s' = (Returned pending, h2, s').
Proof.
  intros E.
  assert (Hgoal : txid ∈ inflight s' /\ txCache s' !! txid = None).
  { revert E. unfold AiOrder.buy_finish. rewrite exec_bind. cbn [get exec fst snd].
    destruct (txCache s !! txid) as [[c st]|] eqn:Hc; [discriminate|].
    destruct (bool_decide (txid ∈ inflight s)); [discriminate|].
    destruct (bool_decide (txid ∈ processedTx s)); [discriminate|].
    rewrite exec_bind. cbn [modify exec fst snd]. rewrite exec_bind.
    pose proof (OrderFacts.buy_job_keeps STORE_ADDRESS RLUSD_ISSUER RLUSD_CURRENCY
                  KFD_MPT_ISSUANCE_ID
                  (fun s0 => txid ∈ inflight s0 /\ txCache s0 !! txid = None)
                  ref buyer txid w h (with_inflight (fun i => {[ txid ]} ∪ i) s)) as Hkeep.
    revert Hkeep.
    destruct (run w (buy_job ref buyer txid) h _) as [[[r|e1|p] h1] s1];
      cbn [fst snd]; intros Hkeep.
    - destruct r; cbn; discriminate.
    - intros E1. injection E1 as _ _ Hs. rewrite <- Hs. apply Hkeep; [intros f s0 H0; exact H0|].
      split; [cbn; apply elem_of_union_l, elem_of_singleton_2; reflexivity|exact Hc].
    - discriminate. }
  destruct Hgoal as [Hin Hc]. split; [exact Hin|]. split; [exact Hc|].
  intros w2 uuid2 ref2 buyer2 h2. unfold AiOrder.buy_finish.
  rewrite exec_bind. cbn [get exec fst snd]. rewrite Hc.
  rewrite (bool_decide_eq_true_2 _ Hin). reflexivity.
Qed.

(** *** The sweep *)

Lemma State_eq s1 s2 :
  processedTx s1 = processedTx s2 -> txCache s1 = txCache s2 ->
  inflight s1 = inflight s2 -> orderObjects s1 = orderObjects s2 ->
  ordersByPaymentPayload s1 = ordersByPaymentPayload s2 ->
  completedByPayload s1 = completedByPayload s2 ->
  createOrderInflight s1 = createOrderInflight s2 ->
  createOrderCache s1 = createOrderCache s2 ->
  trustlineStatusCache s1 = trustlineStatusCache s2 ->
  promises s1 = promises s2 -> next_ref s1 = next_ref s2 -> s1 = s2.
Proof. destruct s1, s2. cbn. intros. subst. reflexivity. Qed.

(** X20: Sweeping twice in a row is sweeping once: a second pass at the same
    time finds nothing left to remove. *)
Theorem sweep_is_idempotent w h s :
  run w (sweep ;;; sweep) h s = run w sweep h s.
Proof.
  rewrite exec_bind.
  destruct (OrderFacts.sweep_state ORDER_TTL_MS CREATE_ORDER_CACHE_MS TRUSTLINE_CACHE_MS
              TX_CACHE_TTL w h s)
    as (s1 & -> & P1 & I1 & O1 & C1 & R1 & N1 & Ho1 & Hc1 & Hk1 & Ht1 & Hx1).
  cbn [fst snd].
  destruct (OrderFacts.sweep_state ORDER_TTL_MS CREATE_ORDER_CACHE_MS TRUSTLINE_CACHE_MS
              TX_CACHE_TTL w h s1)
    as (s2 & -> & P2 & I2 & O2 & C2 & R2 & N2 & Ho2 & Hc2 & Hk2 & Ht2 & Hx2).
  f_equal. apply State_eq; try congruence.
  - apply map_eq. intros k. rewrite Hx2, Hx1.
    destruct (txCache s !! k) as [[r c]|]; [|reflexivity].
    destruct (0 <? TX_CACHE_TTL); [|reflexivity].
    unfold swept. destruct (expired TX_CACHE_TTL (clock w h) c) eqn:Hex; [reflexivity|].
    rewrite Hex. reflexivity.
  - apply map_eq. intros k. rewrite Ho2, Ho1, O1.
    destruct (ordersByPaymentPayload s !! k) as [ref|]; [|reflexivity].
    destruct (match orderObjects s !! ref with
              | Some o => order_expired ORDER_TTL_MS (clock w h) o
              | None => false
              end) eqn:Hex; [reflexivity|].
    rewrite Hex. reflexivity.
  - apply map_eq. intros k. rewrite Hc2, Hc1.
    destruct (completedByPayload s !! k) as [[r c]|]; [|reflexivity].
    unfold swept. destruct (expired ORDER_TTL_MS (clock w h) c) eqn:Hex; [reflexivity|].
    rewrite Hex. reflexivity.
  - apply map_eq. intros k. rewrite Hk2, Hk1.
    destruct (createOrderCache s !! k) as [[r c]|]; [|reflexivity].
    unfold swept. destruct (expired CREATE_ORDER_CACHE_MS (clock w h) c) eqn:Hex; [reflexivity|].
    rewrite Hex. reflexivity.
  - apply map_eq. intros k. rewrite Ht2, Ht1.
    destruct (trustlineStatusCache s !! k) as [st|]; [|reflexivity].
    unfold swept.
    destruct (expired TRUSTLINE_CACHE_MS (clock w h) (checkedAt st)) eqn:Hex; [reflexivity|].
    rewrite Hex. reflexivity.
Qed.

(** *** The trust line of the store *)


End Server.

(** *** The hypotheses at concrete runs *)

Import OrderScenarios.

(** X17 at concrete carts: three units of a product the shop does not
    have are refused; two americanos and a latte whose quantity is the
    string abc are not. *)
Lemma order_total_in_binary64_witness :
  (exists msg,
      exec promise_of (signed_world "rAlice" 2000)
        (create_order [{| product_id := 9; qty := Some 3 |}] (Some "rAlice") (Some "xrp"))
        [] no_state
      = (Returned (Failure 500 msg (Some "CREATE_ORDER_FAILED")), [], no_state))
  /\ invalid_total
       (OrderTotal64.calcOrderTotal
          [{| line_product_id := 1; line_qty := QNumber (ofZ 2) |};
           {| line_product_id := 2; line_qty := QString "abc" |}]) = false.
Proof.
  destruct (order_total_in_binary64 store rlusd_issuer rlusd_currency issuance
              create_cache trust_cache) as (_ & Hrefused & Hnan).
  split.
  - apply (Hrefused [{| product_id := 9; qty := Some 3 |}] (Some "rAlice") (Some "xrp")
             (signed_world "rAlice" 2000) [] no_state).
    + split; [cbn; lia|]. constructor; [cbn; lia|constructor].
    + vm_compute. reflexivity.
  - apply (Hnan [{| line_product_id := 1; line_qty := QNumber (ofZ 2) |};
                 {| line_product_id := 2; line_qty := QString "abc" |}]).
    right. left. split; reflexivity.
Defined.

(** X19 at a concrete run: the ledger cannot be reached when the job
    connects. *)
Lemma failed_job_leaves_txid_in_flight_witness :
  "TX-1" ∈ inflight
             (snd (exec promise_of offline_world
                     (AiOrder.buy_finish store rlusd_issuer rlusd_currency issuance
                        "PAY-1" 0%nat (Some "rAlice") "TX-1") [] (shop (Some "rAlice")))).
Proof.
  apply (failed_job_leaves_txid_in_flight store rlusd_issuer rlusd_currency issuance
           offline_world "PAY-1" 0%nat (Some "rAlice") "TX-1" [] (shop (Some "rAlice"))
           (plain_error "connect ECONNREFUSED")
           [Ev Connect (Rejected (plain_error "connect ECONNREFUSED"))]).
  vm_compute. reflexivity.
Defined.

End OrderExtras.

(** ** AI-order: the currency code *)

Module CodeFacts.
Import JS OrderCodes IssuerObserve TextFacts.














End CodeFacts.

(** ** Smart-Locker: the burn check and the status poll *)

Module LockerExtras.
Import JS Async SmartLocker LockerObserve Interleaved.
Local Open Scope prog_scope.

Abbreviation run := (exec no_promise).
Implicit Types (w : World) (h t : list Event) (s : State).

(** X23: The on-chain check never fails the poll and leaves the state alone.  It
    tries to connect, reads the tokens of the account once if connected, and
    always attempts to disconnect last.  It reports the token as burned only
    when the ledger answered with a list of tokens that does not hold it (ids
    compared in upper case), and then reports no error. *)
Theorem burn_check_reports_burned_only_when_token_absent w acct id h s :
  exists b e t0 rd,
    run w (confirm_burn acct id) h s
    = (Returned (b, e), (h ++ t0 ++ [Ev Disconnect rd])%list, s)
    /\ ((exists rc, t0 = [Ev Connect (Rejected rc)])
        \/ (exists rn, t0 = [Ev Connect (Fulfilled tt);
                             Ev (RequestAccountNfts acct 400) rn]))
    /\ (b = true ->
        e = None
        /\ exists nfts, In (Ev (RequestAccountNfts acct 400) (Fulfilled nfts)) t0
                        /\ lists_token id nfts = false).
Proof.
  unfold confirm_burn. rewrite exec_try_finally, exec_try_catch, exec_bind.
  cbn [await exec].
  destruct (answer w unit Connect h) as [[]|e1] eqn:Hc; cbn [settle exec fst snd].
  - rewrite exec_bind. cbn [await exec].
    destruct (answer w _ (RequestAccountNfts acct 400) _) as [nfts|e2] eqn:Hn;
      cbn [settle exec fst snd]; rewrite exec_bind, exec_try_catch; cbn [await exec];
      match goal with |- context [answer w unit Disconnect ?hh] =>
        destruct (answer w unit Disconnect hh) as [[]|e3] end; cbn [settle exec fst snd];
      (eexists _, _, [_; _], _; split; [rewrite <- !app_assoc; reflexivity|]);
      (split; [right; eexists; reflexivity|]).
    + intros Hb. split; [reflexivity|]. exists nfts. split; [right; left; reflexivity|].
      apply negb_true_iff in Hb. exact Hb.
    + intros Hb. split; [reflexivity|]. exists nfts. split; [right; left; reflexivity|].
      apply negb_true_iff in Hb. exact Hb.
    + discriminate.
    + discriminate.
  - rewrite exec_bind, exec_try_catch; cbn [await exec];
      match goal with |- context [answer w unit Disconnect ?hh] =>
        destruct (answer w unit Disconnect hh) as [[]|e3] end; cbn [settle exec fst snd];
      (eexists _, _, [_], _; split; [rewrite <- !app_assoc; reflexivity|]);
      (split; [left; exists e1; reflexivity|discriminate]).
Qed.

(** *** The status poll *)

Lemma run_chain w (c : bool) acct id h s :
  exists b e t,
    run w (if c then confirm_burn acct id else Ret (false, None)) h s
    = (Returned (b, e), (h ++ t)%list, s)
    /\ (c = false -> b = false /\ t = []).
Proof.
  destruct c.
  - destruct (LockerFacts.run_confirm_burn w acct id h s) as (b & e & t & E).
    exists b, e, t. split; [exact E|discriminate].
  - exists false, None, []. rewrite app_nil_r. auto.
Qed.

Lemma redeem_status_effect w q h s :
  let u := trim (str_or_empty q) in
  exists reply t s',
    run w (redeem_status q) h s = (Returned reply, (h ++ t)%list, s')
    /\ ((s' = s /\ forall body, reply = Json body -> st_unlockResult body = None)
        \/ (exists line p body,
              s' = open_for u line s
              /\ open_burnUuid line = u
              /\ unlocked (entry_of s u) = false
              /\ In (Ev (XummPayloadGet u) (Fulfilled (Some p))) t
              /\ meta_signed p = true
              /\ reply = Json body
              /\ st_unlocked body = true
              /\ st_unlockResult body = Some {| unlock_ok := true; unlock_message := "OPEN" |})).
Proof.
  intros u. unfold redeem_status. fold u.
  destruct (String.eqb u "").
  { eexists _, [], s. rewrite app_nil_r. split; [reflexivity|]. left. split; [reflexivity|discriminate]. }
  rewrite exec_try_catch, exec_bind. cbn [await exec].
  destruct (answer w _ (XummPayloadGet u) h) as [p|e0] eqn:Hp; cbn [settle exec fst snd].
  2:{ eexists _, [_], s. split; [reflexivity|]. left. split; [reflexivity|discriminate]. }
  rewrite exec_bind. cbn [get exec fst snd]. fold (entry_of s u).
  set (r := entry_of s u).
  set (signed := match p with Some p0 => meta_signed p0 | None => false end).
  set (txid := match p with
               | Some p0 => or_else (response_txid p0)
                              (or_else (meta_txid p0) (or_else (application_txid p0) None))
               | None => None
               end).
  rewrite exec_bind.
  destruct (run_chain w (signed && truthy (account r) && truthy (nftokenId r))
              (str_or_empty (account r)) (str_or_empty (nftokenId r))
              (h ++ [Ev (XummPayloadGet u) (Fulfilled p)])%list s)
    as (b & e & t & -> & Hoff).
  cbn [fst snd]. rewrite exec_bind.
  destruct ((signed && truthy txid || b) && negb (unlocked r)) eqn:Hopen.
  - cbn [modify bind exec get fst snd redeems]. rewrite lookup_insert_eq. cbn [unlocked].
    eexists _, ([_] ++ t)%list, _. split; [rewrite <- app_assoc; reflexivity|].
    right.
    apply andb_prop in Hopen as [Hwhy Hlocked]. apply negb_true_iff in Hlocked.
    assert (Hs : signed = true).
    { destruct signed; [reflexivity|]. cbn in Hwhy.
      destruct (Hoff eq_refl) as [-> _]. discriminate Hwhy. }
    destruct p as [p0|]; [|discriminate Hs].
    eexists _, p0, _. split; [reflexivity|]. cbn [open_burnUuid st_unlocked st_unlockResult].
    repeat apply conj; try reflexivity; try assumption.
    left. reflexivity.
  - cbn [exec get bind fst snd].
    eexists _, ([_] ++ t)%list, _. split; [rewrite <- app_assoc; reflexivity|].
    left. split; [reflexivity|]. intros body [= <-]. reflexivity.
Qed.

(** X24: The status poll always answers.  It prints an [[OPEN]] line, marks a
    redemption unlocked or reports an unlock only if the wallet returned the
    burn payload as signed and the redemption was not unlocked before; it then
    prints exactly one line, for the redemption polled. *)
Theorem locker_opens_only_for_a_signed_payload w q h s :
  exists reply t s',
    run w (redeem_status q) h s = (Returned reply, (h ++ t)%list, s')
    /\ ((s' = s /\ forall body, reply = Json body -> st_unlockResult body = None)
        \/ (exists line p,
              s' = open_for (trim (str_or_empty q)) line s
              /\ open_burnUuid line = trim (str_or_empty q)
              /\ unlocked (entry_of s (trim (str_or_empty q))) = false
              /\ In (Ev (XummPayloadGet (trim (str_or_empty q))) (Fulfilled (Some p))) t
              /\ meta_signed p = true)).
Proof.
  destruct (redeem_status_effect w q h s) as (reply & t & s' & E & [H|H]).
  - exists reply, t, s'. split; [exact E|]. left. exact H.
  - destruct H as (line & p & body & H1 & H2 & H3 & H4 & H5 & _).
    exists reply, t, s'. split; [exact E|]. right. exists line, p. auto.
Qed.

Lemma opened_open_for u v line s :
  open_burnUuid line = v ->
  opened u (open_for v line s) = (opened u s + if String.eqb v u then 1 else 0)%nat.
Proof.
  intros Hl. unfold opened, open_for. cbn [console].
  rewrite List.filter_app, length_app. cbn. rewrite Hl.
  destruct (String.eqb v u); reflexivity.
Qed.

(** A status poll that runs from its start to its reply with no other
    handler in between keeps every redemption at one [[OPEN]] line at most,
    and a redemption with a line marked unlocked. *)
Lemma lone_poll_keeps_opens_once w q h s :
  opens_once s -> opens_once (snd (run w (redeem_status q) h s)).
Proof.
  intros Hinv.
  destruct (redeem_status_effect w q h s) as (reply & t & s' & E & [[-> _]|H]);
    rewrite E; cbn [snd]; [exact Hinv|].
  destruct H as (line & p & body & -> & Hl & Hlocked & _).
  set (v := trim (str_or_empty q)) in *.
  intros u. rewrite (opened_open_for u v line s Hl).
  destruct (String.eqb_spec v u) as [<-|Hne].
  - destruct (Hinv v) as [Hle Hone].
    assert (Hz : opened v s = 0%nat).
    { destruct (opened v s) as [|[|n]] eqn:Ho; [reflexivity| |lia].
      destruct (Hone eq_refl) as (r & Hr & Hu). unfold entry_of in Hlocked.
      rewrite Hr in Hlocked. congruence. }
    rewrite Hz. split; [lia|]. intros _. cbn [open_for redeems].
    rewrite lookup_insert_eq. eexists. split; reflexivity.
  - destruct (Hinv u) as [Hle Hone]. rewrite Nat.add_0_r. split; [exact Hle|].
    intros H1. cbn [open_for redeems]. rewrite lookup_insert_ne by exact Hne.
    apply Hone, H1.
Qed.

(** X26: A signed payload with a transaction id opens the locker even for a
    redemption that was never registered: the line is printed without an
    account and without a token, and the ledger is not asked. *)
Theorem unregistered_redemption_opens w uuid h s p :
  trim uuid <> "" ->
  answer w _ (XummPayloadGet (trim uuid)) h = Fulfilled (Some p) ->
  meta_signed p = true ->
  truthy (or_else (response_txid p)
            (or_else (meta_txid p) (or_else (application_txid p) None))) = true ->
  redeems s !! trim uuid = None ->
  exists body line,
    run w (redeem_status (Some uuid)) h s
    = (Returned (Json body), (h ++ [Ev (XummPayloadGet (trim uuid)) (Fulfilled (Some p))])%list,
       open_for (trim uuid) line s)
    /\ open_account line = None /\ open_nftokenId line = None
    /\ open_burnedOnChain line = false
    /\ st_unlocked body = true
    /\ st_unlockResult body = Some {| unlock_ok := true; unlock_message := "OPEN" |}.
Proof.
  intros Hu Hp Hs Ht Hr. unfold redeem_status. cbn [str_or_empty].
  destruct (String.eqb_spec (trim uuid) ""); [contradiction|].
  rewrite exec_try_catch, exec_bind. cbn [await exec]. rewrite Hp. cbn [settle exec fst snd].
  rewrite exec_bind. cbn [get exec fst snd]. rewrite Hr, Hs. cbn [account nftokenId truthy andb].
  rewrite exec_bind. cbn [exec fst snd]. rewrite exec_bind, Ht.
  cbn [andb orb negb unlocked modify bind exec get fst snd redeems].
  rewrite lookup_insert_eq.
  eexists _, _. split.
  - unfold open_for, entry_of. rewrite Hr. reflexivity.
  - cbn. repeat split.
Qed.

(** X26 at a concrete run: the payload BURN-9 is signed, and no redemption
    was registered for it. *)
Lemma unregistered_redemption_opens_witness :
  exists body line,
    run LockerScenarios.still_held_world (redeem_status (Some "BURN-9")) [] empty_locker
    = (Returned (Json body),
       [Ev (XummPayloadGet "BURN-9")
          (Fulfilled (Some {| meta_resolved := true; meta_signed := true;
                              meta_cancelled := false;
                              response_txid := Some "TXID_OF_THE_SIGNED_BURN";
                              meta_txid := None; application_txid := None |}))],
       open_for "BURN-9" line empty_locker)
    /\ open_account line = None /\ open_nftokenId line = None
    /\ open_burnedOnChain line = false
    /\ st_unlocked body = true
    /\ st_unlockResult body = Some {| unlock_ok := true; unlock_message := "OPEN" |}.
Proof.
  apply (unregistered_redemption_opens LockerScenarios.still_held_world "BURN-9" []
           empty_locker _ ltac:(vm_compute; discriminate) eq_refl eq_refl eq_refl eq_refl).
Defined.

(** *** Overlapping polls *)

Ltac turn :=
  cbn [settle_in_order settles request boot arrive take_task Nat.eqb fst snd tasks shared
       replies started next_id resolve advance try_catch try_finally bind await settle get
       modify file wake find_ready length app issued_of confirm_burn no_promise negb andb orb].

(** X25: Two status polls of one registered redemption that overlap both open
    the locker.  The handler reads the entry before it awaits the ledger and
    tests that copy afterwards: when the wallet reports the burn payload
    signed with a transaction id, and the second poll has read the entry
    before the first has finished, each poll prints an [[OPEN]] line and
    replies an unlock, whatever the ledger answers.  The redemption then has
    two lines. *)
Theorem overlapping_status_polls_open_twice (w : World) q s r :
  let uuid := trim (str_or_empty q) in
  uuid <> "" ->
  redeems s !! uuid = Some r -> unlocked r = false ->
  truthy (account r) = true -> truthy (nftokenId r) = true ->
  (forall hist, exists p,
      answer w _ (XummPayloadGet uuid) hist = Fulfilled (Some p)
      /\ meta_signed p = true
      /\ truthy (or_else (response_txid p)
                   (or_else (meta_txid p) (or_else (application_txid p) None))) = true) ->
  let sv := settle_in_order no_promise w [0; 1; 0; 1; 0; 1; 0; 1]%nat
              (request no_promise w (redeem_status q)
                 (request no_promise w (redeem_status q) (boot s))) in
  tasks (fst sv) = []
  /\ (exists b0 b1,
        In (0%nat, Fulfilled (Json b0)) (replies (fst sv))
        /\ In (1%nat, Fulfilled (Json b1)) (replies (fst sv))
        /\ st_unlockResult b0 = Some {| unlock_ok := true; unlock_message := "OPEN" |}
        /\ st_unlockResult b1 = Some {| unlock_ok := true; unlock_message := "OPEN" |})
  /\ (exists l0 l1,
        console (shared (fst sv)) = (console s ++ [l0; l1])%list
        /\ open_burnUuid l0 = uuid /\ open_burnUuid l1 = uuid)
  /\ opened uuid (shared (fst sv)) = (opened uuid s + 2)%nat
  /\ ~ opens_once (shared (fst sv)).
Proof.
  intros uuid Hne Hr Hu Ha Hn Hw sv.
  assert (Hall : tasks (fst sv) = []
    /\ (exists b0 b1,
          In (0%nat, Fulfilled (Json b0)) (replies (fst sv))
          /\ In (1%nat, Fulfilled (Json b1)) (replies (fst sv))
          /\ st_unlockResult b0 = Some {| unlock_ok := true; unlock_message := "OPEN" |}
          /\ st_unlockResult b1 = Some {| unlock_ok := true; unlock_message := "OPEN" |})
    /\ (exists l0 l1,
          console (shared (fst sv)) = (console s ++ [l0; l1])%list
          /\ open_burnUuid l0 = uuid /\ open_burnUuid l1 = uuid)).
  { subst sv.
    assert (Hempty : String.eqb uuid "" = false) by (apply String.eqb_neq; exact Hne).
    unfold redeem_status. fold uuid. rewrite Hempty. clearbody uuid.
    turn.
    destruct (Hw []) as (p0 & E0 & Hs0 & Ht0). rewrite E0. turn.
    rewrite Hr, Hs0, Ha, Hn, Ht0, Hu. turn.
    match goal with |- context [answer w _ (XummPayloadGet uuid) ?hh] =>
      destruct (Hw hh) as (p1 & E1 & Hs1 & Ht1); rewrite E1 end. turn.
    rewrite Hr, Hs1, Ha, Hn, Ht1, Hu. turn.
    clear Hw E0 E1.
    repeat match goal with |- context [answer w ?X ?c ?hh] =>
      destruct (answer w X c hh) as [?|?]; turn end.
    all: split; [reflexivity|].
    all: split;
      [ do 2 eexists; cbn [In]; split; [|split; [|split]];
        [ first [left; reflexivity|right; left; reflexivity]
        | first [left; reflexivity|right; left; reflexivity]
        | reflexivity | reflexivity ]
      | do 2 eexists; cbn [console]; rewrite <- app_assoc; cbn [app];
        split; [reflexivity|split; reflexivity] ]. }
  destruct Hall as (Htasks & Hreplies & (l0 & l1 & Hc & H0 & H1)).
  assert (Hopened : opened uuid (shared (fst sv)) = (opened uuid s + 2)%nat).
  { unfold opened. rewrite Hc, List.filter_app, length_app. cbn [List.filter].
    rewrite H0, H1, String.eqb_refl. reflexivity. }
  split; [exact Htasks|]. split; [exact Hreplies|].
  split; [exists l0, l1; auto|]. split; [exact Hopened|].
  intros Honce. destruct (Honce uuid) as [Hle _]. lia.
Qed.

(** X25 at a concrete run: two overlapping polls of the signed burn of
    BURN-1. *)
Lemma overlapping_status_polls_open_twice_witness :
  opened "BURN-1"
    (shared (fst (settle_in_order no_promise LockerScenarios.still_held_world
                    [0; 1; 0; 1; 0; 1; 0; 1]%nat
                    (request no_promise LockerScenarios.still_held_world
                       (redeem_status (Some "BURN-1"))
                       (request no_promise LockerScenarios.still_held_world
                          (redeem_status (Some "BURN-1"))
                          (boot LockerScenarios.pending_redeem))))))
  = 2%nat.
Proof.
  destruct (overlapping_status_polls_open_twice LockerScenarios.still_held_world
              (Some "BURN-1") LockerScenarios.pending_redeem
              {| account := Some LockerScenarios.holder;
                 nftokenId := Some LockerScenarios.token; unlocked := false |}
              ltac:(discriminate) eq_refl eq_refl eq_refl eq_refl
              (fun hist => ex_intro _ _ (conj eq_refl (conj eq_refl eq_refl))))
    as (_ & _ & _ & H & _).
  exact H.
Defined.

End LockerExtras.

(** ** Smart-Locker: sessions, the token list, redemption *)

Module DeskFacts.
Import JS Async LockerDesk.
Local Open Scope prog_scope.

Section Server.
Variable ISSUER_ADDRESS : string.
Implicit Types (w : World) (h t : list Event) (s : State).

#[local] Abbreviation run := (exec no_promise).
#[local] Abbreviation list_nfts_of := (LockerDesk.list_nfts_of ISSUER_ADDRESS).
#[local] Abbreviation issued_here := (LockerDesk.issued_here ISSUER_ADDRESS).

Lemma run_getAccountNFTs w acct h s :
  exists out t,
    run w (getAccountNFTs acct) h s = (out, (h ++ t)%list, s)
    /\ t <> []
    /\ (forall q, out <> Waiting q)
    /\ (forall nfts, out = Returned nfts ->
          In (Ev (RequestAccountNfts acct 400) (Fulfilled nfts)) t).
Proof.
  unfold getAccountNFTs. rewrite exec_try_finally, exec_bind. cbn [await exec].
  destruct (answer w unit Connect h) as [[]|e1]; cbn [settle exec fst snd].
  - match goal with |- context [answer w _ (RequestAccountNfts acct 400) ?hh] =>
      destruct (answer w _ (RequestAccountNfts acct 400) hh) as [nfts|e2] end;
      cbn [settle exec fst snd]; rewrite exec_bind, exec_try_catch; cbn [await exec];
      match goal with |- context [answer w unit Disconnect ?hh] =>
        destruct (answer w unit Disconnect hh) as [[]|e3] end; cbn [settle exec fst snd];
      (eexists _, [_; _; _]; split; [rewrite <- !app_assoc; reflexivity|]);
      (split; [discriminate|]); (split; [discriminate|]);
      try discriminate; intros n [= <-]; right; left; reflexivity.
  - rewrite exec_bind, exec_try_catch; cbn [await exec];
      match goal with |- context [answer w unit Disconnect ?hh] =>
        destruct (answer w unit Disconnect hh) as [[]|e3] end; cbn [settle exec fst snd];
      (eexists _, [_; _]; split; [rewrite <- !app_assoc; reflexivity|]);
      (split; [discriminate|]); (split; [discriminate|]); discriminate.
Qed.

(** X27: The token list always answers and never changes the state.  It asks the
    ledger only for the account of the session of the given id; without such
    a session it answers 401 (400 when the id is missing).  The tokens it
    returns are those the ledger listed for that account whose issuer is the
    configured one, compared in upper case, and the count is their number. *)
Theorem token_list_needs_a_session w q h s :
  let uuid := trim (str_or_empty (or_else q None)) in
  exists reply t,
    run w (list_nfts_of q) h s = (Returned reply, (h ++ t)%list, s)
    /\ (t <> [] -> exists acct, session_account s uuid = Some acct /\ acct <> "" /\ uuid <> "")
    /\ (uuid <> "" -> truthy (session_account s uuid) = false ->
        reply = Failure 401 "not logged in")
    /\ (forall body, reply = Json body ->
          list_account body = session_account s uuid
          /\ list_count body = length (list_nfts body)
          /\ Forall (fun n => issued_here n = true) (list_nfts body)
          /\ exists nfts,
               In (Ev (RequestAccountNfts (str_or_empty (session_account s uuid)) 400)
                      (Fulfilled nfts)) t
               /\ list_nfts body = List.filter issued_here nfts).
Proof.
  intros uuid. unfold LockerDesk.list_nfts_of. fold uuid.
  destruct (String.eqb_spec uuid "") as [Hu|Hu].
  { eexists _, []. rewrite app_nil_r. split; [reflexivity|].
    repeat apply conj; try discriminate; try contradiction;
      try (intros H; exfalso; apply H; reflexivity). }
  cbn [get bind exec].
  destruct (session_account s uuid) as [acct|] eqn:Ha; cbn [truthy negb].
  2:{ eexists _, []. rewrite app_nil_r. split; [reflexivity|].
      repeat apply conj; try discriminate; try reflexivity; try contradiction;
        try (intros H; exfalso; apply H; reflexivity). }
  destruct (String.eqb_spec acct "") as [->|Hne]; cbn [negb].
  { eexists _, []. rewrite app_nil_r. split; [reflexivity|].
    repeat apply conj; try discriminate; try reflexivity; try contradiction;
      try (intros H; exfalso; apply H; reflexivity). }
  rewrite exec_try_catch, exec_bind. cbn [str_or_empty].
  destruct (run_getAccountNFTs w acct h s) as (out & t & -> & Ht & Hw & Hin).
  cbn [fst snd].
  assert (Hsess : t <> [] -> exists a, Some acct = Some a /\ a <> "" /\ uuid <> "").
  { intros _. exists acct. auto. }
  destruct out as [nfts|e|p]; cbn [exec fst snd].
  - eexists _, t. split; [reflexivity|]. split; [exact Hsess|].
    split; [intros H1 H2; discriminate H2|].
    intros body [= <-]. cbn [list_account list_count list_nfts].
    split; [reflexivity|]. split; [reflexivity|]. split.
    + apply Forall_forall. intros n Hn. apply list_elem_of_In, List.filter_In in Hn. apply Hn.
    + exists nfts. split; [apply Hin; reflexivity|reflexivity].
  - eexists _, t. split; [reflexivity|]. split; [exact Hsess|].
    split; [intros H1 H2; discriminate H2|discriminate].
  - exfalso. apply (Hw p). reflexivity.
Qed.

(** X28: The sign-in poll stores a session only when the wallet returned the
    payload as signed with an account, under the id polled and for that
    account; it leaves the other sessions and the locker alone, and a poll
    that failed or found the payload unsigned changes nothing. *)
Theorem session_only_for_a_signed_payload w q h s :
  let uuid := trim (str_or_empty (or_else q None)) in
  exists reply t s',
    run w (login_status q) h s = (Returned reply, (h ++ t)%list, s')
    /\ locker s' = locker s
    /\ (forall u, u <> uuid -> sessions s' !! u = sessions s !! u)
    /\ (s' = s
        \/ exists p acct,
             In (Ev (XummPayloadGet uuid) (Fulfilled (Some p))) t
             /\ meta_signed p = true
             /\ or_else (response_account p) (or_else (meta_account p) None) = Some acct
             /\ acct <> ""
             /\ session_account s' uuid = Some acct
             /\ reply = Json {| login_resolved := meta_resolved p; login_signed := true;
                                login_cancelled := meta_cancelled p;
                                login_account := Some acct |}).
Proof.
  intros uuid. unfold login_status. fold uuid.
  destruct (String.eqb uuid "").
  { eexists _, [], s. rewrite app_nil_r. split; [reflexivity|]. auto. }
  rewrite exec_try_catch, exec_bind. cbn [await exec].
  destruct (answer w _ (XummPayloadGet uuid) h) as [[p|]|e0]; cbn [settle exec fst snd].
  2,3: (eexists _, [_], s; split; [reflexivity|]; auto).
  rewrite exec_bind.
  destruct (meta_signed p) eqn:Hs; cbn [andb].
  2:{ cbn [exec fst snd]. eexists _, [_], s. split; [reflexivity|]. auto. }
  destruct (or_else (response_account p) (or_else (meta_account p) None)) as [acct|] eqn:Ha;
    cbn [truthy].
  2:{ cbn [exec fst snd]. eexists _, [_], s. split; [reflexivity|]. auto. }
  destruct (String.eqb_spec acct "") as [->|Hne]; cbn [negb].
  { cbn [exec fst snd]. eexists _, [_], s. split; [reflexivity|]. auto. }
  cbn [now modify bind exec fst snd].
  eexists _, [_], _. split; [reflexivity|]. split; [reflexivity|]. split.
  - intros u Hu. cbn. rewrite lookup_insert_ne by congruence. reflexivity.
  - right. exists p, acct. split; [left; reflexivity|].
    repeat apply conj; try assumption; try reflexivity.
    unfold session_account. cbn. rewrite lookup_insert_eq. reflexivity.
Qed.

(** X29: Signing out removes the session of the given id and nothing else; from
    then on the token list and the redemption answer 401 for that id without
    contacting the wallet or the ledger. *)
Theorem logout_ends_the_session w q h s :
  let uuid := trim (str_or_empty (or_else q None)) in
  exists s',
    run w (logout q) h s = (Returned true, h, s')
    /\ locker s' = locker s
    /\ (forall u, u <> uuid -> sessions s' !! u = sessions s !! u)
    /\ (uuid <> "" ->
        sessions s' !! uuid = None
        /\ (forall w2 h2,
              run w2 (list_nfts_of q) h2 s' = (Returned (Failure 401 "not logged in"), h2, s'))
        /\ (forall w2 h2 id, trim (str_or_empty (or_else id None)) <> "" ->
              run w2 (redeem q id) h2 s' = (Returned (Failure 401 "not logged in"), h2, s'))).
Proof.
  intros uuid. unfold logout. fold uuid.
  destruct (String.eqb_spec uuid "") as [Hu|Hu]; cbn [negb modify bind exec].
  { exists s. repeat apply conj; try reflexivity. contradiction. }
  eexists. split; [reflexivity|]. split; [reflexivity|]. split.
  { intros u Hne. cbn. rewrite lookup_delete_ne by congruence. reflexivity. }
  intros _.
  assert (Hgone : forall s0, session_account (with_sessions (delete uuid) s0) uuid = None).
  { intros s0. unfold session_account. cbn. rewrite lookup_delete_eq. reflexivity. }
  split; [cbn; apply lookup_delete_eq|]. split.
  - intros w2 h2. unfold LockerDesk.list_nfts_of. fold uuid.
    destruct (String.eqb_spec uuid ""); [contradiction|].
    cbn [get bind exec]. rewrite Hgone. reflexivity.
  - intros w2 h2 id Hid. unfold redeem. fold uuid.
    destruct (String.eqb_spec uuid ""); [contradiction|].
    destruct (String.eqb_spec (trim (str_or_empty (or_else id None))) ""); [contradiction|].
    cbn [get bind exec]. rewrite Hgone. reflexivity.
Qed.

(** X30: Opening a redemption always answers.  It asks the wallet for a burn
    payload only for the account of the session of the given id, and for the
    trimmed token id of the request.  It never touches the sessions or the
    console, and the one entry it may write is the redemption of the new
    payload, for that account and token, not unlocked. *)
Theorem redemption_starts_locked w q qid h s :
  let uuid := trim (str_or_empty (or_else q None)) in
  let token := trim (str_or_empty (or_else qid None)) in
  exists reply t s',
    run w (redeem q qid) h s = (Returned reply, (h ++ t)%list, s')
    /\ sessions s' = sessions s
    /\ SmartLocker.console (locker s') = SmartLocker.console (locker s)
    /\ (t <> [] ->
        exists acct r, session_account s uuid = Some acct /\ acct <> "" /\ token <> ""
                       /\ t = [Ev (XummCreateBurn (Some acct) token) r])
    /\ (s' = s
        \/ exists burn,
             s' = with_redeem burn {| SmartLocker.account := session_account s uuid;
                                      SmartLocker.nftokenId := Some token;
                                      SmartLocker.unlocked := false |} s)
    /\ (forall body burn, reply = Json body -> burnUuid body = Some burn ->
          SmartLocker.redeems (locker s') !! burn
          = Some {| SmartLocker.account := session_account s uuid;
                    SmartLocker.nftokenId := Some token;
                    SmartLocker.unlocked := false |}).
Proof.
  intros uuid token. unfold redeem. fold uuid token.
  assert (Hnil : forall P : Prop, ([] : list Event) <> [] -> P).
  { intros P H. exfalso. apply H. reflexivity. }
  destruct (String.eqb_spec uuid "") as [Hu|Hu].
  { eexists _, [], s. rewrite app_nil_r. split; [reflexivity|].
    repeat apply conj; try reflexivity; try discriminate; auto;
      try (intros H; exfalso; apply H; reflexivity); try (left; reflexivity). }
  destruct (String.eqb_spec token "") as [Ht|Ht].
  { eexists _, [], s. rewrite app_nil_r. split; [reflexivity|].
    repeat apply conj; try reflexivity; try discriminate; auto;
      try (intros H; exfalso; apply H; reflexivity); try (left; reflexivity). }
  cbn [get bind exec].
  destruct (session_account s uuid) as [acct|] eqn:Ha; cbn [truthy negb].
  2:{ eexists _, [], s. rewrite app_nil_r. split; [reflexivity|].
      repeat apply conj; try reflexivity; try discriminate; auto;
      try (intros H; exfalso; apply H; reflexivity); try (left; reflexivity). }
  destruct (String.eqb_spec acct "") as [->|Hne]; cbn [negb].
  { eexists _, [], s. rewrite app_nil_r. split; [reflexivity|].
    repeat apply conj; try reflexivity; try discriminate; auto;
      try (intros H; exfalso; apply H; reflexivity); try (left; reflexivity). }
  rewrite exec_try_catch, exec_bind. cbn [await exec].
  assert (Hev : forall r, ([Ev (XummCreateBurn (Some acct) token) r] : list Event) <> [] ->
            exists a r0, Some acct = Some a /\ a <> "" /\ token <> ""
                         /\ ([Ev (XummCreateBurn (Some acct) token) r] : list Event)
                            = [Ev (XummCreateBurn (Some a) token) r0]).
  { intros r _. exists acct, r. auto. }
  destruct (answer w _ (XummCreateBurn (Some acct) token) h) as [[payload|]|e0];
    cbn [settle exec fst snd].
  2,3: (eexists _, [_], s; split; [reflexivity|];
        repeat apply conj; try reflexivity; try discriminate; auto;
        try (left; reflexivity)).
  rewrite exec_bind.
  destruct (created_uuid payload) as [burn|] eqn:Hb; cbn [modify bind exec fst snd];
    destruct (created_refs payload) as [refs|]; cbn [exec fst snd].
  - eexists _, [_], _. split; [reflexivity|].
    repeat apply conj; try reflexivity; auto.
    + right. exists burn. reflexivity.
    + intros body b [= <-]. cbn. intros [= <-]. apply lookup_insert_eq.
  - eexists _, [_], _. split; [reflexivity|].
    repeat apply conj; try reflexivity; try discriminate; auto;
      try (intros H; exfalso; apply H; reflexivity); try (left; reflexivity).
    right. exists burn. reflexivity.
  - eexists _, [_], s. split; [reflexivity|].
    repeat apply conj; try reflexivity; auto.
    intros body b [= <-]. cbn. discriminate.
  - eexists _, [_], s. split; [reflexivity|].
    repeat apply conj; try reflexivity; try discriminate; auto;
      try (intros H; exfalso; apply H; reflexivity); try (left; reflexivity).
Qed.

End Server.
End DeskFacts.
